(* ===== verification/_CoqProject ===== *)
-Q . S2P
Prelude.v
GoStrings.v
Wire.v
Sockets.v
Registry.v
Listener.v
Hosts.v
Store.v
DeletedSince.v
FileTree.v
FileTreeProofs.v
Backup.v
Repos.v
ContentTypes.v
Controller.v
ControllerProofs.v
Server.v
Footprint.v
Queue.v
Transfer.v
TransferProofs.v
Uploads.v
Monitor.v
MonitorWindows.v
MonitorRun.v
Service.v
ServiceProofs.v
Command.v
Connection.v
CommandProofs.v
ConnectionProofs.v
Bootstrap.v
BootstrapProofs.v
AgentMain.v
Console.v
ConsoleDetail.v
ConsoleProofs.v
ConsoleView.v
ConsoleTree.v
BackendStart.v
