(* ===== verification/Prelude.v ===== *)
(** * sagiri-guard: verification development

    sagiri-guard watches the machines of an organisation.  An agent on each machine
    reports its files, backs them up, blocks web sites through the hosts file and
    runs commands; a server keeps the file trees, the backups and the command queue
    in a database; a console in the terminal drives it.  All of them speak one binary
    protocol over TCP, implemented in C under a Go binding.

    ** The parts, and the files that model them

    The protocol (src/network).
    - [Wire]: protocol_message.c, client.go, types.go.  Frames as byte lists: every
      encoder, the decoder and the Go methods over them.
    - [Sockets]: tcp_core.c, the loops of protocol_message.c, the socket methods of
      client.go and server.go.  Every call of the kernel is an outcome.
    - [Registry]: protocol_server.c, server.go, app/socket/hub.go.  The list of
      connected devices, one connection, and every interleaving of connections.
    - [Listener]: tcp_server.c, server.go, network.go.  The accept loop, the worker
      threads, stop and destroy as steps of a process with descriptors.

    The server (src/backend).
    - [Store]: app/models and the interface to the database ([Engine]).
    - [DeletedSince], [FileTree], [FileTreeProofs]: app/repo/filetree_repo.go,
      app/services/filetree_service.go.
    - [Backup]: app/services/backup_service.go, app/repo/backup_version_repo.go.
    - [Repos], [ContentTypes]: the other repositories and services.
    - [Controller], [ControllerProofs]: app/controllers, app/jwt, app/dto.
    - [Server]: server/protocol.go on top of the loop of protocol_server.c.
    - [Footprint], [Queue]: the deliveries and administrators of the command queue
      (protocol_controller.go, protocol_admin.go), statement by statement.
    - [BackendStart]: config, initialize, app/db, main.go.

    The agent (src/agent).
    - [Hosts]: internal/firewall.
    - [Transfer], [TransferProofs]: internal/protocolclient, device, backup.
      [Uploads]: an upload while the server serves other connections.
    - [Monitor]: internal/monitor/file_monitor_linux.go and internal/db/models.go.
      [MonitorWindows], [MonitorRun]: file_monitor.go, its goroutines included.
    - [Service], [ServiceProofs]: internal/service.
    - [Command], [CommandProofs]: internal/command, internal/socket, internal/state.
    - [Connection], [ConnectionProofs]: internal/connection.
    - [Bootstrap], [BootstrapProofs]: internal/auth, config, osquery and the start.
    - [AgentMain]: main.go, internal/privilege, db/sqlite.go, logger (the path).

    The console (src/cmd/webui).
    - [Console]: ui/client.go, login.go, dashboard.go.  [ConsoleDetail]:
      command_form.go, detail.go, root.go.  [ConsoleProofs] their properties.
      [ConsoleView]: the View methods, styles.go and main.go.  [ConsoleTree]:
      browsing a device against the server.

    [Prelude] (this file) has Go's results, the state monad with errors and its
    reasoning ([triple], [keeps]), machine integers and shared lemmas; [GoStrings]
    the functions of packages strings and filepath.

    ** How the code becomes definitions

    A method is a function of the state it changes, with the name it has in the
    source (a prefix where two types have the same method).  Errors are values
    ([result]); [StE] keeps the state reached when one is returned.  A panic is
    [None], or an outcome of its own where the code around it goes on ([Command]).  Go
    integers are [Z] with their wrap-around written out where it can happen.  What
    the operating system, the clock and random sources answer is the environment of
    the call that asks ([call_env], [local_env], [net_env], [boot_env], ...).

    A goroutine or thread is a step of its own: [Registry.step], [Listener.act],
    [MonitorRun.run_one], [Service.backup_step], [Queue.perform], [Uploads.take_turn],
    [AgentMain.process_one] take one step each, and the theorems hold for every
    interleaving.  A step ends where another goroutine can come between: in
    [MonitorRun] at every statement on the table and every send, in [AgentMain] at
    every call of the hosts manager, whose mutex makes it one step.  A handler of the
    server runs as one step of its connection, but for those of the command queue:
    they read and write the queue between the statements of others, so in [Queue]
    each of their statements and sends is a step.

    ** What is assumed

    Code outside the repository is a type class, and its documented behaviour the
    laws.  Each has an instance the witnesses run on.
    - [Engine], [EngineLaws]: a statement that succeeds had its meaning, one that
      fails changed nothing, and a failed transaction is undone.  It may fail at any
      time.  Row order, keys and the time are its choice.
    - [Sha1], [Sha1Laws]: the identifiers made from paths have no collisions.
      [Bcrypt], [BcryptLaws]: a hash accepts the password it was made from.
    - [Json], [AgentJson], [CommandJson], [OsqueryJson], [ConsoleJson]: encoding/json
      on the types of the program.  [JsonLaws], [AgentJsonLaws], [CommandWire],
      [TokenWire], [ConsoleWire], [ConsoleTree]: what one end encodes the other reads.
      encoding/json replaces bytes that are not UTF-8, so these laws speak of texts
      that are.
    - [JwtLib]: signing and parsing tokens; [uploads_undisturbed] uses that a signed
      token is not empty.  GORM's [Save] is an argument of [ContentTypes_Update].
    - [Filepath], [FilepathLaws]: package filepath on Windows.
    - [Widgets], [Drawing]: packages bubbles and lipgloss.

    [Registry] assumes that an accepted descriptor is not in use.  [Listener] proves
    it for every execution that is [undisturbed]: nothing is opened between the two
    closes of a worker.

    ** Loops

    A loop without a structural argument takes fuel, and a lemma says how much is
    enough: a received frame takes at least its header, so the loop of a
    connection needs one more than the bytes of its input ([serve_terminates]); a
    chunk loop one more than the bytes of the file ([upload_loop], [send_chunks],
    [receive_file]); a buffer of changes one more than its length ([read_records]);
    the text of a duration its length ([duration_terms_fuel]); climbing to a path as
    many as its segments ([report_path_roundtrip]); connecting its number of retries
    ([connect_fuel]); settling thirty-two turns of half a second in fifteen seconds
    ([settle_fuel]); registering one more than the attempts until the first that is
    not refused ([agent_starts_registered]).

    ** What the theorems show

    - End to end: an upload stores the file that was sent, whatever the other
      connections do; a login leaves the same token at both ends; a command reaches
      the dispatcher of its device unchanged, at once or with the queue of its next
      login; a report becomes the tree of its device; the console shows the folder.
    - Queue: no command is lost or altered in any interleaving, and each job sends it
      at most once.
    - Protocol: sequences of frames round-trip over every cutting of the bytes,
      within the limits; the registry is the connections that logged in last; the
      threads refine it; serving terminates.
    - Authorization: how a device becomes authorized and with which token, and the
      exact answer to what it asks before.
    - Data: the tree is well formed after any batch, paths round-trip, pages cover
      the listing, versions are numbered without gaps, sessions are never reopened,
      uploads stay in their directory, wherever the storage is.
    - Agent: the hosts file is the lines of the user followed by one section while
      blocking is on and those lines alone once it was switched off, at every moment
      of the process, and at its end unless a command still being handled blocks
      again; the local table never misses an event; an old name comes out in order as
      a rename, a move or a move-out, and every other record as its event;
      directories are followed independently, each event stored before it is sent;
      backups exclude each other; commands run in order; registration ends.
    - Console: no update panics, and drawing only on a narrow terminal.

    Several of them state behaviour that is surprising: a restore is always refused
    ([download_always_refused]), no command of the console does anything
    ([console_commands_do_nothing]), the end of a short connection logs the device
    out ([short_connection_logs_out]), and so ends its uploads
    ([other_connection_ends_upload]).  The lemmas beside the theorems say more of the
    kind (a second login is never answered, rows are starved of reports, a connection
    can be closed by another worker, two logins deliver a command twice
    ([delivered_twice]), a delivered command becomes pending again
    ([sent_then_pending]), blocks outlive the cleanup of the agent
    ([blocks_outlive_cleanup]), two goroutines store and send the events of one file
    in different orders ([table_order_differs])).  [Queue.jobs_are_handlers] and
    [AgentMain.turn_is_receive_turn] show that the steps of a job or a turn, with
    nothing in between, are the function they were cut from.

    ** Not modelled

    - The text of JSON, of SQL and of tokens, and the cryptography: interfaces.
    - MySQL and SQLite themselves.  Strings are compared as bytes; the default
      collations of MySQL ignore case besides.  Opening and migrating a database is
      an outcome.
    - Directories: a file system is a map from paths to contents.
    - Writing log lines.
    - The case of letters beyond ASCII: [ToLower] leaves their bytes alone.
    - What can come between the steps of [tcp_server_stop] (the flag, the closing of
      the listening socket, the end of the accept loop): it is one step.
    - A process that is killed, or that returns, while the hosts file is being
      written: a call of the manager is one step.
    - dto/auth.go and dto/backup_versions.go: types without a use.
    - Two handlers of one connection never run at a time.  Handlers of two
      connections are interleaved frame by frame, and those of the command queue
      statement by statement.  What orders the statements of two other handlers is
      the isolation of the database, outside the repository; the maps they share are
      under a mutex, and finishing an upload is one critical section.
    - Wrappers without behaviour: constructors that store their arguments, getters,
      methods that pass a call on, and agent code no other code calls
      ([looksLikeJWT] of internal/backup, [GetAllCategories]). *)

From stdpp Require Export base numbers list strings gmap sets option sorting.
From Stdlib Require Export Ascii ZArith Lia.

(** ** Go results

    A Go function returning [(T, error)] becomes a [result T]: [Ok] when the
    returned error is nil, [Err msg] with the error's text otherwise. *)

Abbreviation error := string (only parsing).

Inductive result (A : Type) : Type :=
  | Ok (a : A)
  | Err (e : string).
Arguments Ok {A} _.
Arguments Err {A} _.

#[export] Instance result_eq_dec {A} `{EqDecision A} : EqDecision (result A).
Proof. solve_decision. Defined.

#[export] Instance result_ret : MRet result := @Ok.
#[export] Instance result_bind : MBind result :=
  λ A B f r, match r with Ok a => f a | Err e => Err e end.
#[export] Instance result_fmap : FMap result :=
  λ A B f r, match r with Ok a => Ok (f a) | Err e => Err e end.

Definition is_ok {A} (r : result A) : bool :=
  match r with Ok _ => true | Err _ => false end.
Definition to_option {A} (r : result A) : option A :=
  match r with Ok a => Some a | Err _ => None end.

(** [fmt.Errorf("prefix: %w", err)]. *)
Definition wrap {A} (prefix : string) (r : result A) : result A :=
  match r with Ok a => Ok a | Err e => Err (prefix +:+ e) end.

(** ** State with errors

    Go code that mutates a receiver and may return early with an error: the
    state reached is kept in both cases, as it is in memory. *)

Definition StE (S A : Type) : Type := S → S * result A.

Section StE.
Context {S : Type}.

#[global] Instance StE_ret : MRet (StE S) := λ A a s, (s, Ok a).
#[global] Instance StE_bind : MBind (StE S) := λ A B f m s,
  match m s with
  | (s', Ok a) => f a s'
  | (s', Err e) => (s', Err e)
  end.

Definition fail {A} (e : string) : StE S A := λ s, (s, Err e).
Definition get_st : StE S S := λ s, (s, Ok s).
Definition put_st (s' : S) : StE S unit := λ _, (s', Ok tt).
Definition gets {A} (f : S → A) : StE S A := λ s, (s, Ok (f s)).
Definition modify (f : S → S) : StE S unit := λ s, (f s, Ok tt).
(** Return the error of a result, or its value. *)
Definition lift {A} (r : result A) : StE S A := λ s, (s, r).
(** [_ = f()]: the error is dropped, the effect stays. *)
Definition ignore {A} (m : StE S A) : StE S unit := λ s, ((m s).1, Ok tt).
(** [if err := f(); err != nil { ... }] with the error at hand. *)
Definition attempt {A} (m : StE S A) : StE S (result A) := λ s,
  ((m s).1, Ok ((m s).2)).
(** [if err := f(); err != nil { return fmt.Errorf("prefix: %w", err) }]. *)
Definition wrap_st {A} (prefix : string) (m : StE S A) : StE S A := λ s,
  ((m s).1, wrap prefix (m s).2).
(** A database transaction: the state is restored when the body fails. *)
Definition transaction {A} (m : StE S A) : StE S A := λ s,
  match m s with
  | (s', Ok a) => (s', Ok a)
  | (_, Err e) => (s, Err e)
  end.

(** Running [m] on a component of the state. *)
Definition zoom {T A} (get : S → T) (put : T → S → S) (m : StE T A) : StE S A := λ s,
  (put (m (get s)).1 s, (m (get s)).2).

(** [for _, x := range xs { if err := f(x); err != nil { return err } }]. *)
Fixpoint for_each {X} (f : X → StE S unit) (xs : list X) : StE S unit :=
  match xs with
  | [] => mret tt
  | x :: xs => f x ≫= λ _, for_each f xs
  end.

(** Hoare triples: from [P], running [m] leaves [Q] of the outcome and the
    state reached. *)
Definition hoare {A} (P : S → Prop) (m : StE S A) (Q : result A → S → Prop) : Prop :=
  ∀ s, P s → Q (m s).2 (m s).1.

(** [m] keeps the invariant whatever its outcome. *)
Definition keeps {A} (I : S → Prop) (m : StE S A) : Prop :=
  hoare I m (λ _ s, I s).

Lemma keeps_ret {A} (I : S → Prop) (a : A) : keeps I (mret a).
Proof. by intros s Hs. Qed.
Lemma keeps_fail {A} (I : S → Prop) e : keeps I (@fail A e).
Proof. by intros s Hs. Qed.
Lemma keeps_lift {A} (I : S → Prop) (r : result A) : keeps I (lift r).
Proof. by intros s Hs. Qed.
Lemma keeps_bind {A B} (I : S → Prop) (m : StE S A) (f : A → StE S B) :
  keeps I m → (∀ a, keeps I (f a)) → keeps I (m ≫= f).
Proof.
  intros Hm Hf s Hs. unfold mbind, StE_bind.
  pose proof (Hm s Hs) as H. destruct (m s) as [s' [a|e]]; simpl in *; [|done].
  by apply Hf.
Qed.
Lemma keeps_lift_bind {A B} (I : S → Prop) (r : result A) (f : A → StE S B) :
  (∀ a, r = Ok a → keeps I (f a)) → keeps I (lift r ≫= f).
Proof. intros Hf s Hs. destruct r as [a|e]; [|done]. by apply (Hf a eq_refl). Qed.
Lemma keeps_gets {A} (I : S → Prop) (f : S → A) : keeps I (gets f).
Proof. by intros s Hs. Qed.
Lemma keeps_modify (I : S → Prop) (f : S → S) :
  (∀ s, I s → I (f s)) → keeps I (modify f).
Proof. intros Hf s Hs. by apply Hf. Qed.
Lemma keeps_ignore {A} (I : S → Prop) (m : StE S A) : keeps I m → keeps I (ignore m).
Proof. intros Hm s Hs. by apply Hm. Qed.
Lemma keeps_attempt {A} (I : S → Prop) (m : StE S A) : keeps I m → keeps I (attempt m).
Proof. intros Hm s Hs. by apply Hm. Qed.
Lemma keeps_wrap_st {A} (I : S → Prop) p (m : StE S A) : keeps I m → keeps I (wrap_st p m).
Proof. intros Hm s Hs. by apply Hm. Qed.
Lemma keeps_transaction {A} (I : S → Prop) (m : StE S A) :
  keeps I m → keeps I (transaction m).
Proof.
  intros Hm s Hs. unfold transaction. pose proof (Hm s Hs) as H.
  by destruct (m s) as [s' [a|e]].
Qed.
Lemma keeps_for_each {X} (I : S → Prop) (f : X → StE S unit) xs :
  (∀ x, keeps I (f x)) → keeps I (for_each f xs).
Proof.
  intros Hf. induction xs as [|x xs IH]; simpl; [apply keeps_ret|].
  by apply keeps_bind.
Qed.
End StE.

Create HintDb keeps discriminated.
#[export] Hint Resolve keeps_ret keeps_fail keeps_lift keeps_bind keeps_gets
  keeps_ignore keeps_attempt keeps_wrap_st keeps_transaction keeps_for_each : keeps.

(** Step through a monadic body whose outcome is known. *)
Lemma StE_bind_ok {S A B} (m : StE S A) (f : A → StE S B) s s' b :
  (m ≫= f) s = (s', Ok b) → ∃ s1 a, m s = (s1, Ok a) ∧ f a s1 = (s', Ok b).
Proof.
  unfold mbind, StE_bind. destruct (m s) as [s1 [a|e]] eqn:E; [|done].
  intros H. by exists s1, a.
Qed.

(** Running a call that is known to succeed. *)
Lemma bind_run {S A B} (m : StE S A) (f : A → StE S B) s s' a :
  m s = (s', Ok a) → (m ≫= f) s = f a s'.
Proof. intros Hm. unfold mbind, StE_bind. by rewrite Hm. Qed.
Lemma bind_fails {S A B} (m : StE S A) (f : A → StE S B) s s' e :
  m s = (s', Err e) → (m ≫= f) s = (s', Err e).
Proof. intros Hm. unfold mbind, StE_bind. by rewrite Hm. Qed.
Lemma attempt_run {S A} (m : StE S A) s s' r : m s = (s', r) → attempt m s = (s', Ok r).
Proof. intros Hm. unfold attempt. by rewrite Hm. Qed.
Lemma wrap_st_ok {S A} p (m : StE S A) s s' a : wrap_st p m s = (s', Ok a) → m s = (s', Ok a).
Proof.
  unfold wrap_st, wrap. destruct (m s) as [s1 [b|e]]; simpl; [|done]. by intros [= -> ->].
Qed.

Lemma zoom_ok {S T A} (get : S → T) put (m : StE T A) s s' a :
  zoom get put m s = (s', Ok a) → ∃ t, m (get s) = (t, Ok a) ∧ s' = put t s.
Proof. unfold zoom. destruct (m (get s)) as [t [b|e]]; [|done]. intros [= <- ->]. eauto. Qed.

Ltac inv_bind :=
  repeat match goal with
  | H : (_ ≫= _) _ = (_, Ok _) |- _ =>
      let s := fresh "s" in let a := fresh "a" in let E := fresh "E" in
      apply StE_bind_ok in H as (s & a & E & H); cbv beta in H
  end.

(** ** Machine integers

    Go's fixed-width integers as [Z], with the wrap-around of each width. *)

Definition wrap_u (w : Z) (z : Z) : Z := (z mod 2 ^ w)%Z.
Definition wrap_s (w : Z) (z : Z) : Z :=
  ((z + 2 ^ (w - 1)) mod 2 ^ w - 2 ^ (w - 1))%Z.
Definition u8 : Z → Z := wrap_u 8.
Definition u16 : Z → Z := wrap_u 16.
Definition u32 : Z → Z := wrap_u 32.
Definition u64 : Z → Z := wrap_u 64.
Definition i64 : Z → Z := wrap_s 64.

Lemma wrap_u_range w z : (0 ≤ w)%Z → (0 ≤ wrap_u w z < 2 ^ w)%Z.
Proof. intros. apply Z.mod_pos_bound. by apply Z.pow_pos_nonneg. Qed.
Lemma wrap_u_small w z : (0 ≤ z < 2 ^ w)%Z → wrap_u w z = z.
Proof. apply Z.mod_small. Qed.
Lemma wrap_s_small w z :
  (0 < w)%Z → (- 2 ^ (w - 1) ≤ z < 2 ^ (w - 1))%Z → wrap_s w z = z.
Proof.
  intros Hw Hz. unfold wrap_s.
  assert (2 ^ w = 2 * 2 ^ (w - 1))%Z as Hp.
  { rewrite <- Z.pow_succ_r by lia. f_equal. lia. }
  rewrite Z.mod_small; lia.
Qed.

(** ** Lists *)

(** SQL [LIMIT n OFFSET m] and Go slices of a list. *)
Definition slice {A} (offset limit : nat) (l : list A) : list A :=
  take limit (drop offset l).

Lemma slice_length {A} offset limit (l : list A) :
  length (slice offset limit l) ≤ limit.
Proof. unfold slice. rewrite length_take. lia. Qed.

Lemma slices_concat {A} (size n : nat) (l : list A) :
  length l ≤ n * size →
  concat ((λ i, slice (i * size) size l) <$> seq 0 n) = l.
Proof.
  revert l. induction n as [|n IH]; intros l Hl; simpl in *.
  { by destruct l; simpl in *; [|lia]. }
  unfold slice at 1. simpl. rewrite drop_0.
  rewrite <- (take_drop size l) at 2. f_equal.
  rewrite <- (IH (drop size l)) at 1 by (rewrite length_drop; lia).
  f_equal. rewrite <- fmap_S_seq, <- list_fmap_compose.
  apply list_fmap_ext. intros i x _. unfold slice, compose. simpl.
  by rewrite drop_drop, Nat.add_comm.
Qed.

Lemma fmap_concat {A B} (f : A → B) (ls : list (list A)) :
  f <$> concat ls = concat (fmap (M := list) f <$> ls).
Proof. induction ls as [|l ls IH]; [done|]. by rewrite fmap_cons; simpl; rewrite fmap_app, IH. Qed.

Lemma list_filter_all {A} (P : A → Prop) `{∀ x, Decision (P x)} l :
  Forall P l → filter P l = l.
Proof.
  induction 1 as [|x l Hx _ IH]; [done|]. by rewrite filter_cons_True, IH.
Qed.

Lemma list_filter_none {A} (P : A → Prop) `{∀ x, Decision (P x)} l :
  Forall (λ x, ¬ P x) l → filter P l = [].
Proof.
  induction 1 as [|x l Hx _ IH]; [done|]. by rewrite filter_cons_False, IH.
Qed.

(** ** Transition sequences *)

Section Star.
Context {A : Type} (R : A → A → Prop).
Inductive star : A → A → Prop :=
  | star_refl a : star a a
  | star_step a b c : R a b → star b c → star a c.

Lemma star_one a b : R a b → star a b.
Proof. intros. eapply star_step; [done|constructor]. Qed.
Lemma star_trans a b c : star a b → star b c → star a c.
Proof. induction 1; [done|]. intros. eapply star_step; eauto. Qed.
Lemma star_invariant (I : A → Prop) :
  (∀ a b, R a b → I a → I b) → ∀ a b, star a b → I a → I b.
Proof. intros HI a b. induction 1; eauto. Qed.
End Star.

Create HintDb sagiri discriminated.
#[export] Hint Constructors star : sagiri.
#[export] Hint Resolve star_one wrap_u_range : sagiri.

Lemma sorted_sublist {A} (R : A → A → Prop) (l k : list A) :
  StronglySorted R k → l `sublist_of` k → StronglySorted R l.
Proof.
  intros Hk Hl. revert Hk. induction Hl as [|x l k Hl IH|x l k Hl IH]; intros Hk; [done|..];
    apply StronglySorted_inv in Hk as [Hk Hx]; [|by apply IH].
  constructor; [by apply IH|]. rewrite Forall_forall in Hx |- *. intros y Hy. apply Hx.
  by eapply elem_of_submseteq, sublist_submseteq.
Qed.

(** A decidable closed goal, by evaluation. *)
Ltac by_decide := refine (bool_decide_eq_true_1 _ _); vm_compute; reflexivity.
