(* ===== verification/GoStrings.v ===== *)
(** * Go strings and paths

    The functions of Go's [strings] and [path/filepath] packages (GOOS=linux)
    that the program calls, on byte strings.  A Go [string] is a [string] of
    bytes; the algorithms run on its list of bytes.

    [TrimSpace] knows every Unicode white-space code point in its UTF-8 form.
    [ToLower] maps the ASCII letters and leaves every other byte alone: the
    Unicode case tables are not modelled. *)

From stdpp Require Export pretty.
From S2P Require Export Prelude.

Abbreviation bytes := (list ascii) (only parsing).
Abbreviation to_bytes := String.list_ascii_of_string (only parsing).
Abbreviation of_bytes := String.string_of_list_ascii (only parsing).

(** ** Conversions *)

Lemma to_of_bytes (l : list ascii) : to_bytes (of_bytes l) = l.
Proof. apply String.list_ascii_of_string_of_list_ascii. Qed.
Lemma of_to_bytes (s : string) : of_bytes (to_bytes s) = s.
Proof. apply String.string_of_list_ascii_of_string. Qed.
#[export] Instance to_bytes_inj : Inj (=) (=) (to_bytes).
Proof. intros a b H. by rewrite <- (of_to_bytes a), <- (of_to_bytes b), H. Qed.
#[export] Instance of_bytes_inj : Inj (=) (=) (of_bytes).
Proof. intros a b H. by rewrite <- (to_of_bytes a), <- (to_of_bytes b), H. Qed.
Lemma to_bytes_app a b : to_bytes (a +:+ b) = to_bytes a ++ to_bytes b.
Proof. induction a as [|c a IH]; [done|]. simpl. by f_equal. Qed.
Lemma of_bytes_app a b : of_bytes (a ++ b) = of_bytes a +:+ of_bytes b.
Proof. apply (inj to_bytes). by rewrite to_bytes_app, !to_of_bytes. Qed.
Lemma to_bytes_length s : length (to_bytes s) = String.length s.
Proof. induction s; simpl; auto. Qed.
Lemma to_bytes_nil s : to_bytes s = [] ↔ s = "".
Proof. destruct s; simpl; split; congruence. Qed.

Create Rewrite HintDb bytes.
#[export] Hint Rewrite to_of_bytes of_to_bytes to_bytes_app of_bytes_app : bytes.

(** ** Searching *)

Section Search.
Implicit Types (l p : list ascii) (c : ascii).

Fixpoint is_prefix p l : bool :=
  match p, l with
  | [], _ => true
  | a :: p, b :: l => bool_decide (a = b) && is_prefix p l
  | _ :: _, [] => false
  end.

Lemma is_prefix_spec p l : is_prefix p l = true ↔ ∃ k, l = p ++ k.
Proof.
  revert l. induction p as [|a p IH]; intros l; simpl.
  { split; [by exists l|done]. }
  destruct l as [|b l].
  { split; [done|]. by intros [k ?]. }
  rewrite andb_true_iff, bool_decide_eq_true, IH. split.
  - intros [-> [k ->]]. by exists k.
  - intros [k [=]]. subst. eauto.
Qed.

Fixpoint contains l p : bool :=
  is_prefix p l ||
  match l with [] => false | _ :: l => contains l p end.

Lemma contains_spec l p : contains l p = true ↔ ∃ a b, l = a ++ p ++ b.
Proof.
  induction l as [|c l IH]; simpl; rewrite orb_true_iff, is_prefix_spec.
  - split.
    + intros [[k Hk]|]; [|done]. by exists [], k.
    + intros (a & b & H). left. exists b. by destruct a.
  - rewrite IH. split.
    + intros [[k Hk]|(a & b & ->)]; [by exists [], k|by exists (c :: a), b].
    + intros ([|d a] & b & H); simpl in *; [eauto|].
      injection H as -> ->. eauto.
Qed.

Lemma contains_self p : contains p p = true.
Proof. apply contains_spec. exists [], []. by rewrite app_nil_r. Qed.
End Search.

Definition HasPrefix (s p : string) : bool := is_prefix (to_bytes p) (to_bytes s).
Definition HasSuffix (s p : string) : bool :=
  is_prefix (reverse (to_bytes p)) (reverse (to_bytes s)).
Definition Contains (s p : string) : bool := contains (to_bytes s) (to_bytes p).
Definition TrimPrefix (s p : string) : string :=
  if HasPrefix s p then of_bytes (drop (String.length p) (to_bytes s)) else s.
Definition TrimSuffix (s p : string) : string :=
  if HasSuffix s p then of_bytes (take (String.length s - String.length p) (to_bytes s)) else s.
(** [strings.Count(s, sep)] for a one-byte separator. *)
Definition Count (s : string) (c : ascii) : nat :=
  length (filter (λ a, a = c) (to_bytes s)).

(** ** Split and join on one byte *)

Section Split.
Context (c : ascii).

Fixpoint split_bytes (l : list ascii) : list (list ascii) :=
  match l with
  | [] => [[]]
  | a :: l =>
      if decide (a = c) then [] :: split_bytes l
      else match split_bytes l with
           | h :: t => (a :: h) :: t
           | [] => [[a]]
           end
  end.

Fixpoint join_bytes (ls : list (list ascii)) : list ascii :=
  match ls with
  | [] => []
  | [l] => l
  | l :: ls => l ++ c :: join_bytes ls
  end.

Lemma split_bytes_not_nil l : split_bytes l ≠ [].
Proof.
  destruct l as [|a l]; simpl; [done|]. case_decide; [done|].
  by destruct (split_bytes l).
Qed.

Lemma split_bytes_free l x : x ∈ split_bytes l → c ∉ x.
Proof.
  revert x. induction l as [|a l IH]; simpl; intros x Hx.
  { apply list_elem_of_singleton in Hx as ->. by apply not_elem_of_nil. }
  case_decide as Ha.
  { apply elem_of_cons in Hx as [->|Hx]; [by apply not_elem_of_nil|auto]. }
  destruct (split_bytes l) as [|h t].
  { apply list_elem_of_singleton in Hx as ->. set_solver. }
  apply elem_of_cons in Hx as [->|Hx]; [|apply IH; set_solver].
  apply not_elem_of_cons. split; [done|]. apply IH. set_solver.
Qed.

Lemma join_split_bytes l : join_bytes (split_bytes l) = l.
Proof.
  induction l as [|a l IH]; simpl; [done|].
  pose proof (split_bytes_not_nil l) as Hn.
  case_decide as Ha; subst.
  - destruct (split_bytes l) as [|h t]; [done|]. simpl in *. by rewrite IH.
  - destruct (split_bytes l) as [|h t]; [done|].
    destruct t; simpl in *; by rewrite <- IH.
Qed.

Lemma split_bytes_app x l :
  c ∉ x → split_bytes (x ++ c :: l) = x :: split_bytes l.
Proof.
  induction x as [|a x IH]; simpl; intros Hx.
  { by rewrite decide_True. }
  apply not_elem_of_cons in Hx as [Hne Hx].
  rewrite decide_False by done. by rewrite IH.
Qed.

Lemma split_bytes_single x : c ∉ x → split_bytes x = [x].
Proof.
  induction x as [|a x IH]; simpl; intros Hx; [done|].
  apply not_elem_of_cons in Hx as [Hne Hx].
  rewrite decide_False by done. by rewrite IH.
Qed.

Lemma split_join_bytes ls :
  ls ≠ [] → (∀ x, x ∈ ls → c ∉ x) → split_bytes (join_bytes ls) = ls.
Proof.
  induction ls as [|x ls IH]; intros Hn Hf; [done|].
  destruct ls as [|y ls].
  { simpl. apply split_bytes_single. set_solver. }
  change (join_bytes (x :: y :: ls)) with (x ++ c :: join_bytes (y :: ls)).
  rewrite split_bytes_app by set_solver. f_equal. apply IH; set_solver.
Qed.

Lemma join_bytes_app ls ks :
  ls ≠ [] → ks ≠ [] → join_bytes (ls ++ ks) = join_bytes ls ++ c :: join_bytes ks.
Proof.
  intros Hn Hk. induction ls as [|x ls IH]; [done|]. destruct ls as [|y ls].
  { simpl. by destruct ks. }
  change (join_bytes ((x :: y :: ls) ++ ks)) with (x ++ c :: join_bytes ((y :: ls) ++ ks)).
  rewrite IH by done.
  change (join_bytes (x :: y :: ls)) with (x ++ c :: join_bytes (y :: ls)).
  by rewrite <- app_assoc.
Qed.
End Split.

Definition slash : ascii := "/"%char.

(** [strings.Split(s, "/")] and [strings.Join(segs, "/")]. *)
Definition Split (s : string) : list string := of_bytes <$> split_bytes slash (to_bytes s).
Definition Join (segs : list string) : string :=
  of_bytes (join_bytes slash (to_bytes <$> segs)).

Definition slash_free (s : string) : Prop := slash ∉ to_bytes s.
#[export] Instance slash_free_dec s : Decision (slash_free s).
Proof. apply _. Defined.

Lemma Join_Split s : Join (Split s) = s.
Proof.
  unfold Join, Split. rewrite <- list_fmap_compose.
  rewrite (list_fmap_ext _ id); [|intros; simpl; by rewrite to_of_bytes].
  by rewrite list_fmap_id, join_split_bytes, of_to_bytes.
Qed.

Lemma Split_Join segs :
  segs ≠ [] → Forall slash_free segs → Split (Join segs) = segs.
Proof.
  intros Hn Hf. unfold Split, Join. rewrite to_of_bytes, split_join_bytes.
  - rewrite <- list_fmap_compose. rewrite (list_fmap_ext _ id).
    + by rewrite list_fmap_id.
    + intros; simpl. by rewrite of_to_bytes.
  - by destruct segs.
  - intros x (s & -> & Hs)%list_elem_of_fmap. by rewrite Forall_forall in Hf; apply Hf.
Qed.

Lemma Split_slash_free s x : x ∈ Split s → slash_free x.
Proof.
  unfold Split. intros (l & -> & Hl)%list_elem_of_fmap. unfold slash_free.
  rewrite to_of_bytes. by eapply split_bytes_free.
Qed.

Lemma Split_not_nil s : Split s ≠ [].
Proof. unfold Split. pose proof (split_bytes_not_nil slash (to_bytes s)). by destruct (split_bytes _ _). Qed.

Lemma Join_cons_cons a b l : Join (a :: b :: l) = a +:+ "/" +:+ Join (b :: l).
Proof.
  apply (inj to_bytes). unfold Join. rewrite !to_bytes_app, !to_of_bytes.
  reflexivity.
Qed.
Lemma Join_singleton a : Join [a] = a.
Proof. unfold Join. simpl. apply of_to_bytes. Qed.

Lemma string_app_assoc a b c : a +:+ b +:+ c = (a +:+ b) +:+ c.
Proof. apply (inj to_bytes). by rewrite !to_bytes_app, app_assoc. Qed.

Lemma Join_app cs ds :
  cs ≠ [] → ds ≠ [] → Join (cs ++ ds) = Join cs +:+ "/" +:+ Join ds.
Proof.
  intros Hc Hd. apply (inj to_bytes). unfold Join.
  rewrite !to_bytes_app, !to_of_bytes, fmap_app, join_bytes_app; [done| |].
  - by destruct cs.
  - by destruct ds.
Qed.

(** ** Trimming *)

(** A trimming step removes one pattern from the front of the bytes; the
    [fuel]-free loop is structural because every pattern is non-empty. *)

Definition ascii_space (a : ascii) : bool :=
  let n := N_of_ascii a in
  ((9 <=? n) && (n <=? 13))%N || (n =? 32)%N.

(** The multi-byte white-space code points: U+0085, U+00A0, U+1680,
    U+2000..U+200A, U+2028, U+2029, U+202F, U+205F, U+3000. *)
Definition space2 (a b : ascii) : bool :=
  (N_of_ascii a =? 194)%N && ((N_of_ascii b =? 133)%N || (N_of_ascii b =? 160)%N).
Definition space3 (a b c : ascii) : bool :=
  let x := N_of_ascii a in let y := N_of_ascii b in let z := N_of_ascii c in
  ((x =? 225) && (y =? 154) && (z =? 128))%N
  || ((x =? 226) && (y =? 128)
      && (((128 <=? z) && (z <=? 138)) || (z =? 168) || (z =? 169) || (z =? 175)))%N
  || ((x =? 226) && (y =? 129) && (z =? 159))%N
  || ((x =? 227) && (y =? 128) && (z =? 128))%N.

Section TrimLoop.
(** One-, two- and three-byte patterns. *)
Context (p1 : ascii → bool) (p2 : ascii → ascii → bool)
        (p3 : ascii → ascii → ascii → bool).

Definition starts_with_pattern (l : list ascii) : bool :=
  match l with
  | [] => false
  | [a] => p1 a
  | [a; b] => p1 a || p2 a b
  | a :: b :: c :: _ => p1 a || p2 a b || p3 a b c
  end.

Fixpoint trim_front (l : list ascii) : list ascii :=
  match l with
  | [] => []
  | a :: l1 =>
      if p1 a then trim_front l1 else
      match l1 with
      | [] => l
      | b :: l2 =>
          if p2 a b then trim_front l2 else
          match l2 with
          | [] => l
          | c :: l3 => if p3 a b c then trim_front l3 else l
          end
      end
  end.

Lemma trim_front_fixed l : starts_with_pattern l = false → trim_front l = l.
Proof.
  destruct l as [|a [|b [|c l]]]; simpl; [done| | |];
    rewrite ?orb_false_iff; intros; destruct_and?; by repeat case_match.
Qed.

Lemma trim_front_stops l : starts_with_pattern (trim_front l) = false.
Proof.
  remember (length l) as n eqn:Hn. revert l Hn.
  induction n as [n IH] using lt_wf_ind. intros l ->.
  destruct l as [|a [|b [|c l]]]; simpl; [done| | |];
    repeat case_match; simpl in *; try (eapply IH; [|reflexivity]; simpl; lia);
    rewrite ?orb_false_iff; done.
Qed.

Lemma trim_front_suffix l : ∃ k, l = k ++ trim_front l.
Proof.
  remember (length l) as n eqn:Hn. revert l Hn.
  induction n as [n IH] using lt_wf_ind. intros l ->.
  assert (∀ k l', l = k ++ l' → length l' < length l → ∃ k, l = k ++ trim_front l') as Hr.
  { intros k l' -> Hlt. destruct (IH (length l') ltac:(lia) l' eq_refl) as [k' Hk'].
    exists (k ++ k'). by rewrite <- app_assoc, <- Hk'. }
  destruct l as [|a l1]; simpl; [by exists []|].
  destruct (p1 a); [apply (Hr [a]); simpl; [done|lia]|].
  destruct l1 as [|b l2]; [by exists []|].
  destruct (p2 a b); [apply (Hr [a; b]); simpl; [done|lia]|].
  destruct l2 as [|c l3]; [by exists []|].
  destruct (p3 a b c); [apply (Hr [a; b; c]); simpl; [done|lia]|by exists []].
Qed.
End TrimLoop.

Definition trim_space_left : list ascii → list ascii :=
  trim_front ascii_space space2 space3.
(** The right end is trimmed on the reversed bytes, with reversed patterns. *)
Definition trim_space_right (l : list ascii) : list ascii :=
  reverse (trim_front ascii_space (flip space2) (λ c b a, space3 a b c) (reverse l)).
Definition trim_space_bytes (l : list ascii) : list ascii :=
  trim_space_right (trim_space_left l).

(** [strings.TrimSpace]. *)
Definition TrimSpace (s : string) : string := of_bytes (trim_space_bytes (to_bytes s)).

Lemma trim_space_right_prefix l : ∃ k, l = trim_space_right l ++ k.
Proof.
  unfold trim_space_right.
  destruct (trim_front_suffix ascii_space (flip space2) (λ c b a, space3 a b c) (reverse l))
    as [k Hk].
  exists (reverse k). rewrite <- reverse_app, <- Hk. by rewrite reverse_involutive.
Qed.

Lemma starts_with_pattern_app p1 p2 p3 l k :
  starts_with_pattern p1 p2 p3 (l ++ k) = false → starts_with_pattern p1 p2 p3 l = false.
Proof.
  destruct l as [|a [|b [|c l]]]; destruct k as [|x [|y k]]; simpl;
    rewrite ?orb_false_iff; tauto.
Qed.

(** Trimming is idempotent. *)
Lemma trim_space_bytes_idem l : trim_space_bytes (trim_space_bytes l) = trim_space_bytes l.
Proof.
  unfold trim_space_bytes.
  set (m := trim_space_left l).
  assert (trim_space_left (trim_space_right m) = trim_space_right m) as ->.
  { apply trim_front_fixed. destruct (trim_space_right_prefix m) as [k Hk].
    apply (starts_with_pattern_app _ _ _ _ k). rewrite <- Hk. apply trim_front_stops. }
  unfold trim_space_right at 1. rewrite (trim_front_fixed _ _ _ (reverse _)).
  { by rewrite reverse_involutive. }
  unfold trim_space_right. rewrite reverse_involutive. apply trim_front_stops.
Qed.

Lemma TrimSpace_idem s : TrimSpace (TrimSpace s) = TrimSpace s.
Proof. unfold TrimSpace. rewrite to_of_bytes. by rewrite trim_space_bytes_idem. Qed.

Lemma trim_space_bytes_sublist l x : x ∈ trim_space_bytes l → x ∈ l.
Proof.
  unfold trim_space_bytes. intros Hx.
  destruct (trim_space_right_prefix (trim_space_left l)) as [k Hk].
  destruct (trim_front_suffix ascii_space space2 space3 l) as [k' Hk'].
  rewrite Hk'. apply elem_of_app. right. fold (trim_space_left l). rewrite Hk. set_solver.
Qed.

(** A text that starts and ends with graphic ASCII is left alone. *)
Definition graphic (a : ascii) : Prop := (32 < N_of_ascii a < 128)%N.

Lemma graphic_not_space a :
  graphic a → ascii_space a = false ∧ (∀ b, space2 a b = false) ∧ (∀ b, space2 b a = false) ∧
  (∀ b c, space3 a b c = false) ∧ (∀ b c, space3 c b a = false).
Proof.
  unfold graphic, ascii_space, space2, space3. intros [Hl Hr]. split_and!; intros;
  repeat match goal with
  | |- context [N.leb (N_of_ascii a) ?k] => destruct (N.leb_spec (N_of_ascii a) k); [|]; try lia
  | |- context [N.leb ?k (N_of_ascii a)] => destruct (N.leb_spec k (N_of_ascii a)); try lia
  | |- context [N.eqb (N_of_ascii a) ?k] => destruct (N.eqb_spec (N_of_ascii a) k); try lia
  end; simpl; rewrite ?andb_false_r, ?orb_false_r; done.
Qed.

Lemma trim_space_bytes_graphic a l b :
  graphic a → graphic b → trim_space_bytes (a :: l ++ [b]) = a :: l ++ [b].
Proof.
  intros Ha Hb. unfold trim_space_bytes, trim_space_left.
  rewrite trim_front_fixed.
  - unfold trim_space_right. rewrite trim_front_fixed; [by rewrite reverse_involutive|].
    replace (reverse (a :: l ++ [b])) with (b :: reverse l ++ [a])
      by (by rewrite reverse_cons, reverse_app).
    destruct (graphic_not_space b Hb) as (E1 & _ & E2 & _ & E3).
    destruct (reverse l ++ [a]) as [|x [|y k]]; simpl; unfold flip; by rewrite E1, ?E2, ?E3.
  - destruct (graphic_not_space a Ha) as (E1 & E2 & _ & E3 & _).
    destruct (l ++ [b]) as [|x [|y k]]; simpl; by rewrite E1, ?E2, ?E3.
Qed.

Lemma TrimSpace_slash_free s : slash_free s → slash_free (TrimSpace s).
Proof.
  unfold slash_free, TrimSpace. rewrite to_of_bytes. intros Hs Hx.
  by apply trim_space_bytes_sublist in Hx.
Qed.

(** [strings.Trim(s, "/")]. *)
Definition slash_pattern (a : ascii) : bool := bool_decide (a = slash).
Definition trim_slash_front : list ascii → list ascii :=
  trim_front slash_pattern (λ _ _, false) (λ _ _ _, false).
Definition TrimSlash (s : string) : string :=
  of_bytes (reverse (trim_slash_front (reverse (trim_slash_front (to_bytes s))))).

(** [strings.ToLower], ASCII letters. *)
Definition lower_byte (a : ascii) : ascii :=
  let n := N_of_ascii a in
  if ((65 <=? n) && (n <=? 90))%N then ascii_of_N (n + 32) else a.
Definition ToLower (s : string) : string := of_bytes (lower_byte <$> to_bytes s).

Lemma lower_byte_idem a : lower_byte (lower_byte a) = lower_byte a.
Proof. by destruct a as [[] [] [] [] [] [] [] []]. Qed.

Lemma ToLower_idem s : ToLower (ToLower s) = ToLower s.
Proof.
  unfold ToLower. rewrite to_of_bytes, <- list_fmap_compose. f_equal.
  apply list_fmap_ext. intros; simpl; apply lower_byte_idem.
Qed.

(** ** Paths *)

(** The elements of a path: its non-empty components. *)
Definition elems (s : string) : list string := filter (λ c, c ≠ "") (Split s).
Definition IsAbs (s : string) : bool := HasPrefix s "/".

(** The stack of [filepath.Clean], innermost element first. *)
Fixpoint clean_stack (rooted : bool) (acc cs : list string) : list string :=
  match cs with
  | [] => acc
  | c :: cs =>
      if decide (c = "" ∨ c = ".") then clean_stack rooted acc cs
      else if decide (c = "..") then
        match acc with
        | d :: acc' =>
            if decide (d = "..") then clean_stack rooted (c :: acc) cs
            else clean_stack rooted acc' cs
        | [] => if rooted then clean_stack rooted [] cs
                else clean_stack rooted [c] cs
        end
      else clean_stack rooted (c :: acc) cs
  end.

Definition Clean (s : string) : string :=
  let cs := reverse (clean_stack (IsAbs s) [] (Split s)) in
  if IsAbs s then "/" +:+ Join cs
  else match cs with [] => "." | _ => Join cs end.

Definition Base (s : string) : string :=
  if decide (s = "") then "."
  else match list.last (elems s) with Some c => c | None => "/" end.

(** Everything up to and including the last slash, cleaned. *)
Definition Dir (s : string) : string :=
  Clean (match removelast (Split s) with [] => "" | init => Join (init ++ [""]) end).

Fixpoint drop_empty (es : list string) : list string :=
  match es with
  | [] => []
  | e :: es' => if decide (e = "") then drop_empty es' else es
  end.
Definition PathJoin (es : list string) : string :=
  match drop_empty es with [] => "" | es => Clean (Join es) end.

(** The suffix of the last component that starts at its last dot. *)
Definition ext_bytes (l : list ascii) : list ascii :=
  match reverse (split_bytes "."%char l) with
  | x :: _ :: _ => "."%char :: x
  | _ => []
  end.
Definition Ext (s : string) : string :=
  match list.last (Split s) with Some c => of_bytes (ext_bytes (to_bytes c)) | None => "" end.

Definition Abs (wd s : string) : string := if IsAbs s then Clean s else PathJoin [wd; s].

Fixpoint strip_common (bs ts : list string) : list string * list string :=
  match bs, ts with
  | b :: bs', t :: ts' => if decide (b = t) then strip_common bs' ts' else (bs, ts)
  | _, _ => (bs, ts)
  end.
(** [filepath.Rel] of two absolute paths. *)
Definition RelAbs (base targ : string) : string :=
  if decide (Clean base = Clean targ) then "." else
  let '(bs, ts) := strip_common (elems (Clean base)) (elems (Clean targ)) in
  Join (replicate (length bs) ".." ++ ts).

(** ** Clean absolute paths *)

(** A component that [Clean] keeps. *)
Definition wf_comp (c : string) : Prop :=
  c ≠ "" ∧ c ≠ "." ∧ c ≠ ".." ∧ slash_free c.
#[export] Instance wf_comp_dec c : Decision (wf_comp c).
Proof. apply _. Defined.

Definition abs_path (cs : list string) : string := "/" +:+ Join cs.

Section AbsPath.
Implicit Types (cs ds : list string) (c : string).

Lemma IsAbs_abs_path cs : IsAbs (abs_path cs) = true.
Proof. done. Qed.

Lemma Split_root s : Split ("/" +:+ s) = "" :: Split s.
Proof. reflexivity. Qed.

Lemma Split_abs_path cs :
  cs ≠ [] → Forall wf_comp cs → Split (abs_path cs) = "" :: cs.
Proof.
  intros Hn Hwf. unfold abs_path. rewrite Split_root, Split_Join; [done|done|].
  eapply Forall_impl; [done|]. by intros x (?&?&?&?).
Qed.

Lemma elems_abs_path cs : Forall wf_comp cs → elems (abs_path cs) = cs.
Proof.
  intros Hwf. destruct cs as [|c cs]; [done|]. unfold elems.
  rewrite Split_abs_path by done. rewrite filter_cons_False by (by intros []).
  apply list_filter_all. eapply Forall_impl; [done|]. by intros x (?&?&?&?).
Qed.

Lemma clean_stack_wf rooted acc cs :
  Forall wf_comp cs → clean_stack rooted acc cs = reverse cs ++ acc.
Proof.
  revert acc. induction cs as [|c cs IH]; intros acc Hwf; [done|].
  apply Forall_cons in Hwf as [(H1&H2&H3&H4) Hwf]. simpl.
  rewrite decide_False by tauto. rewrite decide_False by done.
  rewrite IH by done. rewrite reverse_cons. by rewrite <- app_assoc.
Qed.

Lemma clean_stack_app rooted acc cs ds :
  clean_stack rooted acc (cs ++ ds) = clean_stack rooted (clean_stack rooted acc cs) ds.
Proof.
  revert acc. induction cs as [|c cs IH]; intros acc; simpl; [done|].
  repeat case_match; apply IH.
Qed.

Lemma Clean_abs_path cs : Forall wf_comp cs → Clean (abs_path cs) = abs_path cs.
Proof.
  intros Hwf. destruct cs as [|c cs]; [done|]. unfold Clean.
  rewrite IsAbs_abs_path, Split_abs_path by done.
  change (clean_stack true [] ("" :: c :: cs)) with (clean_stack true [] (c :: cs)).
  by rewrite clean_stack_wf, app_nil_r, reverse_involutive.
Qed.

Lemma Base_abs_path cs c : Forall wf_comp (cs ++ [c]) → Base (abs_path (cs ++ [c])) = c.
Proof.
  intros Hwf. unfold Base. rewrite decide_False by done.
  by rewrite elems_abs_path, last_snoc.
Qed.

Lemma PathJoin_abs_path cs ds :
  ds ≠ [] → Forall wf_comp cs → Forall wf_comp ds →
  PathJoin [abs_path cs; Join ds] = abs_path (cs ++ ds).
Proof.
  intros Hn Hc Hd.
  change (PathJoin [abs_path cs; Join ds]) with (Clean (Join [abs_path cs; Join ds])).
  destruct cs as [|c cs].
  { rewrite Join_cons_cons, Join_singleton.
    change (Clean ("/" +:+ "/" +:+ Join ds) = abs_path ds). unfold Clean.
    change (IsAbs ("/" +:+ "/" +:+ Join ds)) with true. cbv iota.
    rewrite !Split_root, Split_Join.
    - change (clean_stack true [] ("" :: "" :: ds)) with (clean_stack true [] ds).
      by rewrite clean_stack_wf, app_nil_r, reverse_involutive.
    - done.
    - eapply Forall_impl; [done|]. by intros x (?&?&?&?). }
  rewrite Join_cons_cons, Join_singleton. unfold abs_path at 1.
  rewrite <- string_app_assoc, <- Join_app by done.
  apply Clean_abs_path. by apply Forall_app.
Qed.

(** A suffix of a path is a suffix of its last component. *)
Lemma abs_path_suffix cs n e : abs_path (cs ++ [n]) +:+ e = abs_path (cs ++ [n +:+ e]).
Proof.
  unfold abs_path. rewrite <- string_app_assoc. f_equal. destruct cs as [|c cs].
  - simpl app. by rewrite !Join_singleton.
  - rewrite !Join_app by done. by rewrite !Join_singleton, <- !string_app_assoc.
Qed.

(** The elements of a path joined by a slash are those of its two parts. *)
Lemma Split_slash_app a b : Split (a +:+ "/" +:+ b) = Split a ++ Split b.
Proof.
  rewrite <- (Join_Split a) at 1. rewrite <- (Join_Split b) at 1.
  rewrite <- Join_app by apply Split_not_nil. apply Split_Join.
  - pose proof (Split_not_nil a). by destruct (Split a).
  - apply Forall_app. split; apply Forall_forall; intros x; apply Split_slash_free.
Qed.
Lemma elems_slash_app a b : elems (a +:+ "/" +:+ b) = elems a ++ elems b.
Proof. unfold elems. by rewrite Split_slash_app, filter_app. Qed.
Lemma elems_comp c : c ≠ "" → slash_free c → elems c = [c].
Proof.
  intros Hn Hs. unfold elems, Split. rewrite split_bytes_single by done. simpl.
  by rewrite of_to_bytes, filter_cons_True.
Qed.

Lemma clean_stack_elems rooted acc cs :
  clean_stack rooted acc cs = clean_stack rooted acc (filter (λ c, c ≠ "") cs).
Proof.
  revert acc. induction cs as [|c cs IH]; intros acc; [done|].
  destruct (decide (c = "")) as [->|Hc].
  - rewrite filter_cons_False by tauto. simpl. apply IH.
  - rewrite filter_cons_True by done. simpl. repeat case_match; auto.
Qed.
Lemma Clean_elems s :
  IsAbs s = true → Forall wf_comp (elems s) → Clean s = abs_path (elems s).
Proof.
  intros Ha Hwf. unfold Clean. rewrite Ha, clean_stack_elems. fold (elems s).
  by rewrite clean_stack_wf, app_nil_r, reverse_involutive.
Qed.

(** A directory as [Clean] leaves it, and a path below it. *)
Definition inside (dir : string) (cs : list string) : string :=
  if decide (dir = ".") then Join cs
  else if decide (dir = "/") then "/" +:+ Join cs else dir +:+ "/" +:+ Join cs.

Definition clean_comp (c : string) : Prop := c ≠ "" ∧ c ≠ "." ∧ slash_free c.
Lemma clean_stack_comps rooted cs : ∀ acc,
  Forall slash_free cs → Forall clean_comp acc → Forall clean_comp (clean_stack rooted acc cs).
Proof.
  induction cs as [|c cs IH]; intros acc Hcs Hacc; [done|]. apply Forall_cons in Hcs as [Hc Hcs].
  cbn [clean_stack]. case_decide as H1; [by apply IH|].
  assert (clean_comp c) as Hcc by (split_and!; [tauto..|done]).
  case_decide as H2; [|apply IH; [done|by constructor]].
  destruct acc as [|d acc]; [destruct rooted; (apply IH; [done|]); [done|by apply Forall_singleton]|].
  case_decide; apply IH; try done; [by constructor|]. by apply Forall_cons in Hacc as [_ ?].
Qed.

Lemma inside_Clean d cs : cs ≠ [] →
  inside (Clean d) cs =
    (if IsAbs d then "/" else "") +:+ Join (reverse (clean_stack (IsAbs d) [] (Split d)) ++ cs).
Proof.
  intros Hcs.
  assert (Forall clean_comp (reverse (clean_stack (IsAbs d) [] (Split d)))) as Hrs.
  { apply Forall_reverse, clean_stack_comps; [|done]. apply Forall_forall. intros x. apply Split_slash_free. }
  unfold Clean, inside. revert Hrs. generalize (reverse (clean_stack (IsAbs d) [] (Split d))) as rs.
  intros rs Hrs.
  assert (rs ≠ [] → Split (Join rs) = rs) as Hsp.
  { intros Hne. apply Split_Join; [done|]. eapply Forall_impl; [exact Hrs|]. by intros x (_ & _ & ?). }
  assert (∀ x, rs ≠ [] → Join rs = x → Forall clean_comp (Split x)) as Hx.
  { intros x Hne <-. by rewrite Hsp. }
  destruct (decide (rs = [])) as [->|Hne].
  { destruct (IsAbs d); [|done]. change ("/" +:+ Join []) with "/".
    by rewrite decide_False, decide_True by done. }
  destruct (IsAbs d).
  - rewrite decide_False by done. rewrite decide_False.
    + by rewrite Join_app, <- !string_app_assoc.
    + intros Hj. change (String "/" (Join rs) = String "/" "") in Hj. injection Hj as Hj. specialize (Hx "" Hne Hj).
      apply Forall_inv in Hx as [? _]. done.
  - assert (match rs with [] => "." | _ => Join rs end = Join rs) as -> by (by destruct rs).
    rewrite !decide_False.
    + by rewrite Join_app.
    + intros Hj. specialize (Hx "/" Hne Hj). apply Forall_inv in Hx as [? _]. done.
    + intros Hj. specialize (Hx "." Hne Hj). apply Forall_inv in Hx as (_ & ? & _). done.
Qed.

(** Joining below a directory; [n] may end in slashes. *)
Lemma PathJoin_inside d device n name :
  d ≠ "" → wf_comp device → wf_comp name → elems n = [name] →
  PathJoin [d; device; n] = inside (Clean d) [device; name].
Proof.
  intros Hd Hdev Hname Hn. rewrite inside_Clean by done. unfold PathJoin. cbn [drop_empty].
  rewrite decide_False by done. rewrite !Join_cons_cons, Join_singleton. unfold Clean.
  assert (IsAbs (d +:+ "/" +:+ device +:+ "/" +:+ n) = IsAbs d) as ->.
  { destruct d as [|a d]; [done|]. reflexivity. }
  rewrite !Split_slash_app, !clean_stack_app.
  rewrite (clean_stack_elems _ _ (Split device)). fold (elems device).
  rewrite (clean_stack_elems _ _ (Split n)). fold (elems n).
  rewrite Hn, (elems_comp device) by apply Hdev. rewrite !clean_stack_wf by (by constructor).
  rewrite !reverse_app, !reverse_involutive, <- app_assoc. cbn [app].
  destruct (IsAbs d); [done|]. by destruct (reverse (clean_stack false [] (Split d))).
Qed.

Lemma inside_suffix dir a n e : inside dir [a; n] +:+ e = inside dir [a; n +:+ e].
Proof.
  unfold inside. rewrite !Join_cons_cons, !Join_singleton.
  repeat case_decide; by rewrite <- !string_app_assoc.
Qed.

Lemma strip_common_app cs ds : strip_common cs (cs ++ ds) = ([], ds).
Proof. induction cs as [|c cs IH]; simpl; [by destruct ds|]. by rewrite decide_True. Qed.

Lemma abs_path_inj cs ds :
  Forall wf_comp cs → Forall wf_comp ds → abs_path cs = abs_path ds → cs = ds.
Proof. intros Hc Hd H. by rewrite <- (elems_abs_path cs), <- (elems_abs_path ds), H. Qed.

Lemma RelAbs_abs_path cs ds :
  Forall wf_comp (cs ++ ds) → ds ≠ [] →
  RelAbs (abs_path cs) (abs_path (cs ++ ds)) = Join ds.
Proof.
  intros Hwf Hn. pose proof Hwf as [Hc Hd]%Forall_app. unfold RelAbs.
  rewrite !Clean_abs_path, !elems_abs_path, strip_common_app by done.
  rewrite decide_False; [done|]. intros H.
  apply abs_path_inj in H; [|done..].
  rewrite <- (app_nil_r cs) in H at 1. by apply app_inv_head in H.
Qed.
End AbsPath.

(** ** Numbers in text *)

Section Numbers.
Local Open Scope Z_scope.

Definition digit (a : ascii) : option Z :=
  let n := Z.of_N (N_of_ascii a) in if decide (48 ≤ n ≤ 57) then Some (n - 48) else None.
(** The digits at the start of a text: their value and how many they are. *)
Fixpoint digits (l : list ascii) (acc : Z) (count : nat) : Z * nat * list ascii :=
  match l with
  | a :: l' => match digit a with
               | Some d => digits l' (10 * acc + d) (S count)
               | None => (acc, count, l)
               end
  | [] => (acc, count, [])
  end.
Definition int64 (z : Z) : bool := bool_decide (- 2 ^ 63 ≤ z < 2 ^ 63).
Definition signed (l : list ascii) : Z * list ascii :=
  match l with
  | a :: l' => if decide (a = "-"%char) then (-1, l') else if decide (a = "+"%char) then (1, l') else (1, l)
  | [] => (1, [])
  end.
Definition Atoi (s : string) : option Z :=
  let '(sign, l) := signed (to_bytes s) in
  let '(n, count, rest) := digits l 0 0 in
  if decide (count ≠ 0%nat ∧ rest = []) then
    if int64 (sign * n) then Some (sign * n) else None
  else None.
Fixpoint skip_blanks (l : list ascii) : list ascii :=
  match l with
  | a :: l' => if decide (a = " "%char ∨ a = ascii_of_N 9) then skip_blanks l' else l
  | [] => []
  end.
(** [fmt.Sscanf(s, "%d", &v)]: the number read, and the new value of [v]. *)
Definition Sscanf_int (s : string) : option Z :=
  let '(sign, l) := signed (skip_blanks (to_bytes s)) in
  let '(n, count, _) := digits l 0 0 in
  if decide (count ≠ 0%nat) then if int64 (sign * n) then Some (sign * n) else None else None.
Definition Sscanf_d (s : string) (v : Z) : Z := default v (Sscanf_int s).

Lemma HasSuffix_app s p : HasSuffix (s +:+ p) p = true.
Proof.
  unfold HasSuffix. apply is_prefix_spec. exists (reverse (to_bytes s)).
  by rewrite to_bytes_app, reverse_app.
Qed.
Lemma HasSuffix_last s a b :
  HasSuffix (s +:+ String a "") (String b "") = bool_decide (a = b).
Proof.
  unfold HasSuffix. rewrite to_bytes_app, reverse_app. simpl.
  change (bool_decide (b = a) && true = bool_decide (a = b)). rewrite andb_true_r.
  by apply bool_decide_ext.
Qed.
Lemma TrimSuffix_app s p : TrimSuffix (s +:+ p) p = s.
Proof.
  unfold TrimSuffix. rewrite HasSuffix_app, <- !to_bytes_length, to_bytes_app, length_app,
    Nat.add_sub, take_app_length. apply of_to_bytes.
Qed.

(** *** Reading a printed number *)

Definition is_digit (a : ascii) : bool := bool_decide (digit a ≠ None).

Lemma digit_char (x : N) : (x < 10)%N → digit (pretty_N_char x) = Some (Z.of_N x).
Proof.
  intros Hx. assert (x = 0 ∨ x = 1 ∨ x = 2 ∨ x = 3 ∨ x = 4 ∨ x = 5 ∨ x = 6 ∨ x = 7 ∨ x = 8 ∨ x = 9)%N
    as Hc by lia.
  by repeat (destruct Hc as [->|Hc]; [reflexivity|]); subst x.
Qed.

Lemma digits_app l l' acc n :
  Forall is_digit l → ∃ v, digits l acc n = (v, (n + length l)%nat, []) ∧
  digits (l ++ l') acc n = digits l' v (n + length l).
Proof.
  intros Hl. revert acc n. induction Hl as [|a l Ha Hl IH]; intros acc n.
  { exists acc. by rewrite Nat.add_0_r. }
  unfold is_digit in Ha. apply bool_decide_unpack in Ha. simpl.
  destruct (digit a) as [d|]; [|done].
  destruct (IH (10 * acc + d) (S n)) as (v & -> & ->). exists v.
  by rewrite Nat.add_succ_r.
Qed.

Lemma digits_stop a l acc n : is_digit a = false → digits (a :: l) acc n = (acc, n, a :: l).
Proof. unfold is_digit. simpl. destruct (digit a); done. Qed.

Lemma digits_pretty_go x s :
  ∃ k, digits (to_bytes (pretty_N_go x s)) 0 0 = digits (to_bytes s) (Z.of_N x) k ∧
  ((0 < x)%N → (0 < k)%nat).
Proof.
  revert s. induction (N.lt_wf_0 x) as [x _ IH]; intros s.
  destruct (decide (x = 0)%N) as [->|Hx].
  { rewrite pretty_N_go_0. exists O. split; [done|lia]. }
  rewrite pretty_N_go_step by lia.
  destruct (IH (x `div` 10)%N ltac:(apply N.div_lt; lia)
    (String (pretty_N_char (x `mod` 10)) s)) as (k & -> & _).
  exists (S k). split; [|lia]. simpl. rewrite digit_char by (apply N.mod_lt; lia).
  f_equal. pose proof (N.div_mod x 10). lia.
Qed.

Lemma pretty_go_digits x s :
  Forall is_digit (to_bytes s) → Forall is_digit (to_bytes (pretty_N_go x s)).
Proof.
  revert s. induction (N.lt_wf_0 x) as [x _ IH]; intros s Hs.
  destruct (decide (x = 0)%N) as [->|Hx]; [by rewrite pretty_N_go_0|].
  rewrite pretty_N_go_step by lia. apply IH; [apply N.div_lt; lia|].
  simpl. constructor; [|done]. unfold is_digit. by rewrite digit_char by (apply N.mod_lt; lia).
Qed.

Lemma pretty_Z_of_N n : pretty (Z.of_N n) = pretty n.
Proof. by destruct n. Qed.

(** A printed natural number is read back to the last digit. *)
Lemma digits_pretty n :
  0 ≤ n → Forall is_digit (to_bytes (pretty n)) ∧ to_bytes (pretty n) ≠ [] ∧
  ∃ k, digits (to_bytes (pretty n)) 0 0 = (n, S k, []).
Proof.
  intros Hn. rewrite <- (Z2N.id n), !pretty_Z_of_N by done. set (m := Z.to_N n).
  unfold pretty, pretty_N. case_decide as Hm.
  { rewrite Hm. split_and!; [repeat constructor|done|by exists O]. }
  pose proof (pretty_go_digits m "" ltac:(constructor)) as Hd.
  destruct (digits_pretty_go m "") as (k & Hk & Hpos).
  destruct k as [|k]; [lia|]. simpl in Hk.
  split_and!; [done| |by exists k]. intros Hnil. by rewrite Hnil in Hk.
Qed.
End Numbers.
