(* ===== verification/Wire.v ===== *)
(** * Wire: the binary frame protocol

    network/protocol_message.c (the frame encoders and the decoder) and the Go
    binding over it: network/client.go (the [Send*] methods and
    [RecvProtocolMessage]) and network/types.go ([convertProtocolMessage]).

    A socket's byte stream is a [list ascii].  An encoder returns the bytes it
    hands to [send_all], or [None] for a return code of -1; the decoder takes
    the bytes that are still to come (up to the peer's close) and returns the
    message and the rest, or [None] for -1.  The host is little-endian, as in
    the [__BYTE_ORDER__] branch of the code that swaps. *)

From S2P Require Export Prelude GoStrings.

Local Open Scope Z_scope.

(** ** Bytes and integers in memory *)

Definition byte_of (z : Z) : ascii := ascii_of_N (Z.to_N (u8 z)).
Definition val (b : ascii) : Z := Z.of_N (N_of_ascii b).

(** The [n] bytes of an integer as a little-endian host stores them. *)
Fixpoint le_bytes (n : nat) (v : Z) : list ascii :=
  match n with
  | O => []
  | S n => byte_of v :: le_bytes n (Z.shiftr v 8)
  end.
Fixpoint le_val (l : list ascii) : Z :=
  match l with
  | [] => 0
  | b :: l => val b + 2 ^ 8 * le_val l
  end.

Lemma val_range b : 0 ≤ val b < 2 ^ 8.
Proof. by destruct b as [[] [] [] [] [] [] [] []]. Qed.
Lemma val_byte_of z : val (byte_of z) = u8 z.
Proof.
  unfold val, byte_of. pose proof (wrap_u_range 8 z ltac:(lia)) as H. unfold u8.
  rewrite N_ascii_embedding by lia. lia.
Qed.
Lemma byte_of_val b : byte_of (val b) = b.
Proof. by destruct b as [[] [] [] [] [] [] [] []]. Qed.

Lemma le_bytes_length n v : length (le_bytes n v) = n.
Proof. revert v. induction n; simpl; intros; auto. Qed.

Lemma le_val_range l : 0 ≤ le_val l < 2 ^ (8 * Z.of_nat (length l)).
Proof.
  induction l as [|b l IH]; [done|]. pose proof (val_range b).
  rewrite length_cons, Nat2Z.inj_succ, Z.mul_succ_r, Z.add_comm, Z.pow_add_r by lia.
  simpl le_val. nia.
Qed.

Lemma le_bytes_val l : le_bytes (length l) (le_val l) = l.
Proof.
  induction l as [|b l IH]; [done|]. simpl. pose proof (val_range b) as Hb. f_equal.
  - rewrite <- (byte_of_val b) at 2. unfold byte_of, u8, wrap_u.
    rewrite (Z.mul_comm (2 ^ 8)), Z.mod_add by lia. done.
  - rewrite Z.shiftr_div_pow2 by lia.
    replace ((val b + 2 ^ 8 * le_val l) / 2 ^ 8) with (le_val l); [done|].
    rewrite (Z.mul_comm (2 ^ 8)), Z.div_add, Z.div_small by lia. lia.
Qed.

Lemma le_val_bytes n v : 0 ≤ v < 2 ^ (8 * Z.of_nat n) → le_val (le_bytes n v) = v.
Proof.
  revert v. induction n as [|n IH]; intros v Hv; simpl; [simpl in Hv; lia|].
  rewrite Nat2Z.inj_succ, Z.mul_succ_r, Z.add_comm, Z.pow_add_r in Hv by lia.
  rewrite val_byte_of, Z.shiftr_div_pow2 by lia. rewrite IH.
  - unfold u8, wrap_u. pose proof (Z.div_mod v (2 ^ 8)). lia.
  - split; [apply Z.div_pos; lia|]. apply Z.div_lt_upper_bound; lia.
Qed.

Lemma le_bytes_app n m a b :
  0 ≤ a < 2 ^ (8 * Z.of_nat n) →
  le_bytes (n + m) (Z.lor (Z.shiftl b (8 * Z.of_nat n)) a) = le_bytes n a ++ le_bytes m b.
Proof.
  revert a. induction n as [|n IH]; intros a Ha.
  { simpl in *. replace a with 0 by lia. by rewrite Z.lor_0_r, Z.shiftl_0_r. }
  assert (Z.shiftr a 8 = a / 2 ^ 8) as Hs by (rewrite Z.shiftr_div_pow2; lia).
  rewrite Nat2Z.inj_succ, Z.mul_succ_r in *.
  rewrite (Z.pow_add_r 2 (8 * Z.of_nat n) 8) in Ha by lia. simpl. f_equal.
  - unfold byte_of, u8, wrap_u. do 2 f_equal.
    rewrite <- !Z.land_ones by lia. rewrite Z.land_lor_distr_l.
    replace (Z.land (Z.shiftl b (8 * Z.of_nat n + 8)) (Z.ones 8)) with 0;
      [by rewrite Z.lor_0_l|].
    symmetry. rewrite Z.land_ones, Z.shiftl_mul_pow2, Z.pow_add_r, Z.mul_assoc by lia.
    apply Z.mod_mul. lia.
  - rewrite Z.shiftr_lor, Z.shiftr_shiftl_l by lia.
    replace (8 * Z.of_nat n + 8 - 8) with (8 * Z.of_nat n) by lia.
    apply IH. rewrite Hs. split; [apply Z.div_pos; lia|]. apply Z.div_lt_upper_bound; lia.
Qed.

(** ** Network byte order *)

(** [htons], [htonl] and their inverses on a little-endian host: the bytes in
    memory are reversed. *)
Definition htons (v : Z) : Z := le_val (reverse (le_bytes 2 v)).
Definition htonl (v : Z) : Z := le_val (reverse (le_bytes 4 v)).
Abbreviation ntohs := htons (only parsing).
Abbreviation ntohl := htonl (only parsing).

(** The two halves are swapped and each goes through [htonl]. *)
Definition htonll_u64 (v : Z) : Z :=
  Z.lor (Z.shiftl (htonl (u32 (Z.land v 0xFFFFFFFF))) 32) (htonl (u32 (Z.shiftr v 32))).
Definition ntohll_u64 (v : Z) : Z :=
  Z.lor (Z.shiftl (ntohl (u32 (Z.land v 0xFFFFFFFF))) 32) (ntohl (u32 (Z.shiftr v 32))).

(** Big-endian encoding, the reference the swaps are compared with. *)
Definition be_bytes (n : nat) (v : Z) : list ascii := reverse (le_bytes n v).
Definition be_val (l : list ascii) : Z := le_val (reverse l).

Lemma be_bytes_length n v : length (be_bytes n v) = n.
Proof. unfold be_bytes. by rewrite length_reverse, le_bytes_length. Qed.
Lemma be_val_bytes n v : 0 ≤ v < 2 ^ (8 * Z.of_nat n) → be_val (be_bytes n v) = v.
Proof. intros. unfold be_val, be_bytes. rewrite reverse_involutive. by apply le_val_bytes. Qed.
Lemma le_bytes_rev_val n l : length l = n → le_bytes n (le_val (reverse l)) = reverse l.
Proof. intros <-. rewrite <- (length_reverse l) at 1. apply le_bytes_val. Qed.

Lemma htons_bytes v : le_bytes 2 (htons v) = be_bytes 2 v.
Proof. apply le_bytes_rev_val, le_bytes_length. Qed.
Lemma htonl_bytes v : le_bytes 4 (htonl v) = be_bytes 4 v.
Proof. apply le_bytes_rev_val, le_bytes_length. Qed.
Lemma ntohs_val l : length l = 2%nat → ntohs (le_val l) = be_val l.
Proof. intros H. unfold htons, be_val. rewrite <- H. by rewrite le_bytes_val. Qed.
Lemma ntohl_val l : length l = 4%nat → ntohl (le_val l) = be_val l.
Proof. intros H. unfold htonl, be_val. rewrite <- H. by rewrite le_bytes_val. Qed.
Lemma htonl_range v : 0 ≤ htonl v < 2 ^ 32.
Proof.
  unfold htonl. pose proof (le_val_range (reverse (le_bytes 4 v))) as H.
  by rewrite length_reverse, le_bytes_length in H.
Qed.

Lemma le_bytes_halves v :
  0 ≤ v < 2 ^ 64 →
  le_bytes 8 v = le_bytes 4 (u32 (Z.land v 0xFFFFFFFF)) ++ le_bytes 4 (u32 (Z.shiftr v 32)).
Proof.
  intros Hv. change 0xFFFFFFFF with (Z.ones 32).
  assert (u32 (Z.land v (Z.ones 32)) = v mod 2 ^ 32) as ->.
  { rewrite Z.land_ones by lia. unfold u32, wrap_u. by rewrite Z.mod_mod. }
  assert (u32 (Z.shiftr v 32) = Z.shiftr v 32) as ->.
  { apply wrap_u_small. rewrite Z.shiftr_div_pow2 by lia.
    split; [apply Z.div_pos; lia|apply Z.div_lt_upper_bound; lia]. }
  rewrite <- (le_bytes_app 4 4) by (apply Z.mod_pos_bound; lia).
  f_equal. apply Z.bits_inj'. intros i Hi.
  rewrite Z.lor_spec, Z.shiftl_spec, <- Z.land_ones, Z.land_spec by lia.
  destruct (decide (i < 32)).
  - rewrite Z.ones_spec_low by lia. rewrite (Z.testbit_neg_r _ (i - _)) by lia.
    by rewrite andb_true_r.
  - rewrite Z.ones_spec_high, andb_false_r, orb_false_r, Z.shiftr_spec by lia.
    f_equal. lia.
Qed.

Lemma htonll_bytes v : 0 ≤ v < 2 ^ 64 → le_bytes 8 (htonll_u64 v) = be_bytes 8 v.
Proof.
  intros Hv. unfold htonll_u64.
  rewrite (le_bytes_app 4 4) by apply htonl_range. rewrite !htonl_bytes.
  unfold be_bytes. by rewrite <- reverse_app, <- le_bytes_halves.
Qed.

#[global] Arguments le_bytes : simpl never.
#[global] Arguments le_val : simpl never.
#[global] Arguments htons : simpl never.
#[global] Arguments htonl : simpl never.
#[global] Arguments htonll_u64 : simpl never.

(** ** protocol.h *)

Definition MSG_LOGIN : Z := 0x01.
Definition MSG_COMMAND : Z := 0x02.
Definition MSG_FILE_META : Z := 0x03.
Definition MSG_FILE_CHUNK : Z := 0x04.
Definition MSG_FILE_DONE : Z := 0x05.
Definition MSG_ACK : Z := 0x06.
Definition MSG_ERROR : Z := 0x7F.

Definition PROTOCOL_MAX_PAYLOAD : Z := 1024 * 1024.
Definition PROTOCOL_MAX_DEVICE_ID : Z := 255.
Definition PROTOCOL_MAX_TOKEN : Z := 1024.
Definition PROTOCOL_MAX_SESSION : Z := 128.
Definition PROTOCOL_MAX_FILENAME : Z := 512.
Definition PROTOCOL_MAX_MESSAGE : Z := 4096.
Definition INVALID_SOCKET : Z := -1.

Definition zlen {A} (l : list A) : Z := Z.of_nat (length l).

(** ** C strings *)

Definition NUL : ascii := ascii_of_N 0.
(** The bytes of a char buffer up to its first NUL: what [strlen] and
    [C.GoString] see. *)
Fixpoint c_str (l : list ascii) : list ascii :=
  match l with
  | [] => []
  | a :: l => if decide (a = NUL) then [] else a :: c_str l
  end.
(** [C.CString(s)], read back by a C function. *)
Definition CString (s : string) : list ascii := c_str (to_bytes s).
Definition GoString (buf : list ascii) : string := of_bytes (c_str buf).

Definition nul_free (s : string) : Prop := NUL ∉ to_bytes s.
#[export] Instance nul_free_dec s : Decision (nul_free s).
Proof. apply _. Defined.

Lemma c_str_free l : NUL ∉ l → c_str l = l.
Proof.
  induction l as [|a l IH]; simpl; [done|]. intros [Ha Hl]%not_elem_of_cons.
  by rewrite decide_False, IH.
Qed.
Lemma CString_nul_free s : nul_free s → CString s = to_bytes s.
Proof. apply c_str_free. Qed.
Lemma c_str_idem l : c_str (c_str l) = c_str l.
Proof.
  induction l as [|a l IH]; simpl; [done|]. case_decide; simpl; [done|].
  by rewrite decide_False, IH.
Qed.

Lemma NUL_c_str l : NUL ∉ c_str l.
Proof.
  induction l as [|a l IH]; simpl; [set_solver|]. case_decide; [set_solver|].
  by apply not_elem_of_cons.
Qed.

(** ** Encoders *)

(** The packed [protocol_frame_header_t]. *)
Definition frame_header (type length : Z) : list ascii :=
  byte_of type :: le_bytes 4 (htonl length).

(** [protocol_send_frame]: the header, then the payload. *)
Definition protocol_send_frame (fd type : Z) (payload : list ascii) : option (list ascii) :=
  if decide (fd = INVALID_SOCKET) then None
  else if decide (zlen payload > PROTOCOL_MAX_PAYLOAD) then None
  else Some (frame_header type (zlen payload) ++ payload).

Definition protocol_send_login (fd : Z) (device_id token : list ascii) : option (list ascii) :=
  if decide (fd = INVALID_SOCKET) then None else
  let device_len := zlen device_id in
  let token_len := zlen token in
  if decide (device_len = 0 ∨ device_len > PROTOCOL_MAX_DEVICE_ID) then None else
  if decide (token_len = 0 ∨ token_len > PROTOCOL_MAX_TOKEN) then None else
  protocol_send_frame fd MSG_LOGIN
    ([byte_of device_len] ++ le_bytes 2 (htons (u16 token_len)) ++ device_id ++ token).

Definition protocol_send_command (fd : Z) (json : list ascii) : option (list ascii) :=
  if decide (zlen json = 0 ∨ zlen json > PROTOCOL_MAX_PAYLOAD) then None else protocol_send_frame fd MSG_COMMAND json.

Definition protocol_send_file_meta (fd : Z) (file_name : list ascii) (file_size : Z) :
    option (list ascii) :=
  let name_len := zlen file_name in
  if decide (name_len = 0 ∨ name_len > PROTOCOL_MAX_FILENAME) then None else
  protocol_send_frame fd MSG_FILE_META
    (le_bytes 2 (htons (u16 name_len)) ++ le_bytes 8 (htonll_u64 file_size) ++ file_name).

(** [payload[0] = sid_len; payload[1] = tok_len;] and the two [memcpy]s. *)
Definition session_prefix (sid tok : list ascii) : list ascii :=
  byte_of (zlen sid) :: byte_of (zlen tok) :: sid ++ tok.

Definition protocol_send_file_chunk (fd : Z) (session_id token : list ascii) (offset : Z)
    (chunk : list ascii) : option (list ascii) :=
  let chunk_len := zlen chunk in
  if decide (chunk_len = 0 ∨ chunk_len > PROTOCOL_MAX_PAYLOAD) then None else
  let sid_len := zlen session_id in
  let tok_len := zlen token in
  if decide (sid_len > PROTOCOL_MAX_SESSION ∨ tok_len > PROTOCOL_MAX_TOKEN) then None else
  protocol_send_frame fd MSG_FILE_CHUNK
    (session_prefix session_id token
     ++ le_bytes 4 (htonl offset) ++ le_bytes 4 (htonl chunk_len) ++ chunk).

Definition protocol_send_file_done (fd : Z) (session_id token : list ascii) :
    option (list ascii) :=
  let sid_len := zlen session_id in
  let tok_len := zlen token in
  if decide (sid_len > PROTOCOL_MAX_SESSION ∨ tok_len > PROTOCOL_MAX_TOKEN) then None else
  protocol_send_frame fd MSG_FILE_DONE
    (session_prefix session_id token).

Definition protocol_send_ack (fd status_code : Z) (msg_text : list ascii) :
    option (list ascii) :=
  let msg_len := zlen msg_text in
  if decide (msg_len > PROTOCOL_MAX_MESSAGE) then None else
  protocol_send_frame fd MSG_ACK
    (le_bytes 2 (htons status_code) ++ le_bytes 2 (htons (u16 msg_len)) ++ msg_text).

(** ** Decoder *)

(** [protocol_message_t]: a char buffer holds the bytes copied into it; the
    fields a type does not fill stay zeroed. *)
Record protocol_message := {
  type : Z;
  data : list ascii;
  device_id : list ascii;
  token : list ascii;
  session_id : list ascii;
  file_name : list ascii;
  file_size : Z;
  chunk_offset : Z;
  chunk_len : Z;
  status_code : Z;
  status_msg : list ascii;
}.

(** The message after [memset], the type and the payload stored. *)
Definition raw_message (t : Z) (p : list ascii) : protocol_message := {|
  type := t; data := p; device_id := []; token := []; session_id := [];
  file_name := []; file_size := 0; chunk_offset := 0; chunk_len := 0;
  status_code := 0; status_msg := [];
|}.

Definition byte_at (p : list ascii) (i : nat) : Z :=
  match p !! i with Some b => val b | None => 0 end.
(** [n] bytes of the payload from offset [i]. *)
Definition window (i n : nat) (p : list ascii) : list ascii := take n (drop i p).
Definition rd16 (p : list ascii) (i : nat) : Z := ntohs (le_val (window i 2 p)).
Definition rd32 (p : list ascii) (i : nat) : Z := ntohl (le_val (window i 4 p)).

Section Parse.
Context (t : Z) (p : list ascii).
Let m0 := raw_message t p.
Let remain := zlen p.

Definition parse_login : protocol_message :=
  if decide (remain < 3) then m0 else
  let dev_len := byte_at p 0 in
  let token_len := rd16 p 1 in
  if decide (remain < 3 + dev_len + token_len) then m0 else
  if decide (dev_len > PROTOCOL_MAX_DEVICE_ID ∨ token_len > PROTOCOL_MAX_TOKEN) then m0 else
  {| type := t; data := p;
     device_id := window 3 (Z.to_nat dev_len) p;
     token := window (3 + Z.to_nat dev_len) (Z.to_nat token_len) p;
     session_id := []; file_name := []; file_size := 0; chunk_offset := 0;
     chunk_len := 0; status_code := 0; status_msg := [] |}.

Definition parse_file_meta : protocol_message :=
  if decide (remain < 2 + 8) then m0 else
  let name_len := rd16 p 0 in
  if decide (name_len > PROTOCOL_MAX_FILENAME) then m0 else
  if decide (remain < 2 + 8 + name_len) then m0 else
  {| type := t; data := p; device_id := []; token := []; session_id := [];
     file_name := window 10 (Z.to_nat name_len) p;
     file_size := ntohll_u64 (le_val (window 2 8 p));
     chunk_offset := 0; chunk_len := 0; status_code := 0; status_msg := [] |}.

Definition parse_file_chunk : protocol_message :=
  if decide (remain < 2) then m0 else
  let sid_len := byte_at p 0 in
  let tok_len := byte_at p 1 in
  if decide (sid_len > PROTOCOL_MAX_SESSION ∨ tok_len > PROTOCOL_MAX_TOKEN) then m0 else
  if decide (remain < 2 + sid_len + tok_len + 8) then m0 else
  let pos_tok := (2 + Z.to_nat sid_len)%nat in
  let pos := (pos_tok + Z.to_nat tok_len)%nat in
  {| type := t; data := p; device_id := [];
     session_id := window 2 (Z.to_nat sid_len) p;
     token := window pos_tok (Z.to_nat tok_len) p;
     file_name := []; file_size := 0;
     chunk_offset := rd32 p pos; chunk_len := rd32 p (pos + 4);
     status_code := 0; status_msg := [] |}.

Definition parse_file_done : protocol_message :=
  if decide (remain < 2) then m0 else
  let sid_len := byte_at p 0 in
  let tok_len := byte_at p 1 in
  if decide (sid_len > PROTOCOL_MAX_SESSION ∨ tok_len > PROTOCOL_MAX_TOKEN) then m0 else
  if decide (remain < 2 + sid_len + tok_len) then m0 else
  {| type := t; data := p; device_id := [];
     session_id := window 2 (Z.to_nat sid_len) p;
     token := window (2 + Z.to_nat sid_len) (Z.to_nat tok_len) p;
     file_name := []; file_size := 0; chunk_offset := 0; chunk_len := 0;
     status_code := 0; status_msg := [] |}.

(** The status code is stored before the length checks. *)
Definition parse_ack : protocol_message :=
  if decide (remain < 4) then m0 else
  let code := rd16 p 0 in
  let with_msg (text : list ascii) : protocol_message :=
    {| type := t; data := p; device_id := []; token := []; session_id := [];
       file_name := []; file_size := 0; chunk_offset := 0; chunk_len := 0;
       status_code := code; status_msg := text |} in
  let mlen := rd16 p 2 in
  if decide (mlen > PROTOCOL_MAX_MESSAGE) then with_msg [] else
  if decide (remain < 4 + mlen) then with_msg [] else
  with_msg (window 4 (Z.to_nat mlen) p).

Definition parse_payload : protocol_message :=
  if decide (t = MSG_LOGIN) then parse_login
  else if decide (t = MSG_FILE_META) then parse_file_meta
  else if decide (t = MSG_FILE_CHUNK) then parse_file_chunk
  else if decide (t = MSG_FILE_DONE) then parse_file_done
  else if decide (t = MSG_ACK ∨ t = MSG_ERROR) then parse_ack
  else m0.
End Parse.

(** [recv_all_bytes]: exactly [n] bytes, or failure when the stream ends. *)
Definition recv_all_bytes (n : nat) (input : list ascii) : option (list ascii * list ascii) :=
  if decide (length input < n)%nat then None else Some (take n input, drop n input).

Definition protocol_recv_message (fd : Z) (input : list ascii) :
    option (protocol_message * list ascii) :=
  if decide (fd = INVALID_SOCKET) then None else
  '(hdr, input) ← recv_all_bytes 5 input;
  let payload_len := rd32 hdr 1 in
  if decide (payload_len > PROTOCOL_MAX_PAYLOAD) then None else
  '(payload, input) ← recv_all_bytes (Z.to_nat payload_len) input;
  Some (parse_payload (byte_at hdr 0) payload, input).

(** ** The Go binding *)

(** [network.ProtocolMessage]. *)
Record ProtocolMessage := {
  Type_ : Z;
  Raw : list ascii;
  DeviceID : string;
  Token : string;
  SessionID : string;
  CommandJSON : list ascii;
  FileName : string;
  FileSize : Z;
  ChunkOffset : Z;
  ChunkLen : Z;
  ChunkData : list ascii;
  StatusCode : Z;
  StatusMsg : string;
}.

Definition convertProtocolMessage (m : protocol_message) : ProtocolMessage :=
  let raw := data m in
  {| Type_ := type m;
     Raw := raw;
     DeviceID := GoString (device_id m);
     Token := GoString (token m);
     SessionID := GoString (session_id m);
     CommandJSON := if decide (type m = MSG_COMMAND) then raw else [];
     FileName := GoString (file_name m);
     FileSize := file_size m;
     ChunkOffset := chunk_offset m;
     ChunkLen := chunk_len m;
     ChunkData :=
       if decide (type m = MSG_FILE_CHUNK) then
         if decide (2 ≤ zlen raw) then
           let sidLen := byte_at raw 0 in
           let tokLen := byte_at raw 1 in
           let pos := 2 + sidLen + tokLen + 8 in
           if decide (pos ≤ zlen raw) then drop (Z.to_nat pos) raw else []
         else []
       else [];
     StatusCode := status_code m;
     StatusMsg := GoString (status_msg m) |}.

(** [TCPClient]: [None] is a nil pointer, the integer its file descriptor. *)
Definition TCPClient : Type := option Z.
Definition client_open (c : TCPClient) : bool :=
  match c with Some fd => negb (fd =? INVALID_SOCKET) | None => false end.
Definition client_fd (c : TCPClient) : Z := default INVALID_SOCKET c.
Definition IsOpen : TCPClient → bool := client_open.
Definition Equal (c other : TCPClient) : bool :=
  match c, other with Some a, Some b => a =? b | _, _ => false end.

Definition guard_open {A} (c : TCPClient) (r : result A) : result A :=
  if client_open c then r else Err "client not open".
Definition rc {A} (msg : string) (o : option A) : result A :=
  match o with Some a => Ok a | None => Err msg end.

(** The bytes each method puts on the wire. *)
Definition SendLogin (c : TCPClient) (deviceID token : string) : result (list ascii) :=
  guard_open c (rc "send login failed"
    (protocol_send_login (client_fd c) (CString deviceID) (CString token))).
Definition SendCommand (c : TCPClient) (jsonPayload : list ascii) : result (list ascii) :=
  guard_open c (
    if decide (length jsonPayload = 0%nat) then Err "empty command payload"
    else rc "send command failed" (protocol_send_command (client_fd c) jsonPayload)).
Definition SendFileMeta (c : TCPClient) (name : string) (size : Z) : result (list ascii) :=
  guard_open c (rc "send file meta failed"
    (protocol_send_file_meta (client_fd c) (CString name) size)).
Definition SendFileChunkWithSession (c : TCPClient) (sessionID token : string) (offset : Z)
    (data : list ascii) : result (list ascii) :=
  guard_open c (
    if decide (length data = 0%nat) then Ok []
    else rc "send file chunk failed"
      (protocol_send_file_chunk (client_fd c) (CString sessionID) (CString token) offset data)).
Definition SendFileDoneWithSession (c : TCPClient) (sessionID token : string) :
    result (list ascii) :=
  guard_open c (rc "send file done failed"
    (protocol_send_file_done (client_fd c) (CString sessionID) (CString token))).
Definition SendAck (c : TCPClient) (code : Z) (msg : string) : result (list ascii) :=
  guard_open c (rc "send ack failed"
    (protocol_send_ack (client_fd c) code (CString msg))).

Definition RecvProtocolMessage (c : TCPClient) (input : list ascii) :
    result (ProtocolMessage * list ascii) :=
  guard_open c (
    match protocol_recv_message (client_fd c) input with
    | Some (m, rest) => Ok (convertProtocolMessage m, rest)
    | None => Err "recv message failed"
    end).

(** ** Frames on a stream *)

Lemma length_frame_header t n : length (frame_header t n) = 5%nat.
Proof. unfold frame_header. by rewrite length_cons, le_bytes_length. Qed.

Lemma window_app_l (i n : nat) (a b c : list ascii) :
  length a = i → length b = n → window i n (a ++ b ++ c) = b.
Proof. intros <- <-. unfold window. by rewrite drop_app_length, take_app_length. Qed.
Lemma window_app_r (i n : nat) (a b : list ascii) :
  length a = i → length b = n → window i n (a ++ b) = b.
Proof. intros <- <-. unfold window. by rewrite drop_app_length, firstn_all. Qed.

Lemma rd16_at (i : nat) a v c :
  length a = i → 0 ≤ v < 2 ^ 16 → rd16 (a ++ le_bytes 2 (htons v) ++ c) i = v.
Proof.
  intros Ha Hv. unfold rd16. rewrite (window_app_l i 2) by (done || apply le_bytes_length).
  rewrite htons_bytes, ntohs_val by apply be_bytes_length. by apply be_val_bytes.
Qed.
Lemma rd32_at (i : nat) a v c :
  length a = i → 0 ≤ v < 2 ^ 32 → rd32 (a ++ le_bytes 4 (htonl v) ++ c) i = v.
Proof.
  intros Ha Hv. unfold rd32. rewrite (window_app_l i 4) by (done || apply le_bytes_length).
  rewrite htonl_bytes, ntohl_val by apply be_bytes_length. by apply be_val_bytes.
Qed.

Lemma rd32_frame_header t n : 0 ≤ n < 2 ^ 32 → rd32 (frame_header t n) 1 = n.
Proof.
  intros. unfold frame_header. rewrite <- (app_nil_r (le_bytes 4 _)).
  by apply (rd32_at 1 [byte_of t]).
Qed.

Lemma lor_shift_add a b k : 0 ≤ k → 0 ≤ b < 2 ^ k → Z.lor (Z.shiftl a k) b = a * 2 ^ k + b.
Proof.
  intros Hk Hb. rewrite <- Z.shiftl_mul_pow2 by done.
  assert (Z.land (Z.shiftl a k) b = 0) as H.
  { apply Z.bits_inj'. intros i Hi. rewrite Z.land_spec, Z.shiftl_spec, Z.bits_0 by done.
    destruct (decide (i < k)); [by rewrite (Z.testbit_neg_r a) by lia|].
    rewrite <- (Z.mod_small b (2 ^ k)) by done.
    by rewrite Z.mod_pow2_bits_high, andb_false_r by lia. }
  by rewrite Z.add_nocarry_lxor, Z.lxor_lor.
Qed.

Lemma htonll_range v : 0 ≤ htonll_u64 v < 2 ^ 64.
Proof.
  unfold htonll_u64. rewrite lor_shift_add by (lia || apply htonl_range).
  pose proof (htonl_range (u32 (Z.land v 0xFFFFFFFF))).
  pose proof (htonl_range (u32 (Z.shiftr v 32))). nia.
Qed.

Lemma ntohll_htonll v : 0 ≤ v < 2 ^ 64 → ntohll_u64 (htonll_u64 v) = v.
Proof.
  intros Hv. change (ntohll_u64 (htonll_u64 v)) with (htonll_u64 (htonll_u64 v)).
  rewrite <- (le_val_bytes 8 (htonll_u64 _)) by apply htonll_range.
  rewrite htonll_bytes by apply htonll_range. unfold be_bytes.
  rewrite htonll_bytes by done. unfold be_bytes. rewrite reverse_involutive.
  by apply (le_val_bytes 8).
Qed.

Lemma send_frame_inv fd t p frame :
  protocol_send_frame fd t p = Some frame →
  fd ≠ INVALID_SOCKET ∧ zlen p ≤ PROTOCOL_MAX_PAYLOAD ∧
  frame = frame_header t (zlen p) ++ p.
Proof.
  unfold protocol_send_frame. case_decide as Hfd; [done|]. case_decide as Hlen; [done|].
  intros Hf%(inj Some). split_and!; [done|lia|done].
Qed.

(** A frame that fits is read back whole, whatever follows it. *)
Lemma recv_frame fd fd' t p frame rest :
  protocol_send_frame fd t p = Some frame → fd' ≠ INVALID_SOCKET →
  protocol_recv_message fd' (frame ++ rest) = Some (parse_payload (u8 t) p, rest).
Proof.
  intros (_ & Hlen & ->)%send_frame_inv Hfd. unfold protocol_recv_message.
  rewrite decide_False by done. unfold PROTOCOL_MAX_PAYLOAD in *.
  assert (0 ≤ zlen p < 2 ^ 32) as Hr by (unfold zlen in *; lia).
  unfold recv_all_bytes.
  pose proof (length_frame_header t (zlen p)) as Hh.
  rewrite <- app_assoc. rewrite decide_False by (rewrite length_app; lia).
  rewrite take_app_length', drop_app_length' by done. cbn [mbind option_bind].
  rewrite rd32_frame_header by done. rewrite decide_False by lia. unfold zlen.
  rewrite Nat2Z.id.
  rewrite decide_False by (rewrite length_app; lia).
  rewrite take_app_length, drop_app_length. simpl. unfold byte_at. simpl.
  by rewrite val_byte_of.
Qed.

(** An incomplete frame is not a message. *)
Lemma recv_truncated fd fd' t p frame k :
  protocol_send_frame fd t p = Some frame → (k < length frame)%nat →
  protocol_recv_message fd' (take k frame) = None.
Proof.
  intros (_ & Hlen & ->)%send_frame_inv Hk. unfold protocol_recv_message.
  case_decide as Hfd; [done|]. unfold PROTOCOL_MAX_PAYLOAD in *.
  assert (0 ≤ zlen p < 2 ^ 32) as Hr by (unfold zlen in *; lia).
  pose proof (length_frame_header t (zlen p)) as Hh.
  unfold recv_all_bytes. rewrite length_take.
  case_decide as H5; [done|]. cbn [mbind option_bind].
  rewrite take_app_ge, take_app_length', drop_app_length' by lia.
  rewrite rd32_frame_header by done. rewrite decide_False by lia.
  rewrite decide_True; [done|]. rewrite length_take. rewrite length_app in Hk.
  rewrite Hh in *. unfold zlen. lia.
Qed.

Lemma send_frame_bound fd t p frame :
  protocol_send_frame fd t p = Some frame →
  zlen p ≤ PROTOCOL_MAX_PAYLOAD ∧ length frame = (5 + length p)%nat.
Proof.
  intros (Hfd & Hlen & ->)%send_frame_inv.
  split; [lia|]. by rewrite length_app, length_frame_header.
Qed.

(** ** Parsing what the encoders lay out *)

Lemma byte_at_app (a : list ascii) z c i :
  length a = i → 0 ≤ z < 2 ^ 8 → byte_at (a ++ byte_of z :: c) i = z.
Proof.
  intros <- Hz. unfold byte_at. rewrite list_lookup_middle by done.
  rewrite val_byte_of. by apply wrap_u_small.
Qed.

Lemma byte_at_0 z c : 0 ≤ z < 2 ^ 8 → byte_at (byte_of z :: c) 0 = z.
Proof. by apply (byte_at_app []). Qed.
Lemma rd16_0 v c : 0 ≤ v < 2 ^ 16 → rd16 (le_bytes 2 (htons v) ++ c) 0 = v.
Proof. by apply (rd16_at 0 []). Qed.
Lemma rd16_1 x v c : 0 ≤ v < 2 ^ 16 → rd16 (x :: le_bytes 2 (htons v) ++ c) 1 = v.
Proof. by apply (rd16_at 1 [x]). Qed.

Lemma u16_small n : 0 ≤ n < 2 ^ 16 → u16 n = n.
Proof. apply wrap_u_small. Qed.
Lemma zlen_app {A} (a b : list A) : zlen (a ++ b) = zlen a + zlen b.
Proof. unfold zlen. rewrite length_app. lia. Qed.
Lemma zlen_le_bytes n v : zlen (le_bytes n v) = Z.of_nat n.
Proof. unfold zlen. by rewrite le_bytes_length. Qed.
Lemma zlen_cons {A} (x : A) l : zlen (x :: l) = 1 + zlen l.
Proof. unfold zlen. rewrite length_cons. lia. Qed.
Lemma zlen_nonneg {A} (l : list A) : 0 ≤ zlen l.
Proof. unfold zlen. lia. Qed.
Lemma zlen_to_nat {A} (l : list A) : Z.to_nat (zlen l) = length l.
Proof. unfold zlen. lia. Qed.

Ltac zlens :=
  repeat first [rewrite zlen_app | rewrite zlen_cons | rewrite zlen_le_bytes];
  repeat match goal with
  | |- context [zlen ?l] => lazymatch goal with
      | _ : 0 ≤ zlen l |- _ => fail
      | _ => pose proof (zlen_nonneg l)
      end
  end; lia.
Ltac no_case := rewrite decide_False by (
  try unfold PROTOCOL_MAX_DEVICE_ID, PROTOCOL_MAX_TOKEN, PROTOCOL_MAX_SESSION,
    PROTOCOL_MAX_FILENAME, PROTOCOL_MAX_MESSAGE; zlens).

Lemma parse_login_layout t dev tok :
  zlen dev ≤ 255 → zlen tok ≤ 1024 →
  parse_login t (byte_of (zlen dev) :: le_bytes 2 (htons (u16 (zlen tok))) ++ dev ++ tok) = {|
    type := t;
    data := byte_of (zlen dev) :: le_bytes 2 (htons (u16 (zlen tok))) ++ dev ++ tok;
    device_id := dev; token := tok; session_id := []; file_name := []; file_size := 0;
    chunk_offset := 0; chunk_len := 0; status_code := 0; status_msg := [] |}.
Proof.
  intros Hd Ht. pose proof (zlen_nonneg dev). pose proof (zlen_nonneg tok).
  rewrite u16_small by lia. unfold parse_login.
  rewrite byte_at_0, rd16_1 by lia.
  no_case. no_case. no_case. rewrite !zlen_to_nat.
  f_equal.
  - apply (window_app_l 3 _ (byte_of (zlen dev) :: le_bytes 2 (htons (zlen tok)))); [|done].
    by rewrite length_cons, le_bytes_length.
  - rewrite app_assoc.
    apply (window_app_r _ _ (byte_of (zlen dev) :: le_bytes 2 (htons (zlen tok)) ++ dev)); [|done].
    by rewrite length_cons, length_app, le_bytes_length.
Qed.

Lemma parse_file_meta_layout t name size :
  zlen name ≤ 512 → 0 ≤ size < 2 ^ 64 →
  let p := le_bytes 2 (htons (u16 (zlen name))) ++ le_bytes 8 (htonll_u64 size) ++ name in
  parse_file_meta t p = {|
    type := t; data := p; device_id := []; token := []; session_id := [];
    file_name := name; file_size := size;
    chunk_offset := 0; chunk_len := 0; status_code := 0; status_msg := [] |}.
Proof.
  intros Hn Hs p. unfold p, parse_file_meta. pose proof (zlen_nonneg name).
  rewrite u16_small by lia. rewrite rd16_0 by lia.
  no_case. no_case. no_case. rewrite zlen_to_nat.
  f_equal.
  - rewrite app_assoc. apply window_app_r; [|done].
    by rewrite length_app, !le_bytes_length.
  - rewrite (window_app_l 2 8) by apply le_bytes_length.
    rewrite (le_val_bytes 8) by apply htonll_range. by apply ntohll_htonll.
Qed.

Lemma session_prefix_length sid tok :
  length (session_prefix sid tok) = (2 + length sid + length tok)%nat.
Proof. unfold session_prefix. simpl. by rewrite length_app. Qed.

Lemma byte_at_sid sid tok k :
  zlen sid ≤ 128 → byte_at (session_prefix sid tok ++ k) 0 = zlen sid.
Proof.
  intros. pose proof (zlen_nonneg sid). unfold session_prefix.
  apply byte_at_0. lia.
Qed.
Lemma byte_at_tok sid tok k :
  zlen tok ≤ 255 → byte_at (session_prefix sid tok ++ k) 1 = zlen tok.
Proof.
  intros. pose proof (zlen_nonneg tok). unfold session_prefix.
  apply (byte_at_app [byte_of (zlen sid)] (zlen tok) _ 1); [done|lia].
Qed.
Lemma window_sid sid tok k : window 2 (length sid) (session_prefix sid tok ++ k) = sid.
Proof.
  unfold session_prefix. change (window 2 (length sid)
    ([byte_of (zlen sid); byte_of (zlen tok)] ++ (sid ++ tok) ++ k) = sid).
  rewrite <- app_assoc. by apply window_app_l.
Qed.
Lemma window_tok sid tok k :
  window (2 + length sid) (length tok) (session_prefix sid tok ++ k) = tok.
Proof.
  unfold session_prefix. change (window (2 + length sid) (length tok)
    (([byte_of (zlen sid); byte_of (zlen tok)] ++ (sid ++ tok)) ++ k) = tok).
  rewrite <- !app_assoc, app_assoc. by apply window_app_l.
Qed.

Lemma parse_file_chunk_layout t sid tok off len chunk :
  zlen sid ≤ 128 → zlen tok ≤ 255 → 0 ≤ off < 2 ^ 32 → 0 ≤ len < 2 ^ 32 →
  let p := session_prefix sid tok ++ le_bytes 4 (htonl off) ++ le_bytes 4 (htonl len) ++ chunk in
  parse_file_chunk t p = {|
    type := t; data := p; device_id := []; token := tok; session_id := sid;
    file_name := []; file_size := 0; chunk_offset := off; chunk_len := len;
    status_code := 0; status_msg := [] |}.
Proof.
  intros Hs Ht Ho Hl p. unfold p, parse_file_chunk.
  pose proof (zlen_nonneg sid). pose proof (zlen_nonneg tok).
  assert (zlen (session_prefix sid tok) = 2 + zlen sid + zlen tok) as Hp.
  { unfold zlen. rewrite session_prefix_length. lia. }
  rewrite byte_at_sid, byte_at_tok by done. rewrite zlen_app, Hp.
  no_case. no_case. no_case. rewrite !zlen_to_nat.
  f_equal; [apply window_tok|apply window_sid| |].
  - apply rd32_at; [|done]. rewrite session_prefix_length. lia.
  - rewrite app_assoc. apply rd32_at; [|done].
    rewrite length_app, session_prefix_length, le_bytes_length. lia.
Qed.

Lemma parse_file_done_layout t sid tok :
  zlen sid ≤ 128 → zlen tok ≤ 255 →
  parse_file_done t (session_prefix sid tok) = {|
    type := t; data := session_prefix sid tok; device_id := []; token := tok;
    session_id := sid; file_name := []; file_size := 0; chunk_offset := 0; chunk_len := 0;
    status_code := 0; status_msg := [] |}.
Proof.
  intros Hs Ht. pose proof (zlen_nonneg sid). pose proof (zlen_nonneg tok).
  assert (zlen (session_prefix sid tok) = 2 + zlen sid + zlen tok) as Hp.
  { unfold zlen. rewrite session_prefix_length. lia. }
  rewrite <- (app_nil_r (session_prefix sid tok)) in *. unfold parse_file_done.
  rewrite byte_at_sid, byte_at_tok by done. rewrite Hp.
  no_case. no_case. no_case. rewrite !zlen_to_nat.
  f_equal; [apply window_tok|apply window_sid].
Qed.

Lemma parse_ack_layout t code text :
  0 ≤ code < 2 ^ 16 → zlen text ≤ 4096 →
  let p := le_bytes 2 (htons code) ++ le_bytes 2 (htons (u16 (zlen text))) ++ text in
  parse_ack t p = {|
    type := t; data := p; device_id := []; token := []; session_id := [];
    file_name := []; file_size := 0; chunk_offset := 0; chunk_len := 0;
    status_code := code; status_msg := text |}.
Proof.
  intros Hc Ht p. unfold p, parse_ack. pose proof (zlen_nonneg text).
  rewrite u16_small by lia. rewrite rd16_0 by lia.
  rewrite (rd16_at 2 (le_bytes 2 (htons code))) by (apply le_bytes_length || lia).
  no_case. no_case. no_case. rewrite zlen_to_nat. f_equal.
  rewrite app_assoc. apply window_app_r; [|done]. by rewrite length_app, !le_bytes_length.
Qed.

(** ** Messages as the sender means them *)

(** One value per [Send*] method. *)
Inductive outgoing :=
  | OLogin (dev tok : string)
  | OCommand (json : list ascii)
  | OFileMeta (name : string) (size : Z)
  | OFileChunk (sid tok : string) (offset : Z) (chunk : list ascii)
  | OFileDone (sid tok : string)
  | OAck (code : Z) (msg : string).

Definition send (c : TCPClient) (m : outgoing) : result (list ascii) :=
  match m with
  | OLogin dev tok => SendLogin c dev tok
  | OCommand json => SendCommand c json
  | OFileMeta name size => SendFileMeta c name size
  | OFileChunk sid tok off chunk => SendFileChunkWithSession c sid tok off chunk
  | OFileDone sid tok => SendFileDoneWithSession c sid tok
  | OAck code msg => SendAck c code msg
  end.

Definition payload_of (m : outgoing) : list ascii :=
  match m with
  | OLogin dev tok =>
      byte_of (zlen (CString dev)) :: le_bytes 2 (htons (u16 (zlen (CString tok))))
      ++ CString dev ++ CString tok
  | OCommand json => json
  | OFileMeta name size =>
      le_bytes 2 (htons (u16 (zlen (CString name)))) ++ le_bytes 8 (htonll_u64 size)
      ++ CString name
  | OFileChunk sid tok off chunk =>
      session_prefix (CString sid) (CString tok)
      ++ le_bytes 4 (htonl off) ++ le_bytes 4 (htonl (zlen chunk)) ++ chunk
  | OFileDone sid tok => session_prefix (CString sid) (CString tok)
  | OAck code msg =>
      le_bytes 2 (htons code) ++ le_bytes 2 (htons (u16 (zlen (CString msg)))) ++ CString msg
  end.

Definition type_of (m : outgoing) : Z :=
  match m with
  | OLogin _ _ => MSG_LOGIN | OCommand _ => MSG_COMMAND | OFileMeta _ _ => MSG_FILE_META
  | OFileChunk _ _ _ _ => MSG_FILE_CHUNK | OFileDone _ _ => MSG_FILE_DONE
  | OAck _ _ => MSG_ACK
  end.

(** What the receiver must see. *)
Definition received (m : outgoing) : ProtocolMessage := {|
  Type_ := type_of m;
  Raw := payload_of m;
  DeviceID := match m with OLogin dev _ => dev | _ => "" end;
  Token := match m with OLogin _ tok | OFileChunk _ tok _ _ | OFileDone _ tok => tok | _ => "" end;
  SessionID := match m with OFileChunk sid _ _ _ | OFileDone sid _ => sid | _ => "" end;
  CommandJSON := match m with OCommand json => json | _ => [] end;
  FileName := match m with OFileMeta name _ => name | _ => "" end;
  FileSize := match m with OFileMeta _ size => size | _ => 0 end;
  ChunkOffset := match m with OFileChunk _ _ off _ => off | _ => 0 end;
  ChunkLen := match m with OFileChunk _ _ _ chunk => zlen chunk | _ => 0 end;
  ChunkData := match m with OFileChunk _ _ _ chunk => chunk | _ => [] end;
  StatusCode := match m with OAck code _ => code | _ => 0 end;
  StatusMsg := match m with OAck _ msg => msg | _ => "" end;
|}.

(** Texts without NUL bytes, integers of their Go types, a chunk with data, and
    a session token whose length fits the one-byte field of the frame. *)
Definition wf_outgoing (m : outgoing) : Prop :=
  match m with
  | OLogin dev tok => nul_free dev ∧ nul_free tok
  | OCommand _ => True
  | OFileMeta name size => nul_free name ∧ 0 ≤ size < 2 ^ 64
  | OFileChunk sid tok off chunk =>
      nul_free sid ∧ nul_free tok ∧ 0 ≤ off < 2 ^ 32 ∧ chunk ≠ [] ∧ (String.length tok < 256)%nat
  | OFileDone sid tok => nul_free sid ∧ nul_free tok ∧ (String.length tok < 256)%nat
  | OAck code msg => nul_free msg ∧ 0 ≤ code < 2 ^ 16
  end.

(** The documented size limits. *)
Definition sendable (m : outgoing) : Prop :=
  match m with
  | OLogin dev tok => 0 < zlen (CString dev) ≤ 255 ∧ 0 < zlen (CString tok) ≤ 1024
  | OCommand json => 0 < zlen json ≤ 1024 * 1024
  | OFileMeta name _ => 0 < zlen (CString name) ≤ 512
  | OFileChunk sid tok _ chunk =>
      chunk = [] ∨
      (zlen (CString sid) ≤ 128 ∧ zlen (CString tok) ≤ 1024 ∧
       10 + zlen (CString sid) + zlen (CString tok) + zlen chunk ≤ 1024 * 1024)
  | OFileDone sid tok => zlen (CString sid) ≤ 128 ∧ zlen (CString tok) ≤ 1024
  | OAck _ msg => zlen (CString msg) ≤ 4096
  end.

Definition sends_nothing (m : outgoing) : bool :=
  match m with OFileChunk _ _ _ [] => true | _ => false end.

Lemma zlen_session_prefix sid tok : zlen (session_prefix sid tok) = 2 + zlen sid + zlen tok.
Proof. unfold zlen. rewrite session_prefix_length. lia. Qed.

Lemma client_open_fd c : client_open c = true ↔ client_fd c ≠ INVALID_SOCKET.
Proof.
  destruct c as [fd|]; simpl; [|done]. rewrite negb_true_iff, Z.eqb_neq. done.
Qed.

(** An accepted message is one frame with its payload; the limits are exact. *)
Lemma send_frame_of c m frame :
  send c m = Ok frame → sends_nothing m = false →
  client_open c = true ∧ sendable m ∧
  protocol_send_frame (client_fd c) (type_of m) (payload_of m) = Some frame.
Proof.
  destruct m as [dev tok|json|name size|sid tok off chunk|sid tok|code msg]; simpl;
    unfold SendLogin, SendCommand, SendFileMeta, SendFileChunkWithSession,
      SendFileDoneWithSession, SendAck, guard_open;
    (destruct (client_open c) eqn:Hc; [|done]);
    unfold protocol_send_login, protocol_send_command, protocol_send_file_meta,
      protocol_send_file_chunk, protocol_send_file_done, protocol_send_ack;
    unfold PROTOCOL_MAX_DEVICE_ID, PROTOCOL_MAX_TOKEN, PROTOCOL_MAX_SESSION,
      PROTOCOL_MAX_FILENAME, PROTOCOL_MAX_MESSAGE, PROTOCOL_MAX_PAYLOAD;
    repeat case_decide; try done; intros Hs Hn;
    try (by destruct chunk);
    match type of Hs with
    | rc _ ?o = _ => destruct o as [f|] eqn:Hf; [|done]; injection Hs as ->
    end;
    (split; [done|split; [|first [exact Hf|reflexivity]]]);
    repeat match goal with |- context [zlen ?l] => lazymatch goal with
      | _ : 0 ≤ zlen l |- _ => fail | _ => pose proof (zlen_nonneg l) end end;
    try lia.
  right. apply send_frame_bound in Hf as [Hf _]. unfold PROTOCOL_MAX_PAYLOAD in Hf.
  revert Hf. rewrite !zlen_app, !zlen_le_bytes, zlen_session_prefix. lia.
Qed.

Lemma sent_or_rejected c m :
  client_open c = true → sendable m → sends_nothing m = false → is_ok (send c m) = true.
Proof.
  intros Hc Hs Hn. pose proof (proj1 (client_open_fd c) Hc) as Hfd.
  destruct m as [dev tok|json|name size|sid tok off chunk|sid tok|code msg]; simpl in *;
    unfold SendLogin, SendCommand, SendFileMeta, SendFileChunkWithSession,
      SendFileDoneWithSession, SendAck, guard_open; rewrite Hc;
    unfold protocol_send_login, protocol_send_command, protocol_send_file_meta,
      protocol_send_file_chunk, protocol_send_file_done, protocol_send_ack, protocol_send_frame,
      PROTOCOL_MAX_DEVICE_ID, PROTOCOL_MAX_TOKEN, PROTOCOL_MAX_SESSION,
      PROTOCOL_MAX_FILENAME, PROTOCOL_MAX_MESSAGE, PROTOCOL_MAX_PAYLOAD;
    repeat case_decide; try done; exfalso;
    try (destruct Hs as [->|Hs]; [done|]);
    repeat match goal with H : context [zlen (_ ++ _)] |- _ =>
      rewrite zlen_app in H end;
    rewrite ?zlen_cons, ?zlen_app, ?zlen_le_bytes, ?zlen_session_prefix in *;
    rewrite ?zlen_app in *; rewrite ?zlen_le_bytes in *; unfold zlen in *; simpl in *; try lia.
Qed.

Lemma zlen_CString s : nul_free s → zlen (CString s) = Z.of_nat (String.length s).
Proof. intros. rewrite CString_nul_free by done. unfold zlen. by rewrite to_bytes_length. Qed.
Lemma GoString_CString s : nul_free s → GoString (CString s) = s.
Proof. intros. unfold GoString, CString. rewrite c_str_idem, c_str_free by done. apply of_to_bytes. Qed.

#[local] Arguments GoString : simpl never.
#[local] Arguments CString : simpl never.
#[local] Arguments htonl : simpl never.
#[local] Arguments htons : simpl never.
#[local] Arguments htonll_u64 : simpl never.
#[local] Arguments session_prefix : simpl never.

Lemma parse_received m :
  wf_outgoing m → sendable m → sends_nothing m = false →
  convertProtocolMessage (parse_payload (u8 (type_of m)) (payload_of m)) = received m.
Proof.
  intros Hwf Hs Hn.
  destruct m as [dev tok|json|name size|sid tok off chunk|sid tok|code msg];
    cbn [wf_outgoing sendable sends_nothing type_of payload_of] in *;
    unfold received; cbn [type_of payload_of].
  - destruct Hwf, Hs as [[_ Hd] [_ Ht]].
    change (parse_payload _ ?p) with (parse_login MSG_LOGIN p).
    rewrite parse_login_layout by done. unfold convertProtocolMessage. simpl.
    by rewrite !GoString_CString.
  - done.
  - destruct Hwf, Hs.
    change (parse_payload _ ?p) with (parse_file_meta MSG_FILE_META p).
    rewrite parse_file_meta_layout by done. unfold convertProtocolMessage. simpl.
    by rewrite GoString_CString.
  - destruct Hwf as (Hsid & Htok & Hoff & Hc & Hlen).
    destruct Hs as [->|(Hsl & Htl & Hb)]; [done|].
    pose proof (zlen_CString tok Htok). pose proof (zlen_nonneg chunk).
    pose proof (zlen_nonneg (CString sid)). pose proof (zlen_nonneg (CString tok)).
    change (parse_payload _ ?p) with (parse_file_chunk MSG_FILE_CHUNK p).
    rewrite parse_file_chunk_layout by (done || lia).
    unfold convertProtocolMessage. cbn -[le_bytes session_prefix zlen htonl].
    rewrite !GoString_CString by done. f_equal.
    rewrite byte_at_sid, byte_at_tok by lia. rewrite !zlen_app, zlen_session_prefix, !zlen_le_bytes.
    repeat rewrite decide_True by lia.
    rewrite !app_assoc. apply drop_app_length'.
    rewrite !length_app, session_prefix_length, !le_bytes_length. unfold zlen. lia.
  - destruct Hwf as (Hsid & Htok & Hlen). destruct Hs.
    pose proof (zlen_CString tok Htok).
    change (parse_payload _ ?p) with (parse_file_done MSG_FILE_DONE p).
    rewrite parse_file_done_layout by (done || lia). unfold convertProtocolMessage. simpl.
    by rewrite !GoString_CString.
  - destruct Hwf.
    change (parse_payload _ ?p) with (parse_ack MSG_ACK p).
    rewrite parse_ack_layout by done. unfold convertProtocolMessage. simpl.
    by rewrite GoString_CString.
Qed.

(** Bytes of a sequence of sends, and the messages of [n] receives. *)
Fixpoint send_seq (c : TCPClient) (ms : list outgoing) : result (list ascii) :=
  match ms with
  | [] => Ok []
  | m :: ms => f ← send c m; rest ← send_seq c ms; Ok (f ++ rest)
  end.
Fixpoint recv_seq (c : TCPClient) (n : nat) (input : list ascii) :
    result (list ProtocolMessage * list ascii) :=
  match n with
  | O => Ok ([], input)
  | S n => '(m, input) ← RecvProtocolMessage c input;
           '(ms, input) ← recv_seq c n input; Ok (m :: ms, input)
  end.

Lemma recv_one c c' m frame rest :
  send c m = Ok frame → wf_outgoing m → sends_nothing m = false → client_open c' = true →
  RecvProtocolMessage c' (frame ++ rest) = Ok (received m, rest).
Proof.
  intros Hs Hwf Hn Hc'. pose proof (proj1 (client_open_fd c') Hc') as Hfd.
  apply send_frame_of in Hs as (_ & Hb & Hf); [|done].
  unfold RecvProtocolMessage, guard_open. rewrite Hc'.
  rewrite (recv_frame _ (client_fd c') _ _ frame rest Hf Hfd).
  by rewrite parse_received.
Qed.


Definition sample_messages : list outgoing :=
  [OLogin "dev" "tok"; OFileChunk "up-1" "t" 7 (to_bytes "data"); OAck 200 "pong"].




(** A frame that has not arrived completely is never delivered: on every
    strict prefix of a sent frame the receiver reports an error. *)
Theorem recv_incomplete c c' m frame k :
  send c m = Ok frame → sends_nothing m = false → (k < length frame)%nat →
  is_ok (RecvProtocolMessage c' (take k frame)) = false.
Proof.
  intros Hs Hn Hk. apply send_frame_of in Hs as (_ & _ & Hf); [|done].
  unfold RecvProtocolMessage, guard_open. destruct (client_open c'); [|done].
  by rewrite (recv_truncated _ _ _ _ _ _ Hf Hk).
Qed.

Lemma recv_incomplete_witness :
  is_ok (RecvProtocolMessage (Some 7)
    (take 6 (match send (Some 4) (OAck 200 "pong") with Ok f => f | Err _ => [] end))) = false.
Proof.
  eapply (recv_incomplete (Some 4) (Some 7) (OAck 200 "pong")); [|done|].
  - vm_compute. reflexivity.
  - vm_compute. lia.
Defined.

(** The length byte of a session frame. *)
Lemma parse_file_done_truncated t sid tok :
  zlen sid ≤ 128 → 256 ≤ zlen tok →
  token (parse_file_done t (session_prefix sid tok)) = take (Z.to_nat (u8 (zlen tok))) tok.
Proof.
  intros Hs Ht. pose proof (zlen_nonneg sid).
  pose proof (wrap_u_range 8 (zlen tok) ltac:(lia)) as Hu. fold (u8 (zlen tok)) in Hu.
  pose proof (zlen_session_prefix sid tok) as Hp. unfold parse_file_done.
  assert (byte_at (session_prefix sid tok) 1 = u8 (zlen tok)) as ->.
  { unfold session_prefix, byte_at. simpl. apply val_byte_of. }
  assert (byte_at (session_prefix sid tok) 0 = zlen sid) as ->.
  { rewrite <- (app_nil_r (session_prefix _ _)). by apply byte_at_sid. }
  rewrite Hp. unfold PROTOCOL_MAX_SESSION, PROTOCOL_MAX_TOKEN.
  rewrite !decide_False by lia. simpl token. rewrite zlen_to_nat. unfold window.
  f_equal. unfold session_prefix.
  change (drop (2 + length sid) (byte_of (zlen sid) :: byte_of (zlen tok) :: sid ++ tok))
    with (drop (length sid) (sid ++ tok)). apply drop_app_length.
Qed.

(** The session frames store the token length in one byte while tokens of up
    to 1024 bytes are accepted: a token of 256 bytes or more is sent without an
    error and arrives cut to its length modulo 256. *)
Theorem session_token_truncated c c' sid tok :
  client_open c = true → client_open c' = true → nul_free sid → nul_free tok →
  zlen (CString sid) ≤ 128 → 256 ≤ zlen (CString tok) ≤ 1024 →
  ∃ frame m, SendFileDoneWithSession c sid tok = Ok frame ∧
    RecvProtocolMessage c' frame = Ok (m, []) ∧
    Token m = of_bytes (take (Z.to_nat (zlen (CString tok) mod 256)) (to_bytes tok)) ∧
    Token m ≠ tok.
Proof.
  intros Hc Hc' Hsid Htok Hs Ht.
  destruct (SendFileDoneWithSession c sid tok) as [frame|e] eqn:E.
  2:{ pose proof (sent_or_rejected c (OFileDone sid tok) Hc ltac:(simpl; lia) eq_refl) as H.
      simpl in H. by rewrite E in H. }
  pose proof E as (_ & _ & Hf)%(send_frame_of c (OFileDone sid tok)); [|done].
  pose proof (proj1 (client_open_fd c') Hc') as Hfd.
  eexists frame, _. split; [done|]. split.
  { unfold RecvProtocolMessage, guard_open. rewrite Hc', <- (app_nil_r frame).
    rewrite (recv_frame _ _ _ _ _ _ Hf Hfd). reflexivity. }
  assert (∀ n, GoString (take n (CString tok)) = of_bytes (take n (to_bytes tok))) as Hg.
  { intros n. unfold GoString. rewrite CString_nul_free by done. rewrite c_str_free; [done|].
    intros Hin%elem_of_take. destruct Hin as (i & Hi & _). apply Htok.
    by eapply list_elem_of_lookup_2. }
  cbn [convertProtocolMessage Token].
  change (parse_payload _ ?p) with (parse_file_done MSG_FILE_DONE p).
  cbn [payload_of]. rewrite parse_file_done_truncated by lia. rewrite Hg.
  unfold u8, wrap_u. split; [done|]. intros Heq%(f_equal (λ s, length (to_bytes s))).
  rewrite to_of_bytes, length_take, to_bytes_length in Heq.
  rewrite zlen_CString in * by done.
  pose proof (Z.mod_pos_bound (Z.of_nat (String.length tok)) 256 ltac:(done)).
  change (2 ^ 8) with 256 in Heq. lia.
Qed.

Lemma session_token_truncated_witness :
  ∃ frame m, SendFileDoneWithSession (Some 4) "s"
      (of_bytes (replicate 300 "a"%char)) = Ok frame ∧
    RecvProtocolMessage (Some 7) frame = Ok (m, []) ∧
    Token m ≠ of_bytes (replicate 300 "a"%char).
Proof.
  destruct (session_token_truncated (Some 4) (Some 7) "s" (of_bytes (replicate 300 "a"%char)))
    as (frame & m & H1 & H2 & _ & H4); try reflexivity.
  - by apply (bool_decide_unpack _).
  - by apply (bool_decide_unpack _).
  - by vm_compute.
  - by vm_compute.
  - by exists frame, m.
Defined.
