(* ===== verification/Sockets.v ===== *)
(** * Sockets

    network/tcp_core.c and the socket methods of network/client.go and
    network/server.go ([DialTCP], [Close], [Write], [Read], [ReadFull],
    [ListenTCP], [Accept]), with the loops of network/protocol_message.c that
    move a frame over a socket ([send_all], [recv_all_bytes]).

    One call of the kernel's [send] or [recv] is an outcome of a list: it moves
    some bytes, is interrupted, or fails.  An empty list is a call that has not
    returned yet ([None]).  The theorems show that the loops, over every way the
    kernel cuts the bytes, do what [Wire] says in one step. *)

From S2P Require Export Wire.

Local Open Scope Z_scope.

(** ** The kernel *)

(** [Sent n] takes [n + 1] bytes, or what is left. *)
Inductive send_outcome := Sent (n : nat) | SentNone | SendIntr | SendFails.
(** [Received n] moves [n + 1] bytes, or what the buffer or the stream allows:
    nothing at its end. *)
Inductive recv_outcome := Received (n : nat) | RecvIntr | RecvFails.

(** ** Sending *)

(** [send_all]: the bytes written, the calls left, and whether it returned 0. *)
Fixpoint send_all (os : list send_outcome) (data : list ascii) :
    list ascii * list send_outcome * option bool :=
  match data with
  | [] => ([], os, Some true)
  | _ =>
      match os with
      | [] => ([], [], None)
      | SendIntr :: os => send_all os data
      | SendFails :: os => ([], os, Some false)
      | SentNone :: os => ([], os, Some false)
      | Sent n :: os =>
          let '(w, os', r) := send_all os (drop (S n) data) in (take (S n) data ++ w, os', r)
      end
  end.

(** The two calls of [protocol_send_frame]; the payload only when there is one. *)
Definition send_frame (os : list send_outcome) (fd type : Z) (payload : list ascii) :
    list ascii * list send_outcome * option bool :=
  if decide (fd = INVALID_SOCKET) then ([], os, Some false)
  else if decide (zlen payload > PROTOCOL_MAX_PAYLOAD) then ([], os, Some false)
  else match send_all os (frame_header type (zlen payload)) with
       | (w, os', Some true) =>
           let '(w', os'', r) := send_all os' payload in (w ++ w', os'', r)
       | other => other
       end.

Definition tcp_send (os : list send_outcome) (fd : Z) (data : list ascii) :
    list ascii * list send_outcome * option (option Z) :=
  if decide (fd = INVALID_SOCKET) then ([], os, Some None) else
  if decide (data = []) then ([], os, Some (Some 0)) else
  let '(w, os', r) := send_all os data in
  (w, os', (λ ok : bool, if ok then Some (zlen data) else None) <$> r).

(** ** Receiving *)

(** One [recv] after the interrupted ones: the bytes, the stream and the calls left;
    [Some None] is -1. *)
Fixpoint tcp_recv_loop (os : list recv_outcome) (input : list ascii) (len : nat) :
    option (option (list ascii) * list ascii * list recv_outcome) :=
  match os with
  | [] => None
  | RecvIntr :: os => tcp_recv_loop os input len
  | RecvFails :: os => Some (None, input, os)
  | Received n :: os =>
      let k := Nat.min (S n) len in Some (Some (take k input), drop k input, os)
  end.
Definition tcp_recv (os : list recv_outcome) (fd : Z) (input : list ascii) (len : nat) :
    option (option (list ascii) * list ascii * list recv_outcome) :=
  if decide (fd = INVALID_SOCKET ∨ len = O) then Some (None, input, os)
  else tcp_recv_loop os input len.

(** The loop of [recv_all_bytes]: an interrupted call is a failure here. *)
Fixpoint recv_exactly (os : list recv_outcome) (input : list ascii) (len : nat) :
    option (option (list ascii * list ascii) * list recv_outcome) :=
  match len with
  | O => Some (Some ([], input), os)
  | _ =>
      match os with
      | [] => None
      | RecvIntr :: os | RecvFails :: os => Some (None, os)
      | Received n :: os =>
          let got := take (Nat.min (S n) len) input in
          match got with
          | [] => Some (None, os)
          | _ =>
              match recv_exactly os (drop (Nat.min (S n) len) input) (len - length got) with
              | Some (Some (p, rest), os') => Some (Some (got ++ p, rest), os')
              | other => other
              end
          end
      end
  end.

(** [protocol_recv_message] over that loop. *)
Definition recv_message (os : list recv_outcome) (fd : Z) (input : list ascii) :
    option (option (protocol_message * list ascii) * list recv_outcome) :=
  if decide (fd = INVALID_SOCKET) then Some (None, os) else
  '(hdr, os) ← recv_exactly os input 5;
  match hdr with
  | None => Some (None, os)
  | Some (h, input) =>
      let payload_len := rd32 h 1 in
      if decide (payload_len > PROTOCOL_MAX_PAYLOAD) then Some (None, os) else
      '(payload, os) ← recv_exactly os input (Z.to_nat payload_len);
      match payload with
      | None => Some (None, os)
      | Some (p, rest) => Some (Some (parse_payload (byte_at h 0) p, rest), os)
      end
  end.

(** ** Opening and closing *)

(** One address [getaddrinfo] gives: the descriptor [socket] returns for it and
    whether [connect] (or [bind]) succeeds. *)
Record candidate := { cand_fd : Z; cand_ok : bool }.

(** The first address that works, and the descriptors closed on the way. *)
Fixpoint try_candidates (cs : list candidate) : Z * list Z :=
  match cs with
  | [] => (INVALID_SOCKET, [])
  | c :: cs =>
      if decide (cand_fd c = INVALID_SOCKET) then try_candidates cs
      else if cand_ok c then (cand_fd c, [])
      else let '(fd, closed) := try_candidates cs in (fd, cand_fd c :: closed)
  end.
Definition connect_socket (getaddrinfo : option (list candidate)) : Z * list Z :=
  match getaddrinfo with None => (INVALID_SOCKET, []) | Some cs => try_candidates cs end.
Definition bind_socket : option (list candidate) → Z * list Z := connect_socket.

(** [resolve] is [getaddrinfo] with what becomes of its addresses. *)
Definition tcp_client_connect (resolve : list ascii → Z → option (list candidate))
    (host : list ascii) (port : Z) : Z * list Z :=
  if decide (port ≤ 0) then (INVALID_SOCKET, []) else connect_socket (resolve host port).
Definition tcp_server_start (resolve : option (list ascii) → Z → option (list candidate))
    (listens : Z → bool) (host : option (list ascii)) (port : Z) : Z * list Z :=
  if decide (port ≤ 0) then (INVALID_SOCKET, []) else
  let '(fd, closed) := bind_socket (resolve host port) in
  if decide (fd = INVALID_SOCKET) then (INVALID_SOCKET, closed) else
  if listens fd then (fd, closed) else (INVALID_SOCKET, closed ++ [fd]).
Definition tcp_accept (accept : Z → Z) (server_fd : Z) : Z :=
  if decide (server_fd = INVALID_SOCKET) then INVALID_SOCKET else
  if decide (accept server_fd < 0) then INVALID_SOCKET else accept server_fd.

(** ** The Go methods *)

(** [C.int(port)]. *)
Definition c_int : Z → Z := wrap_s 32.

Definition DialTCP (resolve : list ascii → Z → option (list candidate)) (host : string) (port : Z) :
    result TCPClient :=
  if decide (host = "" ∨ port ≤ 0) then Err "invalid host or port" else
  let '(fd, _) := tcp_client_connect resolve (CString host) (c_int port) in
  if decide (fd = INVALID_SOCKET) then Err "tcp connect failed" else Ok (Some fd).

(** [Close]: the pointer afterwards.  [closes] is what [close] answers. *)
Definition Close (closes : Z → bool) (c : TCPClient) : TCPClient * result unit :=
  if client_open c then
    if closes (client_fd c) then (Some INVALID_SOCKET, Ok tt) else (c, Err "close failed")
  else (c, Err "client not open").

Definition Write (os : list send_outcome) (c : TCPClient) (data : list ascii) :
    list ascii * list send_outcome * option (result Z) :=
  if client_open c then
    if decide (data = []) then ([], os, Some (Ok 0)) else
    let '(w, os', r) := tcp_send os (client_fd c) data in
    (w, os', (λ n, match n with Some n => Ok n | None => Err "send failed" end) <$> r)
  else ([], os, Some (Err "client not open")).

(** [Read] into a buffer of [len] bytes. *)
Definition Read (os : list recv_outcome) (c : TCPClient) (input : list ascii) (len : nat) :
    option (result (list ascii) * list ascii * list recv_outcome) :=
  if client_open c then
    if decide (len = O) then Some (Ok [], input, os) else
    '(r, input', os') ← tcp_recv os (client_fd c) input len;
    Some (match r with Some b => Ok b | None => Err "recv failed" end, input', os')
  else Some (Err "client not open", input, os).

(** [ReadFull]: the bytes read so far with the error, if there is one. *)
Fixpoint read_full (fuel : nat) (os : list recv_outcome) (c : TCPClient) (input : list ascii)
    (len : nat) (total : list ascii) :
    option (list ascii * option error * list ascii * list recv_outcome) :=
  if decide (len ≤ length total)%nat then Some (total, None, input, os) else
  match fuel with
  | O => Some (total, None, input, os)
  | S fuel =>
      '(r, input', os') ← Read os c input (len - length total);
      match r with
      | Err e => Some (total, Some e, input', os')
      | Ok [] => Some (total, None, input', os')
      | Ok b => read_full fuel os' c input' len (total ++ b)
      end
  end.
(** Every turn but the last reads a byte. *)
Definition ReadFull (os : list recv_outcome) (c : TCPClient) (input : list ascii) (len : nat) :
    option (list ascii * option error * list ascii * list recv_outcome) :=
  read_full len os c input len [].

(** [TCPServer]: like [TCPClient], a pointer to a descriptor. *)
Definition TCPServer : Type := option Z.

Definition ListenTCP (resolve : option (list ascii) → Z → option (list candidate))
    (listens : Z → bool) (host : string) (port : Z) : result TCPServer :=
  if decide (port ≤ 0) then Err "invalid port" else
  let cHost := if decide (host = "") then None else Some (CString host) in
  let '(fd, _) := tcp_server_start resolve listens cHost (c_int port) in
  if decide (fd = INVALID_SOCKET) then Err "tcp listen failed" else Ok (Some fd).
Definition Accept (accept : Z → Z) (s : TCPServer) : result TCPClient :=
  if client_open s then
    let fd := tcp_accept accept (client_fd s) in
    if decide (fd = INVALID_SOCKET) then Err "accept failed" else Ok (Some fd)
  else Err "server not open".
Definition Server_Close (closes : Z → bool) (s : TCPServer) : TCPServer * result unit :=
  if client_open s then
    if closes (client_fd s) then (Some INVALID_SOCKET, Ok tt) else (s, Err "close failed")
  else (s, Err "server not open").

(** network.go: both C functions do nothing on Linux but ignore SIGPIPE. *)
Definition network_init : Z := 0.
Definition Init : result unit :=
  if decide (network_init = 0) then Ok tt else Err "failed to initialize C networking library".

(** ** Properties *)

(** *** Sending *)

(** What was written is a prefix of the data: all of it exactly on success. *)
Lemma send_all_written os data w os' r :
  send_all os data = (w, os', r) →
  (∃ k, w = take k data) ∧ (r = Some true → w = data) ∧
  (r = Some false → (length w < length data)%nat).
Proof.
  revert data w os' r. induction os as [|o os IH]; intros data w os' r; destruct data as [|a d];
    cbn [send_all]; try (intros [= <- <- <-]; split_and!; [by exists O|done|simpl; lia || done]).
  destruct o as [n| | |]; try (intros [= <- <- <-]; split_and!; [by exists O|done|simpl; lia]).
  2: apply IH.
  destruct (send_all os (drop (S n) (a :: d))) as [[w1 os1] r1] eqn:E. intros [= <- <- <-].
  destruct (IH _ _ _ _ E) as ([k ->] & Ht & Hf). split_and!.
  - exists (S n + k)%nat. simpl. f_equal. apply take_take_drop.
  - intros Hr. rewrite (Ht Hr). simpl. f_equal. apply take_drop.
  - intros Hr. specialize (Hf Hr). simpl in *. rewrite length_app, !length_take, length_drop in *. lia.
Qed.

(** An uninterrupted call either ends the loop or moves a byte. *)
Definition counts (o : send_outcome) : bool := match o with SendIntr => false | _ => true end.

Lemma send_all_returns os data :
  (length data ≤ length (filter counts os))%nat → (send_all os data).2 ≠ None.
Proof.
  revert data. induction os as [|o os IH]; intros data Hl; destruct data as [|a d]; cbn [send_all]; try done.
  - simpl in Hl. lia.
  - destruct o as [n| | |]; [| | |]; rewrite ?filter_cons_True, ?filter_cons_False in Hl by done; try done.
    + specialize (IH (drop (S n) (a :: d))). destruct (send_all _ _) as [[w os'] r]. apply IH.
      rewrite length_drop. simpl in *. lia.
    + by apply IH.
Qed.

(** *** Receiving *)

Lemma recv_exactly_stream os input len p rest os' :
  recv_exactly os input len = Some (Some (p, rest), os') →
  recv_all_bytes len input = Some (p, rest).
Proof.
  revert input len p rest os'. induction os as [|o os IH]; intros input len p rest os';
    destruct len as [|len]; cbn [recv_exactly]; try done;
    try (intros [= <- <- <-]; done).
  destruct o as [n| |]; try done. set (m := Nat.min (S n) (S len)).
  destruct (take m input) as [|b got] eqn:Eg; [done|].
  destruct (recv_exactly os (drop m input) _) as [[[[p1 rest1]|] os1]|] eqn:E; try done.
  intros [= <- <- <-]. apply IH in E. unfold recv_all_bytes in *.
  assert (length (b :: got) = Nat.min m (length input)) as Hg by (by rewrite <- Eg, length_take).
  assert (1 ≤ m ≤ S len)%nat by (unfold m; lia). clearbody m.
  rewrite Hg, length_drop in E. case_decide as Hd; [done|].
  rewrite (Nat.min_l m) in E by lia. rewrite decide_False by lia.
  injection E as <- <-. rewrite (app_comm_cons got), <- Eg, take_take_drop, drop_drop.
  by replace (m + (S len - m))%nat with (S len) by lia.
Qed.

Definition moves (o : recv_outcome) : bool := match o with Received _ => true | _ => false end.

(** Calls that deliver end the loop, with the bytes or at the end of the stream. *)
Lemma recv_exactly_returns os input len :
  Forall moves os → (len ≤ length os)%nat →
  ∃ os', recv_exactly os input len = Some (recv_all_bytes len input, os') ∧
  ∃ k, (k ≤ len)%nat ∧ os' = drop k os.
Proof.
  intros Hd. revert input len. induction Hd as [|o os Ho Hd IH]; intros input len Hl;
    destruct len as [|len]; cbn [recv_exactly]; try (simpl in Hl; lia);
    try (eexists; split; [done|exists O; split; [lia|done]]).
  destruct o as [n| |]; try done. set (m := Nat.min (S n) (S len)).
  assert (1 ≤ m ≤ S len)%nat by (unfold m; lia). clearbody m.
  assert (length (take m input) = Nat.min m (length input)) as Hg by apply length_take.
  destruct (take m input) as [|b got] eqn:Eg.
  { exists os. split; [|exists 1%nat; split; [lia|done]]. unfold recv_all_bytes. rewrite decide_True; [done|]. simpl in Hg. lia. }
  destruct (IH (drop m input) (S len - length (b :: got))%nat) as (os1 & -> & k & Hk & ->).
  { simpl in *. lia. }
  exists (drop k os). split; [|exists (S k); split; [simpl in *; lia|done]].
  unfold recv_all_bytes. rewrite Hg, length_drop.
  destruct (decide (length input < S len)%nat).
  { by rewrite decide_True by lia. }
  rewrite decide_False by lia. rewrite (Nat.min_l m) by lia.
  rewrite <- Eg, take_take_drop, drop_drop.
  by replace (m + (S len - m))%nat with (S len) by lia.
Qed.

Lemma recv_message_stream os fd input m os' :
  recv_message os fd input = Some (Some m, os') → protocol_recv_message fd input = Some m.
Proof.
  unfold recv_message, protocol_recv_message. case_decide; [done|].
  destruct (recv_exactly os input 5) as [[[[h in1]|] os1]|] eqn:E1; try done.
  apply recv_exactly_stream in E1 as ->. cbn [mbind option_bind].
  case_decide; [done|].
  destruct (recv_exactly os1 in1 _) as [[[[p rest]|] os2]|] eqn:E2; try done.
  apply recv_exactly_stream in E2 as ->. cbn [mbind option_bind]. by intros [= <- _].
Qed.

Lemma recv_message_returns os fd input :
  Forall moves os → (5 + Z.to_nat PROTOCOL_MAX_PAYLOAD ≤ length os)%nat →
  ∃ os', recv_message os fd input = Some (protocol_recv_message fd input, os').
Proof.
  intros Hd Hl. unfold recv_message, protocol_recv_message. case_decide; [by eexists|].
  destruct (recv_exactly_returns os input 5 Hd ltac:(lia)) as (os1 & -> & k & Hk & ->).
  cbn [mbind option_bind]. destruct (recv_all_bytes 5 input) as [[h in1]|]; [|by eexists].
  cbn [mbind option_bind]. destruct (decide (rd32 h 1 > PROTOCOL_MAX_PAYLOAD)) as [|Hp]; [by eexists|].
  destruct (recv_exactly_returns (drop k os) in1 (Z.to_nat (rd32 h 1))) as (os2 & -> & _).
  { by apply Forall_drop. }
  { rewrite length_drop. assert (Z.to_nat (rd32 h 1) ≤ Z.to_nat PROTOCOL_MAX_PAYLOAD)%nat by lia. lia. }
  cbn [mbind option_bind]. destruct (recv_all_bytes _ in1) as [[p rest]|]; by eexists.
Qed.

(** *** A frame over two sockets *)

Lemma send_all_uses os data w os' :
  send_all os data = (w, os', Some true) →
  (length (filter counts os) ≤ length (filter counts os') + length data)%nat.
Proof.
  revert data w os'. induction os as [|o os IH]; intros data w os'; destruct data as [|a d];
    cbn [send_all]; try (intros [= <- <-]; simpl; lia); try done.
  destruct o as [n| | |]; rewrite ?filter_cons_True, ?filter_cons_False by done; try done.
  - destruct (send_all os (drop (S n) (a :: d))) as [[w1 os1] r1] eqn:E. intros H.
    injection H as <- <- ->. apply IH in E. rewrite length_drop in E. simpl in *. lia.
  - apply IH.
Qed.

Lemma take_of_app {A} k (h p : list A) : ∃ k', take k h = take k' (h ++ p).
Proof.
  destruct (decide (k ≤ length h)%nat).
  - exists k. by rewrite take_app_le.
  - exists (length h). by rewrite take_app_length, take_ge by lia.
Qed.

Lemma send_frame_written os fd t p frame w os' r :
  protocol_send_frame fd t p = Some frame → send_frame os fd t p = (w, os', r) →
  (∃ k, w = take k frame) ∧ (r = Some true → w = frame) ∧
  (r = Some false → (length w < length frame)%nat) ∧
  ((length frame ≤ length (filter counts os))%nat → r ≠ None).
Proof.
  intros (Hfd & Hp & ->)%send_frame_inv. unfold send_frame.
  rewrite decide_False by done. rewrite decide_False by lia.
  set (h := frame_header t (zlen p)). assert (length h = 5%nat) as Hh by apply length_frame_header.
  pose proof (send_all_returns os h) as Hret.
  destruct (send_all os h) as [[w1 os1] r1] eqn:E1.
  pose proof (send_all_written _ _ _ _ _ E1) as ([k1 Hk1] & Ht1 & Hf1).
  assert ((length (h ++ p) ≤ length (filter counts os))%nat → r1 ≠ None) as Hn1.
  { rewrite length_app. intros Hl. apply Hret. lia. }
  destruct r1 as [[|]|].
  - apply send_all_uses in E1. specialize (Ht1 eq_refl). subst w1.
    pose proof (send_all_returns os1 p) as Hret2.
    destruct (send_all os1 p) as [[w2 os2] r2] eqn:E2. intros [= <- <- <-].
    destruct (send_all_written _ _ _ _ _ E2) as ([k2 ->] & Ht2 & Hf2). split_and!.
    + exists (length h + k2)%nat. by rewrite Ht1, take_app_add.
    + intros Hr. by rewrite Ht1, (Ht2 Hr).
    + intros Hr. specialize (Hf2 Hr). rewrite Ht1, !length_app. lia.
    + rewrite length_app. intros Hl. apply Hret2. lia.
  - intros [= <- <- <-]. specialize (Hf1 eq_refl). split_and!; try done.
    + rewrite Hk1. apply take_of_app.
    + rewrite length_app. lia.
  - intros [= <- <- <-]. split_and!; try done.
    rewrite Hk1. apply take_of_app.
Qed.

(** C14. The stream abstraction is right: whatever pieces the two kernels cut a frame
    into, a send either reports success, and then exactly the frame is on the wire
    and is received as the message that was sent, or reports an error with a strict
    prefix of the frame written, which is never delivered as a message; and it does
    report when its calls keep returning. *)
Theorem fragmentation_invisible os rs c c' m frame rest :
  send c m = Ok frame → wf_outgoing m → sends_nothing m = false → client_open c' = true →
  Forall moves rs → (5 + Z.to_nat PROTOCOL_MAX_PAYLOAD ≤ length rs)%nat →
  let '(w, _, r) := send_frame os (client_fd c) (type_of m) (payload_of m) in
  ((length frame ≤ length (filter counts os))%nat → r ≠ None) ∧
  (r = Some true → w = frame ∧ ∃ raw rs',
    recv_message rs (client_fd c') (w ++ rest) = Some (Some (raw, rest), rs') ∧
    convertProtocolMessage raw = received m) ∧
  (r = Some false → (∃ k, (k < length frame)%nat ∧ w = take k frame) ∧
    ∃ rs', recv_message rs (client_fd c') w = Some (None, rs')).
Proof.
  intros Hs Hwf Hn Hc' Hd Hl. pose proof (recv_one c c' m frame rest Hs Hwf Hn Hc') as Hone.
  pose proof (send_frame_of c m frame Hs Hn) as (_ & _ & Hf).
  destruct (send_frame os _ _ _) as [[w os'] r] eqn:E.
  destruct (send_frame_written _ _ _ _ _ _ _ _ Hf E) as ([k ->] & Ht & Hf' & Hret).
  split_and!; [done| |].
  - intros Hr. specialize (Ht Hr). rewrite Ht. split; [done|].
    destruct (recv_message_returns rs (client_fd c') (frame ++ rest) Hd Hl) as [rs' ->].
    unfold RecvProtocolMessage, guard_open in Hone. rewrite Hc' in Hone.
    destruct (protocol_recv_message _ _) as [[raw rest']|]; [|done].
    assert (convertProtocolMessage raw = received m ∧ rest' = rest) as [Hraw ->] by (split; congruence).
    by exists raw, rs'.
  - intros Hr. specialize (Hf' Hr). rewrite length_take in Hf'. split; [exists k; split; [lia|done]|].
    destruct (recv_message_returns rs (client_fd c') (take k frame) Hd Hl) as [rs' ->].
    by rewrite (recv_truncated _ (client_fd c') _ _ _ k Hf ltac:(lia)); eauto.
Qed.

Lemma fragmentation_invisible_witness :
  match send (Some 4) (OAck 200 "pong") with
  | Ok frame => ∃ raw rs', recv_message (replicate (Z.to_nat (1024 * 1024 + 5)) (Received 2)) 7 frame
                  = Some (Some (raw, []), rs') ∧ StatusMsg (convertProtocolMessage raw) = "pong"
  | Err _ => False
  end.
Proof.
  destruct (send (Some 4) (OAck 200 "pong")) as [frame|e] eqn:E; [|discriminate].
  pose proof (fragmentation_invisible [Sent 1; SendIntr; Sent 9; Sent 3; Sent 9]
    (replicate (Z.to_nat (1024 * 1024 + 5)) (Received 2)) (Some 4) (Some 7)
    (OAck 200 "pong") frame [] E ltac:(split; [exact (bool_decide_unpack (nul_free "pong") I)|lia]) eq_refl eq_refl
    ltac:(by apply Forall_replicate) ltac:(rewrite length_replicate; unfold PROTOCOL_MAX_PAYLOAD; lia)) as H.
  destruct (send_frame _ _ _ _) as [[w os'] r] eqn:Er.
  assert (r = Some true) as -> by (apply (f_equal snd) in Er; vm_compute in Er; by symmetry).
  destruct H as (_ & Ht & _). destruct (Ht eq_refl) as (-> & raw & rs' & Hr & Hm).
  rewrite app_nil_r in Hr. exists raw, rs'. split; [exact Hr|]. by rewrite Hm.
Defined.

(** *** The Go methods *)

(** [ReadFull] reads up to the buffer's size or the end of the stream. *)
Lemma read_full_takes fuel os c input len total :
  client_open c = true → Forall moves os → (len - length total ≤ fuel)%nat →
  (len - length total ≤ length os)%nat →
  ∃ os', read_full fuel os c input len total =
    Some (total ++ take (len - length total) input, None, drop (len - length total) input, os').
Proof.
  intros Hc. revert os input total. induction fuel as [|fuel IH]; intros os input total Hd Hf Hl;
    cbn [read_full]; case_decide as Hle; try lia.
  1, 2: replace (len - length total)%nat with O by lia; rewrite app_nil_r; by eexists.
  destruct os as [|o os]; [simpl in Hl; lia|]. apply Forall_cons in Hd as [Ho Hd].
  destruct o as [n| |]; try done. unfold Read, tcp_recv. rewrite Hc.
  rewrite decide_False by lia. pose proof (proj1 (client_open_fd c) Hc).
  rewrite decide_False by (intros [?|?]; [done|lia]). cbn [tcp_recv_loop mbind option_bind].
  set (d := (len - length total)%nat) in *. set (m := Nat.min (S n) d).
  assert (1 ≤ m ≤ d)%nat by (unfold m; lia). clearbody m.
  assert (length (take m input) = Nat.min m (length input)) as Hg by apply length_take.
  destruct (take m input) as [|b got] eqn:Eg.
  { assert (input = []) as -> by (destruct input; [done|simpl in *; lia]).
    rewrite !take_nil, !drop_nil, app_nil_r. by eexists. }
  destruct (IH os (drop m input) (total ++ b :: got)) as [os' ->].
  { done. } { rewrite length_app, Hg. simpl in Hg. lia. }
  { rewrite length_app, Hg. simpl in Hg, Hl. lia. }
  exists os'. rewrite length_app, Hg, <- Eg. do 2 f_equal.
  destruct (decide (m ≤ length input)%nat).
  - rewrite Nat.min_l by lia. replace (len - (length total + m))%nat with (d - m)%nat by (unfold d; lia).
    rewrite <- app_assoc, take_take_drop, drop_drop.
    by replace (m + (d - m))%nat with d by lia.
  - rewrite (drop_ge input m), take_nil, drop_nil, app_nil_r, drop_ge by lia.
    by rewrite !take_ge by lia.
Qed.

Lemma ReadFull_takes os c input len :
  client_open c = true → Forall moves os → (len ≤ length os)%nat →
  ∃ os', ReadFull os c input len = Some (take len input, None, drop len input, os').
Proof.
  intros Hc Hd Hl. unfold ReadFull.
  destruct (read_full_takes len os c input len [] Hc Hd) as [os' ->]; simpl; [lia|lia|].
  rewrite Nat.sub_0_r. by exists os'.
Qed.

(** The port is cut to 32 bits: a large one reaches another port. *)
Lemma DialTCP_port_wraps resolve host port :
  host ≠ "" → 0 < port < 2 ^ 31 → DialTCP resolve host (2 ^ 32 + port) = DialTCP resolve host port.
Proof.
  intros Hh Hp. unfold DialTCP. rewrite !decide_False by (intros [?|?]; [done|lia]).
  assert (c_int (2 ^ 32 + port) = c_int port) as ->; [|done].
  unfold c_int, wrap_s. f_equal. change (2 ^ (32 - 1)) with (2 ^ 31).
  rewrite <- (Z.mod_add (port + 2 ^ 31) 1 (2 ^ 32)) by lia. f_equal. lia.
Qed.

(** A closed client stays closed, and is closed once. *)
Lemma Close_once closes c c' :
  Close closes c = (c', Ok tt) →
  client_open c = true ∧ client_open c' = false ∧ Close closes c' = (c', Err "client not open").
Proof.
  unfold Close. destruct (client_open c); [|done]. destruct (closes _); [|done].
  by intros [= <-].
Qed.
