(* ===== verification/Registry.v ===== *)
(** * Connected devices

    network/protocol_server.c (the device registry and the connection handler),
    network/server.go ([DeviceIsOnline], [SendToDevice]) and
    backend/app/socket/hub.go ([Hub]).

    The registry is the linked list of the C code, newest entry first; each
    function holding its mutex is one step.  The server serves every accepted
    connection on a thread of its own: an execution is any interleaving of
    accepts, received frames and disconnects. *)

From S2P Require Export Prelude GoStrings Wire.

Local Open Scope Z_scope.

(** ** The registry *)

Record device_entry := { entry_id : list ascii; entry_fd : Z }.

(** [strncmp(a, b, PROTOCOL_MAX_DEVICE_ID) == 0] on C strings. *)
Definition id_prefix (l : list ascii) : list ascii := take (Z.to_nat PROTOCOL_MAX_DEVICE_ID) l.
Definition same_id (a b : list ascii) : Prop := id_prefix a = id_prefix b.
#[export] Instance same_id_dec a b : Decision (same_id a b).
Proof. unfold same_id. apply _. Defined.

(** The loop that updates the first entry of the device. *)
Fixpoint set_existing (dev : list ascii) (fd : Z) (l : list device_entry) :
    option (list device_entry) :=
  match l with
  | [] => None
  | e :: l =>
      if decide (same_id (entry_id e) dev)
      then Some ({| entry_id := entry_id e; entry_fd := fd |} :: l)
      else l' ← set_existing dev fd l; Some (e :: l')
  end.

Definition registry_set (dev : list ascii) (fd : Z) (l : list device_entry) :
    list device_entry :=
  if decide (dev = [] ∨ fd = INVALID_SOCKET) then l else
  match set_existing dev fd l with
  | Some l' => l'
  | None => {| entry_id := id_prefix dev; entry_fd := fd |} :: l
  end.

Fixpoint unlink_fd (fd : Z) (l : list device_entry) : list device_entry :=
  match l with
  | [] => []
  | e :: l => if decide (entry_fd e = fd) then l else e :: unlink_fd fd l
  end.
Definition registry_remove_fd (fd : Z) (l : list device_entry) : list device_entry :=
  if decide (fd = INVALID_SOCKET) then l else unlink_fd fd l.

Fixpoint find_device (dev : list ascii) (l : list device_entry) : Z :=
  match l with
  | [] => INVALID_SOCKET
  | e :: l => if decide (same_id (entry_id e) dev) then entry_fd e else find_device dev l
  end.
Definition registry_get (dev : list ascii) (l : list device_entry) : Z :=
  if decide (dev = []) then INVALID_SOCKET else find_device dev l.

Definition protocol_device_is_online (dev : list ascii) (l : list device_entry) : bool :=
  bool_decide (registry_get dev l ≠ INVALID_SOCKET).

(** The frame written and the socket it goes to; [up fd] tells whether the
    socket takes the bytes. *)
Definition protocol_send_to_device (up : Z → bool) (dev json : list ascii)
    (l : list device_entry) : option (Z * list ascii) :=
  let fd := registry_get dev l in
  if decide (fd = INVALID_SOCKET) then None else
  frame ← protocol_send_command fd json;
  if up fd then Some (fd, frame) else None.

(** ** network/server.go *)

Definition DeviceIsOnline (deviceID : string) (l : list device_entry) : bool :=
  if decide (deviceID = "") then false else protocol_device_is_online (CString deviceID) l.

Definition SendToDevice (up : Z → bool) (deviceID : string) (jsonPayload : list ascii)
    (l : list device_entry) : result (Z * list ascii) :=
  if decide (deviceID = "") then Err "device id required" else
  if decide (jsonPayload = []) then Err "empty payload" else
  rc "send to device failed" (protocol_send_to_device up (CString deviceID) jsonPayload l).

(** ** A connection's frames *)

Definition with_device_id (dev : list ascii) (m : protocol_message) : protocol_message := {|
  type := type m; data := data m; device_id := dev; token := token m;
  session_id := session_id m; file_name := file_name m; file_size := file_size m;
  chunk_offset := chunk_offset m; chunk_len := chunk_len m;
  status_code := status_code m; status_msg := status_msg m |}.

(** The body of the loop of [protocol_connection_handler] after a receive: the
    device id learned from a login is kept for the frames that follow.  The
    result is the new [last_device], the registry and the message handed to
    [on_message]. *)
Definition connection_frame (fd : Z) (m : protocol_message) (last_device : list ascii)
    (l : list device_entry) : list ascii * list device_entry * protocol_message :=
  let dev := c_str (device_id m) in
  if decide (dev = [] ∧ last_device ≠ []) then
    (last_device, l, with_device_id last_device m)
  else if decide (dev ≠ []) then
    (id_prefix dev,
     if decide (type m = MSG_LOGIN) then registry_set (id_prefix dev) fd l else l, m)
  else (last_device, l, m).

(** [goProtocolMessageBridge]: what the Go handler receives. *)
Definition bridge (fd : Z) (m : protocol_message) : TCPClient * ProtocolMessage :=
  (Some fd, convertProtocolMessage m).

(** ** The server *)

Inductive event :=
  | EAccept (fd : Z)
  | EFrame (fd : Z) (m : protocol_message)
  | EClose (fd : Z).  (* the receive failed: the handler's epilogue *)

(** [last] holds one entry per open connection: its [last_device]. *)
Record server := { registry : list device_entry; last : gmap Z (list ascii) }.
Definition server0 : server := {| registry := []; last := ∅ |}.

Definition step (s : server) (e : event) : server :=
  match e with
  | EAccept fd => {| registry := registry s; last := <[fd := []]> (last s) |}
  | EFrame fd m =>
      let '(dev, l, _) := connection_frame fd m (default [] (last s !! fd)) (registry s) in
      {| registry := l; last := <[fd := dev]> (last s) |}
  | EClose fd =>
      {| registry := registry_remove_fd fd (registry s); last := delete fd (last s) |}
  end.

(** The kernel hands out a valid descriptor that is not in use; frames and
    closes happen on open connections; a frame is what the decoder returned. *)
Definition possible (s : server) (e : event) : Prop :=
  match e with
  | EAccept fd => fd ≠ INVALID_SOCKET ∧ last s !! fd = None
  | EFrame fd m => is_Some (last s !! fd) ∧ ∃ t p, m = parse_payload t p
  | EClose fd => is_Some (last s !! fd)
  end.

(** A connection logs in with one device id only. *)
Definition one_identity (s : server) (e : event) : Prop :=
  match e with
  | EFrame fd m => c_str (device_id m) ≠ [] → type m = MSG_LOGIN →
      last s !! fd = Some [] ∨ last s !! fd = Some (c_str (device_id m))
  | _ => True
  end.

Inductive reach (P : server → event → Prop) : list event → server → Prop :=
  | reach_start : reach P [] server0
  | reach_step tr s e : reach P tr s → possible s e → P s e → reach P (tr ++ [e]) (step s e).

(** Whose connection a device is on: the last one that logged in as it, until
    it closes. *)
Definition owner_step (dev : list ascii) (o : option Z) (e : event) : option Z :=
  match e with
  | EAccept _ => o
  | EFrame fd m =>
      if decide (type m = MSG_LOGIN ∧ c_str (device_id m) = dev) then Some fd else o
  | EClose fd => if decide (o = Some fd) then None else o
  end.
Definition owner (dev : list ascii) (tr : list event) : option Z :=
  foldl (owner_step dev) None tr.

(** ** The hub *)

Definition Hub : Type := gmap string TCPClient.
Definition NewHub : Hub := ∅.
Definition Register (h : Hub) (deviceID : string) (c : TCPClient) : Hub := <[deviceID := c]> h.
Definition Unregister (h : Hub) (deviceID : string) (c : TCPClient) : Hub :=
  match h !! deviceID with
  | Some cur => if Equal cur c then delete deviceID h else h
  | None => h
  end.
Definition IsOnline (h : Hub) (l : list device_entry) (deviceID : string) : bool :=
  DeviceIsOnline deviceID l || bool_decide (is_Some (h !! deviceID)).
(** [range_order] is the order in which the map is iterated. *)
Definition OnlineDevices (range_order : Hub → list string) (h : Hub) (l : list device_entry) :
    list string :=
  filter (λ id, DeviceIsOnline id l = true) (range_order h).

(** The socket the frame went to, and the frame. *)
Definition Hub_Send (up : Z → bool) (h : Hub) (l : list device_entry) (deviceID : string)
    (payload : list ascii) : result (Z * list ascii) :=
  match SendToDevice up deviceID payload l with
  | Ok sent => Ok sent
  | Err e =>
      match h !! deviceID with
      | Some c =>
          if client_open c then
            match SendCommand c payload with
            | Ok frame => if up (client_fd c) then Ok (client_fd c, frame) else Err e
            | Err _ => Err e
            end
          else Err e
      | None => Err e
      end
  end.

(** ** Lemmas on the list *)

Definition entry (dev : list ascii) (fd : Z) : device_entry := {| entry_id := dev; entry_fd := fd |}.
Definition valid_id (dev : list ascii) : Prop :=
  dev ≠ [] ∧ (length dev ≤ Z.to_nat PROTOCOL_MAX_DEVICE_ID)%nat.
Definition wf_registry (l : list device_entry) : Prop :=
  NoDup (entry_id <$> l) ∧ Forall (λ e, valid_id (entry_id e) ∧ entry_fd e ≠ INVALID_SOCKET) l.

Lemma id_prefix_valid dev : valid_id dev → id_prefix dev = dev.
Proof. intros [_ H]. by apply take_ge. Qed.
Lemma same_id_valid a b : valid_id a → valid_id b → same_id a b ↔ a = b.
Proof. intros Ha Hb. unfold same_id. by rewrite !id_prefix_valid. Qed.

Lemma wf_registry_cons e l :
  wf_registry (e :: l) ↔
    valid_id (entry_id e) ∧ entry_fd e ≠ INVALID_SOCKET ∧
    (∀ x, x ∈ l → entry_id x ≠ entry_id e) ∧ wf_registry l.
Proof.
  unfold wf_registry. rewrite fmap_cons, NoDup_cons, Forall_cons.
  split.
  - intros [[Hn Hd] [[Hv Hf] Ha]]. refine (conj Hv (conj Hf (conj _ (conj Hd Ha)))).
    intros x Hx Heq. apply Hn. rewrite <- Heq. by apply list_elem_of_fmap_2.
  - intros (Hv & Hf & Hn & [Hd Ha]). refine (conj (conj _ Hd) (conj (conj Hv Hf) Ha)).
    intros (x & Heq & Hx)%list_elem_of_fmap. by apply (Hn x).
Qed.

Lemma entry_eq e dev fd : entry_id e = dev → entry_fd e = fd → e = entry dev fd.
Proof. destruct e; simpl. by intros -> ->. Qed.

Lemma set_existing_none dev fd l :
  wf_registry l → valid_id dev →
  set_existing dev fd l = None → ∀ x, x ∈ l → entry_id x ≠ dev.
Proof.
  intros Hwf Hd. induction l as [|e l IH]; simpl; intros H x; [by intros ?%not_elem_of_nil|].
  apply wf_registry_cons in Hwf as (He & _ & _ & Hwf).
  case_decide as Hs; [done|]. rewrite same_id_valid in Hs by done.
  destruct (set_existing dev fd l) eqn:E; [done|].
  intros [->|Hx]%elem_of_cons; [done|by apply IH].
Qed.

Lemma set_existing_some dev fd l l' :
  wf_registry l → valid_id dev → set_existing dev fd l = Some l' →
  ∀ x, x ∈ l' ↔ x = entry dev fd ∨ (x ∈ l ∧ entry_id x ≠ dev).
Proof.
  intros Hwf Hd. revert l'. induction l as [|e l IH]; simpl; intros l' H x; [done|].
  apply wf_registry_cons in Hwf as (He & _ & Hn & Hwf).
  case_decide as Hs; rewrite same_id_valid in Hs by done.
  - injection H as <-. rewrite !elem_of_cons, Hs. split.
    + intros [?|Hx]; [by left|]. right. split; [by right|]. rewrite <- Hs. by apply Hn.
    + intros [?|[[->|Hx] Hne]]; [by left|done|by right].
  - destruct (set_existing dev fd l) as [k|] eqn:E; [|done]. injection H as <-.
    rewrite !elem_of_cons, (IH Hwf _ eq_refl). split.
    + intros [->|[?|[??]]]; auto.
    + intros [?|[[?|?] ?]]; auto.
Qed.

Lemma elem_registry_set dev fd l x :
  wf_registry l → valid_id dev → fd ≠ INVALID_SOCKET →
  x ∈ registry_set dev fd l ↔ x = entry dev fd ∨ (x ∈ l ∧ entry_id x ≠ dev).
Proof.
  intros Hwf Hd Hfd. unfold registry_set. rewrite decide_False by (destruct Hd; naive_solver).
  destruct (set_existing dev fd l) as [l'|] eqn:E; [by apply set_existing_some|].
  rewrite id_prefix_valid, elem_of_cons by done. fold (entry dev fd).
  pose proof (set_existing_none dev fd l Hwf Hd E). naive_solver.
Qed.

Lemma set_existing_wf dev fd l l' :
  wf_registry l → fd ≠ INVALID_SOCKET → set_existing dev fd l = Some l' →
  wf_registry l' ∧ entry_id <$> l' = entry_id <$> l.
Proof.
  intros Hwf Hfd. revert l'. induction l as [|e l IH]; simpl; intros l' H; [done|].
  pose proof Hwf as (He & Hf & Hn & Hwf')%wf_registry_cons.
  case_decide as Hs.
  - injection H as <-. split; [|done]. by apply wf_registry_cons.
  - destruct (set_existing dev fd l) as [k|] eqn:E; [|done]. injection H as <-.
    destruct (IH Hwf' _ eq_refl) as [Hk Heq]. split; [|by rewrite !fmap_cons, Heq].
    apply wf_registry_cons. refine (conj He (conj Hf (conj _ Hk))).
    intros x Hx. assert (entry_id x ∈ entry_id <$> l) as (y & -> & Hy)%list_elem_of_fmap.
    { rewrite <- Heq. by apply list_elem_of_fmap_2. }
    by apply Hn.
Qed.

Lemma registry_set_wf dev fd l :
  wf_registry l → valid_id dev → fd ≠ INVALID_SOCKET → wf_registry (registry_set dev fd l).
Proof.
  intros Hwf Hd Hfd. unfold registry_set. case_decide; [done|].
  destruct (set_existing dev fd l) as [l'|] eqn:E; [by eapply set_existing_wf|].
  rewrite id_prefix_valid by done. apply wf_registry_cons. split_and!; try done.
  by eapply set_existing_none.
Qed.

(** Each descriptor in one entry at most. *)
Definition fd_unique (l : list device_entry) : Prop :=
  ∀ x y, x ∈ l → y ∈ l → entry_fd x = entry_fd y → entry_id x = entry_id y.

Lemma elem_unlink_fd fd l x :
  wf_registry l → fd_unique l → x ∈ unlink_fd fd l ↔ x ∈ l ∧ entry_fd x ≠ fd.
Proof.
  induction l as [|e l IH]; simpl; intros Hwf Hu; [by rewrite elem_of_nil; naive_solver|].
  pose proof Hwf as (He & Hf & Hn & Hwf')%wf_registry_cons.
  case_decide as Hs.
  - rewrite elem_of_cons. split; [|naive_solver]. intros Hx. split; [by right|].
    intros Hxf. apply (Hn x Hx). apply Hu; [by right|by left|congruence].
  - rewrite !elem_of_cons, IH; [naive_solver|done|].
    intros a b Ha Hb. apply Hu; by right.
Qed.

Lemma unlink_fd_wf fd l : wf_registry l → wf_registry (unlink_fd fd l).
Proof.
  induction l as [|e l IH]; simpl; intros Hwf; [done|].
  pose proof Hwf as (He & Hf & Hn & Hwf')%wf_registry_cons.
  case_decide; [done|]. apply wf_registry_cons. split_and!; [done|done| |by apply IH].
  intros x Hx. apply Hn. clear -Hx. revert x Hx.
  induction l as [|e l IH]; simpl; [done|]. case_decide; [by right|].
  intros x [->|?]%elem_of_cons; [left|right; by apply IH].
Qed.

Lemma find_device_spec dev l o :
  wf_registry l → valid_id dev → (∀ fd, entry dev fd ∈ l ↔ o = Some fd) →
  find_device dev l = default INVALID_SOCKET o.
Proof.
  intros Hwf Hd. induction l as [|e l IH]; simpl; intros Ho.
  { destruct o as [fd|]; [|done]. by destruct (Ho fd) as [_ []%not_elem_of_nil]. }
  apply wf_registry_cons in Hwf as (He & _ & Hn & Hwf).
  case_decide as Hs; rewrite same_id_valid in Hs by done.
  - destruct (Ho (entry_fd e)) as [H _]. rewrite H; [done|].
    rewrite <- (entry_eq e dev (entry_fd e)) by done. left.
  - apply IH; [done|]. intros fd. rewrite <- Ho, elem_of_cons. split; [by right|].
    intros [<-|?]; done.
Qed.

Lemma registry_get_spec dev l o :
  wf_registry l → valid_id dev → (∀ fd, entry dev fd ∈ l ↔ o = Some fd) →
  registry_get dev l = default INVALID_SOCKET o.
Proof.
  intros Hwf Hd Ho. unfold registry_get. rewrite decide_False by by destruct Hd.
  by apply find_device_spec.
Qed.

(** ** Device ids of decoded frames *)

Lemma byte_at_bound p i : 0 ≤ byte_at p i < 256.
Proof. unfold byte_at. destruct (p !! i); [apply val_range|lia]. Qed.

Lemma parse_device_id t p :
  (length (device_id (parse_payload t p)) ≤ Z.to_nat PROTOCOL_MAX_DEVICE_ID)%nat ∧
  type (parse_payload t p) = t ∧ (device_id (parse_payload t p) ≠ [] → t = MSG_LOGIN).
Proof.
  unfold parse_payload. case_decide.
  - unfold parse_login. repeat case_decide; simpl; try by (split_and!; [lia|..]).
    split_and!; [|done..]. unfold window. rewrite length_take.
    pose proof (byte_at_bound p 0). unfold PROTOCOL_MAX_DEVICE_ID in *. lia.
  - assert (∀ m, device_id m = [] → type m = t →
      (length (device_id m) ≤ Z.to_nat PROTOCOL_MAX_DEVICE_ID)%nat ∧ type m = t ∧
      (device_id m ≠ [] → t = MSG_LOGIN)) as Hm.
    { intros m Hd Ht. rewrite Hd. split_and!; [simpl; lia|done|done]. }
    unfold parse_file_meta, parse_file_chunk, parse_file_done, parse_ack.
    repeat case_decide; by apply Hm.
Qed.

Lemma c_str_length l : (length (c_str l) ≤ length l)%nat.
Proof. induction l as [|a l IH]; simpl; [done|]. case_decide; simpl; lia. Qed.

(** What one frame does to the connection and the registry. *)
Lemma connection_frame_parsed fd t p dev l :
  let m := parse_payload t p in
  let id := c_str (device_id m) in
  (connection_frame fd m dev l).1 =
    if decide (id = []) then (dev, l) else (id, registry_set id fd l).
Proof.
  intros m id. unfold connection_frame. fold id.
  destruct (parse_device_id t p) as (Hlen & Ht & Hlog). fold m in Hlen, Ht, Hlog.
  destruct (decide (id = [])) as [Hi|Hi].
  { case_decide; [done|]. by rewrite decide_False by tauto. }
  rewrite decide_False by tauto. rewrite decide_True by done.
  assert (id_prefix id = id) as ->.
  { apply take_ge. unfold id. pose proof (c_str_length (device_id m)). lia. }
  rewrite decide_True; [done|]. rewrite Ht. apply Hlog. intros He. apply Hi. unfold id.
  by rewrite He.
Qed.

(** ** Executions *)

Record consistent (tr : list event) (s : server) : Prop := {
  c_wf : wf_registry (registry s);
  c_entries dev fd : entry dev fd ∈ registry s ↔ valid_id dev ∧ owner dev tr = Some fd;
  c_last dev fd : dev ≠ [] → owner dev tr = Some fd → last s !! fd = Some dev;
  c_fds fd : is_Some (last s !! fd) → fd ≠ INVALID_SOCKET }.

Lemma owner_snoc dev tr e : owner dev (tr ++ [e]) = owner_step dev (owner dev tr) e.
Proof. unfold owner. by rewrite foldl_app. Qed.

Lemma consistent_accept tr s fd :
  consistent tr s → possible s (EAccept fd) → consistent (tr ++ [EAccept fd]) (step s (EAccept fd)).
Proof.
  intros [Hwf He Hl Hf] [Hfd Hnew]. split; simpl.
  - done.
  - intros dev fd'. by rewrite owner_snoc, He.
  - intros dev fd' Hd. rewrite owner_snoc. simpl. intros Ho.
    pose proof (Hl dev fd' Hd Ho). by rewrite lookup_insert_ne by congruence.
  - intros fd'. rewrite lookup_insert_is_Some. intros [<-|[_ ?]]; auto.
Qed.

Lemma consistent_frame tr s fd m :
  consistent tr s → possible s (EFrame fd m) → one_identity s (EFrame fd m) →
  consistent (tr ++ [EFrame fd m]) (step s (EFrame fd m)).
Proof.
  intros [Hwf He Hl Hf] [[last_device Hlast] (t & p & ->)] Hid.
  destruct (parse_device_id t p) as (Hlen & Ht & Hlog).
  pose proof (connection_frame_parsed fd t p last_device (registry s)) as Hc. simpl in Hc.
  unfold step. rewrite Hlast. simpl default.
  destruct (connection_frame fd _ last_device (registry s)) as [[dev' l'] m'].
  simpl in Hc. set (id := c_str _) in *.
  assert (∀ dev, owner dev (tr ++ [EFrame fd (parse_payload t p)]) =
    if decide (t = MSG_LOGIN ∧ id = dev) then Some fd else owner dev tr) as Hown.
  { intros dev. rewrite owner_snoc. simpl. by rewrite Ht. }
  destruct (decide (id = [])) as [Hi|Hi]; injection Hc as -> ->; split; simpl.
  - done.
  - intros dev fd'. rewrite He, Hown. split; intros [Hv Ho]; (split; [done|]);
      destruct Hv; revert Ho; rewrite decide_False by naive_solver; done.
  - intros dev fd' Hd. rewrite Hown, decide_False by naive_solver. intros Ho.
    rewrite insert_id by done. by apply Hl.
  - intros fd'. rewrite insert_id by done. apply Hf.
  - apply registry_set_wf; [done| |by apply Hf; eauto].
    split; [done|]. pose proof (c_str_length (device_id (parse_payload t p))). fold id in H. lia.
  - assert (valid_id id) as Hv.
    { split; [done|]. pose proof (c_str_length (device_id (parse_payload t p))). fold id in H. lia. }
    assert (t = MSG_LOGIN) as Hm by (apply Hlog; intros E; apply Hi; unfold id; by rewrite E).
    intros dev fd'. rewrite elem_registry_set; [|done|done|by apply Hf; eauto].
    rewrite Hown, He. simpl. destruct (decide (id = dev)) as [<-|Hne].
    + rewrite decide_True by done. split.
      * intros [[=]|[_ []]]; [by subst|done].
      * intros [_ [= <-]]. by left.
    + rewrite decide_False by tauto. split; [intros [[=]|[? _]]; [congruence|done]|].
      intros ?. right. split; [done|congruence].
  - assert (t = MSG_LOGIN) as Hm by (apply Hlog; intros E; apply Hi; unfold id; by rewrite E).
    intros dev fd' Hd. rewrite Hown. destruct (decide (id = dev)) as [<-|Hne].
    + rewrite decide_True by done. intros [= <-]. by rewrite lookup_insert_eq.
    + rewrite decide_False by tauto. intros Ho. pose proof (Hl dev fd' Hd Ho) as Hlk.
      rewrite lookup_insert_ne; [done|]. intros <-.
      destruct (Hid Hi) as [Hx|Hx]; [by rewrite Ht|congruence|]. fold id in Hx. congruence.
  - intros fd'. rewrite lookup_insert_is_Some. intros [<-|[_ ?]]; apply Hf; eauto.
Qed.

Lemma consistent_close tr s fd :
  consistent tr s → possible s (EClose fd) → consistent (tr ++ [EClose fd]) (step s (EClose fd)).
Proof.
  intros [Hwf He Hl Hf] Hp. pose proof (Hf fd Hp) as Hfd.
  assert (fd_unique (registry s)) as Hu.
  { intros [i f] [j g] Hx Hy. simpl. intros <-.
    apply (He i f) in Hx as [[] Hi]. apply (He j f) in Hy as [[] Hj].
    apply Hl in Hi, Hj; [congruence|done..]. }
  split; simpl; unfold registry_remove_fd; rewrite ?decide_False by done.
  - by apply unlink_fd_wf.
  - intros dev fd'. rewrite elem_unlink_fd, He, owner_snoc by done. simpl.
    case_decide as Ho; naive_solver.
  - intros dev fd' Hd. rewrite owner_snoc. simpl. case_decide as Ho; [done|]. intros Ho'.
    rewrite lookup_delete_ne by congruence. by apply Hl.
  - intros fd'. rewrite lookup_delete_is_Some. intros [_ ?]. by apply Hf.
Qed.

Lemma reach_consistent tr s : reach one_identity tr s → consistent tr s.
Proof.
  induction 1 as [|tr s [fd|fd m|fd] _ IH Hp Hi].
  - split; simpl; [by split; constructor| | |].
    + intros dev fd. rewrite elem_of_nil. by split; [|intros [_ [=]]].
    + done.
    + intros fd. rewrite lookup_empty. by intros [? [=]].
  - by apply consistent_accept.
  - by apply consistent_frame.
  - by apply consistent_close.
Qed.

(** ** Properties *)

(** C5. In every interleaving of accepts, frames and disconnects where each
    connection logs in as one device, the registry holds for a device exactly
    the connection that last logged in as it, as long as that connection is
    open; a device is online if and only if there is such a connection. *)
Theorem registry_tracks_logins tr s dev :
  reach one_identity tr s → valid_id dev →
  registry_get dev (registry s) = default INVALID_SOCKET (owner dev tr) ∧
  (protocol_device_is_online dev (registry s) = true ↔
    ∃ fd, owner dev tr = Some fd ∧ last s !! fd = Some dev).
Proof.
  intros [Hwf He Hl Hf]%reach_consistent Hd.
  assert (registry_get dev (registry s) = default INVALID_SOCKET (owner dev tr)) as Hg.
  { apply registry_get_spec; [done|done|]. intros fd. rewrite He. naive_solver. }
  split; [done|]. unfold protocol_device_is_online. rewrite bool_decide_eq_true, Hg.
  pose proof Hd as [Hne _]. destruct (owner dev tr) as [fd|] eqn:Ho; simpl.
  - pose proof (Hl dev fd Hne Ho). split; [by exists fd|]. intros _. apply Hf. eauto.
  - naive_solver.
Qed.

Definition login_frame (dev : string) : protocol_message :=
  parse_payload MSG_LOGIN
    (byte_of (zlen (CString dev)) :: le_bytes 2 (htons 1) ++ CString dev ++ to_bytes "t").

Definition sample_trace : list event :=
  [EAccept 5; EFrame 5 (login_frame "laptop"); EAccept 6; EFrame 6 (login_frame "laptop");
   EClose 5].

Lemma login_frame_possible s fd dev :
  is_Some (last s !! fd) → possible s (EFrame fd (login_frame dev)).
Proof. intros H. split; [done|]. by eexists _, _. Qed.

Lemma sample_reach : reach one_identity sample_trace (foldl step server0 sample_trace).
Proof.
  change sample_trace with (((((([] ++ [EAccept 5]) ++ [EFrame 5 (login_frame "laptop")])
    ++ [EAccept 6]) ++ [EFrame 6 (login_frame "laptop")]) ++ [EClose 5])) at 1.
  cbn [foldl sample_trace].
  apply reach_step; [apply reach_step; [apply reach_step; [apply reach_step;
    [apply reach_step; [apply reach_start|..]|..]|..]|..]|..];
    try apply (login_frame_possible _ _ "laptop"); try done; vm_compute; eauto.
Qed.

Lemma registry_tracks_logins_witness :
  let s := foldl step server0 sample_trace in
  reach one_identity sample_trace s ∧ registry_get (to_bytes "laptop") (registry s) = 6.
Proof.
  split; [apply sample_reach|].
  destruct (registry_tracks_logins sample_trace _ (to_bytes "laptop") sample_reach) as [-> _].
  - split; [done|]. vm_compute. lia.
  - vm_compute. reflexivity.
Defined.

(** *** Sending *)

Lemma send_command_decodes fd payload frame c' rest :
  protocol_send_command fd payload = Some frame → fd ≠ INVALID_SOCKET →
  client_open c' = true →
  RecvProtocolMessage c' (frame ++ rest) = Ok (received (OCommand payload), rest).
Proof.
  intros Hs Hfd Hc'. destruct payload as [|a payload]; [done|].
  apply (recv_one (Some fd) c' (OCommand (a :: payload))); [|done..].
  unfold send, SendCommand, guard_open. rewrite (proj2 (client_open_fd (Some fd)) Hfd).
  rewrite decide_False by done. simpl client_fd. by rewrite Hs.
Qed.

Lemma CString_valid_id dev :
  dev ≠ "" → nul_free dev → (String.length dev ≤ 255)%nat →
  CString dev = to_bytes dev ∧ valid_id (to_bytes dev).
Proof.
  intros Hne Hn Hl. split; [by apply CString_nul_free|]. split; [by rewrite to_bytes_nil|].
  rewrite to_bytes_length. unfold PROTOCOL_MAX_DEVICE_ID. lia.
Qed.

(** The fallback of [Send] on the client the hub has cached. *)
Lemma cached_send_ok (up : Z → bool) (h : Hub) deviceID payload e fd frame c' rest :
  client_open c' = true →
  match h !! deviceID with
  | Some c =>
      if client_open c then
        match SendCommand c payload with
        | Ok frame => if up (client_fd c) then Ok (client_fd c, frame) else Err e
        | Err _ => Err e
        end
      else Err e
  | None => Err e
  end = Ok (fd, frame) →
  h !! deviceID = Some (Some fd) ∧ up fd = true ∧
  RecvProtocolMessage c' (frame ++ rest) = Ok (received (OCommand payload), rest).
Proof.
  intros Hc'. destruct (h !! deviceID) as [c|]; [|done].
  destruct (client_open c) eqn:Ho; [|done]. unfold SendCommand, guard_open. rewrite Ho.
  case_decide; [done|]. destruct (protocol_send_command _ _) as [f|] eqn:Hs; [|done].
  pose proof (proj1 (client_open_fd c) Ho). simpl.
  destruct (up (client_fd c)) eqn:Hu; [|done]. intros [= <- <-].
  split; [by destruct c|]. split; [done|]. by eapply send_command_decodes.
Qed.

(** C17. While no connection logs in under two ids, a command the hub reports as
    sent went, as one frame that decodes to exactly the payload, to the open
    connection that last logged in as the device, or to the client the hub has
    cached for it; and that socket has accepted it. *)
Theorem hub_send_reaches_device tr s up h deviceID payload fd frame c' rest :
  reach one_identity tr s →
  nul_free deviceID → (String.length deviceID ≤ 255)%nat → client_open c' = true →
  Hub_Send up h (registry s) deviceID payload = Ok (fd, frame) →
  (owner (to_bytes deviceID) tr = Some fd ∧ last s !! fd = Some (to_bytes deviceID) ∨
   h !! deviceID = Some (Some fd)) ∧
  up fd = true ∧
  RecvProtocolMessage c' (frame ++ rest) = Ok (received (OCommand payload), rest).
Proof.
  intros Hr Hn Hl Hc'. unfold Hub_Send, SendToDevice.
  destruct (decide (deviceID = "")); [intros [??]%(cached_send_ok _ _ _ _ _ _ _ c' rest); auto|].
  destruct (decide (payload = [])); [intros [??]%(cached_send_ok _ _ _ _ _ _ _ c' rest); auto|].
  unfold protocol_send_to_device.
  destruct (CString_valid_id deviceID) as [-> Hv]; [done..|].
  pose proof (reach_consistent tr s Hr) as [Hwf He Hlast Hfds].
  rewrite (registry_get_spec (to_bytes deviceID) (registry s) (owner (to_bytes deviceID) tr));
    [|done|done|intros f; rewrite He; naive_solver].
  destruct (owner (to_bytes deviceID) tr) as [f|] eqn:Ho; simpl.
  2:{ intros [??]%(cached_send_ok _ _ _ _ _ _ _ c' rest); auto. }
  pose proof (Hlast _ f (proj1 Hv) Ho) as Hlf.
  rewrite decide_False by (apply Hfds; eauto).
  destruct (protocol_send_command f payload) as [fr|] eqn:Hs; simpl;
    [|intros [??]%(cached_send_ok _ _ _ _ _ _ _ c' rest); auto].
  destruct (up f) eqn:Hu; simpl; [|intros [??]%(cached_send_ok _ _ _ _ _ _ _ c' rest); auto].
  intros [= <- <-]. split; [by left|]. split; [done|].
  eapply send_command_decodes; [done|apply Hfds; eauto|done].
Qed.

Lemma hub_send_reaches_device_witness :
  let s := foldl step server0 sample_trace in
  ∃ frame, Hub_Send (λ _, true) NewHub (registry s) "laptop" (to_bytes "{}") = Ok (6, frame) ∧
    RecvProtocolMessage (Some 9) (frame ++ []) = Ok (received (OCommand (to_bytes "{}")), []).
Proof.
  eexists. split; [vm_compute; reflexivity|].
  apply (hub_send_reaches_device sample_trace (foldl step server0 sample_trace) (λ _, true)
    NewHub "laptop" (to_bytes "{}") 6).
  - apply sample_reach.
  - by_decide.
  - vm_compute. lia.
  - done.
  - vm_compute. reflexivity.
Defined.

(** *** What the registry forgets *)

Definition two_names_trace : list event :=
  [EAccept 5; EFrame 5 (login_frame "a"); EFrame 5 (login_frame "b"); EClose 5].

(** Closing removes one entry of the descriptor only: a connection that logged
    in under two ids leaves the first one behind, online on a socket that is
    closed. *)
Lemma stale_entry_after_close :
  let s := foldl step server0 two_names_trace in
  reach (λ _ _, True) two_names_trace s ∧ last s = ∅ ∧
  DeviceIsOnline "a" (registry s) = true.
Proof.
  cbv zeta. split; [|by vm_compute].
  change two_names_trace with ((((([] ++ [EAccept 5]) ++ [EFrame 5 (login_frame "a")])
    ++ [EFrame 5 (login_frame "b")]) ++ [EClose 5])) at 1.
  cbn [foldl two_names_trace].
  apply reach_step; [apply reach_step; [apply reach_step; [apply reach_step;
    [apply reach_start|..]|..]|..]|..];
    try apply (login_frame_possible _ _ "a"); try apply (login_frame_possible _ _ "b");
    try done; vm_compute; eauto.
Qed.

(** *** Identity of a connection's messages *)

(** The messages handed to [on_message] for the frames of one connection. *)
Fixpoint delivered (fd : Z) (last_device : list ascii) (l : list device_entry)
    (frames : list protocol_message) : list protocol_message :=
  match frames with
  | [] => []
  | m :: frames =>
      let '(dev, l', m') := connection_frame fd m last_device l in
      m' :: delivered fd dev l' frames
  end.

(** The id of the last login up to each frame. *)
Fixpoint identities (cur : list ascii) (frames : list protocol_message) : list (list ascii) :=
  match frames with
  | [] => []
  | m :: frames =>
      let cur' := if decide (type m = MSG_LOGIN ∧ c_str (device_id m) ≠ [])
                  then c_str (device_id m) else cur in
      cur' :: identities cur' frames
  end.

(** Every message of a connection is handed over under the device id of the
    connection's most recent login, none before the first, and is otherwise
    the frame that was received. *)
Theorem frames_carry_identity fd l frames :
  Forall (λ m, ∃ t p, m = parse_payload t p) frames →
  (c_str ∘ device_id <$> delivered fd [] l frames) = identities [] frames ∧
  (data <$> delivered fd [] l frames) = data <$> frames ∧
  (type <$> delivered fd [] l frames) = type <$> frames.
Proof.
  intros H. assert (c_str [] = []) as Hcur by done. revert Hcur.
  generalize (@nil ascii) as cur. revert l.
  induction H as [|m frames (t & p & ->) _ IH]; intros l cur Hcur; [done|].
  destruct (parse_device_id t p) as (Hlen & Ht & Hlog). cbn [delivered identities].
  pose proof (c_str_length (device_id (parse_payload t p))) as Hcl.
  unfold connection_frame. set (m := parse_payload t p) in *.
  destruct (decide (c_str (device_id m) = [])) as [Hi|Hi].
  - rewrite (decide_False (P := type m = MSG_LOGIN ∧ _)) by tauto.
    case_decide as Hc.
    + destruct (IH l cur Hcur) as (H1 & H2 & H3). rewrite !fmap_cons, H1, H2, H3.
      by simpl; rewrite Hcur.
    + rewrite decide_False by tauto. destruct (IH l cur Hcur) as (H1 & H2 & H3).
      rewrite !fmap_cons, H1, H2, H3. simpl. rewrite Hi.
      destruct cur; [done|]. by destruct Hc.
  - rewrite decide_False by tauto. rewrite decide_True by done.
    assert (type m = MSG_LOGIN) as Hm.
    { rewrite Ht. apply Hlog. intros E. apply Hi. by rewrite E. }
    rewrite !decide_True by done.
    assert (id_prefix (c_str (device_id m)) = c_str (device_id m)) as ->
      by (apply take_ge; lia).
    destruct (IH (registry_set (c_str (device_id m)) fd l) (c_str (device_id m)))
      as (H1 & H2 & H3); [apply c_str_idem|].
    by rewrite !fmap_cons, H1, H2, H3.
Qed.

Lemma frames_carry_identity_witness :
  c_str ∘ device_id <$> delivered 5 [] []
    [parse_payload MSG_COMMAND []; login_frame "a"; parse_payload MSG_COMMAND (to_bytes "{}")]
  = [[]; to_bytes "a"; to_bytes "a"].
Proof.
  destruct (frames_carry_identity 5 []
    [parse_payload MSG_COMMAND []; login_frame "a"; parse_payload MSG_COMMAND (to_bytes "{}")])
    as [-> _].
  - repeat apply Forall_cons_2; [..|apply Forall_nil_2]; by eexists _, _.
  - vm_compute. reflexivity.
Defined.
