(* ===== verification/Listener.v ===== *)
(** * The listening server

    network/tcp_server.c (the accept loop, the worker threads, stop and destroy),
    the life of a connection in network/protocol_server.c, and the Go side of it in
    network/server.go ([ListenProtocolWithDisconnect], the bridges, [Stop],
    [Close]).

    The state is the process as the kernel sees it: its open descriptors and its
    worker threads, each at one point of its run.  An execution is any
    interleaving of accepts, frames, ends of connections, closes and the rest of
    the process opening descriptors of its own.

    A worker closes its descriptor twice: in [protocol_connection_handler] and
    again in [connection_worker].  As long as nothing is opened between the two,
    a descriptor belongs to one connection, which is what [Registry] assumes of
    the kernel; otherwise it does not. *)

From S2P Require Export Sockets Registry.

Local Open Scope Z_scope.

(** ** Threads *)

Inductive worker_pc :=
  | Starting   (* before [server->handler(...)] *)
  | Serving    (* in the loop of the handler *)
  | Ending     (* before the handler's [tcp_close] *)
  | Closing.   (* before the worker's [tcp_close] *)
#[export] Instance worker_pc_eq_dec : EqDecision worker_pc.
Proof. solve_decision. Defined.

Record process := {
  opened : gset Z;                     (* descriptors of the process *)
  listen_fd : Z;
  threads : gmap nat (Z * worker_pc);
  running : bool;                      (* [server->running] *)
  live : bool;                         (* the server's memory is allocated *)
  fault : bool }.                      (* freed memory was read *)

Inductive action :=
  | AAccept (t : nat) (fd : Z)         (* accept and pthread_create *)
  | AStart (t : nat)
  | AFrame (t : nat) (m : protocol_message)
  | AEnd (t : nat)                     (* the receive failed *)
  | AClose (t : nat)
  | AOpen (fd : Z)                     (* a file, a database connection *)
  | ACloseOther (fd : Z)
  | AStop                              (* [tcp_server_stop] *)
  | ADestroy.                          (* [tcp_server_destroy], [free(pserver)] *)

Definition set_threads (th : gmap nat (Z * worker_pc)) (p : process) : process :=
  {| opened := opened p; listen_fd := listen_fd p; threads := th; running := running p; live := live p; fault := fault p |}.
Definition set_opened (o : gset Z) (p : process) : process :=
  {| opened := o; listen_fd := listen_fd p; threads := threads p; running := running p; live := live p; fault := fault p |}.
(** [server->handler] and [pserver->on_message] are read from the server. *)
Definition reads_server (p : process) : process :=
  {| opened := opened p; listen_fd := listen_fd p; threads := threads p; running := running p; live := live p;
     fault := fault p || negb (live p) |}.

(** The kernel gives a descriptor that is not open; [None]: not possible now. *)
Definition fresh_fd (fd : Z) (p : process) : Prop := 0 ≤ fd ∧ fd ∉ opened p.
#[export] Instance fresh_fd_dec fd p : Decision (fresh_fd fd p).
Proof. unfold fresh_fd. apply _. Defined.

(** Only the first stop closes the listening socket; it joins the accept loop.  The
    flag, the close and the join are one step. *)
Definition tcp_server_stop (p : process) : process :=
  if running p then
    {| opened := opened p ∖ {[listen_fd p]}; listen_fd := listen_fd p; threads := threads p;
       running := false; live := live p; fault := fault p |}
  else p.
(** [free] of the server, after a stop. *)
Definition tcp_server_destroy (p : process) : process :=
  let p := tcp_server_stop p in
  {| opened := opened p; listen_fd := listen_fd p; threads := threads p; running := running p;
     live := false; fault := fault p |}.

Definition advance (t : nat) (from to : worker_pc) (p : process) : option process :=
  '(fd, pc) ← threads p !! t;
  if decide (pc = from) then Some (set_threads (<[t := (fd, to)]> (threads p)) p) else None.

Definition act (p : process) (a : action) : option process :=
  match a with
  | AAccept t fd =>
      if decide (running p = true ∧ fresh_fd fd p ∧ threads p !! t = None)
      then Some (set_opened ({[fd]} ∪ opened p) (set_threads (<[t := (fd, Starting)]> (threads p)) p))
      else None
  | AStart t => reads_server <$> advance t Starting Serving p
  | AFrame t _ => reads_server <$> advance t Serving Serving p
  | AEnd t => advance t Serving Ending p
  | AClose t =>
      '(fd, pc) ← threads p !! t;
      match pc with
      | Ending => Some (set_opened (opened p ∖ {[fd]}) (set_threads (<[t := (fd, Closing)]> (threads p)) p))
      | Closing => Some (set_opened (opened p ∖ {[fd]}) (set_threads (delete t (threads p)) p))
      | _ => None
      end
  | AOpen fd => if decide (fresh_fd fd p) then Some (set_opened ({[fd]} ∪ opened p) p) else None
  | ACloseOther fd => Some (set_opened (opened p ∖ {[fd]}) p)
  | AStop => Some (tcp_server_stop p)
  | ADestroy => if live p then Some (tcp_server_destroy p) else None
  end.

Definition process0 : process :=
  {| opened := {[0; 1; 2; 3]}; listen_fd := 3; threads := ∅; running := true; live := true; fault := false |}.

Fixpoint run_actions (p : process) (l : list action) : option process :=
  match l with
  | [] => Some p
  | a :: l => p' ← act p a; run_actions p' l
  end.

(** What the execution keeps to: nothing is opened between a worker's two closes,
    and the rest of the process closes only what is not a connection. *)
Definition is_opening (a : action) : bool :=
  match a with AAccept _ _ | AOpen _ => true | _ => false end.
Definition undisturbed (p : process) (a : action) : Prop :=
  (is_opening a = true → ∀ t fd pc, threads p !! t = Some (fd, pc) → pc ≠ Closing) ∧
  match a with
  | ACloseOther fd =>
      (running p = true → fd ≠ listen_fd p) ∧ ∀ t pc, threads p !! t ≠ Some (fd, pc)
  | AFrame _ m => ∃ ty pl, m = parse_payload ty pl
  | _ => True
  end.

(** The registry's event of an action. *)
Definition event_of (p : process) (a : action) : option event :=
  match a with
  | AAccept _ fd => Some (EAccept fd)
  | AFrame t m => (λ c, EFrame c.1 m) <$> threads p !! t
  | AEnd t => (λ c, EClose c.1) <$> threads p !! t
  | _ => None
  end.

(** An execution, with the registry's events in it. *)
Inductive runs (P : process → action → Prop) : list event → process → Prop :=
  | runs_start : runs P [] process0
  | runs_step tr p a p' :
      runs P tr p → P p a → act p a = Some p' → runs P (tr ++ option_list (event_of p a)) p'.

(** ** Creating the server *)

(** What the kernel and the C library answer while a server is made. *)
Record listen_env := {
  getaddrinfo : option (list ascii) → Z → option (list candidate);
  listens : Z → bool;
  allocates : bool;                    (* [calloc] *)
  thread_starts : bool }.              (* [pthread_create] of the accept loop *)

(** [tcp_server_create]: the listening descriptor and those closed on the way. *)
Definition tcp_server_create (env : listen_env) (host : option (list ascii)) (port : Z) :
    option Z * list Z :=
  if decide (port ≤ 0) then (None, []) else
  let '(listen_fd, closed) := tcp_server_start (getaddrinfo env) (listens env) host port in
  if decide (listen_fd = INVALID_SOCKET) then (None, closed) else
  if allocates env && thread_starts env then (Some listen_fd, closed)
  else (None, closed ++ [listen_fd]).

(** ** The Go side *)

(** The two package variables; [H] and [D] are the types of the callbacks. *)
Record bridges (H D : Type) := {
  protocolHandler : option H;
  protocolDisconnectHandler : option D }.
Arguments protocolHandler {H D} _.
Arguments protocolDisconnectHandler {H D} _.

(** A [*ProtocolServer] with its C server: whether it has a disconnect callback. *)
Record ProtocolServer := { c_server : option bool }.

Section Bridges.
Context {H D : Type}.

(** [goProtocolMessageBridge]: the handler called, with the client and message. *)
Definition goProtocolMessageBridge (g : bridges H D) (fd : Z) (m : protocol_message) :
    option (H * TCPClient * ProtocolMessage) :=
  h ← protocolHandler g; Some (h, Some fd, convertProtocolMessage m).
Definition goProtocolDisconnectBridge (g : bridges H D) (fd : Z) (deviceID : option (list ascii)) :
    option (D * TCPClient * string) :=
  h ← protocolDisconnectHandler g;
  Some (h, Some fd, match deviceID with Some d => GoString d | None => "" end).

(** [out_server] and whether the memory of [protocol_server_t] could be had. *)
Definition protocol_server_create (env : listen_env) (host : option (list ascii)) (port : Z)
    (has_disconnect : bool) : option ProtocolServer :=
  if decide (port ≤ 0) then None
  else if allocates env then
    match (tcp_server_create env host port).1 with
    | Some _ => Some {| c_server := Some has_disconnect |}
    | None => None
    end
  else None.

Definition ListenProtocolWithDisconnect (env : listen_env) (host : string)
    (port : Z) (handler : option H) (disconnectHandler : option D) (g : bridges H D) :
    bridges H D * result ProtocolServer :=
  if decide (port ≤ 0) then (g, Err "invalid port") else
  match handler with
  | None => (g, Err "handler is required")
  | Some _ =>
      let cHost := if decide (host = "") then None else Some (CString host) in
      let g' := {| protocolHandler := handler; protocolDisconnectHandler := disconnectHandler |} in
      match protocol_server_create env cHost (c_int port) (bool_decide (is_Some disconnectHandler)) with
      | Some srv => (g', Ok srv)
      | None => (g', Err "protocol server create failed")
      end
  end.
Definition ListenProtocol (env : listen_env) (host : string) (port : Z)
    (handler : option H) (g : bridges H D) : bridges H D * result ProtocolServer :=
  ListenProtocolWithDisconnect env host port handler None g.

(** [Stop]; the C call fails on a server without a listener only. *)
Definition Stop (s : option ProtocolServer) (p : process) : process * result unit :=
  match s ≫= c_server with
  | None => (p, Err "server not open")
  | Some _ => (tcp_server_stop p, Ok tt)
  end.
Definition ProtocolServer_Close (s : option ProtocolServer) (g : bridges H D) (p : process) :
    option ProtocolServer * bridges H D * process * result unit :=
  match s ≫= c_server with
  | None => (s, g, p, Err "server not open")
  | Some _ =>
      (Some {| c_server := None |},
       {| protocolHandler := None; protocolDisconnectHandler := None |},
       default p (act p ADestroy), Ok tt)
  end.

(** The C loop calls back when the message callback and, at the end, the disconnect
    callback are there and the connection named a device. *)
Definition on_disconnect (srv : ProtocolServer) (g : bridges H D) (fd : Z) (last_device : list ascii) :
    option (D * TCPClient * string) :=
  if decide (c_server srv = Some true ∧ last_device ≠ [])
  then goProtocolDisconnectBridge g fd (Some last_device) else None.
End Bridges.

(** ** Properties *)

Record owned (p : process) : Prop := {
  owned_open t fd pc : threads p !! t = Some (fd, pc) → pc ≠ Closing → fd ∈ opened p;
  owned_closed t fd : threads p !! t = Some (fd, Closing) → fd ∉ opened p;
  owned_one t t' fd pc pc' : threads p !! t = Some (fd, pc) → threads p !! t' = Some (fd, pc') →
    pc ≠ Closing → pc' ≠ Closing → t = t';
  owned_listen : running p = true → listen_fd p ∈ opened p ∧
    ∀ t fd pc, threads p !! t = Some (fd, pc) → fd ≠ listen_fd p;
  owned_valid t fd pc : threads p !! t = Some (fd, pc) → 0 ≤ fd }.

Lemma owned_start : owned process0.
Proof. split; try set_solver. Qed.

(** Moving a thread on, without touching the descriptors. *)
Lemma advance_spec t from to p p' :
  advance t from to p = Some p' → ∃ fd, threads p !! t = Some (fd, from) ∧
  p' = set_threads (<[t := (fd, to)]> (threads p)) p.
Proof.
  unfold advance. destruct (threads p !! t) as [[fd pc]|]; [|done]. simpl. case_decide as Hp; [|done].
  subst pc. intros [= <-]. by exists fd.
Qed.

Lemma owned_move p t fd from to :
  owned p → threads p !! t = Some (fd, from) → from ≠ Closing → to ≠ Closing →
  owned (set_threads (<[t := (fd, to)]> (threads p)) p).
Proof.
  intros [Ho Hc H1 Hl Hv] Ht Hf Hto. split; simpl.
  - intros t' fd' pc. rewrite lookup_insert_Some. intros [[<- [= <- <-]]|[_ ?]] Hpc; eauto.
  - intros t' fd'. rewrite lookup_insert_Some. intros [[_ [= _ ?]]|[_ ?]]; [done|eauto].
  - intros t1 t2 f pc1 pc2. rewrite !lookup_insert_Some.
    intros [[? ?]|[? ?]] [[? ?]|[? ?]] ??; simplify_eq; eauto.
  - intros Hr. destruct (Hl Hr) as [? Hfd]. split; [done|]. intros t' fd' pc.
    rewrite lookup_insert_Some. intros [[<- [= <- <-]]|[_ ?]]; eauto.
  - intros t' fd' pc. rewrite lookup_insert_Some. intros [[<- [= <- <-]]|[_ ?]]; eauto.
Qed.

Lemma owned_reads p : owned p → owned (reads_server p).
Proof. by intros [? ? ? ? ?]. Qed.

Lemma owned_stop p : owned p → owned (tcp_server_stop p).
Proof.
  intros Hp. pose proof Hp as [Ho Hc H1 Hl Hv]. unfold tcp_server_stop.
  destruct (running p) eqn:Hr; [|done]. destruct (Hl eq_refl) as [? Hn].
  split; simpl; [|set_solver|done|done|done].
  intros t fd pc Ht Hpc. apply elem_of_difference. split; [by eapply Ho|].
  apply not_elem_of_singleton. by eapply Hn.
Qed.

Section Steps.
Context (p : process) (Hp : owned p).

Lemma owned_accept t fd :
  (∀ t fd pc, threads p !! t = Some (fd, pc) → pc ≠ Closing) → fresh_fd fd p →
  owned (set_opened ({[fd]} ∪ opened p) (set_threads (<[t := (fd, Starting)]> (threads p)) p)).
Proof.
  intros Hq [Hpos Hfd]. destruct Hp as [Ho Hc H1 Hl Hv].
  assert (∀ t' pc, threads p !! t' = Some (fd, pc) → False) as Hnew.
  { intros t' pc Ht'. apply Hfd. eapply Ho; [done|]. by eapply Hq. }
  split; simpl.
  - intros t' fd' pc. rewrite lookup_insert_Some. intros [[_ [= <- _]]|[_ ?]] ?; set_solver.
  - intros t' fd'. rewrite lookup_insert_Some. intros [[_ ?]|[_ Ht']]; [done|].
    by destruct (Hq _ _ _ Ht').
  - intros t1 t2 f pc1 pc2. rewrite !lookup_insert_Some.
    intros [[? ?]|[? ?]] [[? ?]|[? ?]] ??; simplify_eq; eauto; by exfalso; eauto.
  - intros Hr. destruct (Hl Hr) as [? Hn]. split; [set_solver|]. intros t' fd' pc.
    rewrite lookup_insert_Some. intros [[_ [= <- _]]|[_ ?]]; [set_solver|eauto].
  - intros t' fd' pc. rewrite lookup_insert_Some. intros [[_ [= <- _]]|[_ ?]]; eauto.
Qed.

Lemma opened_except fd fd' : fd' ∈ opened p → fd' ≠ fd → fd' ∈ opened p ∖ {[fd]}.
Proof. set_solver. Qed.

(** The first close, by the handler. *)
Lemma owned_handler_close t fd :
  threads p !! t = Some (fd, Ending) →
  owned (set_opened (opened p ∖ {[fd]}) (set_threads (<[t := (fd, Closing)]> (threads p)) p)).
Proof.
  intros Et. destruct Hp as [Ho Hc H1 Hl Hv]. split; simpl.
  - intros t' fd' pc. rewrite lookup_insert_Some. intros [[_ ?]|[Hn Ht']] Hpc; [by simplify_eq|].
    apply opened_except; [by eapply Ho|]. intros ->. apply Hn. symmetry. by eapply H1.
  - intros t' fd'. rewrite lookup_insert_Some. intros [[_ [= <-]]|[_ Ht']]; [set_solver|].
    apply Hc in Ht'. set_solver.
  - intros t1 t2 f pc1 pc2. rewrite !lookup_insert_Some.
    intros [[? ?]|[? ?]] [[? ?]|[? ?]] ??; simplify_eq; eauto.
  - intros Hr. destruct (Hl Hr) as [? Hn]. split.
    + apply opened_except; [done|]. intros Heq. by eapply Hn.
    + intros t' fd' pc. rewrite lookup_insert_Some. intros [[_ [= <- _]]|[_ ?]]; eauto.
  - intros t' fd' pc. rewrite lookup_insert_Some. intros [[_ [= <- _]]|[_ ?]]; eauto.
Qed.

(** The second one, by the worker: nothing happens to anybody else. *)
Lemma owned_worker_close t fd :
  threads p !! t = Some (fd, Closing) →
  owned (set_opened (opened p ∖ {[fd]}) (set_threads (delete t (threads p)) p)).
Proof.
  intros Et. destruct Hp as [Ho Hc H1 Hl Hv].
  assert (opened p ∖ {[fd]} = opened p) as Heq by (apply Hc in Et; set_solver).
  split; simpl; rewrite ?Heq.
  - intros t' fd' pc. rewrite lookup_delete_Some. intros [_ ?]. eauto.
  - intros t' fd'. rewrite lookup_delete_Some. intros [_ ?]. eauto.
  - intros t1 t2 f pc1 pc2. rewrite !lookup_delete_Some. intros [_ ?] [_ ?]. eauto.
  - intros Hr. destruct (Hl Hr) as [? Hn]. split; [done|]. intros t' fd' pc.
    rewrite lookup_delete_Some. intros [_ ?]. eauto.
  - intros t' fd' pc. rewrite lookup_delete_Some. intros [_ ?]. eauto.
Qed.

Lemma owned_other_open fd :
  (∀ t fd pc, threads p !! t = Some (fd, pc) → pc ≠ Closing) →
  owned (set_opened ({[fd]} ∪ opened p) p).
Proof.
  intros Hq. destruct Hp as [Ho Hc H1 Hl Hv].
  split; simpl; [set_solver| |done|intros Hr; destruct (Hl Hr); set_solver|done].
  intros t' fd' Ht'. by destruct (Hq _ _ _ Ht').
Qed.

Lemma owned_close_other fd :
  (running p = true → fd ≠ listen_fd p) → (∀ t pc, threads p !! t ≠ Some (fd, pc)) →
  owned (set_opened (opened p ∖ {[fd]}) p).
Proof.
  intros Hlis Hu. destruct Hp as [Ho Hc H1 Hl Hv]. split; simpl; [| |done| |done].
  - intros t' fd' pc Ht' Hpc. apply opened_except; [by eapply Ho|]. intros ->. by eapply Hu.
  - intros t' fd' Ht'. apply Hc in Ht'. set_solver.
  - intros Hr. destruct (Hl Hr) as [? Hn]. split; [|done]. specialize (Hlis Hr). set_solver.
Qed.
End Steps.

Lemma owned_act p a p' : owned p → undisturbed p a → act p a = Some p' → owned p'.
Proof.
  intros Hp [Hq Hu]. destruct a as [t fd|t|t m|t|t|fd|fd| |]; simpl.
  - case_decide as Hd; [|done]. intros [= <-]. apply owned_accept; [done|by apply Hq|tauto].
  - destruct (advance _ _ _ p) as [q|] eqn:E; [|done]. intros [= <-].
    apply advance_spec in E as (fd & ? & ->). apply owned_reads. by eapply owned_move.
  - destruct (advance _ _ _ p) as [q|] eqn:E; [|done]. intros [= <-].
    apply advance_spec in E as (fd & ? & ->). apply owned_reads. by eapply owned_move.
  - intros E. apply advance_spec in E as (fd & ? & ->). by eapply owned_move.
  - destruct (threads p !! t) as [[fd pc]|] eqn:Et; [|done]. simpl.
    destruct pc; try done; intros [= <-]; [by apply owned_handler_close|by apply owned_worker_close].
  - case_decide; [|done]. intros [= <-]. apply owned_other_open; [done|by apply Hq].
  - intros [= <-]. destruct Hu as [? ?]. by apply owned_close_other.
  - intros [= <-]. by apply owned_stop.
  - destruct (live p); [|done]. intros [= <-]. apply owned_stop in Hp. by destruct Hp.
Qed.

(** The registry's open connections are the threads in the handler. *)
Definition in_loop (pc : worker_pc) : Prop := pc = Starting ∨ pc = Serving.
Definition handled (th : gmap nat (Z * worker_pc)) (fd : Z) : Prop :=
  ∃ t pc, th !! t = Some (fd, pc) ∧ in_loop pc.
Definition in_handler (p : process) (fd : Z) : Prop := handled (threads p) fd.
Definition same_connections (p : process) (s : server) : Prop :=
  ∀ fd, is_Some (last s !! fd) ↔ in_handler p fd.

Section Handled.
Context (th : gmap nat (Z * worker_pc)) (t : nat) (fd : Z).

Lemma handled_start x : th !! t = None → handled (<[t := (fd, Starting)]> th) x ↔ fd = x ∨ handled th x.
Proof.
  intros Ht. split.
  - intros (t' & pc & [[_ ?]|[_ ?]]%lookup_insert_Some & Hpc); [left; congruence|right; by exists t', pc].
  - intros [->|(t' & pc & Ht' & Hpc)].
    + exists t, Starting. rewrite lookup_insert_eq. split; [done|by left].
    + exists t', pc. by rewrite lookup_insert_ne by congruence.
Qed.

Lemma handled_move from to x :
  th !! t = Some (fd, from) → (in_loop from ↔ in_loop to) →
  handled (<[t := (fd, to)]> th) x ↔ handled th x.
Proof.
  intros Ht Hl. split.
  - intros (t' & pc & [[<- [= <- <-]]|[_ ?]]%lookup_insert_Some & Hpc);
      [exists t, from; by rewrite Hl|by exists t', pc].
  - intros (t' & pc & Ht' & Hpc). destruct (decide (t = t')) as [<-|].
    + exists t, to. rewrite lookup_insert_eq. rewrite Ht in Ht'. injection Ht' as <- <-. by rewrite <- Hl.
    + exists t', pc. by rewrite lookup_insert_ne.
Qed.

Lemma handled_end from to x :
  th !! t = Some (fd, from) → ¬ in_loop to →
  (∀ t' pc, th !! t' = Some (fd, pc) → in_loop pc → t' = t) →
  handled (<[t := (fd, to)]> th) x ↔ fd ≠ x ∧ handled th x.
Proof.
  intros Ht Hto H1. split.
  - intros (t' & pc & [[_ [= _ <-]]|[Hn Ht']]%lookup_insert_Some & Hpc); [done|].
    split; [|by exists t', pc]. intros <-. by apply Hn, eq_sym, (H1 t' pc).
  - intros [Hx (t' & pc & Ht' & Hpc)]. exists t', pc. by rewrite lookup_insert_ne by congruence.
Qed.

Lemma handled_gone from x :
  th !! t = Some (fd, from) → ¬ in_loop from → handled (delete t th) x ↔ handled th x.
Proof.
  intros Ht Hf. split; intros (t' & pc & Ht' & Hpc); exists t', pc.
  - by apply lookup_delete_Some in Ht' as [_ ?].
  - rewrite lookup_delete_ne; [done|]. intros <-. congruence.
Qed.
End Handled.

Lemma last_frame s fd m dev :
  last s !! fd = Some dev → ∀ x, is_Some (last (step s (EFrame fd m)) !! x) ↔ is_Some (last s !! x).
Proof.
  intros Hfd x. simpl. destruct (connection_frame _ _ _ _) as [[d l] r]. simpl.
  rewrite lookup_insert_is_Some. destruct (decide (fd = x)) as [->|]; [|naive_solver].
  rewrite Hfd. naive_solver.
Qed.

Lemma same_connections_act p s a p' :
  owned p → undisturbed p a → same_connections p s → act p a = Some p' →
  match event_of p a with
  | Some e => possible s e ∧ same_connections p' (step s e)
  | None => same_connections p' s
  end.
Proof.
  intros Hp [Hq Hu] Hs. unfold same_connections, in_handler in *. destruct a as [t fd|t|t m|t|t|fd|fd| |]; simpl.
  - case_decide as Hd; [|done]. destruct Hd as (_ & [Hpos Hfd] & Ht). intros [= <-]. split.
    + split; [unfold INVALID_SOCKET; lia|]. apply eq_None_not_Some. intros (t' & pc & Ht' & Hpc)%Hs.
      apply Hfd. eapply owned_open; [done..|]. by destruct Hpc as [->| ->].
    + intros x. simpl. by rewrite lookup_insert_is_Some, Hs, handled_start; [destruct (decide (fd = x)); tauto|].
  - destruct (advance _ _ _ p) as [q|] eqn:E; [|done]. intros [= <-].
    apply advance_spec in E as (fd & Et & ->). intros x. rewrite Hs. symmetry.
    eapply handled_move; [done|]. unfold in_loop. tauto.
  - destruct (advance _ _ _ p) as [q|] eqn:E; [|done]. intros [= <-].
    apply advance_spec in E as (fd & Et & ->). rewrite Et. simpl.
    assert (is_Some (last s !! fd)) as Hfd by (apply Hs; exists t, Serving; split; [done|by right]).
    split; [done|]. intros x. destruct Hfd as [dev Hfd].
    pose proof (last_frame s fd m dev Hfd x) as Hl. simpl in Hl. by rewrite Hl, Hs, insert_id.
  - intros E. apply advance_spec in E as (fd & Et & ->). rewrite Et. simpl.
    split; [apply Hs; exists t, Serving; split; [done|by right]|].
    intros x. simpl. rewrite lookup_delete_is_Some, Hs. symmetry.
    eapply handled_end; [done|by intros [|]|]. intros t' pc Ht' Hpc.
    eapply owned_one; [done|done|done| |done]. by destruct Hpc as [->| ->].
  - destruct (threads p !! t) as [[fd pc]|] eqn:Et; [|done]. simpl.
    destruct pc; try done; intros [= <-] x; rewrite Hs; symmetry; simpl.
    + eapply handled_move; [done|]. unfold in_loop. intuition congruence.
    + eapply handled_gone; [done|]. by intros [|].
  - case_decide; [|done]. by intros [= <-].
  - by intros [= <-].
  - intros [= <-]. unfold tcp_server_stop. by destruct (running p).
  - destruct (live p); [|done]. intros [= <-]. unfold tcp_server_destroy, tcp_server_stop.
    by destruct (running p).
Qed.

(** C12. The threads refine the registry's server: in every interleaving of accepts,
    frames, ends and closes in which nothing is opened between a worker's two closes,
    a served descriptor is open and belongs to one connection, and the accepts, frames
    and ends are a possible execution of the server of [Registry] with the same open
    connections. *)
Theorem connections_as_registered tr p :
  runs undisturbed tr p →
  owned p ∧ ∃ s, reach (λ _ _, True) tr s ∧ same_connections p s.
Proof.
  induction 1 as [|tr p a p' Hr [Hp (s & Hs & Hsame)] Hu Ha].
  - split; [apply owned_start|]. exists server0. split; [constructor|].
    intros fd. split; [by intros [? ?]|]. by intros (t & pc & ? & _).
  - split; [by eapply owned_act|].
    pose proof (same_connections_act p s a p' Hp Hu Hsame Ha) as Hstep.
    destruct (event_of p a) as [e|]; simpl.
    + destruct Hstep as [Hpos Hsame']. exists (step s e). split; [|done]. by constructor.
    + rewrite app_nil_r. by exists s.
Qed.

Lemma connections_as_registered_witness :
  ∃ p s, owned p ∧ reach (λ _ _, True) [EAccept 4; EFrame 4 (parse_payload MSG_ACK [])] s ∧
  same_connections p s.
Proof.
  assert (∀ p a p', act p a = Some p' → undisturbed p a → ∀ tr, runs undisturbed tr p →
    runs undisturbed (tr ++ option_list (event_of p a)) p') as Hstep by (intros; by eapply runs_step).
  assert (runs undisturbed [] process0) as H0 by constructor.
  eapply (Hstep _ (AAccept 0 4)) in H0; [|vm_compute; reflexivity|split; [by intros _ ???|done]].
  eapply (Hstep _ (AStart 0)) in H0; [|vm_compute; reflexivity|done].
  eapply (Hstep _ (AFrame 0 (parse_payload MSG_ACK []))) in H0;
    [|vm_compute; reflexivity|split; [done|by eexists _, _]].
  destruct (connections_as_registered _ _ H0) as (Hp & s & Hs & Hsame).
  eexists _, s. split; [exact Hp|]. split; [exact Hs|exact Hsame].
Defined.

(** Without that care a second close takes the descriptor of another connection away,
    and a third connection then shares it. *)
Definition close_race : list action :=
  [AAccept 0 4; AStart 0; AEnd 0; AClose 0; AAccept 1 4; AStart 1; AClose 0].

Lemma second_close_hits_another :
  ∃ p, run_actions process0 close_race = Some p ∧
  threads p !! 1%nat = Some (4, Serving) ∧ 4 ∉ opened p ∧
  ∃ p', run_actions p [AAccept 2 4; AStart 2] = Some p' ∧
    threads p' !! 1%nat = Some (4, Serving) ∧ threads p' !! 2%nat = Some (4, Serving).
Proof.
  eexists. split; [vm_compute; reflexivity|]. split_and!.
  - vm_compute. reflexivity.
  - apply (bool_decide_unpack _). vm_compute. exact I.
  - eexists. split; [vm_compute; reflexivity|]. split; vm_compute; reflexivity.
Qed.

(** The server's memory is read only while it is allocated, unless the server is
    destroyed: its workers are detached and go on. *)
Lemma fault_act p a p' :
  act p a = Some p' → a ≠ ADestroy → live p = true ∧ fault p = false →
  live p' = true ∧ fault p' = false.
Proof.
  intros Ha Hn [Hl Hf].
  assert (∀ f g t q, advance t f g p = Some q → live q = true ∧ fault q = false) as Hadv.
  { by intros f g t q (fd & _ & ->)%advance_spec. }
  destruct a as [t fd|t|t m|t|t|fd|fd| |]; simpl in Ha; try done.
  - case_decide; [|done]. by injection Ha as <-.
  - destruct (advance _ _ _ p) as [q|] eqn:E; [|done]. injection Ha as <-.
    apply Hadv in E as [Hlq Hfq]. simpl. by rewrite Hlq, Hfq.
  - destruct (advance _ _ _ p) as [q|] eqn:E; [|done]. injection Ha as <-.
    apply Hadv in E as [Hlq Hfq]. simpl. by rewrite Hlq, Hfq.
  - by apply Hadv in Ha.
  - destruct (threads p !! t) as [[fd pc]|]; [|done]. simpl in Ha.
    by destruct pc; try done; injection Ha as <-.
  - case_decide; [|done]. by injection Ha as <-.
  - by injection Ha as <-.
  - injection Ha as <-. unfold tcp_server_stop. by destruct (running p).
Qed.

Lemma no_fault_without_destroy l p :
  run_actions process0 l = Some p → ADestroy ∉ l → fault p = false.
Proof.
  assert (∀ l q, run_actions q l = Some p → ADestroy ∉ l → live q = true ∧ fault q = false →
    fault p = false) as Hgen; [|by intros; eapply Hgen].
  clear l. intros l. induction l as [|a l IH]; intros q Hr Hn Hq; simpl in Hr.
  - injection Hr as <-. tauto.
  - destruct (act q a) as [q'|] eqn:E; [|done]. simpl in Hr. apply not_elem_of_cons in Hn as [??].
    eapply IH; [done|done|]. by eapply fault_act.
Qed.

Lemma destroy_while_serving m :
  ∃ p, run_actions process0 [AAccept 0 4; AStart 0; ADestroy; AFrame 0 m] = Some p ∧ fault p = true.
Proof. eexists. split; vm_compute; reflexivity. Qed.

(** A stopped server takes nobody in, but those in are served on. *)
Lemma stop_keeps_serving p t fd m :
  live p = true → threads p !! t = Some (fd, Serving) →
  let p' := tcp_server_stop p in
  (∀ t' fd', act p' (AAccept t' fd') = None) ∧ is_Some (act p' (AFrame t m)) ∧
  tcp_server_stop p' = p'.
Proof.
  intros Hl Ht p'. assert (running p' = false) as Hr.
  { unfold p', tcp_server_stop. by destruct (running p) eqn:E. }
  assert (threads p' = threads p) as Hth by (unfold p', tcp_server_stop; by destruct (running p)).
  split_and!.
  - intros t' fd'. simpl. rewrite decide_False; [done|]. rewrite Hr. by intros [? _].
  - simpl. unfold advance. rewrite Hth, Ht. simpl. eauto.
  - unfold tcp_server_stop at 1. by rewrite Hr.
Qed.

(** The descriptors [socket] returned until an address worked. *)
Fixpoint opened_for (cs : list candidate) : list Z :=
  match cs with
  | [] => []
  | c :: cs =>
      if decide (cand_fd c = INVALID_SOCKET) then opened_for cs
      else cand_fd c :: (if cand_ok c then [] else opened_for cs)
  end.

Lemma try_candidates_opened cs :
  let '(fd, closed) := try_candidates cs in
  opened_for cs = closed ++ (if decide (fd = INVALID_SOCKET) then [] else [fd]).
Proof.
  induction cs as [|c cs IH]; simpl; [done|]. case_decide as Hc; [done|].
  destruct (cand_ok c); [by rewrite decide_False|].
  destruct (try_candidates cs) as [fd closed]. simpl. by rewrite IH.
Qed.

(** Making the server leaks no descriptor: what was opened is closed, but the one
    listened on. *)
Lemma tcp_server_create_closes env host port cs fd closed :
  0 < port → getaddrinfo env host port = Some cs → tcp_server_create env host port = (fd, closed) →
  opened_for cs = closed ++ option_list fd.
Proof.
  intros Hp Hcs. unfold tcp_server_create, tcp_server_start, bind_socket, connect_socket.
  rewrite !decide_False, Hcs by lia. pose proof (try_candidates_opened cs) as Ho.
  destruct (try_candidates cs) as [lfd cl]. rewrite Ho.
  destruct (decide (lfd = INVALID_SOCKET)) as [->|Hl]; [by intros [= <- <-]|].
  destruct (listens env lfd).
  - rewrite decide_False by done. destruct (allocates env && thread_starts env); intros [= <- <-]; [done|].
    by rewrite app_nil_r.
  - intros [= <- <-]. by rewrite app_nil_r.
Qed.

Lemma bound_elsewhere cs :
  Forall (λ c, cand_ok c = false) cs → (try_candidates cs).1 = INVALID_SOCKET.
Proof.
  induction 1 as [|c cs Hc _ IH]; simpl; [done|]. case_decide; [done|]. rewrite Hc.
  by destruct (try_candidates cs).
Qed.

Lemma port_taken env host port :
  (∀ h p cs, getaddrinfo env h p = Some cs → Forall (λ c, cand_ok c = false) cs) →
  (tcp_server_create env host port).1 = None.
Proof.
  intros Hb. unfold tcp_server_create, tcp_server_start, bind_socket, connect_socket.
  case_decide; [done|]. destruct (getaddrinfo env host port) as [cs|] eqn:E; [|done].
  apply Hb, bound_elsewhere in E. destruct (try_candidates cs) as [fd cl]. simpl in E. by subst.
Qed.

(** The handlers are package variables: a second listener replaces them for the first
    one, even when it cannot be created (the port is taken), and closing any server
    takes them away. *)
Lemma failed_listen_steals {H D} env host port (h : H) (d : option D) g m fd :
  (∀ h p cs, getaddrinfo env h p = Some cs → Forall (λ c, cand_ok c = false) cs) → 0 < port →
  let '(g', r) := ListenProtocolWithDisconnect env host port (Some h) d g in
  r = Err "protocol server create failed" ∧
  goProtocolMessageBridge g' fd m = Some (h, Some fd, convertProtocolMessage m).
Proof.
  intros Hc Hp. unfold ListenProtocolWithDisconnect. rewrite decide_False by lia.
  cbv zeta. unfold protocol_server_create. rewrite port_taken by done.
  case_decide; [done|]. by destruct (allocates env).
Qed.

Lemma close_silences {H D} srv (g : bridges H D) p srv' g' p' m fd :
  ProtocolServer_Close srv g p = (srv', g', p', Ok tt) →
  goProtocolMessageBridge g' fd m = None ∧ goProtocolDisconnectBridge g' fd (Some []) = None ∧
  ProtocolServer_Close srv' g' p' = (srv', g', p', Err "server not open").
Proof.
  unfold ProtocolServer_Close. destruct (srv ≫= c_server); [|done]. by intros [= <- <- <-].
Qed.
