(* ===== verification/Hosts.v ===== *)
(** * Website blocking through the hosts file

    agent/internal/firewall/hosts.go ([HostsManager]), categories.go, and the
    "block_website" handler of agent/internal/command/handlers.go.

    The state is the manager and the two files it owns: the hosts file and its
    backup.  What the operating system answers during one call (failing opens,
    a write cut short, the iteration order of the domain map) is a [call_env];
    every method takes the one of its call.  The manager's mutex makes each
    method one atomic step. *)

From S2P Require Export Prelude GoStrings.

(** ** Files as lines *)

Definition NL : ascii := ascii_of_N 10.
Definition CR : ascii := ascii_of_N 13.

(** [bufio.MaxScanTokenSize]. *)
Definition MaxScanTokenSize : nat := 64 * 1024.

(** [bufio.ScanLines]: one trailing carriage return is dropped. *)
Definition drop_cr (l : list ascii) : list ascii :=
  match list.last l with
  | Some c => if decide (c = CR) then removelast l else l
  | None => l
  end.

(** The pieces a [bufio.Scanner] reads: nothing follows the last newline. *)
Definition raw_lines (content : list ascii) : list (list ascii) :=
  let ps := split_bytes NL content in
  match list.last ps with
  | Some [] => removelast ps
  | _ => ps
  end.

(** A piece that fills the scanner's buffer is an error. *)
Definition scan_lines (content : list ascii) : result (list string) :=
  if decide (Forall (λ p, length p < MaxScanTokenSize) (raw_lines content))
  then Ok ((λ p, of_bytes (drop_cr p)) <$> raw_lines content)
  else Err "bufio.Scanner: token too long".

(** The bytes written for a list of lines. *)
Definition write_lines (lines : list string) : list ascii :=
  concat ((λ l, to_bytes l ++ [NL]) <$> lines).

(** ** The manager *)

Definition blockMarkerStart : string := "# === SAGIRI-GUARD BLOCK START ===".
Definition blockMarkerEnd : string := "# === SAGIRI-GUARD BLOCK END ===".

Record HostsManager := {
  hosts_file : option (list ascii);   (* hostsPath; [None]: it does not exist *)
  backup_file : option (list ascii);  (* hostsPath + ".sagiri-backup" *)
  enabled : bool;
  domains : gset string }.

(** [GetHostsManager]: the manager a process starts with. *)
Definition GetHostsManager (file backup : option (list ascii)) : HostsManager :=
  {| hosts_file := file; backup_file := backup; enabled := false; domains := ∅ |}.

(** Outcomes the operating system chooses. *)
Inductive read_outcome := ReadOk | ReadFails (e : string).
Inductive write_outcome :=
  | WriteOk
  | OpenFails (e : string)
  | WriteFails (n : nat) (e : string).  (* after [n] bytes reached the file *)
Inductive copy_outcome :=
  | CopyOk
  | CopyOpenFails (e : string)          (* source or destination *)
  | CopyFails (n : nat) (e : string).

Record call_env := {
  reading : read_outcome;
  writing : write_outcome;
  copying : copy_outcome;
  range : gset string → list string     (* [for domain := range h.domains] *) }.

Definition set_hosts (f : option (list ascii)) (h : HostsManager) : HostsManager :=
  {| hosts_file := f; backup_file := backup_file h; enabled := enabled h; domains := domains h |}.
Definition set_backup (f : option (list ascii)) (h : HostsManager) : HostsManager :=
  {| hosts_file := hosts_file h; backup_file := f; enabled := enabled h; domains := domains h |}.
Definition set_enabled (b : bool) (h : HostsManager) : HostsManager :=
  {| hosts_file := hosts_file h; backup_file := backup_file h; enabled := b; domains := domains h |}.
Definition set_domains (D : gset string) (h : HostsManager) : HostsManager :=
  {| hosts_file := hosts_file h; backup_file := backup_file h; enabled := enabled h; domains := D |}.

(** A missing file has no lines. *)
Definition file_lines (f : option (list ascii)) : result (list string) :=
  match f with None => Ok [] | Some c => scan_lines c end.

Definition readHostsFile (ev : call_env) : StE HostsManager (list string) := λ h,
  match reading ev with
  | ReadFails e => (h, Err e)
  | ReadOk => (h, file_lines (hosts_file h))
  end.

Definition backupHostsFile (ev : call_env) : StE HostsManager unit := λ h,
  match hosts_file h with
  | None => (h, Ok tt)
  | Some c =>
      match copying ev with
      | CopyOk => (set_backup (Some c) h, Ok tt)
      | CopyOpenFails e => (h, Err e)
      | CopyFails n e => (set_backup (Some (take n c)) h, Err e)
      end
  end.

(** [os.OpenFile] with O_TRUNC, the buffered lines, [Flush]. *)
Definition truncate_and_write (w : write_outcome) (bytes : list ascii) :
    StE HostsManager unit := λ h,
  match w with
  | OpenFails e => (h, Err ("open hosts file for write (may need elevated privileges): " +:+ e))
  | WriteFails n e => (set_hosts (Some (take n bytes)) h, Err e)
  | WriteOk => (set_hosts (Some bytes) h, Ok tt)
  end.

Definition writeHostsFile (ev : call_env) (lines : list string) : StE HostsManager unit :=
  ignore (backupHostsFile ev);;
  truncate_and_write (writing ev) (write_lines lines).

(** The loop of [removeBlockSection] with its [inBlock] flag. *)
Fixpoint remove_section (inBlock : bool) (lines : list string) : list string :=
  match lines with
  | [] => []
  | line :: lines =>
      if Contains line blockMarkerStart then remove_section true lines
      else if Contains line blockMarkerEnd then remove_section false lines
      else if inBlock then remove_section inBlock lines
      else line :: remove_section inBlock lines
  end.
Definition removeBlockSection (lines : list string) : list string := remove_section false lines.

Definition block_entry (domain : string) : list string :=
  ("127.0.0.1 " +:+ domain)
  :: (if HasPrefix domain "www." then [] else ["127.0.0.1 www." +:+ domain]).
Definition block_lines (order : list string) : list string :=
  match order with
  | [] => []
  | _ => blockMarkerStart :: concat (block_entry <$> order) ++ [blockMarkerEnd]
  end.

Definition applyBlocks (ev : call_env) : StE HostsManager unit :=
  content ← wrap_st "read hosts file: " (readHostsFile ev);
  D ← gets domains;
  writeHostsFile ev (removeBlockSection content ++ block_lines (range ev D)).

Definition removeBlocks (ev : call_env) : StE HostsManager unit :=
  content ← wrap_st "read hosts file: " (readHostsFile ev);
  writeHostsFile ev (removeBlockSection content).

Definition SetEnabled (ev : call_env) (b : bool) : StE HostsManager unit :=
  modify (set_enabled b);;
  if b then applyBlocks ev else removeBlocks ev.

Definition apply_if_enabled (ev : call_env) : StE HostsManager unit :=
  on ← gets enabled; if on : bool then applyBlocks ev else mret tt.

Definition canonical (domain : string) : string := ToLower (TrimSpace domain).

Definition AddDomain (ev : call_env) (domain : string) : StE HostsManager unit :=
  if decide (domain = "") then fail "empty domain" else
  modify (λ h, set_domains ({[canonical domain]} ∪ domains h) h);;
  apply_if_enabled ev.

Definition RemoveDomain (ev : call_env) (domain : string) : StE HostsManager unit :=
  modify (λ h, set_domains (domains h ∖ {[canonical domain]}) h);;
  apply_if_enabled ev.

Definition domain_set (ds : list string) : gset string :=
  list_to_set (canonical <$> filter (λ d, d ≠ "") ds).

Definition SetDomains (ev : call_env) (ds : list string) : StE HostsManager unit :=
  modify (set_domains (domain_set ds));;
  apply_if_enabled ev.

Definition GetDomains (ev : call_env) (h : HostsManager) : list string := range ev (domains h).
Definition IsEnabled (h : HostsManager) : bool := enabled h.

(** ** Categories and the "block_website" command *)

Definition CategoryDomains : gmap string (list string) := list_to_map [
  ("social_media",
    ["facebook.com"; "www.facebook.com"; "twitter.com"; "www.twitter.com"; "x.com";
     "www.x.com"; "instagram.com"; "www.instagram.com"; "tiktok.com"; "www.tiktok.com";
     "linkedin.com"; "www.linkedin.com"; "youtube.com"; "www.youtube.com"; "reddit.com";
     "www.reddit.com"; "pinterest.com"; "www.pinterest.com"; "snapchat.com";
     "www.snapchat.com"; "discord.com"; "www.discord.com"; "telegram.org";
     "web.telegram.org"]);
  ("ai",
    ["chatgpt.com"; "www.chatgpt.com"; "openai.com"; "www.openai.com"; "claude.ai";
     "www.claude.ai"; "bard.google.com"; "gemini.google.com"; "perplexity.ai";
     "www.perplexity.ai"; "character.ai"; "www.character.ai"; "midjourney.com";
     "www.midjourney.com"; "stability.ai"; "www.stability.ai"]);
  ("gaming",
    ["steamcommunity.com"; "store.steampowered.com"; "epicgames.com"; "www.epicgames.com";
     "roblox.com"; "www.roblox.com"; "twitch.tv"; "www.twitch.tv"; "battlenet.com";
     "www.battlenet.com"; "origin.com"; "www.origin.com"]);
  ("shopping",
    ["amazon.com"; "www.amazon.com"; "ebay.com"; "www.ebay.com"; "shopee.vn";
     "www.shopee.vn"; "lazada.vn"; "www.lazada.vn"; "tiki.vn"; "www.tiki.vn";
     "aliexpress.com"; "www.aliexpress.com"]);
  ("news",
    ["vnexpress.net"; "www.vnexpress.net"; "dantri.com.vn"; "www.dantri.com.vn";
     "tuoitre.vn"; "www.tuoitre.vn"; "thanhnien.vn"; "www.thanhnien.vn"; "bbc.com";
     "www.bbc.com"; "cnn.com"; "www.cnn.com"]);
  ("entertainment",
    ["netflix.com"; "www.netflix.com"; "disney.com"; "www.disney.com"; "hulu.com";
     "www.hulu.com"; "spotify.com"; "www.spotify.com"; "soundcloud.com";
     "www.soundcloud.com"]);
  ("adult",
    ["pornhub.com"; "www.pornhub.com"; "xvideos.com"; "www.xvideos.com"; "xhamster.com";
     "www.xhamster.com"])].

(** A missing key of a Go map of slices gives the nil slice. *)
Definition GetDomainsByCategory (category : string) : list string :=
  default [] (CategoryDomains !! category).

Record blockWebsiteRule := {
  rule_ID : Z; rule_Type : string; rule_Category : string; rule_Domain : string;
  rule_Enabled : bool }.
Record blockWebsiteArg := {
  Action : string; Rules : list blockWebsiteRule;
  Status : option bool  (* status.enabled; [None]: no status in the message *) }.

Definition rule_domains (r : blockWebsiteRule) : list string :=
  if negb (rule_Enabled r) then []
  else if decide (rule_Type r = "category") then GetDomainsByCategory (rule_Category r)
  else if decide (rule_Type r = "domain" ∧ rule_Domain r ≠ "") then [rule_Domain r]
  else [].

Definition domainsToBlock (rules : list blockWebsiteRule) : gset string :=
  foldl (λ D r, D ∪ list_to_set (rule_domains r)) ∅ rules.

(** [ev1] is the environment of the first manager call, [ev2] of the second. *)
Definition block_website (ev1 ev2 : call_env) (a : blockWebsiteArg) : StE HostsManager unit :=
  if decide (Action a = "sync" ∨ Action a = "apply") then
    if decide (Status a = Some false) then
      wrap_st "disable blocking: " (SetEnabled ev1 false)
    else
      wrap_st "set domains: " (SetDomains ev1 (range ev1 (domainsToBlock (Rules a))));;
      wrap_st "enable blocking: " (SetEnabled ev2 true)
  else if decide (Action a = "remove") then
    wrap_st "disable blocking: " (SetEnabled ev1 false)
  else fail ("unknown action: " +:+ Action a).

(** ** Calls as data *)

Inductive op :=
  | OSetEnabled (b : bool)
  | OAddDomain (d : string)
  | ORemoveDomain (d : string)
  | OSetDomains (ds : list string).

Definition run_op (ev : call_env) (o : op) : StE HostsManager unit :=
  match o with
  | OSetEnabled b => SetEnabled ev b
  | OAddDomain d => AddDomain ev d
  | ORemoveDomain d => RemoveDomain ev d
  | OSetDomains ds => SetDomains ev ds
  end.
Definition run_ops : list (call_env * op) → StE HostsManager unit :=
  for_each (λ '(ev, o), run_op ev o).

(** ** What the file promises *)

(** A line that a write and a scan keep, and that is not the manager's. *)
Definition good_line (l : string) : Prop :=
  (NL ∉ to_bytes l) ∧ list.last (to_bytes l) ≠ Some CR ∧ String.length l < MaxScanTokenSize ∧
  Contains l blockMarkerStart = false ∧ Contains l blockMarkerEnd = false.

Definition domain_byte (a : ascii) : Prop := (33 ≤ N_of_ascii a)%N ∧ a ≠ "#"%char.
(** Printable bytes without a comment sign, of a length far above that of a
    host name. *)
Definition safe_domain (d : string) : Prop :=
  Forall domain_byte (to_bytes d) ∧ String.length d < 1024.

#[export] Instance domain_byte_dec a : Decision (domain_byte a).
Proof. unfold domain_byte. apply _. Defined.
#[export] Instance safe_domain_dec d : Decision (safe_domain d).
Proof. unfold safe_domain. apply _. Defined.
#[export] Instance good_line_dec l : Decision (good_line l).
Proof. unfold good_line. apply _. Defined.

(** The file holds the user's lines in their order and, somewhere between them,
    one section that lists exactly the domains [D] (none when [D] is empty). *)
Definition represents (f : option (list ascii)) (user : list string) (D : gset string) : Prop :=
  ∃ order before after, order ≡ₚ elements D ∧ user = before ++ after ∧
    file_lines f = Ok (before ++ block_lines order ++ after).

(** The section is the last thing in the file. *)
Definition appended (f : option (list ascii)) (user : list string) (D : gset string) : Prop :=
  ∃ order, order ≡ₚ elements D ∧ file_lines f = Ok (user ++ block_lines order).
Lemma appended_represents f user D : appended f user D → represents f user D.
Proof. intros (order & Ho & Hf). exists order, user, []. by rewrite !app_nil_r. Qed.

(** The section lists the active domains; while blocking is off it is what was
    left there, [stale], by an earlier run of the agent. *)
Definition active (stale : gset string) (h : HostsManager) : gset string :=
  if enabled h then domains h else stale.
Definition hosts_inv (user : list string) (stale : gset string) (h : HostsManager) : Prop :=
  Forall good_line user ∧ set_Forall safe_domain (domains h) ∧ set_Forall safe_domain stale ∧
  represents (hosts_file h) user (active stale h).

Definition valid_env (ev : call_env) : Prop := ∀ D, range ev D ≡ₚ elements D.
Definition op_domains (o : op) : list string :=
  match o with
  | OAddDomain d => [d]
  | OSetDomains ds => ds
  | _ => []
  end.
Definition op_safe (o : op) : Prop := Forall (λ d, safe_domain (canonical d)) (op_domains o).

#[export] Instance op_safe_dec o : Decision (op_safe o).
Proof. unfold op_safe. apply _. Defined.

(** ** Scanning what was written *)

Lemma split_write_lines lines :
  Forall (λ l, NL ∉ to_bytes l) lines →
  split_bytes NL (write_lines lines) = (to_bytes <$> lines) ++ [[]].
Proof.
  unfold write_lines. induction 1 as [|l lines Hl _ IH]; [done|].
  cbn [fmap list_fmap concat]. rewrite <- app_assoc. cbn [app].
  rewrite split_bytes_app by done. by rewrite IH.
Qed.

Lemma raw_lines_write lines :
  Forall (λ l, NL ∉ to_bytes l) lines → raw_lines (write_lines lines) = to_bytes <$> lines.
Proof.
  intros H. unfold raw_lines. rewrite split_write_lines by done.
  rewrite last_snoc. by rewrite removelast_last.
Qed.

Lemma drop_cr_id l : list.last l ≠ Some CR → drop_cr l = l.
Proof.
  intros H. unfold drop_cr. destruct (list.last l) as [c|]; [|done].
  rewrite decide_False; [done|congruence].
Qed.

Lemma scan_write_lines lines : Forall good_line lines → scan_lines (write_lines lines) = Ok lines.
Proof.
  intros H. unfold scan_lines. rewrite raw_lines_write.
  2:{ eapply Forall_impl; [done|]. by intros x (?&_). }
  rewrite decide_True.
  - f_equal. rewrite <- list_fmap_compose.
    rewrite (Forall_fmap_ext_1 _ id); [by rewrite list_fmap_id|].
    eapply Forall_impl; [done|]. intros l (_&Hcr&_). simpl. by rewrite drop_cr_id, of_to_bytes.
  - apply Forall_fmap. eapply Forall_impl; [done|]. intros x (_&_&Hx&_). simpl.
    by rewrite to_bytes_length.
Qed.

(** ** Lines of the block *)

Lemma not_contains_hash (l : list ascii) p :
  "#"%char ∉ l → contains l ("#"%char :: p) = false.
Proof.
  intros H. apply not_true_iff_false. intros (a & b & ->)%contains_spec. set_solver.
Qed.

Lemma prefixed_good (p d : string) :
  Forall (λ a, a ≠ "#"%char ∧ a ≠ NL ∧ a ≠ CR) (to_bytes p) → String.length p ≤ 500 →
  safe_domain d → good_line (p +:+ d).
Proof.
  intros Hp Hpl [Hd Hl].
  assert (Forall (λ a, a ≠ "#"%char ∧ a ≠ NL ∧ a ≠ CR) (to_bytes (p +:+ d))) as Ha.
  { rewrite to_bytes_app. apply Forall_app. split; [done|].
    eapply Forall_impl; [done|]. intros a [H1 H2].
    repeat split; [done|intros ->; by apply H1..]. }
  rewrite Forall_forall in Ha. unfold good_line, Contains.
  repeat split.
  - intros H%Ha. tauto.
  - intros H%last_Some_elem_of%Ha. tauto.
  - rewrite <- to_bytes_length, to_bytes_app, length_app, !to_bytes_length.
    unfold MaxScanTokenSize. lia.
  - apply not_contains_hash. intros H%Ha. tauto.
  - apply not_contains_hash. intros H%Ha. tauto.
Qed.

Lemma block_entry_good d : safe_domain d → Forall good_line (block_entry d).
Proof.
  intros Hd. unfold block_entry. constructor.
  - apply prefixed_good; [by_decide|simpl; lia|done].
  - destruct (HasPrefix d "www."); constructor; [|done].
    apply prefixed_good; [by_decide|simpl; lia|done].
Qed.

Lemma entries_good order :
  Forall safe_domain order → Forall good_line (concat (block_entry <$> order)).
Proof.
  induction 1 as [|d ds Hd _ IH]; [constructor|].
  rewrite fmap_cons. cbn [concat]. apply Forall_app.
  split; [by apply block_entry_good|done].
Qed.

Lemma remove_section_keeps ls ks :
  Forall good_line ls → remove_section false (ls ++ ks) = ls ++ remove_section false ks.
Proof.
  induction 1 as [|l ls (_&_&_&H1&H2) _ IH]; [done|]. simpl. by rewrite H1, H2, IH.
Qed.
Lemma remove_section_drops ls ks :
  Forall good_line ls → remove_section true (ls ++ ks) = remove_section true ks.
Proof.
  induction 1 as [|l ls (_&_&_&H1&H2) _ IH]; [done|]. simpl. by rewrite H1, H2, IH.
Qed.

Lemma removeBlockSection_good user : Forall good_line user → removeBlockSection user = user.
Proof.
  intros Hu. rewrite <- (app_nil_r user) at 1. unfold removeBlockSection.
  rewrite remove_section_keeps by done. apply app_nil_r.
Qed.

Lemma removeBlockSection_block before after order :
  Forall good_line (before ++ after) → Forall safe_domain order →
  removeBlockSection (before ++ block_lines order ++ after) = before ++ after.
Proof.
  intros [Hb Ha]%Forall_app Ho. unfold removeBlockSection. rewrite remove_section_keeps by done.
  f_equal. fold (removeBlockSection (block_lines order ++ after)).
  unfold block_lines. destruct order as [|d order]; [by apply removeBlockSection_good|].
  unfold removeBlockSection. cbn [remove_section app].
  assert (Contains blockMarkerStart blockMarkerStart = true) as -> by done.
  rewrite <- app_assoc, remove_section_drops by (by apply entries_good).
  cbn [remove_section app]. assert (Contains blockMarkerEnd blockMarkerStart = false) as -> by done.
  assert (Contains blockMarkerEnd blockMarkerEnd = true) as -> by done.
  by apply removeBlockSection_good.
Qed.

Lemma scan_write_block user order :
  Forall good_line user → Forall safe_domain order →
  scan_lines (write_lines (user ++ block_lines order)) = Ok (user ++ block_lines order).
Proof.
  intros Hu Ho. unfold scan_lines.
  assert (∀ P : string → Prop, (∀ l, good_line l → P l) → P blockMarkerStart → P blockMarkerEnd →
    Forall P (user ++ block_lines order)) as Hall.
  { intros P HP Hs He. apply Forall_app. split; [by eapply Forall_impl|].
    unfold block_lines. destruct order as [|d order]; [constructor|].
    constructor; [done|]. apply Forall_app.
    split; [eapply Forall_impl; [by apply entries_good|done]|by repeat constructor]. }
  rewrite raw_lines_write.
  2:{ apply Hall; [by intros l (?&_)|by_decide..]. }
  rewrite decide_True.
  - f_equal. rewrite <- list_fmap_compose.
    rewrite (Forall_fmap_ext_1 _ id); [by rewrite list_fmap_id|].
    apply Hall; [|done..]. intros l (_&Hcr&_). simpl. by rewrite drop_cr_id, of_to_bytes.
  - apply Forall_fmap. apply Hall.
    + intros l (_&_&Hx&_). simpl. by rewrite to_bytes_length.
    + cbn beta. simpl. unfold MaxScanTokenSize. lia.
    + cbn beta. simpl. unfold MaxScanTokenSize. lia.
Qed.

(** ** Methods *)

Lemma safe_order (D : gset string) order :
  set_Forall safe_domain D → order ≡ₚ elements D → Forall safe_domain order.
Proof.
  intros HD Ho. rewrite Ho. apply Forall_forall. intros d Hd%elem_of_elements. by apply HD.
Qed.

(** The read of a file that represents [user] succeeds and removing the
    section gives the user's lines back. *)
Lemma read_represents ev user (D : gset string) h h' content :
  Forall good_line user → set_Forall safe_domain D → represents (hosts_file h) user D →
  readHostsFile ev h = (h', Ok content) → h' = h ∧ removeBlockSection content = user.
Proof.
  intros Hu HD (order & before & after & Ho & -> & Hf). unfold readHostsFile. rewrite Hf.
  destruct (reading ev); intros [= <- <-]. split; [done|].
  apply removeBlockSection_block; [done|]. by eapply safe_order.
Qed.

Lemma ignore_backup_fields ev h :
  let h' := (ignore (backupHostsFile ev) h).1 in
  hosts_file h' = hosts_file h ∧ enabled h' = enabled h ∧ domains h' = domains h.
Proof.
  unfold ignore, backupHostsFile. cbn [fst snd].
  destruct (hosts_file h) eqn:E; [|done]. by destruct (copying ev).
Qed.

Lemma write_ok ev lines h h' :
  writeHostsFile ev lines h = (h', Ok tt) →
  hosts_file h' = Some (write_lines lines) ∧ enabled h' = enabled h ∧ domains h' = domains h.
Proof.
  pose proof (ignore_backup_fields ev h) as (?&?&?).
  unfold writeHostsFile, mbind, StE_bind, ignore, truncate_and_write in *. cbn [fst snd] in *.
  by destruct (writing ev); intros [= <-].
Qed.

(** What a successful write of the active domains establishes. *)
Lemma rewritten ev user (D : gset string) order h h' :
  Forall good_line user → set_Forall safe_domain D → order ≡ₚ elements D →
  writeHostsFile ev (user ++ block_lines order) h = (h', Ok tt) →
  appended (hosts_file h') user D ∧ enabled h' = enabled h ∧ domains h' = domains h.
Proof.
  intros Hu HD Ho (Hf & He & Hd)%write_ok. split; [|done]. exists order. split; [done|].
  rewrite Hf. apply scan_write_block; [done|]. by eapply safe_order.
Qed.

Lemma applyBlocks_ok ev user (D : gset string) h h' :
  valid_env ev → Forall good_line user → set_Forall safe_domain D →
  set_Forall safe_domain (domains h) → represents (hosts_file h) user D →
  applyBlocks ev h = (h', Ok tt) →
  appended (hosts_file h') user (domains h) ∧ enabled h' = enabled h ∧ domains h' = domains h.
Proof.
  intros Hev Hu HD Hd Hr H. unfold applyBlocks in H. inv_bind.
  apply wrap_st_ok in E. eapply (read_represents ev user D) in E as [-> Hc]; [|done..].
  injection E0 as <- <-. rewrite Hc in H.
  by eapply (rewritten ev user) in H; [| | |apply Hev].
Qed.

Lemma block_lines_nil order : order ≡ₚ elements (∅ : gset string) → block_lines order = [].
Proof. rewrite elements_empty. by intros ->%Permutation_nil_r. Qed.

Lemma removeBlocks_ok ev user (D : gset string) h h' :
  Forall good_line user → set_Forall safe_domain D → represents (hosts_file h) user D →
  removeBlocks ev h = (h', Ok tt) →
  appended (hosts_file h') user ∅ ∧ enabled h' = enabled h ∧ domains h' = domains h.
Proof.
  intros Hu HD Hr H. unfold removeBlocks in H. inv_bind.
  apply wrap_st_ok in E. eapply (read_represents ev user D) in E as [-> Hc]; [|done..].
  rewrite Hc, <- (app_nil_r user) in H.
  eapply (rewritten ev user ∅ []) in H; [done|done|by intros ? ?%not_elem_of_empty|].
  by rewrite elements_empty.
Qed.

Lemma active_safe stale h :
  set_Forall safe_domain (domains h) → set_Forall safe_domain stale →
  set_Forall safe_domain (active stale h).
Proof. unfold active. by destruct (enabled h). Qed.
Lemma empty_safe : set_Forall safe_domain (∅ : gset string).
Proof. by intros ? ?%not_elem_of_empty. Qed.

Lemma SetEnabled_ok ev user stale b h h' :
  valid_env ev → hosts_inv user stale h → SetEnabled ev b h = (h', Ok tt) →
  hosts_inv user ∅ h' ∧ enabled h' = b ∧ domains h' = domains h ∧
  appended (hosts_file h') user (if b then domains h' else ∅).
Proof.
  intros Hev (Hu & Hd & Hs & Hr) H. unfold SetEnabled in H. inv_bind. injection E as <- _.
  pose proof (active_safe stale h Hd Hs) as HD. pose proof empty_safe. destruct b.
  - eapply (applyBlocks_ok ev user (active stale h) (set_enabled true h)) in H as (H1 & H2 & H3); [|done..].
    simpl in *. pose proof (appended_represents _ _ _ H1). unfold hosts_inv, active. by rewrite H2, H3.
  - eapply (removeBlocks_ok ev user (active stale h) (set_enabled false h)) in H as (H1 & H2 & H3); [|done..].
    simpl in *. pose proof (appended_represents _ _ _ H1). unfold hosts_inv, active. by rewrite H2, H3.
Qed.

(** The methods that change the domain set. *)
Lemma set_domains_ok ev user stale D h h' :
  valid_env ev → hosts_inv user stale h → set_Forall safe_domain D →
  apply_if_enabled ev (set_domains D h) = (h', Ok tt) →
  hosts_inv user stale h' ∧ enabled h' = enabled h ∧ domains h' = D ∧
  if enabled h then appended (hosts_file h') user D else hosts_file h' = hosts_file h.
Proof.
  intros Hev (Hu & Hd & Hs & Hr) HD H. unfold apply_if_enabled in H. inv_bind.
  injection E as <- <-. pose proof (active_safe stale h Hd Hs) as Ha. simpl in H.
  unfold hosts_inv, active in *. destruct (enabled h) eqn:He.
  - eapply (applyBlocks_ok ev user (domains h) (set_domains D h)) in H as (H1 & H2 & H3); [|done..].
    simpl in *. pose proof (appended_represents _ _ _ H1). by rewrite H2, H3, He.
  - injection H as <-. simpl. by rewrite He.
Qed.

Lemma domain_set_safe ds :
  Forall (λ d, safe_domain (canonical d)) ds → set_Forall safe_domain (domain_set ds).
Proof.
  intros H x. unfold domain_set. rewrite elem_of_list_to_set.
  intros (d & -> & [_ Hd]%list_elem_of_filter)%list_elem_of_fmap.
  by rewrite Forall_forall in H; apply H.
Qed.

(** What remains of an earlier section: a [SetEnabled] call removes it. *)
Definition sets_enabled (o : op) : bool := match o with OSetEnabled _ => true | _ => false end.
Definition stale_after (stale : gset string) (ops : list op) : gset string :=
  if existsb sets_enabled ops then ∅ else stale.

(** What a call does to the switch and to the file. *)
Definition op_effect (o : op) (user : list string) (h h' : HostsManager) : Prop :=
  enabled h' = (match o with OSetEnabled b => b | _ => enabled h end) ∧
  if enabled h' then appended (hosts_file h') user (domains h')
  else match o with
       | OSetEnabled _ => file_lines (hosts_file h') = Ok user
       | _ => hosts_file h' = hosts_file h
       end.

Lemma appended_empty f user : appended f user ∅ → file_lines f = Ok user.
Proof. intros (order & Ho & ->). by rewrite block_lines_nil, app_nil_r. Qed.

Lemma run_op_inv ev o user stale h h' :
  valid_env ev → op_safe o → hosts_inv user stale h → run_op ev o h = (h', Ok tt) →
  hosts_inv user (stale_after stale [o]) h' ∧ op_effect o user h h'.
Proof.
  intros Hev Ho HI. pose proof HI as (_&Hd&_).
  assert (∀ D, set_Forall safe_domain D → apply_if_enabled ev (set_domains D h) = (h', Ok tt) →
    hosts_inv user stale h' ∧ enabled h' = enabled h ∧
    if enabled h' then appended (hosts_file h') user (domains h') else hosts_file h' = hosts_file h)
    as Hset.
  { intros D HD H. eapply (set_domains_ok ev user) in H as (HI' & He & HD' & Hf); [|done..].
    by rewrite He, HD'. }
  destruct o as [b|d|d|ds]; simpl; intros H.
  - eapply SetEnabled_ok in H as (HI' & He & _ & Ha); [|done..]. split; [done|]. split; [done|].
    rewrite He. destruct b; [done|by apply appended_empty].
  - unfold AddDomain in H. case_decide; [done|]. inv_bind. injection E as <- _.
    pose proof (Forall_inv Ho) as Hs. apply Hset in H; [done|].
    intros x [->%elem_of_singleton|?]%elem_of_union; [done|by apply Hd].
  - unfold RemoveDomain in H. inv_bind. injection E as <- _. apply Hset in H; [done|].
    intros x [Hx _]%elem_of_difference. by apply Hd.
  - unfold SetDomains in H. inv_bind. injection E as <- _. apply Hset in H; [done|].
    by apply domain_set_safe.
Qed.

(** What a sequence of calls does to the file of a manager that starts disabled. *)
Definition as_managed (f0 : option (list ascii)) (user : list string) (switched : bool)
    (h : HostsManager) : Prop :=
  if enabled h then appended (hosts_file h) user (domains h)
  else if switched then file_lines (hosts_file h) = Ok user else hosts_file h = f0.

Lemma op_effect_managed o user f0 sw h h' :
  op_effect o user h h' → as_managed f0 user sw h → (enabled h = true → sw = true) →
  as_managed f0 user (sw || sets_enabled o) h' ∧ (enabled h' = true → sw || sets_enabled o = true).
Proof.
  intros [He Hf] Hm Hsw. split.
  - unfold as_managed in *. destruct (enabled h') eqn:E1; [done|].
    destruct o as [b|d|d|ds]; simpl in *; [by rewrite orb_true_r|..];
      rewrite <- He in Hm; by rewrite orb_false_r, Hf.
  - intros E1. destruct o; cbn [sets_enabled]; rewrite ?orb_true_r, ?orb_false_r; try done;
      apply Hsw; congruence.
Qed.

Lemma run_ops_inv user calls stale f0 switched h h' :
  hosts_inv user stale h → as_managed f0 user switched h → (enabled h = true → switched = true) →
  Forall (λ '(ev, o), valid_env ev ∧ op_safe o) calls → run_ops calls h = (h', Ok tt) →
  hosts_inv user (stale_after stale calls.*2) h' ∧
  as_managed f0 user (switched || existsb sets_enabled calls.*2) h'.
Proof.
  intros HI Hm Hsw Hc. revert h stale switched HI Hm Hsw.
  induction Hc as [|[ev o] calls [Hev Ho] _ IH]; intros h stale switched HI Hm Hsw H.
  { injection H as <-. by rewrite orb_false_r. }
  unfold run_ops in H. cbn [for_each] in H. inv_bind. destruct a as [].
  eapply run_op_inv in E as [HI' Hf]; [|done..].
  destruct (op_effect_managed _ _ f0 switched _ _ Hf Hm Hsw) as [Hm' Hsw'].
  eapply (IH _ _ (switched || sets_enabled o)) in H as [HI2 Hm2]; [|done..].
  split; [|by rewrite fmap_cons; cbn [existsb]; rewrite orb_assoc].
  revert HI2. unfold stale_after. simpl. by destruct (sets_enabled o), (existsb _ _).
Qed.

(** The lines of a domain that is blocked. *)
Definition lists_domain (f : option (list ascii)) (d : string) : Prop :=
  ∃ lines, file_lines f = Ok lines ∧ ("127.0.0.1 " +:+ d) ∈ lines ∧
    (HasPrefix d "www." = false → ("127.0.0.1 www." +:+ d) ∈ lines).

Lemma block_entry_in d order l :
  d ∈ order → l ∈ block_entry d → l ∈ block_lines order.
Proof.
  intros Hd Hl. unfold block_lines. destruct order as [|x order]; [by apply not_elem_of_nil in Hd|].
  apply elem_of_cons. right. apply elem_of_app. left. apply list_elem_of_In, in_concat.
  exists (block_entry d). split; apply list_elem_of_In; [|done].
  by apply list_elem_of_fmap_2.
Qed.

Lemma represents_lists f user D d : d ∈ D → represents f user D → lists_domain f d.
Proof.
  intros Hd (order & before & after & Ho & _ & Hf).
  assert (d ∈ order) as Hin by (by rewrite Ho, elem_of_elements).
  exists (before ++ block_lines order ++ after). split; [done|].
  split; [|intros Hw]; apply elem_of_app; right; apply elem_of_app; left;
    apply (block_entry_in d); try done;
    unfold block_entry.
  - left.
  - rewrite Hw. right. left.
Qed.

(** ** Properties *)

Lemma represents_empty f user : represents f user ∅ → file_lines f = Ok user.
Proof. intros (order & before & after & Ho & -> & ->). by rewrite block_lines_nil. Qed.

(** C3. Whatever sequence of calls the manager of a starting agent answers without
    an error, the hosts file is the user's own lines in their order followed by
    one section with exactly the current domains, while blocking is enabled;
    exactly the user's lines once blocking was switched off, even when an earlier
    run left a section among them; and untouched as long as blocking was never
    switched.  The user's lines carry no marker and the domains are printable and
    short. *)
Theorem hosts_file_tracks user stale calls h h' :
  hosts_inv user stale h → enabled h = false →
  Forall (λ '(ev, o), valid_env ev ∧ op_safe o) calls →
  run_ops calls h = (h', Ok tt) →
  if enabled h' then
    (∃ order, order ≡ₚ elements (domains h') ∧
       file_lines (hosts_file h') = Ok (user ++ block_lines order)) ∧
    ∀ d, d ∈ domains h' → lists_domain (hosts_file h') d
  else if existsb sets_enabled calls.*2 then file_lines (hosts_file h') = Ok user
  else hosts_file h' = hosts_file h.
Proof.
  intros HI He Hc H.
  destruct (run_ops_inv user calls stale (hosts_file h) false h h' HI) as [_ Hm]; try done.
  { unfold as_managed. by rewrite He. } { by rewrite He. }
  unfold as_managed in Hm. destruct (enabled h') eqn:E; [|done]. split; [exact Hm|].
  intros d Hd. eapply represents_lists; [exact Hd|]. by apply appended_represents.
Qed.

Definition ok_env : call_env :=
  {| reading := ReadOk; writing := WriteOk; copying := CopyOk; range := elements |}.
(** The file of an agent that was stopped while it blocked a domain. *)
Definition sample_hosts : HostsManager :=
  GetHostsManager (Some (write_lines
    (["127.0.0.1 localhost"] ++ block_lines ["old.example"] ++ ["# mine"]))) None.

Lemma sample_hosts_inv :
  hosts_inv ["127.0.0.1 localhost"; "# mine"] {["old.example"]} sample_hosts.
Proof.
  split; [|split; [|split]].
  - by_decide.
  - by intros ? ?%not_elem_of_empty.
  - intros x ->%elem_of_singleton. by_decide.
  - exists ["old.example"], ["127.0.0.1 localhost"], ["# mine"].
    split; [done|]. split; [done|]. vm_compute. reflexivity.
Qed.

Definition sample_calls : list (call_env * op) :=
  [(ok_env, OSetEnabled true); (ok_env, OAddDomain " Example.COM ")].

Lemma hosts_file_tracks_witness :
  let r := run_ops sample_calls sample_hosts in
  r.2 = Ok tt ∧ lists_domain (hosts_file r.1) "example.com" ∧
  ∃ order, order ≡ₚ elements (domains r.1) ∧
    file_lines (hosts_file r.1) = Ok (["127.0.0.1 localhost"; "# mine"] ++ block_lines order).
Proof.
  cbv zeta. destruct (run_ops sample_calls sample_hosts) as [h' r] eqn:E.
  assert (r = Ok tt ∧ enabled h' = true ∧ "example.com" ∈ domains h') as (-> & He & Hd).
  { change ((h', r).2 = Ok tt ∧ enabled (h', r).1 = true ∧ "example.com" ∈ domains (h', r).1).
    rewrite <- E. split; [vm_compute; reflexivity|]. split; [vm_compute; reflexivity|by_decide]. }
  pose proof (hosts_file_tracks ["127.0.0.1 localhost"; "# mine"] {["old.example"]}
    sample_calls sample_hosts h' sample_hosts_inv eq_refl) as Ht.
  rewrite He in Ht. destruct Ht as [Hs Hl].
  - repeat apply Forall_cons_2; [..|apply Forall_nil_2]; (split; [by intros D|by_decide]).
  - exact E.
  - split; [reflexivity|]. split; [by apply Hl|exact Hs].
Defined.

Lemma category_domains_safe :
  map_Forall (λ _ ds, Forall (λ d, safe_domain (canonical d)) ds) CategoryDomains.
Proof. by_decide. Qed.

Lemma GetDomainsByCategory_safe c :
  Forall (λ d, safe_domain (canonical d)) (GetDomainsByCategory c).
Proof.
  unfold GetDomainsByCategory. destruct (CategoryDomains !! c) as [ds|] eqn:E; [|constructor].
  exact (category_domains_safe c ds E).
Qed.

Lemma rule_domains_safe r :
  safe_domain (canonical (rule_Domain r)) →
  Forall (λ d, safe_domain (canonical d)) (rule_domains r).
Proof.
  intros Hr. unfold rule_domains. repeat case_match; try constructor; try done.
  apply GetDomainsByCategory_safe.
Qed.

Lemma elem_of_domainsToBlock rules d :
  d ∈ domainsToBlock rules ↔ ∃ r, r ∈ rules ∧ d ∈ rule_domains r.
Proof.
  unfold domainsToBlock.
  assert (∀ D, d ∈ foldl (λ (D : gset string) r, D ∪ list_to_set (rule_domains r)) D rules ↔
    d ∈ D ∨ ∃ r, r ∈ rules ∧ d ∈ rule_domains r) as H.
  { induction rules as [|r rules IH]; intros D; simpl.
    - split; [by left|]. intros [?|(r & []%not_elem_of_nil & _)]. done.
    - rewrite IH, elem_of_union, elem_of_list_to_set. setoid_rewrite elem_of_cons. clear -rules.
      split; [intros [[?|?]|(r' & ? & ?)]|intros [?|(r' & [->|?] & ?)]]; eauto 6. }
  rewrite H. split; [|by right]. intros [[]%not_elem_of_empty|?]; done.
Qed.

Lemma domainsToBlock_safe rules :
  Forall (λ r, safe_domain (canonical (rule_Domain r))) rules →
  ∀ d, d ∈ domainsToBlock rules → safe_domain (canonical d).
Proof.
  intros H d (r & Hr & Hd)%elem_of_domainsToBlock. rewrite Forall_forall in H.
  pose proof (rule_domains_safe r (H r Hr)) as Hs. rewrite Forall_forall in Hs. by apply Hs.
Qed.

Lemma rule_domain_nonempty r d : d ∈ rule_domains r → d ≠ "".
Proof.
  unfold rule_domains. destruct (negb _); [by intros []%not_elem_of_nil|].
  case_decide; [|case_decide as Hr; [|by intros []%not_elem_of_nil]].
  - unfold GetDomainsByCategory. destruct (CategoryDomains !! rule_Category r) as [ds|] eqn:E;
      [|by intros []%not_elem_of_nil].
    assert (map_Forall (λ _ ds, Forall (λ d, d ≠ "") ds) CategoryDomains) as Hall by by_decide.
    intros Hd. specialize (Hall _ _ E). simpl in Hall. rewrite Forall_forall in Hall. by apply Hall.
  - by intros ->%list_elem_of_singleton; destruct Hr.
Qed.


Definition sample_rules : list blockWebsiteRule :=
  [{| rule_ID := 1; rule_Type := "category"; rule_Category := "news"; rule_Domain := "";
      rule_Enabled := true |};
   {| rule_ID := 2; rule_Type := "domain"; rule_Category := ""; rule_Domain := "bad.example";
      rule_Enabled := false |}].

Definition sample_arg : blockWebsiteArg :=
  {| Action := "sync"; Rules := sample_rules; Status := None |}.


Lemma write_failed ev lines h h' e :
  writeHostsFile ev lines h = (h', Err e) → copying ev = CopyOk →
  hosts_file h' = hosts_file h ∨ hosts_file h = None ∨ backup_file h' = hosts_file h.
Proof.
  intros H Hc. unfold writeHostsFile, mbind, StE_bind, ignore, truncate_and_write,
    backupHostsFile in H. cbn [fst snd] in H. rewrite Hc in H.
  destruct (hosts_file h) as [c|] eqn:E; [|by auto].
  destruct (writing ev); simpl in H; try done; injection H as <- ?; simpl; auto.
Qed.

Lemma run_op_failed ev o h h' e :
  run_op ev o h = (h', Err e) → copying ev = CopyOk →
  hosts_file h' = hosts_file h ∨ hosts_file h = None ∨ backup_file h' = hosts_file h.
Proof.
  intros H Hc.
  assert (∀ (f : list string → HostsManager → list string) p h1, hosts_file h1 = hosts_file h →
    mbind (M := StE HostsManager) (λ c s, writeHostsFile ev (f c s) s)
      (wrap_st p (readHostsFile ev)) h1 = (h', Err e) →
    hosts_file h' = hosts_file h ∨ hosts_file h = None ∨ backup_file h' = hosts_file h) as Hrw.
  { intros f p h1 Hh. rewrite <- Hh. unfold mbind at 1, StE_bind at 1, wrap_st.
    assert (readHostsFile ev h1 = (h1, (readHostsFile ev h1).2)) as ->
      by (unfold readHostsFile; by destruct (reading ev)).
    cbn [fst snd]. destruct (wrap p _) as [c|e']; [by intros ?%write_failed|].
    intros [= <- _]. auto. }
  assert (∀ h1, hosts_file h1 = hosts_file h → apply_if_enabled ev h1 = (h', Err e) →
    hosts_file h' = hosts_file h ∨ hosts_file h = None ∨ backup_file h' = hosts_file h) as Hap.
  { intros h1 Hh. unfold apply_if_enabled, gets, mbind, StE_bind.
    destruct (enabled h1); [|done]. intros Hx.
    by eapply (Hrw (λ c s, removeBlockSection c ++ block_lines (range ev (domains s))) _ h1 Hh). }
  destruct o as [b|d|d|ds]; simpl in H.
  - destruct b.
    + by apply (Hrw (λ c s, removeBlockSection c ++ block_lines (range ev (domains s)))
        "read hosts file: " (set_enabled true h)).
    + by apply (Hrw (λ c _, removeBlockSection c) "read hosts file: " (set_enabled false h)).
  - unfold AddDomain in H. case_decide; [injection H as <- _; by left|].
    by apply (Hap (set_domains ({[canonical d]} ∪ domains h) h)).
  - by apply (Hap (set_domains (domains h ∖ {[canonical d]}) h)).
  - by apply (Hap (set_domains (domain_set ds) h)).
Qed.

(** A method that fails never loses the hosts file: either its contents are
    untouched, or what stood in it before the call is in the backup file (as
    long as that copy itself succeeded). *)
Theorem failed_call_recoverable ev o h h' e c :
  run_op ev o h = (h', Err e) → copying ev = CopyOk → hosts_file h = Some c →
  hosts_file h' = Some c ∨ backup_file h' = Some c.
Proof.
  intros H Hc Hf. destruct (run_op_failed ev o h h' e H Hc) as [?|[?|?]];
    rewrite Hf in *; [by left|done|by right].
Qed.

Definition cut_env : call_env :=
  {| reading := ReadOk; writing := WriteFails 5 "flush hosts file: no space left";
     copying := CopyOk; range := elements |}.

Lemma failed_call_recoverable_witness :
  let r := run_op cut_env (OSetEnabled true) sample_hosts in
  hosts_file r.1 ≠ hosts_file sample_hosts ∧
  (hosts_file r.1 = hosts_file sample_hosts ∨ backup_file r.1 = hosts_file sample_hosts).
Proof.
  split; [by vm_compute|].
  apply (failed_call_recoverable cut_env (OSetEnabled true) sample_hosts _
    "flush hosts file: no space left"); by vm_compute.
Defined.

(** A domain is trimmed at its ends only: an inner newline writes a line of the
    caller's choice into the file. *)
Example newline_in_domain_adds_line :
  let r := run_ops [(ok_env, OSetEnabled true);
                    (ok_env, OAddDomain ("a" +:+ of_bytes [NL] +:+ "10.0.0.1 bank.example"))]
             sample_hosts in
  ∃ lines, file_lines (hosts_file r.1) = Ok lines ∧ "10.0.0.1 bank.example" ∈ lines.
Proof. eexists. split; [vm_compute; reflexivity|]. by_decide. Qed.

(** A start marker without its end marker takes every later line with it. *)
Lemma unclosed_section_drops_rest ls :
  Forall good_line ls → removeBlockSection (blockMarkerStart :: ls) = [].
Proof.
  intros H. unfold removeBlockSection. cbn [remove_section].
  assert (Contains blockMarkerStart blockMarkerStart = true) as -> by done.
  by rewrite <- (app_nil_r ls), remove_section_drops.
Qed.
