(* ===== verification/Store.v ===== *)
(** * The database

    The records of backend/app/models and the interface to the relational
    database behind GORM, which is not part of the repository.

    A statement the code builds is described by its documented meaning: a
    function on the tables ([stmt]).  The engine that runs it is a parameter
    ([Engine]); what the code relies on are the laws of [EngineLaws]: a
    statement that succeeds had its meaning, one that fails changed nothing, a
    transaction is undone when its body or its commit fails.  Row order,
    generated keys and the clock are the engine's choice ([stmt_env]).

    GORM adds [deleted_at IS NULL] to every query on a model with a
    [gorm.DeletedAt] field unless it is [Unscoped]; the statements below write
    that condition out.  Times are integers. *)

From S2P Require Export Prelude GoStrings.

Local Open Scope Z_scope.

(** ** Models *)

Record Item := {
  Item_ID : string;
  Item_DeviceUUID : string;
  Item_Name : string;
  ParentID : option string;
  FileID : option string;
  FolderID : option string;
  TotalSize : Z;
  Item_CreatedAt : Z;
  Item_UpdatedAt : Z;
  Item_DeletedAt : option Z }.

Record FileNode := {
  FileNode_ID : string;
  FileNode_DeviceUUID : string;
  OriginPath : string;
  CurrentPath : string;
  CurrentName : string;
  Extension : string;
  Size : Z;
  SnapshotNumber : Z;
  ChangePending : bool;
  LastEventAt : Z;
  FileNode_CreatedAt : Z;
  FileNode_UpdatedAt : Z;
  FileNode_DeletedAt : option Z }.

Record FolderNode := {
  FolderNode_ID : string;
  FolderNode_DeviceUUID : string;
  TotalEntries : Z;
  ExtChildren : string;
  FolderNode_CreatedAt : Z;
  FolderNode_UpdatedAt : Z;
  FolderNode_DeletedAt : option Z }.

Record ContentType := {
  ContentType_ID : Z;
  ContentType_Name : string;
  Description : string;
  ContentType_CreatedAt : Z;
  ContentType_UpdatedAt : Z;
  ContentType_DeletedAt : option Z }.

Record Device := {
  Device_ID : Z;
  UUID : string;
  Device_Name : string;
  UserID : Z;
  OSName : string;
  OSVersion : string;
  Hostname : string;
  Arch : string;
  Device_CreatedAt : Z;
  Device_UpdatedAt : Z }.

Record User := {
  User_ID : Z;
  Username : string;
  PasswordHash : string;
  Role : string;
  User_CreatedAt : Z;
  User_UpdatedAt : Z }.

Record AgentLog := {
  AgentLog_ID : Z;
  AgentLog_DeviceID : string;
  Content : string;
  AgentLog_CreatedAt : Z }.

Record AgentCommand := {
  AgentCommand_ID : Z;
  AgentCommand_DeviceID : string;
  Command : string;
  Kind : string;
  Payload : string;
  Status : string;
  LastError : string;
  AgentCommand_CreatedAt : Z;
  AgentCommand_UpdatedAt : Z;
  SentAt : option Z }.

Record BackupFileVersion := {
  BackupFileVersion_ID : Z;
  BackupFileVersion_DeviceID : string;
  BackupFileVersion_FileID : string;
  LogicalPath : string;
  FileName : string;
  StoredName : string;
  Version : Z;
  BackupFileVersion_Size : Z;
  BackupFileVersion_CreatedAt : Z }.

Record WebsiteBlockRule := {
  WebsiteBlockRule_ID : Z;
  WebsiteBlockRule_DeviceID : string;
  WebsiteBlockRule_Type : string;
  Category : string;
  Domain : string;
  WebsiteBlockRule_Enabled : bool;
  WebsiteBlockRule_CreatedAt : Z;
  WebsiteBlockRule_UpdatedAt : Z;
  WebsiteBlockRule_DeletedAt : option Z }.

Record WebsiteBlockStatus := {
  WebsiteBlockStatus_ID : Z;
  WebsiteBlockStatus_DeviceID : string;
  WebsiteBlockStatus_Enabled : bool;
  WebsiteBlockStatus_UpdatedAt : Z }.

(** One map per table, by primary key. *)
Record Tables := {
  items : gmap string Item;
  file_nodes : gmap string FileNode;
  folder_nodes : gmap string FolderNode;
  item_content_type_links : gset (string * Z);
  content_types : gmap Z ContentType;
  devices : gmap Z Device;
  users : gmap Z User;
  agent_logs : gmap Z AgentLog;
  agent_commands : gmap Z AgentCommand;
  backup_file_versions : gmap Z BackupFileVersion;
  website_block_rules : gmap Z WebsiteBlockRule;
  website_block_statuses : gmap Z WebsiteBlockStatus }.

Definition empty_tables : Tables := {|
  items := ∅; file_nodes := ∅; folder_nodes := ∅; item_content_type_links := ∅;
  content_types := ∅; devices := ∅; users := ∅; agent_logs := ∅; agent_commands := ∅;
  backup_file_versions := ∅; website_block_rules := ∅; website_block_statuses := ∅ |}.

(** Replacing one table. *)
Definition with_items (m : gmap string Item) (t : Tables) : Tables := {|
  items := m; file_nodes := file_nodes t; folder_nodes := folder_nodes t;
  item_content_type_links := item_content_type_links t; content_types := content_types t;
  devices := devices t; users := users t; agent_logs := agent_logs t;
  agent_commands := agent_commands t; backup_file_versions := backup_file_versions t;
  website_block_rules := website_block_rules t;
  website_block_statuses := website_block_statuses t |}.
Definition with_file_nodes (m : gmap string FileNode) (t : Tables) : Tables := {|
  items := items t; file_nodes := m; folder_nodes := folder_nodes t;
  item_content_type_links := item_content_type_links t; content_types := content_types t;
  devices := devices t; users := users t; agent_logs := agent_logs t;
  agent_commands := agent_commands t; backup_file_versions := backup_file_versions t;
  website_block_rules := website_block_rules t;
  website_block_statuses := website_block_statuses t |}.
Definition with_folder_nodes (m : gmap string FolderNode) (t : Tables) : Tables := {|
  items := items t; file_nodes := file_nodes t; folder_nodes := m;
  item_content_type_links := item_content_type_links t; content_types := content_types t;
  devices := devices t; users := users t; agent_logs := agent_logs t;
  agent_commands := agent_commands t; backup_file_versions := backup_file_versions t;
  website_block_rules := website_block_rules t;
  website_block_statuses := website_block_statuses t |}.
Definition with_links (m : gset (string * Z)) (t : Tables) : Tables := {|
  items := items t; file_nodes := file_nodes t; folder_nodes := folder_nodes t;
  item_content_type_links := m; content_types := content_types t;
  devices := devices t; users := users t; agent_logs := agent_logs t;
  agent_commands := agent_commands t; backup_file_versions := backup_file_versions t;
  website_block_rules := website_block_rules t;
  website_block_statuses := website_block_statuses t |}.
Definition with_content_types (m : gmap Z ContentType) (t : Tables) : Tables := {|
  items := items t; file_nodes := file_nodes t; folder_nodes := folder_nodes t;
  item_content_type_links := item_content_type_links t; content_types := m;
  devices := devices t; users := users t; agent_logs := agent_logs t;
  agent_commands := agent_commands t; backup_file_versions := backup_file_versions t;
  website_block_rules := website_block_rules t;
  website_block_statuses := website_block_statuses t |}.
Definition with_devices (m : gmap Z Device) (t : Tables) : Tables := {|
  items := items t; file_nodes := file_nodes t; folder_nodes := folder_nodes t;
  item_content_type_links := item_content_type_links t; content_types := content_types t;
  devices := m; users := users t; agent_logs := agent_logs t;
  agent_commands := agent_commands t; backup_file_versions := backup_file_versions t;
  website_block_rules := website_block_rules t;
  website_block_statuses := website_block_statuses t |}.
Definition with_users (m : gmap Z User) (t : Tables) : Tables := {|
  items := items t; file_nodes := file_nodes t; folder_nodes := folder_nodes t;
  item_content_type_links := item_content_type_links t; content_types := content_types t;
  devices := devices t; users := m; agent_logs := agent_logs t;
  agent_commands := agent_commands t; backup_file_versions := backup_file_versions t;
  website_block_rules := website_block_rules t;
  website_block_statuses := website_block_statuses t |}.
Definition with_agent_logs (m : gmap Z AgentLog) (t : Tables) : Tables := {|
  items := items t; file_nodes := file_nodes t; folder_nodes := folder_nodes t;
  item_content_type_links := item_content_type_links t; content_types := content_types t;
  devices := devices t; users := users t; agent_logs := m;
  agent_commands := agent_commands t; backup_file_versions := backup_file_versions t;
  website_block_rules := website_block_rules t;
  website_block_statuses := website_block_statuses t |}.
Definition with_agent_commands (m : gmap Z AgentCommand) (t : Tables) : Tables := {|
  items := items t; file_nodes := file_nodes t; folder_nodes := folder_nodes t;
  item_content_type_links := item_content_type_links t; content_types := content_types t;
  devices := devices t; users := users t; agent_logs := agent_logs t;
  agent_commands := m; backup_file_versions := backup_file_versions t;
  website_block_rules := website_block_rules t;
  website_block_statuses := website_block_statuses t |}.
Definition with_versions (m : gmap Z BackupFileVersion) (t : Tables) : Tables := {|
  items := items t; file_nodes := file_nodes t; folder_nodes := folder_nodes t;
  item_content_type_links := item_content_type_links t; content_types := content_types t;
  devices := devices t; users := users t; agent_logs := agent_logs t;
  agent_commands := agent_commands t; backup_file_versions := m;
  website_block_rules := website_block_rules t;
  website_block_statuses := website_block_statuses t |}.
Definition with_rules (m : gmap Z WebsiteBlockRule) (t : Tables) : Tables := {|
  items := items t; file_nodes := file_nodes t; folder_nodes := folder_nodes t;
  item_content_type_links := item_content_type_links t; content_types := content_types t;
  devices := devices t; users := users t; agent_logs := agent_logs t;
  agent_commands := agent_commands t; backup_file_versions := backup_file_versions t;
  website_block_rules := m; website_block_statuses := website_block_statuses t |}.
Definition with_statuses (m : gmap Z WebsiteBlockStatus) (t : Tables) : Tables := {|
  items := items t; file_nodes := file_nodes t; folder_nodes := folder_nodes t;
  item_content_type_links := item_content_type_links t; content_types := content_types t;
  devices := devices t; users := users t; agent_logs := agent_logs t;
  agent_commands := agent_commands t; backup_file_versions := backup_file_versions t;
  website_block_rules := website_block_rules t; website_block_statuses := m |}.

(** ** Statements *)

(** What the engine chooses while it runs one statement. *)
Record stmt_env := {
  arrange : ∀ A : Type, list A → list A;   (* the order rows come in *)
  next_key : list Z → Z;                      (* the next generated key *)
  clock : Z;                               (* NOW() *)
  like : string → string → bool            (* x LIKE pattern *) }.

Record valid_env (ev : stmt_env) : Prop := {
  arrange_perm A (l : list A) : arrange ev A l ≡ₚ l;
  next_key_gt ks k : k ∈ ks → k < next_key ev ks;
  next_key_pos ks : 0 < next_key ev ks }.

(** The meaning of a statement: the new tables and its result, or an error (a
    violated key). *)
Definition stmt (A : Type) : Type := stmt_env → Tables → result (Tables * A).

Class Engine (DB : Type) := {
  view : DB → Tables;
  run : ∀ {A}, stmt A → StE DB A;
  commit : DB → result unit }.

Class EngineLaws (DB : Type) `{Engine DB} : Prop := {
  run_ok A (s : stmt A) db db' a : run s db = (db', Ok a) →
    ∃ ev, valid_env ev ∧ s ev (view db) = Ok (view db', a);
  run_err A (s : stmt A) db db' e : run s db = (db', Err e) → view db' = view db }.

(** [db.Transaction(func(tx) error { ... })]. *)
Definition in_transaction {DB A} `{Engine DB} (m : StE DB A) : StE DB A := λ db,
  match m db with
  | (db', Ok a) =>
      match commit db' with
      | Ok _ => (db', Ok a)
      | Err e => (db, Err e)
      end
  | (_, Err e) => (db, Err e)
  end.

(** [clause.OnConflict{Columns: id, DoUpdates: ...}.Create(row)]. *)
Definition upsert {K V} `{Countable K} (k : K) (v : V) (assign : V → V) (m : gmap K V) : gmap K V :=
  <[k := match m !! k with Some old => assign old | None => v end]> m.

(** [UPDATE ... WHERE p]. *)
Definition update_where {K V} `{Countable K} (p : V → bool) (f : V → V) (m : gmap K V) : gmap K V :=
  (λ v, if p v then f v else v) <$> m.

(** The rows that satisfy a condition, in the engine's order. *)
Definition select {K V} `{Countable K} (ev : stmt_env) (p : V → bool) (m : gmap K V) : list V :=
  filter (λ v, p v = true) (arrange ev V (map_to_list m).*2).

(** [ORDER BY]: the engine's order among rows that compare equal. *)
Definition order_by {V} (le : V → V → bool) (l : list V) : list V :=
  merge_sort (λ a b, Is_true (le a b)) l.

(** ** Triples

    From tables satisfying [P], running [m] ends in tables satisfying [Q] of
    its result, or [E] when it fails. *)

Definition triple {DB A} `{Engine DB} (P : Tables → Prop) (m : StE DB A)
    (Q : A → Tables → Prop) (E : Tables → Prop) : Prop :=
  ∀ db, P (view db) →
    match m db with
    | (db', Ok a) => Q a (view db')
    | (db', Err _) => E (view db')
    end.

Section Laws.
Context `{EngineLaws DB}.

Lemma triple_ok {A} P (m : StE DB A) Q E db db' a :
  triple P m Q E → P (view db) → m db = (db', Ok a) → Q a (view db').
Proof. intros Hm HP Hr. specialize (Hm db HP). by rewrite Hr in Hm. Qed.
Lemma triple_err {A} P (m : StE DB A) Q E db db' e :
  triple P m Q E → P (view db) → m db = (db', Err e) → E (view db').
Proof. intros Hm HP Hr. specialize (Hm db HP). by rewrite Hr in Hm. Qed.

Lemma triple_ret {A} (P : Tables → Prop) (a : A) Q E :
  (∀ t, P t → Q a t) → triple P (mret a : StE DB A) Q E.
Proof. intros HQ db HP. by apply HQ. Qed.
Lemma triple_fail {A} (P : Tables → Prop) e (Q : A → Tables → Prop) (E : Tables → Prop) :
  (∀ t, P t → E t) → triple P (fail e : StE DB A) Q E.
Proof. intros HE db HP. by apply HE. Qed.
Lemma triple_lift {A} (P : Tables → Prop) (r : result A) (Q : A → Tables → Prop)
    (E : Tables → Prop) :
  (∀ a t, r = Ok a → P t → Q a t) → (∀ t, P t → E t) → triple P (lift r : StE DB A) Q E.
Proof. intros HQ HE db HP. unfold lift. destruct r; auto. Qed.
Lemma triple_bind {A B} P (m : StE DB A) R (f : A → StE DB B) Q E :
  triple P m R E → (∀ a, triple (R a) (f a) Q E) → triple P (m ≫= f) Q E.
Proof.
  intros Hm Hf db HP. specialize (Hm db HP). unfold mbind, StE_bind.
  destruct (m db) as [db' [a|e]]; [|done]. by apply Hf.
Qed.
Lemma triple_run {A} (P : Tables → Prop) (s : stmt A) (Q : A → Tables → Prop)
    (E : Tables → Prop) :
  (∀ ev t t' a, valid_env ev → P t → s ev t = Ok (t', a) → Q a t') →
  (∀ t, P t → E t) → triple P (run s) Q E.
Proof.
  intros Hs HE db HP. destruct (run s db) as [db' [a|e]] eqn:Er.
  - apply run_ok in Er as (ev & Hev & Er). by eapply Hs.
  - apply run_err in Er. rewrite Er. by apply HE.
Qed.
Lemma triple_weaken {A} (P P' : Tables → Prop) (m : StE DB A) (Q Q' : A → Tables → Prop)
    (E E' : Tables → Prop) :
  triple P' m Q' E' → (∀ t, P t → P' t) → (∀ a t, Q' a t → Q a t) → (∀ t, E' t → E t) →
  triple P m Q E.
Proof.
  intros Hm HP HQ HE db Hdb. specialize (Hm db (HP _ Hdb)).
  destruct (m db) as [db' [a|e]]; auto.
Qed.
Lemma triple_wrap_st {A} P p (m : StE DB A) Q E : triple P m Q E → triple P (wrap_st p m) Q E.
Proof.
  intros Hm db HP. specialize (Hm db HP). unfold wrap_st.
  by destruct (m db) as [db' [a|e]].
Qed.
Lemma triple_attempt {A} P (m : StE DB A) Q E E' :
  triple P m Q E →
  triple P (attempt m) (λ r t, match r with Ok a => Q a t | Err _ => E t end) E'.
Proof.
  intros Hm db HP. specialize (Hm db HP). unfold attempt.
  by destruct (m db) as [db' [a|e]].
Qed.
(** A failed transaction leaves the tables of its start. *)
Lemma triple_transaction {A} P (m : StE DB A) Q E' :
  triple P m Q E' → triple P (in_transaction m) Q P.
Proof.
  intros Hm db HP. specialize (Hm db HP). unfold in_transaction.
  destruct (m db) as [db' [a|e]]; [|done]. by destruct (commit db').
Qed.
Lemma triple_for_each {X} (I : Tables → Prop) (f : X → StE DB unit) xs :
  (∀ x, triple I (f x) (λ _, I) I) → triple I (for_each f xs) (λ _, I) I.
Proof.
  intros Hf. induction xs as [|x xs IH]; simpl; [by apply triple_ret|].
  eapply triple_bind; [apply Hf|]. by intros [].
Qed.
(** A statement that reads leaves the tables as they are. *)
Lemma triple_read {A} (P : Tables → Prop) (q : stmt_env → Tables → A) (Q : A → Tables → Prop)
    (E : Tables → Prop) :
  (∀ ev t, valid_env ev → P t → Q (q ev t) t) → (∀ t, P t → E t) →
  triple P (run (λ ev t, Ok (t, q ev t))) Q E.
Proof. intros HQ HE. apply triple_run; [|done]. intros ev t t' a Hev HP [= <- <-]. by apply HQ. Qed.

Lemma triple_keeps {A} (I : Tables → Prop) (m : StE DB A) :
  triple I m (λ _, I) I → keeps (λ db, I (view db)) m.
Proof. intros Hm db Hdb. specialize (Hm db Hdb). by destruct (m db) as [db' [a|e]]. Qed.

Lemma keeps_run {A} (I : Tables → Prop) (s : stmt A) :
  (∀ ev t t' a, valid_env ev → I t → s ev t = Ok (t', a) → I t') →
  keeps (λ db, I (view db)) (run s).
Proof.
  intros Hs db Hdb. destruct (run s db) as [db' [a|e]] eqn:E; simpl.
  - apply run_ok in E as (ev & Hev & E). by eapply Hs.
  - apply run_err in E. by rewrite E.
Qed.

Lemma keeps_in_transaction {A} (I : Tables → Prop) (m : StE DB A) :
  keeps (λ db, I (view db)) m → keeps (λ db, I (view db)) (in_transaction m).
Proof.
  intros Hm db Hdb. unfold in_transaction. pose proof (Hm db Hdb) as Hx.
  destruct (m db) as [db' [a|e]]; [|done]. by destruct (commit db').
Qed.

Lemma in_transaction_ok {A} (m : StE DB A) db db' a :
  in_transaction m db = (db', Ok a) → m db = (db', Ok a).
Proof.
  unfold in_transaction. destruct (m db) as [db1 [b|e]]; [|done].
  destruct (commit db1); [|done]. by intros [= -> ->].
Qed.

Lemma in_transaction_err {A} (m : StE DB A) db db' e :
  in_transaction m db = (db', Err e) → db' = db.
Proof.
  unfold in_transaction. destruct (m db) as [db1 [b|e1]]; [|by intros [= <- _]].
  destruct (commit db1); [done|]. by intros [= <- _].
Qed.
End Laws.

#[export] Hint Resolve keeps_in_transaction : keeps.

Lemma elem_of_select {K V} `{Countable K} ev p (m : gmap K V) v :
  Store.valid_env ev → v ∈ select ev p m ↔ p v = true ∧ ∃ k, m !! k = Some v.
Proof.
  intros Hev. unfold select. rewrite list_elem_of_filter, (arrange_perm ev Hev).
  rewrite list_elem_of_fmap. split.
  - intros [Hp ([k x] & -> & Hx%elem_of_map_to_list)]. eauto.
  - intros [Hp [k Hk]]. split; [done|]. exists (k, v). split; [done|].
    by apply elem_of_map_to_list.
Qed.

Lemma select_nil {K V} `{Countable K} ev p (m : gmap K V) k v :
  Store.valid_env ev → select ev p m = [] → m !! k = Some v → p v = false.
Proof.
  intros Hev Hs Hk. destruct (p v) eqn:E; [|done].
  assert (v ∈ select ev p m) as Hin by (apply elem_of_select; eauto).
  rewrite Hs in Hin. by apply not_elem_of_nil in Hin.
Qed.

(** A generated key is not in use. *)
Lemma next_key_free {V} ev (m : gmap Z V) :
  Store.valid_env ev → m !! next_key ev (map_to_list m).*1 = None.
Proof.
  intros Hev. destruct (m !! _) as [v|] eqn:E; [|done]. exfalso.
  apply elem_of_map_to_list in E. apply (list_elem_of_fmap_2 fst) in E. simpl in E.
  pose proof (next_key_gt ev Hev _ _ E). lia.
Qed.

Lemma upsert_lookup_eq {K V} `{Countable K} (k : K) (v : V) f (m : gmap K V) :
  upsert k v f m !! k = Some (match m !! k with Some old => f old | None => v end).
Proof. unfold upsert. by rewrite lookup_insert_eq. Qed.
Lemma upsert_lookup_ne {K V} `{Countable K} (k j : K) (v : V) f (m : gmap K V) :
  k ≠ j → upsert k v f m !! j = m !! j.
Proof. intros. unfold upsert. by rewrite lookup_insert_ne. Qed.
Lemma update_where_lookup {K V} `{Countable K} p f (m : gmap K V) k :
  update_where p f m !! k = (λ v, if p v then f v else v) <$> m !! k.
Proof. unfold update_where. by rewrite lookup_fmap. Qed.

(** ** An engine that never fails

    The tables themselves, rows in key order: the instance on which the
    hypotheses of the properties are shown to hold. *)

Definition plain_env : stmt_env :=
  {| arrange := λ _ l, l; next_key := λ ks, foldr Z.max 0 ks + 1; clock := 0;
     like := λ s p, Contains s (of_bytes (filter (λ a, a ≠ "%"%char) (to_bytes p))) |}.

Lemma plain_env_valid : valid_env plain_env.
Proof.
  split; simpl; [done| |].
  - intros ks k. induction ks as [|x ks IH]; [by intros ?%not_elem_of_nil|].
    intros [->|Hk]%elem_of_cons; simpl; [lia|]. specialize (IH Hk). lia.
  - intros ks. assert (0 ≤ foldr Z.max 0 ks); [|lia]. induction ks; simpl; lia.
Qed.

#[export] Instance plain_engine : Engine Tables := {
  view := λ t, t;
  run := λ A s t, match s plain_env t with
    | Ok (t', a) => (t', Ok a)
    | Err e => (t, Err e)
    end;
  commit := λ _, Ok tt }.

#[export] Instance plain_engine_laws : EngineLaws Tables.
Proof.
  split; simpl; intros A s t t' x.
  - destruct (s plain_env t) as [[t1 a1]|e] eqn:E; [|done]. intros [= <- <-].
    exists plain_env. split; [apply plain_env_valid|done].
  - destruct (s plain_env t) as [[t1 a1]|e] eqn:E; [done|]. by intros [= <- _].
Qed.
