(* ===== verification/DeletedSince.v ===== *)
(** * The deleted_since filter

    [parseDeletedSince] of backend/app/repo/filetree_repo.go and what it uses of
    Go's [time] package: [ParseDuration] (Go 1.25, its float64 fraction included)
    and [Parse] with the RFC 3339 layout.  A time is its nanoseconds since 1970.

    [ParseDuration] and the fraction loop take the length of their text as fuel;
    [duration_terms_fuel] shows that it is enough. *)

From Stdlib Require Import SpecFloat.
From S2P Require Export GoStrings.

Local Open Scope Z_scope.

(** ** Durations *)

Definition Nanosecond : Z := 1.
Definition Microsecond : Z := 1000 * Nanosecond.
Definition Millisecond : Z := 1000 * Microsecond.
Definition Second : Z := 1000 * Millisecond.
Definition Minute : Z := 60 * Second.
Definition Hour : Z := 60 * Minute.

Definition lowerhex (n : N) : ascii := ascii_of_N (if (n <? 10)%N then 48 + n else 87 + n)%N.
(** [time.quote]: a byte above ASCII or below the space is written in hexadecimal. *)
Definition quote_byte (a : ascii) : list ascii :=
  let n := N_of_ascii a in
  if ((128 <=? n) || (n <? 32))%N
  then [ascii_of_N 92; "x"%char; lowerhex (n / 16); lowerhex (n mod 16)]
  else if ((n =? 34) || (n =? 92))%N then [ascii_of_N 92; a] else [a].
Definition quote (s : list ascii) : string :=
  of_bytes (ascii_of_N 34 :: (s ≫= quote_byte) ++ [ascii_of_N 34]).

(** float64 *)
Definition float64 (z : Z) : spec_float := binary_normalize 53 1024 z 0 false.
Definition float_mul : spec_float → spec_float → spec_float := SFmul 53 1024.
Definition float_div : spec_float → spec_float → spec_float := SFdiv 53 1024.
(** [uint64(x)] of a non-negative finite [x]. *)
Definition float_trunc (x : spec_float) : Z :=
  match x with
  | S754_finite _ m e => if decide (0 ≤ e) then Zpos m * 2 ^ e else Zpos m / 2 ^ (- e)
  | _ => 0
  end.

(** [leadingInt]: [None] on overflow. *)
Definition leadingInt (l : list ascii) : option (Z * nat * list ascii) :=
  let '(x, count, rest) := digits l 0 0 in
  if decide (2 ^ 63 < x) then None else Some (x, count, rest).

(** [leadingFraction]: the digits that fit, ten to their number, and the rest. *)
Fixpoint leadingFraction (l : list ascii) (x : Z) (scale : spec_float) (overflow : bool) :
    Z * spec_float * list ascii :=
  match l with
  | a :: l' =>
      match digit a with
      | None => (x, scale, l)
      | Some d =>
          if overflow then leadingFraction l' x scale true
          else if decide ((2 ^ 63 - 1) / 10 < x) then leadingFraction l' x scale true
          else if decide (2 ^ 63 < 10 * x + d) then leadingFraction l' x scale true
          else leadingFraction l' (10 * x + d) (float_mul scale (float64 10)) false
      end
  | [] => (x, scale, [])
  end.

Definition micro_sign : string := of_bytes (ascii_of_N <$> [194; 181; 115]%N).   (* U+00B5 s *)
Definition greek_mu : string := of_bytes (ascii_of_N <$> [206; 188; 115]%N).     (* U+03BC s *)
Definition unitMap : list (string * Z) :=
  [("ns", Nanosecond); ("us", Microsecond); (micro_sign, Microsecond); (greek_mu, Microsecond);
   ("ms", Millisecond); ("s", Second); ("m", Minute); ("h", Hour)].

Definition in_number (a : ascii) : bool := bool_decide (a = "."%char) || is_digit a.
(** The unit ends where the next number begins. *)
Fixpoint unit_text (l : list ascii) : list ascii * list ascii :=
  match l with
  | a :: l' => if in_number a then ([], l) else let '(u, r) := unit_text l' in (a :: u, r)
  | [] => ([], [])
  end.

(** What [ParseDuration] says of a text it refuses. *)
Inductive duration_error := Invalid | Missing | Unknown (u : list ascii).
Definition duration_message (orig : list ascii) (e : duration_error) : string :=
  match e with
  | Invalid => "time: invalid duration " +:+ quote orig
  | Missing => "time: missing unit in duration " +:+ quote orig
  | Unknown u => "time: unknown unit " +:+ quote u +:+ " in duration " +:+ quote orig
  end.

Definition assoc {A} (k : string) (l : list (string * A)) : option A :=
  (λ p, p.2.2) <$> list_find (λ p, p.1 = k) l.

(** The fraction after a point, and whether it has a digit. *)
Definition duration_fraction (s : list ascii) : Z * spec_float * list ascii * bool :=
  match s with
  | b :: s' =>
      if decide (b = "."%char) then
        let '(f, scale, r) := leadingFraction s' 0 (float64 1) false in
        (f, scale, r, bool_decide (length r ≠ length s'))
      else (0, float64 1, s, false)
  | [] => (0, float64 1, s, false)
  end.

(** One number with its unit: its nanoseconds and the rest of the text. *)
Definition duration_term (s : list ascii) : Z * list ascii + duration_error :=
  match s with
  | a :: _ =>
      if negb (in_number a) then inr Invalid else
      match leadingInt s with
      | None => inr Invalid
      | Some (v, pre, s1) =>
          let '(f, scale, s2, post) := duration_fraction s1 in
          if decide (pre = 0%nat ∧ post = false) then inr Invalid else
          let '(u, s3) := unit_text s2 in
          if decide (u = []) then inr Missing else
          match assoc (of_bytes u) unitMap with
          | None => inr (Unknown u)
          | Some unit =>
              if decide (2 ^ 63 / unit < v) then inr Invalid else
              let v1 := v * unit in
              let v2 := if decide (0 < f)
                        then v1 + float_trunc (float_mul (float64 f) (float_div (float64 unit) scale))
                        else v1 in
              if decide (2 ^ 63 < v2) then inr Invalid else inl (v2, s3)
          end
      end
  | [] => inr Invalid
  end.

(** The sum of the terms, a uint64 that may wrap. *)
Fixpoint duration_terms (fuel : nat) (s : list ascii) (d : Z) : option (Z + duration_error) :=
  match s, fuel with
  | [], _ => Some (inl d)
  | _, O => None
  | _, S fuel =>
      match duration_term s with
      | inr e => Some (inr e)
      | inl (v, s') =>
          let d' := u64 (d + v) in
          if decide (2 ^ 63 < d') then Some (inr Invalid) else duration_terms fuel s' d'
      end
  end.

Definition ParseDuration (s : string) : result Z :=
  let orig := to_bytes s in
  let '(sign, l) := signed orig in
  if decide (l = ["0"%char]) then Ok 0 else
  match l with
  | [] => Err (duration_message orig Invalid)
  | _ =>
      match duration_terms (length l) l 0 with
      | None => Err ""
      | Some (inr e) => Err (duration_message orig e)
      | Some (inl d) =>
          if decide (sign = -1) then Ok (i64 (- i64 d))
          else if decide (2 ^ 63 - 1 < d) then Err (duration_message orig Invalid) else Ok d
      end
  end.

(** ** Instants *)

(** [getnum]: two digits, or one where the layout allows it. *)
Definition getnum (fixed : bool) (l : list ascii) : option (Z * list ascii) :=
  match l with
  | a :: l1 =>
      d ← digit a;
      match l1 with
      | b :: l2 =>
          match digit b with
          | Some e => Some (10 * d + e, l2)
          | None => if fixed then None else Some (d, l1)
          end
      | [] => if fixed then None else Some (d, l1)
      end
  | [] => None
  end.
Definition literal (c : ascii) (l : list ascii) : option (list ascii) :=
  match l with a :: l' => if decide (a = c) then Some l' else None | [] => None end.
Definition between (lo hi x : Z) : option unit := if decide (lo ≤ x ≤ hi) then Some () else None.

(** The year: four digits. *)
Definition year_of (l : list ascii) : option (Z * list ascii) :=
  let '(y, count, _) := digits (take 4 l) 0 0 in
  if decide (count = 4%nat) then Some (y, drop 4 l) else None.

(** A fraction of a second, with a point or a comma: ten bytes of it count. *)
Definition fraction (l : list ascii) : Z * list ascii :=
  match l with
  | c :: a :: _ =>
      if decide ((c = "."%char ∨ c = ","%char) ∧ is_digit a) then
        let '(_, count, rest) := digits (tail l) 0 0 in
        let kept := Nat.min count 9 in
        let '(ns, _, _) := digits (take kept (tail l)) 0 0 in
        (ns * 10 ^ (9 - Z.of_nat kept), rest)
      else (0, l)
  | _ => (0, l)
  end.

(** The zone: [Z], or a signed offset of hours and minutes, in seconds. *)
Definition zone_offset (l : list ascii) : option (Z * list ascii) :=
  match l with
  | c :: l' =>
      if decide (c = "Z"%char) then Some (0, l') else
      match l with
      | sign :: h1 :: h2 :: colon :: m1 :: m2 :: rest =>
          if decide (colon = ":"%char) then
            '(hr, _) ← getnum true [h1; h2];
            '(mm, _) ← getnum true [m1; m2];
            between 0 24 hr;; between 0 60 mm;;
            if decide (sign = "+"%char) then Some ((hr * 60 + mm) * 60, rest)
            else if decide (sign = "-"%char) then Some (- ((hr * 60 + mm) * 60), rest)
            else None
          else None
      | _ => None
      end
  | [] => None
  end.
(** The letter [Z] of the second layout is a literal. *)
Definition literal_zone (l : list ascii) : option (Z * list ascii) :=
  l' ← literal "Z"%char l; Some (0, l').

Definition isLeap (year : Z) : bool :=
  bool_decide (year `mod` 4 = 0 ∧ (year `mod` 100 ≠ 0 ∨ year `mod` 400 = 0)).
Definition daysIn (month year : Z) : Z :=
  if decide (month = 2) then if isLeap year then 29 else 28
  else if decide (month = 4 ∨ month = 6 ∨ month = 9 ∨ month = 11) then 30 else 31.
(** The days from 1 January 1970 to a date of the Gregorian calendar. *)
Definition days_before_year (year : Z) : Z :=
  let y := year - 1 in 365 * year + y / 4 - y / 100 + y / 400.
Definition days_before_month (month year : Z) : Z :=
  foldr Z.add 0 ((λ m, daysIn (Z.of_nat m) year) <$> seq 1 (Z.to_nat (month - 1))).
Definition date_days (year month day : Z) : Z :=
  days_before_year year + days_before_month month year + (day - 1) - days_before_year 1970.

(** [time.Parse] with the layout 2006-01-02T15:04:05 and a zone.  The reader Go
    tries first for RFC 3339 accepts a part of these texts, with the same result. *)
Definition parse_instant (zone : list ascii → option (Z * list ascii)) (s : string) : option Z :=
  '(year, l) ← year_of (to_bytes s);
  l ← literal "-"%char l;
  '(month, l) ← getnum true l; between 1 12 month;;
  l ← literal "-"%char l;
  '(day, l) ← getnum true l;
  l ← literal "T"%char l;
  '(hour, l) ← getnum false l; between 0 23 hour;;
  l ← literal ":"%char l;
  '(min, l) ← getnum true l; between 0 59 min;;
  l ← literal ":"%char l;
  '(sec, l) ← getnum true l; between 0 59 sec;;
  let '(nsec, l) := fraction l in
  '(offset, l) ← zone l;
  if decide (l = []) then
    between 1 (daysIn month year) day;;
    Some ((((date_days year month day * 24 + hour) * 60 + min) * 60 + sec - offset) * Second + nsec)
  else None.

(** ** The filter *)

(** [parseDeletedSince] at the time [now].  [Sscanf] reads the number of days and
    ignores what follows it. *)
Definition parseDeletedSince (now : Z) (text : string) : result Z :=
  let s := TrimSpace text in
  if decide (s = "") then Err "empty string" else
  match parse_instant zone_offset s, parse_instant literal_zone s with
  | Some t, _ => Ok t
  | None, Some t => Ok t
  | None, None =>
      let before d := now + i64 (- d) in
      if HasSuffix s "h" then
        wrap "parse duration: " (before <$> ParseDuration (TrimSuffix s "h" +:+ "h"))
      else if HasSuffix s "d" then
        match Sscanf_int (TrimSuffix s "d") with
        | Some days => Ok (before (i64 (days * (24 * Hour))))
        | None => Err ("invalid days format: " +:+ s)
        end
      else if HasSuffix s "m" then
        wrap "parse duration: " (before <$> ParseDuration (TrimSuffix s "m" +:+ "m"))
      else match ParseDuration (s +:+ "h") with
           | Ok d => Ok (before d)
           | Err _ => Err ("invalid format: " +:+ s +:+ " (supported: 6h, 24h, 7d, 30m, or ISO8601)")
           end
  end.

(** ** Properties *)

(** Every term takes at least one byte, so the length of the text is fuel enough:
    [ParseDuration] always ends by its own tests. *)
Lemma digits_shrink l acc n v k r : digits l acc n = (v, k, r) → (length r ≤ length l)%nat.
Proof.
  revert acc n. induction l as [|a l IH]; intros acc n; simpl.
  - by intros [= _ _ <-].
  - destruct (digit a) as [d|]; [intros H; apply IH in H; lia|]. by intros [= _ _ <-].
Qed.

Lemma leadingFraction_shrink l x sc o v sc' r :
  leadingFraction l x sc o = (v, sc', r) → (length r ≤ length l)%nat.
Proof.
  revert x sc o. induction l as [|a l IH]; intros x sc o; cbn [leadingFraction].
  - by intros [= _ _ <-].
  - destruct (digit a) as [d|]; [|by intros [= _ _ <-]].
    destruct o; [|case_decide; [|case_decide]]; intros Hf; apply IH in Hf; simpl; lia.
Qed.

Lemma unit_text_shrink l u r : unit_text l = (u, r) → length l = (length u + length r)%nat.
Proof.
  revert u r. induction l as [|a l IH]; intros u r; simpl; [by intros [= <- <-]|].
  destruct (in_number a); [by intros [= <- <-]|].
  destruct (unit_text l) as [u' r'] eqn:E. intros [= <- <-]. simpl. by erewrite IH.
Qed.

Lemma duration_fraction_shrink s f sc r post :
  duration_fraction s = (f, sc, r, post) → (length r ≤ length s)%nat.
Proof.
  unfold duration_fraction. destruct s as [|b s]; [by intros [= _ _ <- _]|].
  case_decide; [|by intros [= _ _ <- _]].
  destruct (leadingFraction s 0 (float64 1) false) as [[f' sc'] r'] eqn:E.
  intros [= _ _ <- _]. apply leadingFraction_shrink in E. simpl. lia.
Qed.

Lemma duration_term_shrinks s v r : duration_term s = inl (v, r) → (length r < length s)%nat.
Proof.
  unfold duration_term. destruct s as [|a s]; [done|]. destruct (negb _); [done|].
  unfold leadingInt. destruct (digits (a :: s) 0 0) as [[x pre] s1] eqn:E1.
  apply digits_shrink in E1. destruct (decide (2 ^ 63 < x)); [done|].
  destruct (duration_fraction s1) as [[[f sc] s2] post] eqn:E2.
  apply duration_fraction_shrink in E2.
  case_decide; [done|]. destruct (unit_text s2) as [u s3] eqn:E4. apply unit_text_shrink in E4.
  destruct (decide (u = [])) as [|Hu]; [done|]. destruct (assoc _ _); [|done].
  case_decide; [done|]. cbv zeta. destruct (decide (2 ^ 63 < _)); [done|]. intros [= _ <-].
  destruct u; [done|]. simpl in *. lia.
Qed.

Lemma duration_terms_fuel fuel s d :
  (length s ≤ fuel)%nat → duration_terms fuel s d ≠ None.
Proof.
  revert s d. induction fuel as [|fuel IH]; intros s d Hs; destruct s as [|a s]; try done.
  - simpl in Hs. lia.
  - change (duration_terms (S fuel) (a :: s) d) with
      (match duration_term (a :: s) with
       | inr e => Some (inr e)
       | inl (v, s') => if decide (2 ^ 63 < u64 (d + v)) then Some (inr Invalid)
                        else duration_terms fuel s' (u64 (d + v))
       end).
    destruct (duration_term (a :: s)) as [[v s']|e] eqn:E; [|done].
    apply duration_term_shrinks in E. case_decide; [done|]. apply IH. simpl in *. lia.
Qed.

(** The second layout of [parseDeletedSince] accepts nothing the first refuses. *)
Lemma literal_zone_offset l r : literal_zone l = Some r → zone_offset l = Some r.
Proof.
  unfold literal_zone, literal, zone_offset. destruct l as [|c l]; [done|].
  case_decide; [|done]. done.
Qed.

Lemma parse_instant_mono (z z' : list ascii → option (Z * list ascii)) s t :
  (∀ l r, z l = Some r → z' l = Some r) → parse_instant z s = Some t → parse_instant z' s = Some t.
Proof.
  intros Hz. unfold parse_instant.
  repeat match goal with
  | |- (mbind _ (z ?l) = Some _) → _ =>
      destruct (z l) as [[]|] eqn:Ez; [|done]; apply Hz in Ez; rewrite Ez; exact id
  | |- (mbind _ ?m = Some _) → _ => let x := fresh in destruct m as [x|]; [|done]; simpl; try destruct x as [? ?]
  | |- (let '(_, _) := ?m in _) = Some _ → _ => destruct m as [? ?]
  end.
Qed.

Lemma second_layout_redundant s : parse_instant zone_offset s = None → parse_instant literal_zone s = None.
Proof.
  intros H. destruct (parse_instant literal_zone s) as [t|] eqn:E; [|done].
  by rewrite (parse_instant_mono _ zone_offset _ _ literal_zone_offset E) in H.
Qed.

(** *** Hours, days, minutes *)

Inductive age_unit := Hours | Days | Minutes.
Definition unit_letter (u : age_unit) : ascii :=
  match u with Hours => "h" | Days => "d" | Minutes => "m" end.
Definition unit_size (u : age_unit) : Z :=
  match u with Hours => Hour | Days => 24 * Hour | Minutes => Minute end.

(** "[n]h", "[n]d", "[n]m". *)
Definition age_text (n : Z) (u : age_unit) : string := pretty n +:+ String (unit_letter u) "".

Lemma unit_size_pos u : 1 ≤ unit_size u.
Proof. by destruct u. Qed.

Lemma is_digit_spec a : is_digit a = true → (48 ≤ N_of_ascii a ≤ 57)%N.
Proof. unfold is_digit, digit. case_decide; simpl; [lia|done]. Qed.
Lemma digit_graphic a : is_digit a = true → graphic a.
Proof. intros ?%is_digit_spec. unfold graphic. lia. Qed.
Lemma digit_ne a c : is_digit a = true → (N_of_ascii c < 48 ∨ 57 < N_of_ascii c)%N → a ≠ c.
Proof. intros ?%is_digit_spec ? ->. lia. Qed.

Section Age.
Context (n : Z) (u : age_unit) (Hn : 0 ≤ n).

Lemma age_digits : ∃ a l k, to_bytes (pretty n) = a :: l ∧ is_digit a = true ∧
  (∀ l', digits (a :: l ++ l') 0 0 = digits l' n (S k)) ∧ (l = [] ∨ ∃ b l', l = b :: l').
Proof.
  destruct (digits_pretty n Hn) as (Hd & Hne & k & Hk).
  destruct (to_bytes (pretty n)) as [|a l]; [done|].
  pose proof Hd as [Ha _]%Forall_cons. exists a, l, k. split_and!; [done|by apply Is_true_true| |].
  - intros l'. destruct (digits_app (a :: l) l' 0 0 Hd) as (v & H1 & H2).
    rewrite H1 in Hk. injection Hk as -> <-. exact H2.
  - destruct l; eauto.
Qed.

Lemma age_trim : TrimSpace (age_text n u) = age_text n u.
Proof.
  unfold TrimSpace, age_text. rewrite to_bytes_app.
  destruct age_digits as (a & l & k & Ha & Hd & _ & _). rewrite Ha. simpl.
  rewrite trim_space_bytes_graphic; [|by apply digit_graphic|by destruct u].
  rewrite <- (of_to_bytes (pretty n)), Ha.
  change (String (unit_letter u) "") with (of_bytes [unit_letter u]). by rewrite <- of_bytes_app.
Qed.

(** No date starts that way. *)
Lemma age_no_instant zone : parse_instant zone (age_text n u) = None.
Proof.
  unfold parse_instant. destruct (year_of _) as [[y l]|] eqn:Hy; [|done]. simpl.
  destruct (literal "-" l) as [r|] eqn:Hl; [|done]. exfalso.
  unfold year_of in Hy. destruct (digits _ 0 0) as [[? ?] ?]. case_decide; [|done].
  injection Hy as _ <-. unfold literal in Hl.
  destruct (drop 4 (to_bytes (age_text n u))) as [|c r'] eqn:Hdrop; [done|]. case_decide; [|done].
  subst c. assert (("-"%char) ∈ to_bytes (age_text n u)) as Hin.
  { rewrite <- (take_drop 4 (to_bytes (age_text n u))), Hdrop. set_solver. }
  unfold age_text in Hin. rewrite to_bytes_app in Hin. apply elem_of_app in Hin as [Hin|Hin].
  - destruct (digits_pretty n Hn) as (Hd & _ & _). rewrite Forall_forall in Hd.
    by apply Hd in Hin.
  - apply list_elem_of_singleton in Hin. by destruct u.
Qed.

(** A whole number of hours or minutes. *)
Lemma ParseDuration_age :
  u ≠ Days → n * unit_size u < 2 ^ 63 → ParseDuration (age_text n u) = Ok (n * unit_size u).
Proof.
  pose proof (unit_size_pos u).
  intros Hu Hbound. unfold ParseDuration, age_text. rewrite to_bytes_app.
  destruct age_digits as (a & l & k & -> & Hd & Hk & _). cbn [app].
  unfold signed. rewrite !decide_False by (apply digit_ne; [done|vm_compute; intuition]).
  change (to_bytes (String (unit_letter u) "")) with [unit_letter u].
  cbv zeta. rewrite decide_False by (by destruct l).
  assert (duration_term (a :: l ++ [unit_letter u]) = inl (n * unit_size u, [])) as Ht.
  { unfold duration_term, in_number. rewrite Hd, orb_true_r. simpl negb. cbv iota.
    unfold leadingInt. rewrite Hk. rewrite digits_stop by (by destruct u). cbv iota beta.
    assert (n ≤ n * unit_size u) by nia.
    rewrite decide_False by lia. cbv iota beta.
    assert (duration_fraction [unit_letter u] = (0, float64 1, [unit_letter u], false)) as -> by (by destruct u).
    cbv iota beta. rewrite decide_False by (by intros [? _]).
    assert (unit_text [unit_letter u] = ([unit_letter u], [])) as -> by (by destruct u).
    rewrite decide_False by done.
    assert (assoc (of_bytes [unit_letter u]) unitMap = Some (unit_size u)) as -> by (by destruct u).
    rewrite decide_False by (apply Z.le_ngt, Z.div_le_lower_bound; lia).
    cbv zeta. rewrite (decide_False (P := 0 < 0)) by lia. by rewrite decide_False by lia. }
  change (length (a :: l ++ [unit_letter u])) with (S (length (l ++ [unit_letter u]))).
  cbn [duration_terms]. rewrite Ht. cbv iota beta zeta.
  assert (0 ≤ n * unit_size u) by nia.
  rewrite Z.add_0_l. unfold u64. rewrite wrap_u_small by lia. rewrite decide_False by lia.
  assert (∀ f v, duration_terms f [] v = Some (inl v)) as -> by (by intros []).
  rewrite decide_False by done. by rewrite decide_False by lia.
Qed.

Lemma Sscanf_days : n < 2 ^ 63 → Sscanf_int (pretty n) = Some n.
Proof.
  intros Hmax. unfold Sscanf_int. destruct age_digits as (a & l & k & -> & Hd & Hk & _).
  simpl skip_blanks. rewrite decide_False.
  2: { intros [->| ->]; by vm_compute in Hd. }
  unfold signed. rewrite !decide_False by (apply digit_ne; [done|vm_compute; intuition]).
  specialize (Hk []). rewrite app_nil_r in Hk. rewrite Hk. simpl digits. cbv iota beta.
  rewrite decide_True by done. rewrite Z.mul_1_l. unfold int64.
  by rewrite bool_decide_true by lia.
Qed.

(** [n] units ago. *)
Lemma parseDeletedSince_age now :
  n * unit_size u < 2 ^ 63 → parseDeletedSince now (age_text n u) = Ok (now - n * unit_size u).
Proof.
  pose proof (unit_size_pos u).
  intros Hb. unfold parseDeletedSince. rewrite age_trim. cbv zeta.
  assert (0 ≤ n * unit_size u) by nia.
  assert (n ≤ n * unit_size u) by nia.
  assert (i64 (- (n * unit_size u)) = - (n * unit_size u)) as Hneg.
  { apply wrap_s_small; [done|]. change (64 - 1) with 63. lia. }
  rewrite decide_False.
  2: { unfold age_text. intros He%to_bytes_nil. rewrite to_bytes_app in He. by apply app_nil in He as [_ ?]. }
  rewrite !age_no_instant. unfold age_text. rewrite !HasSuffix_last.
  destruct u eqn:Eu; simpl; rewrite TrimSuffix_app.
  - change (pretty n +:+ "h") with (age_text n Hours). rewrite <- Eu, ParseDuration_age by congruence.
    rewrite Eu. simpl in *. by rewrite Hneg.
  - rewrite Sscanf_days by lia. f_equal. simpl in Hneg, Hb.
    assert (i64 (n * (24 * Hour)) = n * (24 * Hour)) as ->; [|by rewrite Hneg].
    apply wrap_s_small; [done|]. change (64 - 1) with 63. simpl in *. lia.
  - change (pretty n +:+ "m") with (age_text n Minutes). rewrite <- Eu, ParseDuration_age by congruence.
    rewrite Eu. simpl in *. by rewrite Hneg.
Qed.
End Age.

(** The number of days is what [Sscanf] reads: the rest of the text is dropped. *)
Lemma days_ignore_rest :
  parseDeletedSince (10 ^ 18) "2 weeks or 1d" = Ok (10 ^ 18 - 2 * (24 * Hour)).
Proof. vm_compute. reflexivity. Qed.

(** From 106752 days on the duration wraps: the time lies in the future. *)
Lemma days_overflow : ∃ t, parseDeletedSince (10 ^ 18) "106752d" = Ok t ∧ 10 ^ 18 < t.
Proof. eexists. split; [vm_compute; reflexivity|lia]. Qed.
