(* ===== verification/FileTree.v ===== *)
(** * The file tree

    backend/app/repo/filetree_repo.go and backend/app/services/filetree_service.go:
    the tree of files and folders each device reports, and its logical paths.

    SHA-1 UUIDs are a parameter.
    [BuildLogicalPathFromItem] climbs the parent chain in a loop: it takes fuel
    here, and the theorems say how much is enough. *)

From S2P Require Export Prelude GoStrings DeletedSince Store.

Local Open Scope Z_scope.

(** ** Requests (backend/app/dto/filetree.go) *)

Record FileChange := {
  Change_ID : string;
  Change_OriginPath : string;
  Change_CurrentPath : string;
  Change_CurrentName : string;
  Change_Extension : string;
  Change_Size : Z;
  Change_SnapshotNumber : Z;
  IsDir : bool;
  Deleted : bool;
  Change_Pending : bool;
  ContentTypes : list Z }.

#[export] Instance FileChange_eq_dec : EqDecision FileChange.
Proof. solve_decision. Defined.

Record ItemFilter := {
  Filter_DeviceUUID : string;
  Filter_ParentID : option string;
  Filter_Search : string;
  Filter_Extensions : list string;
  Filter_ContentTypeIDs : list Z;
  Filter_Page : Z;
  Filter_PageSize : Z;
  Filter_IncludeDeleted : bool;
  Filter_DeletedSince : string }.

(** An item with its preloaded associations. *)
Record LoadedItem := {
  item : Item;
  File : option FileNode;
  Folder : option FolderNode;
  Item_ContentTypes : list ContentType }.

(** [uuid.NewSHA1(uuid.NameSpaceURL, key).String()]. *)
Class Sha1 := NewSHA1 : string → string.

Definition deterministicID `{Sha1} (deviceUUID : string) (segments : list string) : string :=
  NewSHA1 (deviceUUID +:+ "|" +:+ Join segments).
Definition deterministicIDFromSegments `{Sha1} : string → list string → string := deterministicID.

(** ** Paths *)

(** [filepath.ToSlash] is the identity on this platform. *)
Definition path_segments (curPath : string) : list string :=
  filter (λ s, s ≠ "") (TrimSpace <$> Split curPath).

Definition splitPath (curPath fallbackName : string) : list string * string :=
  if decide (curPath = "") then ([fallbackName], fallbackName) else
  match list.last (path_segments curPath) with
  | None => ([fallbackName], fallbackName)
  | Some name => (path_segments curPath, name)
  end.

Definition fallback (a b : string) : string :=
  if decide (TrimSpace a ≠ "") then a else if decide (TrimSpace b ≠ "") then b else "".

(** ** Statements *)

Definition live_item (it : Item) : bool := bool_decide (Item_DeletedAt it = None).
Definition live_file (n : FileNode) : bool := bool_decide (FileNode_DeletedAt n = None).
Definition live_folder (n : FolderNode) : bool := bool_decide (FolderNode_DeletedAt n = None).

Definition sql_upsert_file (node : FileNode) : stmt unit := λ ev t,
  let created := {|
    FileNode_ID := FileNode_ID node; FileNode_DeviceUUID := FileNode_DeviceUUID node;
    OriginPath := OriginPath node; CurrentPath := CurrentPath node;
    CurrentName := CurrentName node; Extension := Extension node; Size := Size node;
    SnapshotNumber := SnapshotNumber node; ChangePending := ChangePending node;
    LastEventAt := LastEventAt node; FileNode_CreatedAt := clock ev;
    FileNode_UpdatedAt := clock ev; FileNode_DeletedAt := None |} in
  let assign old := {|
    FileNode_ID := FileNode_ID old; FileNode_DeviceUUID := FileNode_DeviceUUID node;
    OriginPath := OriginPath node; CurrentPath := CurrentPath node;
    CurrentName := CurrentName node; Extension := Extension node; Size := Size node;
    SnapshotNumber := SnapshotNumber node; ChangePending := ChangePending node;
    LastEventAt := LastEventAt node; FileNode_CreatedAt := FileNode_CreatedAt old;
    FileNode_UpdatedAt := FileNode_UpdatedAt old; FileNode_DeletedAt := FileNode_DeletedAt old |} in
  Ok (with_file_nodes (upsert (FileNode_ID node) created assign (file_nodes t)) t, tt).

Definition sql_upsert_folder (node : FolderNode) : stmt unit := λ ev t,
  let created := {|
    FolderNode_ID := FolderNode_ID node; FolderNode_DeviceUUID := FolderNode_DeviceUUID node;
    TotalEntries := TotalEntries node; ExtChildren := ExtChildren node;
    FolderNode_CreatedAt := clock ev; FolderNode_UpdatedAt := clock ev;
    FolderNode_DeletedAt := None |} in
  let assign old := {|
    FolderNode_ID := FolderNode_ID old; FolderNode_DeviceUUID := FolderNode_DeviceUUID node;
    TotalEntries := TotalEntries node; ExtChildren := ExtChildren node;
    FolderNode_CreatedAt := FolderNode_CreatedAt old;
    FolderNode_UpdatedAt := FolderNode_UpdatedAt old;
    FolderNode_DeletedAt := FolderNode_DeletedAt old |} in
  Ok (with_folder_nodes (upsert (FolderNode_ID node) created assign (folder_nodes t)) t, tt).

Definition sql_upsert_item (it : Item) : stmt unit := λ ev t,
  let created := {|
    Item_ID := Item_ID it; Item_DeviceUUID := Item_DeviceUUID it; Item_Name := Item_Name it;
    ParentID := ParentID it; FileID := FileID it; FolderID := FolderID it;
    TotalSize := TotalSize it; Item_CreatedAt := clock ev; Item_UpdatedAt := clock ev;
    Item_DeletedAt := None |} in
  let assign old := {|
    Item_ID := Item_ID old; Item_DeviceUUID := Item_DeviceUUID it; Item_Name := Item_Name it;
    ParentID := ParentID it; FileID := FileID it; FolderID := FolderID it;
    TotalSize := TotalSize it; Item_CreatedAt := Item_CreatedAt old;
    Item_UpdatedAt := Item_UpdatedAt old; Item_DeletedAt := Item_DeletedAt old |} in
  Ok (with_items (upsert (Item_ID it) created assign (items t)) t, tt).

Definition of_device (deviceUUID : string) (it : Item) : bool :=
  bool_decide (Item_DeviceUUID it = deviceUUID).

(** [First(&row)] on a condition; [None] is [gorm.ErrRecordNotFound]. *)
Definition sql_first_item (p : Item → bool) : stmt (option Item) := λ ev t,
  Ok (t, head (select ev p (items t))).
Definition sql_first_file (p : FileNode → bool) : stmt (option FileNode) := λ ev t,
  Ok (t, head (select ev p (file_nodes t))).
Definition sql_first_folder (p : FolderNode → bool) : stmt (option FolderNode) := λ ev t,
  Ok (t, head (select ev p (folder_nodes t))).

Definition delete_at (at_ : Z) (it : Item) : Item := {|
  Item_ID := Item_ID it; Item_DeviceUUID := Item_DeviceUUID it; Item_Name := Item_Name it;
  ParentID := ParentID it; FileID := FileID it; FolderID := FolderID it;
  TotalSize := TotalSize it; Item_CreatedAt := Item_CreatedAt it;
  Item_UpdatedAt := Item_UpdatedAt it; Item_DeletedAt := Some at_ |}.
Definition delete_file_at (at_ : Z) (n : FileNode) : FileNode := {|
  FileNode_ID := FileNode_ID n; FileNode_DeviceUUID := FileNode_DeviceUUID n;
  OriginPath := OriginPath n; CurrentPath := CurrentPath n; CurrentName := CurrentName n;
  Extension := Extension n; Size := Size n; SnapshotNumber := SnapshotNumber n;
  ChangePending := ChangePending n; LastEventAt := LastEventAt n;
  FileNode_CreatedAt := FileNode_CreatedAt n; FileNode_UpdatedAt := FileNode_UpdatedAt n;
  FileNode_DeletedAt := Some at_ |}.
Definition delete_folder_at (at_ : Z) (n : FolderNode) : FolderNode := {|
  FolderNode_ID := FolderNode_ID n; FolderNode_DeviceUUID := FolderNode_DeviceUUID n;
  TotalEntries := TotalEntries n; ExtChildren := ExtChildren n;
  FolderNode_CreatedAt := FolderNode_CreatedAt n; FolderNode_UpdatedAt := FolderNode_UpdatedAt n;
  FolderNode_DeletedAt := Some at_ |}.

Definition sql_delete_item (deviceUUID id : string) : stmt unit := λ ev t,
  Ok (with_items (update_where
    (λ it, of_device deviceUUID it && bool_decide (Item_ID it = id) && live_item it)
    (delete_at (clock ev)) (items t)) t, tt).
Definition sql_delete_file (deviceUUID id : string) : stmt unit := λ ev t,
  Ok (with_file_nodes (update_where
    (λ n, bool_decide (FileNode_ID n = id) && bool_decide (FileNode_DeviceUUID n = deviceUUID)
          && live_file n)
    (delete_file_at (clock ev)) (file_nodes t)) t, tt).
Definition sql_delete_folder (deviceUUID id : string) : stmt unit := λ ev t,
  Ok (with_folder_nodes (update_where
    (λ n, bool_decide (FolderNode_ID n = id) && bool_decide (FolderNode_DeviceUUID n = deviceUUID)
          && live_folder n)
    (delete_folder_at (clock ev)) (folder_nodes t)) t, tt).
Definition sql_delete_links (itemID : string) : stmt unit := λ _ t,
  Ok (with_links (filter (λ l, l.1 ≠ itemID) (item_content_type_links t)) t, tt).

(** A duplicate (item, content type) pair violates the primary key. *)
Definition sql_create_links (itemID : string) (ids : list Z) : stmt unit := λ _ t,
  if decide (NoDup ids ∧ Forall (λ i, (itemID, i) ∉ item_content_type_links t) ids)
  then Ok (with_links (list_to_set (pair itemID <$> ids) ∪ item_content_type_links t) t, tt)
  else Err "Duplicate entry for key 'PRIMARY'".

Definition load (unscoped : bool) (ev : stmt_env) (t : Tables) (it : Item) : LoadedItem := {|
  item := it;
  File := id ← FileID it; n ← file_nodes t !! id;
          if unscoped || live_file n then Some n else None;
  Folder := id ← FolderID it; n ← folder_nodes t !! id;
            if unscoped || live_folder n then Some n else None;
  Item_ContentTypes := select ev
    (λ ct, bool_decide ((Item_ID it, ContentType_ID ct) ∈ item_content_type_links t)
           && bool_decide (ContentType_DeletedAt ct = None)) (content_types t) |}.

(** ** Listing *)

(** The conditions on [items] alone. *)
Definition item_matches (f : ItemFilter) (since : Z) (ev : stmt_env) (it : Item) : bool :=
  of_device (Filter_DeviceUUID f) it
  && (if Filter_IncludeDeleted f
      then match Item_DeletedAt it with Some d => since <=? d | None => false end
      else live_item it)
  && match Filter_ParentID f with
     | None => bool_decide (ParentID it = None)
     | Some p => if decide (p = "") then true else bool_decide (ParentID it = Some p)
     end
  && (if decide (Filter_Search f = "") then true
      else like ev (Item_Name it) ("%" +:+ Filter_Search f +:+ "%")).

Definition extension_matches (f : ItemFilter) (t : Tables) (it : Item) : bool :=
  match Filter_Extensions f with
  | [] => true
  | exts =>
      match FileID it ≫= λ id, file_nodes t !! id with
      | Some n => bool_decide (Extension n ∈ exts)
      | None => false
      end
  end.

(** The join on the links gives one row per matching link. *)
Definition link_rows (f : ItemFilter) (t : Tables) (it : Item) : list Item :=
  match Filter_ContentTypeIDs f with
  | [] => [it]
  | ids => replicate (size (filter (λ l : string * Z, l.1 = Item_ID it ∧ l.2 ∈ ids)
                              (item_content_type_links t))) it
  end.

Definition matching_rows (f : ItemFilter) (since : Z) (ev : stmt_env) (t : Tables) : list Item :=
  concat (link_rows f t <$>
    select ev (λ it, item_matches f since ev it && extension_matches f t it) (items t)).

(** [ORDER BY CASE WHEN folder_id IS NULL THEN 1 ELSE 0 END, updated_at DESC]. *)
Definition listing_key (it : Item) : Z * Z :=
  (match FolderID it with None => 1 | Some _ => 0 end, - Item_UpdatedAt it).
Definition listing_le (a b : Item) : bool :=
  let '(ka, ua) := listing_key a in let '(kb, ub) := listing_key b in
  (ka <? kb) || ((ka =? kb) && (ua <=? ub)).

Definition sql_count_items (f : ItemFilter) (since : Z) : stmt Z := λ ev t,
  Ok (t, Z.of_nat (length (matching_rows f since ev t))).
Definition sql_page_items (f : ItemFilter) (since offset limit : Z) : stmt (list LoadedItem) :=
  λ ev t,
  Ok (t, load (Filter_IncludeDeleted f) ev t <$>
    slice (Z.to_nat offset) (Z.to_nat limit)
      (order_by listing_le (matching_rows f since ev t))).

(** The defaults of the page parameters. *)
Definition page_of (f : ItemFilter) : Z := if decide (Filter_Page f ≤ 0) then 1 else Filter_Page f.
Definition page_size_of (f : ItemFilter) : Z :=
  if decide (Filter_PageSize f ≤ 0) then 50 else Filter_PageSize f.

Section Repo.
Context `{Engine DB} `{Sha1}.

Definition UpsertFile (node : FileNode) : StE DB unit := run (sql_upsert_file node).
Definition UpsertFolder (node : FolderNode) : StE DB unit := run (sql_upsert_folder node).
Definition UpsertItem (it : Item) : StE DB unit := run (sql_upsert_item it).

Definition GetItemByID (deviceUUID id : string) : StE DB (option LoadedItem) :=
  run (λ ev t, Ok (t, load false ev t <$>
    head (select ev (λ it, of_device deviceUUID it && bool_decide (Item_ID it = id) && live_item it)
      (items t)))).

(** [now] is [time.Now()]. *)
Definition deleted_since (now : Z) (f : ItemFilter) : result Z :=
  if Filter_IncludeDeleted f then
    if decide (Filter_DeletedSince f = "") then Ok (now - 6 * Hour)
    else wrap "invalid deleted_since format: " (parseDeletedSince now (Filter_DeletedSince f))
  else Ok 0.

Definition ListItems (now : Z) (f : ItemFilter) : StE DB (list LoadedItem * Z) :=
  since ← lift (deleted_since now f);
  total ← run (sql_count_items f since);
  let offset := i64 ((page_of f - 1) * page_size_of f) in
  rows ← run (sql_page_items f since offset (page_size_of f));
  mret (rows, total).

Definition softDeleteItem (it : Item) (deviceUUID : string) : StE DB unit :=
  run (sql_delete_links (Item_ID it));;
  match FileID it with
  | Some id => run (sql_delete_file deviceUUID id)
  | None => mret tt
  end;;
  match FolderID it with
  | Some id => run (sql_delete_folder deviceUUID id)
  | None => mret tt
  end;;
  run (sql_delete_item deviceUUID (Item_ID it)).

Definition item_by_id (deviceUUID id : string) : stmt (option Item) :=
  sql_first_item (λ it, of_device deviceUUID it && bool_decide (Item_ID it = id) && live_item it).

Definition DeleteItem (deviceUUID itemID : string) : StE DB unit :=
  if decide (itemID = "") then mret tt else
  in_transaction (
    found ← run (item_by_id deviceUUID itemID);
    match found with
    | None => mret tt
    | Some it => softDeleteItem it deviceUUID
    end).

Definition DeleteItemByLogicalPath (deviceUUID logicalPath : string) : StE DB unit :=
  if decide (logicalPath = "") then mret tt else
  let itemID := deterministicIDFromSegments deviceUUID (Split (TrimSlash logicalPath)) in
  in_transaction (
    found ← run (item_by_id deviceUUID itemID);
    match found with
    | Some it => softDeleteItem it deviceUUID
    | None =>
        fileNode ← attempt (run (sql_first_file (λ n,
          bool_decide (FileNode_DeviceUUID n = deviceUUID)
          && bool_decide (CurrentPath n = logicalPath) && live_file n)));
        match fileNode with
        | Ok (Some n) =>
            it ← attempt (run (sql_first_item (λ it, of_device deviceUUID it
              && bool_decide (FileID it = Some (FileNode_ID n)) && live_item it)));
            match it with
            | Ok (Some it) => softDeleteItem it deviceUUID
            | _ => mret tt
            end
        | _ =>
            folderNode ← attempt (run (sql_first_folder (λ n,
              bool_decide (FolderNode_DeviceUUID n = deviceUUID)
              && bool_decide (FolderNode_ID n = itemID) && live_folder n)));
            match folderNode with
            | Ok (Some n) =>
                it ← attempt (run (sql_first_item (λ it, of_device deviceUUID it
                  && bool_decide (FolderID it = Some (FolderNode_ID n)) && live_item it)));
                match it with
                | Ok (Some it) => softDeleteItem it deviceUUID
                | _ => mret tt
                end
            | _ => mret tt
            end
        end
    end).

Definition ReplaceContentTypes (itemID : string) (ids : list Z) : StE DB unit :=
  in_transaction (
    run (sql_delete_links itemID);;
    match ids with
    | [] => mret tt
    | _ => run (sql_create_links itemID ids)
    end).

(** Soft-deleted rows included. *)
Definition GetFileNodeByID (deviceUUID fileID : string) : StE DB (option FileNode) :=
  run (sql_first_file (λ n,
    bool_decide (FileNode_ID n = fileID) && bool_decide (FileNode_DeviceUUID n = deviceUUID))).

Definition GetFileNodeByLogicalPath (deviceUUID logicalPath : string) :
    StE DB (option FileNode * option Item) :=
  let itemID := deterministicIDFromSegments deviceUUID (Split (TrimSlash logicalPath)) in
  found ← run (sql_first_item (λ it, of_device deviceUUID it && bool_decide (Item_ID it = itemID)));
  match found with
  | None => mret (None, None)
  | Some it =>
      match FileID it with
      | None => mret (None, Some it)
      | Some id => n ← GetFileNodeByID deviceUUID id; mret (n, Some it)
      end
  end.

Definition GetItemsByFileID (deviceUUID fileID : string) : StE DB (list Item) :=
  run (λ ev t, Ok (t, select ev
    (λ it, of_device deviceUUID it && bool_decide (FileID it = Some fileID)) (items t))).

(** The loop of [BuildLogicalPathFromItem]: the segments from the root to
    [current], or [None] when the fuel runs out. *)
Fixpoint climb (fuel : nat) (deviceUUID : string) (current : Item) (segments : list string) :
    StE DB (option (list string)) :=
  match fuel with
  | O => mret None
  | S fuel =>
      let segments := Item_Name current :: segments in
      match ParentID current with
      | None => mret (Some segments)
      | Some p =>
          if decide (p = "") then mret (Some segments) else
          parent ← wrap_st "query parent: " (run (sql_first_item
            (λ it, of_device deviceUUID it && bool_decide (Item_ID it = p))));
          match parent with
          | None => mret (Some segments)
          | Some parent => climb fuel deviceUUID parent segments
          end
      end
  end.
Definition BuildLogicalPathFromItem (fuel : nat) (deviceUUID : string) (it : option Item) :
    StE DB (option string) :=
  match it with
  | None => fail "item is nil"
  | Some it => segments ← climb fuel deviceUUID it []; mret (Join <$> segments)
  end.
End Repo.

(** ** The service *)

Definition file_node (deviceUUID : string) (change : FileChange) (now : Z) : FileNode := {|
  FileNode_ID := Change_ID change; FileNode_DeviceUUID := deviceUUID;
  OriginPath := fallback (Change_OriginPath change) (Change_CurrentPath change);
  CurrentPath := Change_CurrentPath change; CurrentName := Change_CurrentName change;
  Extension := Change_Extension change; Size := Change_Size change;
  SnapshotNumber := Change_SnapshotNumber change; ChangePending := Change_Pending change;
  LastEventAt := now; FileNode_CreatedAt := 0; FileNode_UpdatedAt := 0;
  FileNode_DeletedAt := None |}.
Definition file_item (deviceUUID : string) (change : FileChange) (parentID : option string) :
    Item := {|
  Item_ID := Change_ID change; Item_DeviceUUID := deviceUUID;
  Item_Name := Change_CurrentName change; ParentID := parentID;
  FileID := Some (Change_ID change); FolderID := None; TotalSize := Change_Size change;
  Item_CreatedAt := 0; Item_UpdatedAt := 0; Item_DeletedAt := None |}.
Definition folder_node (deviceUUID folderID : string) : FolderNode := {|
  FolderNode_ID := folderID; FolderNode_DeviceUUID := deviceUUID; TotalEntries := 0;
  ExtChildren := ""; FolderNode_CreatedAt := 0; FolderNode_UpdatedAt := 0;
  FolderNode_DeletedAt := None |}.
Definition folder_item (deviceUUID folderID segment : string) (parentID : option string) :
    Item := {|
  Item_ID := folderID; Item_DeviceUUID := deviceUUID; Item_Name := segment;
  ParentID := parentID; FileID := None; FolderID := Some folderID; TotalSize := 0;
  Item_CreatedAt := 0; Item_UpdatedAt := 0; Item_DeletedAt := None |}.

Section Service.
Context `{Engine DB} `{Sha1}.

(** One pass of the loop of [upsertPath] for the last segment of a file. *)
Definition upsert_file_step (deviceUUID : string) (change : FileChange) (now : Z)
    (parentID : option string) : StE DB Item :=
  if decide (Change_ID change = "") then
    fail ("missing file ID from agent for path: " +:+ Change_CurrentPath change)
  else
    UpsertFile (file_node deviceUUID change now);;
    let it := file_item deviceUUID change parentID in
    UpsertItem it;;
    match ContentTypes change with
    | [] => mret tt
    | ids => ReplaceContentTypes (Item_ID it) ids
    end;;
    mret it.

(** A folder segment; [prefix] is [segments[:idx+1]]. *)
Definition upsert_folder_step (deviceUUID : string) (prefix : list string) (segment : string)
    (parentID : option string) : StE DB Item :=
  let folderID := deterministicID deviceUUID prefix in
  UpsertFolder (folder_node deviceUUID folderID);;
  let it := folder_item deviceUUID folderID segment parentID in
  UpsertItem it;;
  mret it.

Fixpoint upsert_segments (deviceUUID : string) (change : FileChange) (now : Z)
    (seen : list string) (parentID : option string) (lastItem : option Item)
    (segments : list string) : StE DB (option Item) :=
  match segments with
  | [] => mret lastItem
  | segment :: rest =>
      if bool_decide (rest = []) && negb (IsDir change) then
        it ← upsert_file_step deviceUUID change now parentID;
        upsert_segments deviceUUID change now (seen ++ [segment]) parentID (Some it) rest
      else
        it ← upsert_folder_step deviceUUID (seen ++ [segment]) segment parentID;
        upsert_segments deviceUUID change now (seen ++ [segment]) (Some (Item_ID it)) (Some it) rest
  end.

Definition upsertPath (deviceUUID : string) (change : FileChange) (now : Z) :
    StE DB (option Item) :=
  let '(segments, name) := splitPath (Change_CurrentPath change) (Change_CurrentName change) in
  let segments := match segments with [] => [name] | _ => segments end in
  upsert_segments deviceUUID change now [] None None segments.

Definition apply_change (deviceUUID : string) (now : Z) (change : FileChange) : StE DB unit :=
  if Deleted change then
    r ← attempt (DeleteItem deviceUUID (Change_ID change));
    match r with
    | Ok _ => mret tt
    | Err err =>
        if decide (Change_CurrentPath change = "") then fail err else
        r2 ← attempt (DeleteItemByLogicalPath deviceUUID (Change_CurrentPath change));
        match r2 with
        | Ok _ => mret tt
        | Err err2 =>
            fail ("delete by ID failed: " +:+ err +:+ ", delete by path failed: " +:+ err2)
        end
    end
  else
    upsertPath deviceUUID change now;; mret tt.

(** [now i] is the time at the [i]th change. *)
Definition ApplyChanges (deviceUUID : string) (now : nat → Z) (changes : list FileChange) :
    StE DB unit :=
  for_each (λ c, apply_change deviceUUID (now c.1) c.2) (imap pair changes).

Definition GetNodes (now : Z) (query : ItemFilter) : StE DB (list LoadedItem * Z) :=
  ListItems now query.

(** [ContentTypeRepository.Get]. *)
Definition content_type_get (id : Z) : StE DB (option ContentType) :=
  run (λ ev t, Ok (t, head (select ev (λ ct, bool_decide (ContentType_ID ct = id)
    && bool_decide (ContentType_DeletedAt ct = None)) (content_types t)))).

Definition AssignContentTypes (deviceUUID itemID : string) (contentTypeIDs : list Z) :
    StE DB unit :=
  found ← GetItemByID deviceUUID itemID;
  match found with
  | None => fail "record not found"
  | Some it =>
      for_each (λ id, ct ← content_type_get id;
        match ct with None => fail "record not found" | Some _ => mret tt end) contentTypeIDs;;
      ReplaceContentTypes (Item_ID (item it)) contentTypeIDs
  end.
End Service.
