(* ===== verification/FileTreeProofs.v ===== *)
(** * The file tree: properties

    Theorems about the definitions of FileTree.v: canonical path segments, the
    referential integrity of the tree under any batch of changes, the round
    trip between a reported path and the parent chain, what deleting hides,
    paging, and content types. *)

From S2P Require Export FileTree.

Local Open Scope Z_scope.

(** ** Path segments *)

Definition segment_ok (s : string) : Prop := s ≠ "" ∧ TrimSpace s = s ∧ slash_free s.

Lemma path_segments_ok cur : Forall segment_ok (path_segments cur).
Proof.
  apply Forall_forall. intros s [Hne Hs]%list_elem_of_filter.
  apply list_elem_of_fmap in Hs as (x & -> & Hx). split_and!; [done|apply TrimSpace_idem|].
  apply TrimSpace_slash_free. by eapply Split_slash_free.
Qed.

Lemma segments_slash_free segs : Forall segment_ok segs → Forall slash_free segs.
Proof. intros H. eapply Forall_impl; [done|]. by intros x (?&?&?). Qed.

Lemma path_segments_Join segs :
  segs ≠ [] → Forall segment_ok segs → path_segments (Join segs) = segs.
Proof.
  intros Hn Hok. unfold path_segments.
  rewrite Split_Join by (done || by apply segments_slash_free).
  rewrite (Forall_fmap_ext_1 _ id), list_fmap_id.
  - apply list_filter_all. eapply Forall_impl; [done|]. by intros x (?&?&?).
  - eapply Forall_impl; [done|]. by intros x (?&?&?).
Qed.

Lemma Join_nonempty segs : segs ≠ [] → Forall segment_ok segs → Join segs ≠ "".
Proof.
  intros Hn Hok Hj. apply (f_equal path_segments) in Hj.
  rewrite path_segments_Join in Hj by done. by vm_compute in Hj.
Qed.

Lemma splitPath_segments cur name :
  path_segments cur ≠ [] →
  ∃ x, list.last (path_segments cur) = Some x ∧ splitPath cur name = (path_segments cur, x).
Proof.
  intros Hn. unfold splitPath. rewrite decide_False by (by intros ->).
  destruct (list.last (path_segments cur)) as [x|] eqn:E; [by exists x|].
  by apply last_None in E.
Qed.

(** The segments of a reported path are never empty, carry no slash and no
    outer white space, and joining them gives a canonical path: splitting it
    again yields the same segments, so repeated or outer slashes and padded
    components never name a second folder. *)
Theorem splitPath_canonical cur name name' :
  path_segments cur ≠ [] →
  let segs := (splitPath cur name).1 in
  Forall segment_ok segs ∧ (splitPath (Join segs) name').1 = segs ∧
  list.last segs = Some (splitPath cur name).2.
Proof.
  intros Hn. destruct (splitPath_segments cur name Hn) as (x & Hx & ->). simpl.
  pose proof (path_segments_ok cur) as Hok.
  pose proof (path_segments_Join _ Hn Hok) as Hj.
  destruct (splitPath_segments (Join (path_segments cur)) name') as (y & _ & ->); [by rewrite Hj|].
  simpl. by rewrite Hj.
Qed.

Lemma splitPath_canonical_witness :
  (splitPath "/data//  docs /a.txt/" "x").1 = ["data"; "docs"; "a.txt"] ∧
  (splitPath (Join ["data"; "docs"; "a.txt"]) "y").1 = ["data"; "docs"; "a.txt"].
Proof.
  split; [reflexivity|].
  apply (splitPath_canonical "/data//  docs /a.txt/" "x" "y"). by vm_compute.
Defined.

(** ** Referential integrity *)

Definition is_node (t : Tables) (k : string) (it : Item) : Prop :=
  Item_ID it = k ∧
  match FileID it, FolderID it with
  | Some f, None => f = k ∧ is_Some (file_nodes t !! k)
  | None, Some f => f = k ∧ is_Some (folder_nodes t !! k)
  | _, _ => False
  end.

Record tree_ok (t : Tables) : Prop := {
  tree_items k it : items t !! k = Some it → is_node t k it;
  tree_files k n : file_nodes t !! k = Some n → FileNode_ID n = k;
  tree_folders k n : folder_nodes t !! k = Some n → FolderNode_ID n = k;
  tree_parents k it p : items t !! k = Some it → ParentID it = Some p → is_Some (items t !! p) }.

(** An item to be written over or under an existing parent and node. *)
Definition ready (t : Tables) (it : Item) : Prop :=
  is_node t (Item_ID it) it ∧ ∀ p, ParentID it = Some p → is_Some (items t !! p).

Lemma upsert_is_Some {K V} `{Countable K} (k j : K) (v : V) f m :
  is_Some (m !! j) → is_Some (upsert k v f m !! j).
Proof.
  intros Hj. destruct (decide (k = j)) as [->|]; [rewrite upsert_lookup_eq; eauto|].
  by rewrite upsert_lookup_ne.
Qed.

Lemma update_where_Some {K V} `{Countable K} p (f : V → V) (m : gmap K V) k v :
  update_where p f m !! k = Some v → ∃ w, m !! k = Some w ∧ (v = f w ∨ v = w).
Proof.
  rewrite update_where_lookup. destruct (m !! k) as [w|]; [|done].
  intros [= <-]. exists w. destruct (p w); auto.
Qed.
Lemma update_where_is_Some {K V} `{Countable K} p (f : V → V) (m : gmap K V) k :
  is_Some (m !! k) → is_Some (update_where p f m !! k).
Proof. rewrite update_where_lookup. intros [v ->]. simpl. eauto. Qed.

Lemma is_node_mono t t' k it :
  (is_Some (file_nodes t !! k) → is_Some (file_nodes t' !! k)) →
  (is_Some (folder_nodes t !! k) → is_Some (folder_nodes t' !! k)) →
  is_node t k it → is_node t' k it.
Proof. unfold is_node. intros H1 H2 [? Hn]. split; [done|]. repeat case_match; naive_solver. Qed.

Section Integrity.
Implicit Types t : Tables.

Lemma tree_upsert_file node ev t t' a :
  tree_ok t → sql_upsert_file node ev t = Ok (t', a) →
  tree_ok t' ∧ items t' = items t ∧ is_Some (file_nodes t' !! FileNode_ID node).
Proof.
  intros [H1 H2 H3 H4] [= <- <-]. split_and!; [split|done|]; simpl.
  - intros k it Hk. refine (is_node_mono t _ k it _ _ (H1 k it Hk)); simpl; [apply upsert_is_Some|done].
  - intros k n. destruct (decide (FileNode_ID node = k)) as [<-|Hne].
    + rewrite upsert_lookup_eq. intros [= <-].
      destruct (file_nodes t !! FileNode_ID node) eqn:E; [|done].
      exact (H2 _ _ E).
    + rewrite upsert_lookup_ne by done. apply H2.
  - apply H3.
  - apply H4.
  - rewrite upsert_lookup_eq. eauto.
Qed.

Lemma tree_upsert_folder node ev t t' a :
  tree_ok t → sql_upsert_folder node ev t = Ok (t', a) →
  tree_ok t' ∧ items t' = items t ∧ is_Some (folder_nodes t' !! FolderNode_ID node).
Proof.
  intros [H1 H2 H3 H4] [= <- <-]. split_and!; [split|done|]; simpl.
  - intros k it Hk. refine (is_node_mono t _ k it _ _ (H1 k it Hk)); simpl; [done|apply upsert_is_Some].
  - apply H2.
  - intros k n. destruct (decide (FolderNode_ID node = k)) as [<-|Hne].
    + rewrite upsert_lookup_eq. intros [= <-].
      destruct (folder_nodes t !! FolderNode_ID node) eqn:E; [|done].
      exact (H3 _ _ E).
    + rewrite upsert_lookup_ne by done. apply H3.
  - apply H4.
  - rewrite upsert_lookup_eq. eauto.
Qed.

(** The row an item upsert leaves: the new columns, the old life span. *)
Lemma upsert_item_row it ev t t' a :
  tree_ok t → sql_upsert_item it ev t = Ok (t', a) →
  (∃ row, items t' !! Item_ID it = Some row ∧ Item_ID row = Item_ID it ∧
    Item_DeviceUUID row = Item_DeviceUUID it ∧ Item_Name row = Item_Name it ∧
    ParentID row = ParentID it ∧ FileID row = FileID it ∧ FolderID row = FolderID it ∧
    TotalSize row = TotalSize it ∧
    Item_DeletedAt row = (items t !! Item_ID it ≫= Item_DeletedAt)) ∧
  (∀ k, k ≠ Item_ID it → items t' !! k = items t !! k) ∧
  file_nodes t' = file_nodes t ∧ folder_nodes t' = folder_nodes t.
Proof.
  intros Ht [= <- <-]. simpl. split_and!; [|by intros; rewrite upsert_lookup_ne|done|done].
  rewrite upsert_lookup_eq. eexists. split; [done|].
  destruct (items t !! Item_ID it) as [old|] eqn:E; simpl; [|done].
  split_and!; try done. by destruct (tree_items t Ht _ _ E).
Qed.

Lemma tree_upsert_item it ev t t' a :
  tree_ok t → ready t it → sql_upsert_item it ev t = Ok (t', a) →
  tree_ok t' ∧ is_Some (items t' !! Item_ID it).
Proof.
  intros Ht [[_ Hn] Hp] E.
  destruct (upsert_item_row it ev t t' a Ht E)
    as ((row & Hrow & Hid & _ & _ & Hpar & Hfi & Hfo & _) & Hother & Hf & Hd).
  assert (∀ k, is_Some (items t !! k) → is_Some (items t' !! k)) as Hmono.
  { intros k Hk. destruct (decide (k = Item_ID it)) as [->|]; [eauto|]. by rewrite Hother. }
  destruct Ht as [H1 H2 H3 H4]. split; [split|eauto].
  - intros k x Hk. destruct (decide (k = Item_ID it)) as [->|Hne].
    + rewrite Hrow in Hk. injection Hk as <-. split; [done|]. by rewrite Hfi, Hfo, Hf, Hd.
    + rewrite Hother in Hk by done. refine (is_node_mono t _ k x _ _ (H1 k x Hk)); by rewrite ?Hf, ?Hd.
  - intros k n. rewrite Hf. apply H2.
  - intros k n. rewrite Hd. apply H3.
  - intros k x p Hk Hxp. apply Hmono. destruct (decide (k = Item_ID it)) as [->|Hne].
    + rewrite Hrow in Hk. injection Hk as <-. apply Hp. congruence.
    + rewrite Hother in Hk by done. by eapply H4.
Qed.

Lemma tree_delete_item dev id ev t t' a :
  tree_ok t → sql_delete_item dev id ev t = Ok (t', a) → tree_ok t'.
Proof.
  intros [H1 H2 H3 H4] [= <- <-]. split; simpl; [|apply H2|apply H3|].
  - intros k it (w & Hw & [->| ->])%update_where_Some; exact (H1 _ _ Hw).
  - intros k it p (w & Hw & Hx)%update_where_Some Hp.
    apply update_where_is_Some. apply (H4 k w p Hw). by destruct Hx as [->| ->].
Qed.

Lemma tree_delete_file dev id ev t t' a :
  tree_ok t → sql_delete_file dev id ev t = Ok (t', a) → tree_ok t'.
Proof.
  intros [H1 H2 H3 H4] [= <- <-]. split; simpl; [| |apply H3|apply H4].
  - intros k it Hk. refine (is_node_mono t _ k it _ _ (H1 k it Hk)); simpl; [apply update_where_is_Some|done].
  - intros k n (w & Hw & [->| ->])%update_where_Some; exact (H2 _ _ Hw).
Qed.

Lemma tree_delete_folder dev id ev t t' a :
  tree_ok t → sql_delete_folder dev id ev t = Ok (t', a) → tree_ok t'.
Proof.
  intros [H1 H2 H3 H4] [= <- <-]. split; simpl; [|apply H2| |apply H4].
  - intros k it Hk. refine (is_node_mono t _ k it _ _ (H1 k it Hk)); simpl; [done|apply update_where_is_Some].
  - intros k n (w & Hw & [->| ->])%update_where_Some; exact (H3 _ _ Hw).
Qed.

Lemma tree_links L t : tree_ok t → tree_ok (with_links L t).
Proof. by intros [H1 H2 H3 H4]; split. Qed.
End Integrity.

(** ** Integrity of the operations *)

Section Operations.
Context `{EngineLaws DB} `{Sha1}.

(** Reading a row by a condition. *)
Lemma triple_first_item (P : Tables → Prop) p :
  triple P (run (sql_first_item p)) (λ r t, P t ∧ ∀ it, r = Some it →
    p it = true ∧ ∃ k, items t !! k = Some it) P.
Proof.
  apply triple_read; [|done]. intros ev t Hev HP. split; [done|].
  intros it Hit. apply head_Some_elem_of in Hit. by apply elem_of_select in Hit.
Qed.
Lemma triple_first_file (P : Tables → Prop) p :
  triple P (run (sql_first_file p)) (λ _, P) P.
Proof. by apply triple_read. Qed.
Lemma triple_first_folder (P : Tables → Prop) p :
  triple P (run (sql_first_folder p)) (λ _, P) P.
Proof. by apply triple_read. Qed.

(** An invariant that the soft-deleting statements keep. *)
Definition stable_delete (I : Tables → Prop) : Prop :=
  (∀ dev id ev t t' a, I t → sql_delete_item dev id ev t = Ok (t', a) → I t') ∧
  (∀ dev id ev t t' a, I t → sql_delete_file dev id ev t = Ok (t', a) → I t') ∧
  (∀ dev id ev t t' a, I t → sql_delete_folder dev id ev t = Ok (t', a) → I t') ∧
  (∀ L t, I t → I (with_links L t)).

Lemma softDeleteItem_keeps I it dev :
  stable_delete I → triple I (softDeleteItem it dev) (λ _, I) I.
Proof.
  intros (Hdi & Hdf & Hdd & Hdl). unfold softDeleteItem.
  eapply (triple_bind _ _ (λ _, I)); [apply triple_run; [|done]|intros []].
  { intros ev t t' a _ HI [= <- <-]. by apply Hdl. }
  eapply (triple_bind _ _ (λ _, I)).
  { destruct (FileID it); [apply triple_run; [|done]|by apply triple_ret]. eauto. }
  intros []. eapply (triple_bind _ _ (λ _, I)).
  { destruct (FolderID it); [apply triple_run; [|done]|by apply triple_ret]. eauto. }
  intros []. apply triple_run; [|done]. eauto.
Qed.

Lemma DeleteItem_keeps I dev id :
  stable_delete I → triple I (DeleteItem dev id) (λ _, I) I.
Proof.
  intros HI. unfold DeleteItem. case_decide; [by apply triple_ret|].
  eapply triple_transaction, triple_bind; [apply triple_first_item|].
  intros [it|]; simpl; [|apply triple_ret; by intros t [? _]].
  eapply triple_weaken; [by apply softDeleteItem_keeps| |done..]. by intros t [? _].
Qed.

Lemma DeleteItemByLogicalPath_keeps I dev path :
  stable_delete I → triple I (DeleteItemByLogicalPath dev path) (λ _, I) I.
Proof.
  intros HI. unfold DeleteItemByLogicalPath. case_decide; [by apply triple_ret|].
  assert (∀ it (P : Tables → Prop), (∀ t, P t → I t) →
    triple P (softDeleteItem it dev) (λ _, I) I) as Hsoft.
  { intros it P HP. eapply triple_weaken; [by apply softDeleteItem_keeps|done..]. }
  eapply triple_transaction, triple_bind; [apply triple_first_item|].
  intros [it|]; [apply Hsoft; by intros t [? _]|].
  eapply triple_bind; [eapply triple_attempt, triple_weaken;
    [apply (triple_first_file I)|by intros t [? _]|done|done]|].
  intros [[n|]|e]; simpl.
  1: { eapply triple_bind; [apply triple_attempt, triple_first_item|].
       intros [[it|]|e]; simpl; [apply Hsoft; by intros t [? _]|..];
         apply triple_ret; [by intros t [? _]|done]. }
  1, 2: eapply triple_bind; [eapply triple_attempt, (triple_first_folder I)|];
    intros [[f|]|e']; simpl; [|by apply triple_ret..];
    eapply triple_bind; [apply triple_attempt, triple_first_item|];
    intros [[it|]|e'']; simpl; [apply Hsoft; by intros t [? _]|..];
    apply triple_ret; [by intros t [? _]|done].
Qed.

Lemma ReplaceContentTypes_keeps (I : Tables → Prop) id ids :
  (∀ L t, I t → I (with_links L t)) → triple I (ReplaceContentTypes id ids) (λ _, I) I.
Proof.
  intros HI. unfold ReplaceContentTypes.
  eapply triple_transaction, (triple_bind _ _ (λ _, I)).
  { apply triple_run; [|done]. intros ev t t' a _ Ht [= <- <-]. by apply HI. }
  intros []. destruct ids; [by apply triple_ret|]. apply triple_run; [|done].
  intros ev t t' a _ Ht. unfold sql_create_links. case_decide; [|done].
  intros [= <- <-]. by apply HI.
Qed.

Lemma tree_ok_stable : stable_delete tree_ok.
Proof.
  split_and!; intros; [by eapply tree_delete_item|by eapply tree_delete_file
    |by eapply tree_delete_folder|by apply tree_links].
Qed.

Definition parent_exists (p : option string) (t : Tables) : Prop :=
  ∀ q, p = Some q → is_Some (items t !! q).

(** An invariant of well-formed trees that the upserts keep. *)
Record stable_upsert (I : Tables → Prop) : Prop := {
  su_tree t : I t → tree_ok t;
  su_file node ev t t' a : I t → sql_upsert_file node ev t = Ok (t', a) → I t';
  su_folder node ev t t' a : I t → sql_upsert_folder node ev t = Ok (t', a) → I t';
  su_item it ev t t' a : I t → ready t it → sql_upsert_item it ev t = Ok (t', a) → I t';
  su_links L t : I t → I (with_links L t) }.

Lemma upsert_item_keeps I it :
  stable_upsert I →
  triple (λ t, I t ∧ ready t it) (run (sql_upsert_item it))
    (λ _ t, I t ∧ parent_exists (Some (Item_ID it)) t) I.
Proof.
  intros HI. apply triple_run; [|by intros t [? _]]. intros ev t t' a _ [Ht Hr] E.
  split; [by eapply su_item|].
  destruct (tree_upsert_item _ _ _ _ _ (su_tree I HI t Ht) Hr E) as [_ Hs]. by intros q [= <-].
Qed.

Lemma upsert_file_step_keeps I dev change now p :
  stable_upsert I →
  triple (λ t, I t ∧ parent_exists p t) (upsert_file_step dev change now p)
    (λ it t, I t ∧ parent_exists (Some (Item_ID it)) t) I.
Proof.
  intros HI. unfold upsert_file_step. case_decide; [apply triple_fail; by intros t [? _]|].
  eapply triple_bind; [apply (triple_run _ _
    (λ _ t, I t ∧ ready t (file_item dev change p)))|intros []].
  { intros ev t t' a _ [Ht Hp] E.
    destruct (tree_upsert_file _ _ _ _ _ (su_tree I HI t Ht) E) as (Ht' & Hi & Hf).
    split; [by eapply su_file|]. split; [by split|]. simpl. by rewrite Hi. }
  { by intros t [? _]. }
  eapply triple_bind; [by apply upsert_item_keeps|]. intros [].
  apply (triple_bind _ _ (λ _ t, I t ∧ parent_exists (Some (Change_ID change)) t)).
  - destruct (ContentTypes change) as [|c cs]; [by apply triple_ret|].
    eapply triple_weaken; [apply ReplaceContentTypes_keeps with
      (I := λ t, I t ∧ parent_exists (Some (Change_ID change)) t)| | |]; try done.
    + intros L t [? ?]. split; [by apply su_links|done].
    + by intros t [? _].
  - intros []. by apply triple_ret.
Qed.

Lemma upsert_folder_step_keeps I dev prefix seg p :
  stable_upsert I →
  triple (λ t, I t ∧ parent_exists p t) (upsert_folder_step dev prefix seg p)
    (λ it t, I t ∧ parent_exists (Some (Item_ID it)) t) I.
Proof.
  intros HI. unfold upsert_folder_step.
  eapply triple_bind; [apply (triple_run _ _ (λ _ t, I t ∧
    ready t (folder_item dev (deterministicID dev prefix) seg p)))|intros []].
  { intros ev t t' a _ [Ht Hp] E.
    destruct (tree_upsert_folder _ _ _ _ _ (su_tree I HI t Ht) E) as (Ht' & Hi & Hf).
    split; [by eapply su_folder|]. split; [by split|]. simpl. by rewrite Hi. }
  { by intros t [? _]. }
  eapply triple_bind; [by apply upsert_item_keeps|]. intros []. by apply triple_ret.
Qed.

Lemma upsert_segments_keeps I dev change now segs : stable_upsert I → ∀ seen p last,
  triple (λ t, I t ∧ parent_exists p t)
    (upsert_segments dev change now seen p last segs) (λ _, I) I.
Proof.
  intros HI. induction segs as [|seg segs IH]; intros seen p last; simpl.
  { apply triple_ret. by intros t [? _]. }
  destruct (bool_decide (segs = []) && negb (IsDir change)) eqn:E.
  - eapply triple_bind; [by apply upsert_file_step_keeps|]. intros it.
    apply andb_true_iff in E as [->%bool_decide_eq_true _]. simpl. apply triple_ret.
    by intros t [? _].
  - eapply triple_bind; [by apply upsert_folder_step_keeps|]. intros it. apply IH.
Qed.

Lemma upsertPath_keeps I dev change now :
  stable_upsert I → triple I (upsertPath dev change now) (λ _, I) I.
Proof.
  intros HI. unfold upsertPath. destruct (splitPath _ _) as [segs name].
  eapply triple_weaken; [by apply upsert_segments_keeps| |done..].
  intros t Ht. by split; [|intros q].
Qed.

Lemma tree_ok_upsert : stable_upsert tree_ok.
Proof.
  split; intros; [done|by eapply tree_upsert_file|by eapply tree_upsert_folder
    |by eapply tree_upsert_item|by apply tree_links].
Qed.

Lemma apply_change_keeps (I : Tables → Prop) dev now change :
  stable_delete I → stable_upsert I →
  triple I (apply_change dev now change) (λ _, I) I.
Proof.
  intros HI Hup. unfold apply_change. destruct (Deleted change).
  - eapply triple_bind; [by apply triple_attempt, DeleteItem_keeps|].
    intros [[]|e]; [by apply triple_ret|]. case_decide; [by apply triple_fail|].
    eapply triple_bind; [by apply triple_attempt, DeleteItemByLogicalPath_keeps|].
    intros [[]|e']; [by apply triple_ret|by apply triple_fail].
  - eapply triple_bind; [by apply upsertPath_keeps|]. intros it. by apply triple_ret.
Qed.

Lemma ApplyChanges_keeps (I : Tables → Prop) dev now changes :
  stable_delete I → stable_upsert I →
  triple I (ApplyChanges dev now changes) (λ _, I) I.
Proof. intros HI Hup. apply triple_for_each. intros change. by apply apply_change_keeps. Qed.
End Operations.

(** C4. Whatever a device reports and however the database fails in the middle,
    the tree stays well formed: every item is exactly one of a file and a
    folder, its node row exists under the same id, and its parent item exists. *)
Theorem ApplyChanges_tree_ok `{EngineLaws DB} `{Sha1} dev now changes db :
  tree_ok (view db) → tree_ok (view (ApplyChanges dev now changes db).1).
Proof.
  intros Ht. apply (triple_keeps tree_ok); [|done].
  apply ApplyChanges_keeps; [apply tree_ok_stable|apply tree_ok_upsert].
Qed.

#[export] Instance sample_sha1 : Sha1 := λ s, "sha1-" +:+ s.

Definition sample_change : FileChange := {|
  Change_ID := "f1"; Change_OriginPath := ""; Change_CurrentPath := "data/docs/a.txt";
  Change_CurrentName := "a.txt"; Change_Extension := ".txt"; Change_Size := 12;
  Change_SnapshotNumber := 1; IsDir := false; Deleted := false; Change_Pending := false;
  ContentTypes := [] |}.

Lemma empty_tree_ok : tree_ok empty_tables.
Proof. split; simpl; intros *; by rewrite lookup_empty. Qed.

Lemma ApplyChanges_tree_ok_witness :
  tree_ok (view (ApplyChanges (DB := Tables) "dev" (λ _, 5) [sample_change] empty_tables).1) ∧
  size (items (ApplyChanges (DB := Tables) "dev" (λ _, 5) [sample_change] empty_tables).1) = 3%nat.
Proof.
  split; [|vm_compute; reflexivity].
  apply (ApplyChanges_tree_ok (DB := Tables) "dev" (λ _, 5) [sample_change] empty_tables).
  apply empty_tree_ok.
Defined.

(** ** The parent chain of a reported path *)

(** The SHA-1 UUIDs of the folders of one device do not collide, and none is
    empty. *)
Class Sha1Laws `{Sha1} : Prop := {
  sha1_inj s s' : NewSHA1 s = NewSHA1 s' → s = s';
  sha1_nonempty s : NewSHA1 s ≠ "" }.

#[export] Instance sample_sha1_laws : Sha1Laws.
Proof.
  split; [|done]. intros s s' Hs. unfold NewSHA1, sample_sha1 in Hs.
  apply (f_equal to_bytes) in Hs. rewrite !to_bytes_app in Hs. apply app_inv_head in Hs. by apply (inj to_bytes).
Qed.

Lemma deterministicID_inj `{Sha1Laws} dev a b :
  a ≠ [] → b ≠ [] → Forall slash_free a → Forall slash_free b →
  deterministicID dev a = deterministicID dev b → a = b.
Proof.
  intros Ha Hb Hfa Hfb E. unfold deterministicID in E. apply sha1_inj in E.
  apply (f_equal to_bytes) in E.
  rewrite !to_bytes_app in E. do 2 apply app_inv_head in E. apply (inj to_bytes) in E.
  by rewrite <- (Split_Join a), <- (Split_Join b), E.
Qed.

(** The folder items of a path, from the root down. *)
Definition prefix_parent `{Sha1} (dev : string) (prefix : list string) : option string :=
  match prefix with [] => None | _ => Some (deterministicID dev prefix) end.
Definition chain `{Sha1} (t : Tables) (dev : string) (segs : list string) : Prop :=
  ∀ prefix seg rest, segs = prefix ++ seg :: rest →
    ∃ it, items t !! deterministicID dev (prefix ++ [seg]) = Some it ∧
      Item_DeviceUUID it = dev ∧ Item_Name it = seg ∧ ParentID it = prefix_parent dev prefix.

Section Chain.
Context `{Sha1Laws}.

(** Writing any other row keeps the chain. *)
Lemma chain_frame t t' dev segs :
  chain t dev segs →
  (∀ prefix seg rest, segs = prefix ++ seg :: rest →
    items t' !! deterministicID dev (prefix ++ [seg])
    = items t !! deterministicID dev (prefix ++ [seg])) →
  chain t' dev segs.
Proof.
  intros Hc Hsame prefix seg rest Hs. rewrite (Hsame _ _ _ Hs). by apply (Hc prefix seg rest).
Qed.

Lemma chain_nil t dev : chain t dev [].
Proof. intros prefix seg rest E. by destruct prefix. Qed.

Lemma chain_snoc t dev segs seg it :
  chain t dev segs → items t !! deterministicID dev (segs ++ [seg]) = Some it →
  Item_DeviceUUID it = dev → Item_Name it = seg → ParentID it = prefix_parent dev segs →
  chain t dev (segs ++ [seg]).
Proof.
  intros Hc Hl Hd Hn Hp prefix s rest E.
  destruct (decide (rest = [])) as [->|Hr].
  - apply app_inj_2 in E as [-> [= ->]]; [|done]. by exists it.
  - destruct (exists_last Hr) as (rest' & y & ->).
    rewrite app_comm_cons, app_assoc in E. apply app_inj_2 in E as [-> _]; [|done].
    by apply (Hc prefix s rest').
Qed.

(** The segments below [seg] have other ids. *)
Lemma prefix_id_ne dev segs prefix seg rest x :
  Forall slash_free (segs ++ [x]) → segs = prefix ++ seg :: rest →
  deterministicID dev (prefix ++ [seg]) ≠ deterministicID dev (segs ++ [x]).
Proof.
  intros Hf -> E. apply deterministicID_inj in E.
  - apply (f_equal length) in E. rewrite !length_app in E. simpl in E. lia.
  - by destruct prefix.
  - by destruct prefix.
  - apply Forall_app in Hf as [[Hp [Hs _]%Forall_cons]%Forall_app _]. apply Forall_app. auto.
  - done.
Qed.
End Chain.

Section Climb.
Context `{EngineLaws DB} `{Sha1Laws}.

(** Climbing from below a chain collects the chain's names. *)
Lemma climb_chain dev segs : ∀ fuel current acc db db' r,
  tree_ok (view db) → chain (view db) dev segs → ParentID current = prefix_parent dev segs →
  (length segs < fuel)%nat →
  climb fuel dev current acc db = (db', Ok r) →
  r = Some (segs ++ Item_Name current :: acc).
Proof.
  induction segs as [|seg segs IH] using rev_ind; intros fuel current acc db db' r Ht Hc Hp Hfuel.
  - destruct fuel as [|fuel]; [simpl in Hfuel; lia|]. simpl. rewrite Hp. by intros [= <- <-].
  - rewrite length_app in Hfuel. simpl in Hfuel. destruct fuel as [|fuel]; [lia|].
    assert (prefix_parent dev (segs ++ [seg]) = Some (deterministicID dev (segs ++ [seg]))) as Hpo
      by (by destruct segs).
    simpl. rewrite Hp, Hpo. rewrite decide_False by apply sha1_nonempty.
    intros Hr. apply StE_bind_ok in Hr as (db1 & found & Hq & Hr). cbv beta in Hr.
    apply wrap_st_ok in Hq.
    destruct (Hc segs seg [] eq_refl) as (it & Hl & Hd & Hn & Hpar).
    assert (view db1 = view db ∧ found = Some it) as [Hv ->].
    { apply run_ok in Hq as (ev & Hev & [= Hv Hh]). split; [by rewrite Hv|].
      rewrite <- Hh. clear Hh.
      assert (it ∈ select ev (λ x, of_device dev x && bool_decide
        (Item_ID x = deterministicID dev (segs ++ [seg]))) (items (view db))) as Hin.
      { apply elem_of_select; [done|]. split; [|eauto]. apply andb_true_iff.
        unfold of_device. rewrite !bool_decide_eq_true. split; [done|].
        by destruct (tree_items _ Ht _ _ Hl). }
      destruct (select _ _ _) as [|y l] eqn:Es; [by apply not_elem_of_nil in Hin|]. simpl.
      assert (y ∈ y :: l) as Hy by left. rewrite <- Es in Hy.
      apply elem_of_select in Hy as [Hy1 [k Hk]]; [|done].
      apply andb_true_iff in Hy1 as [_ Hy2%bool_decide_eq_true].
      destruct (tree_items _ Ht _ _ Hk) as [Hkid _]. congruence. }
    eapply IH in Hr; [|by rewrite Hv| |done|lia].
    + by rewrite Hr, Hn, <- app_assoc.
    + rewrite Hv. intros p s rest E. apply (Hc p s (rest ++ [seg])). by rewrite E, <- app_assoc.
Qed.
End Climb.

(** ** What a report writes *)

Definition reported_name (change : FileChange) (segs : list string) : string :=
  if IsDir change then default "" (list.last segs) else Change_CurrentName change.

(** The agent's id of a file is none of the ids of its folders. *)
Definition id_apart `{Sha1} (dev : string) (change : FileChange) (segs : list string) : Prop :=
  ∀ prefix seg rest, segs = prefix ++ seg :: rest →
    deterministicID dev (prefix ++ [seg]) ≠ Change_ID change.

(** The reported item's row stands under its chain. *)
Definition placed `{Sha1} (dev : string) (parents : list string) (name : string)
    (it : Item) (t : Tables) : Prop :=
  tree_ok t ∧ chain t dev parents ∧
  ∃ row, items t !! Item_ID it = Some row ∧ Item_DeviceUUID row = dev ∧
    Item_Name row = name ∧ ParentID row = prefix_parent dev parents.

Section Report.
Context `{EngineLaws DB} `{Sha1Laws}.

Definition at_folder (dev : string) (seen : list string) (t : Tables) : Prop :=
  tree_ok t ∧ chain t dev seen ∧ parent_exists (prefix_parent dev seen) t.

Lemma folder_step_places dev seen seg :
  Forall slash_free (seen ++ [seg]) →
  triple (at_folder dev seen)
    (upsert_folder_step dev (seen ++ [seg]) seg (prefix_parent dev seen))
    (λ it t, Item_ID it = deterministicID dev (seen ++ [seg]) ∧
      at_folder dev (seen ++ [seg]) t ∧ placed dev seen seg it t) (λ _, True).
Proof.
  intros Hf. unfold upsert_folder_step. set (id := deterministicID dev (seen ++ [seg])).
  eapply triple_bind; [apply (triple_run _ _ (λ _ t, tree_ok t ∧ chain t dev seen ∧
    ready t (folder_item dev id seg (prefix_parent dev seen))))|intros []].
  { intros ev t t' a _ (Ht & Hc & Hp) E.
    destruct (tree_upsert_folder _ _ _ _ _ Ht E) as (Ht' & Hi & Hn).
    split; [done|]. split; [by eapply chain_frame; [|intros; rewrite Hi]|].
    split; [by split|]. simpl. by rewrite Hi. }
  { done. }
  eapply triple_bind; [apply (triple_run _ _ (λ _ t, at_folder dev (seen ++ [seg]) t ∧
    placed dev seen seg (folder_item dev id seg (prefix_parent dev seen)) t)); [|done]|intros []].
  { intros ev t t' a _ (Ht & Hc & Hr) E.
    destruct (upsert_item_row _ _ _ _ _ Ht E) as ((row & Hrow & Hid & Hd & Hn & Hp & _) & Ho & _).
    destruct (tree_upsert_item _ _ _ _ _ Ht Hr E) as [Ht' Hs].
    assert (chain t' dev seen) as Hc'.
    { eapply chain_frame; [done|]. intros prefix s rest Hs'. apply Ho.
      by eapply prefix_id_ne. }
    assert (chain t' dev (seen ++ [seg])) as Hc2 by (by eapply chain_snoc).
    split; [split_and!; [done|done|]|].
    - assert (prefix_parent dev (seen ++ [seg]) = Some id) as -> by (by destruct seen).
      by intros q [= <-].
    - split_and!; [done|done|]. by exists row. }
  by apply triple_ret.
Qed.

Lemma file_step_places dev seen change now :
  id_apart dev change seen →
  triple (at_folder dev seen) (upsert_file_step dev change now (prefix_parent dev seen))
    (λ it t, Item_ID it = Change_ID change ∧ placed dev seen (Change_CurrentName change) it t)
    (λ _, True).
Proof.
  intros Hid. unfold upsert_file_step. case_decide; [by apply triple_fail|].
  set (it := file_item dev change (prefix_parent dev seen)).
  eapply triple_bind; [apply (triple_run _ _ (λ _ t, tree_ok t ∧ chain t dev seen ∧
    ready t it)); [|done]|intros []].
  { intros ev t t' a _ (Ht & Hc & Hp) E.
    destruct (tree_upsert_file _ _ _ _ _ Ht E) as (Ht' & Hi & Hn).
    split; [done|]. split; [by eapply chain_frame; [|intros; rewrite Hi]|].
    split; [by split|]. simpl. by rewrite Hi. }
  eapply triple_bind; [apply (triple_run _ _ (λ _ t,
    placed dev seen (Change_CurrentName change) it t)); [|done]|intros []].
  { intros ev t t' a _ (Ht & Hc & Hr) E.
    destruct (upsert_item_row _ _ _ _ _ Ht E) as ((row & Hrow & Hx & Hd & Hn & Hp & _) & Ho & _).
    destruct (tree_upsert_item _ _ _ _ _ Ht Hr E) as [Ht' Hs].
    split; [done|]. split; [|exists row; exact (conj Hrow (conj Hd (conj Hn Hp)))].
    eapply chain_frame; [done|]. intros prefix s rest Hs'. apply Ho. by eapply Hid. }
  apply (triple_bind _ _ (λ _, placed dev seen (Change_CurrentName change) it));
    [|intros []; by apply triple_ret].
  destruct (ContentTypes change) as [|c cs]; [by apply triple_ret|].
  eapply triple_weaken; [apply ReplaceContentTypes_keeps with
    (I := placed dev seen (Change_CurrentName change) it)| | |]; try done.
  intros L t (Ht & Hc & row & Hrow). split_and!; [by apply tree_links|done|by exists row].
Qed.

Lemma upsert_segments_places dev change now segs : ∀ seen last,
  segs ≠ [] → Forall slash_free (seen ++ segs) →
  (IsDir change = false → id_apart dev change (removelast (seen ++ segs))) →
  triple (at_folder dev seen)
    (upsert_segments dev change now seen (prefix_parent dev seen) last segs)
    (λ r t, ∃ it, r = Some it ∧
      Item_ID it = (if IsDir change then deterministicID dev (seen ++ segs) else Change_ID change) ∧
      placed dev (removelast (seen ++ segs)) (reported_name change (seen ++ segs)) it t)
    (λ _, True).
Proof.
  induction segs as [|seg segs IH]; intros seen last Hne Hf Hid; [done|].
  cbn [upsert_segments]. destruct segs as [|s2 segs].
  - rewrite removelast_last in Hid |- *. unfold reported_name. rewrite last_snoc. simpl.
    destruct (IsDir change); simpl.
    + eapply triple_bind; [by apply folder_step_places|]. intros it.
      apply triple_ret. intros t (Hi & _ & Hp). by exists it.
    + eapply triple_bind; [by apply file_step_places, Hid|]. intros it.
      apply triple_ret. intros t (Hi & Hp). by exists it.
  - rewrite bool_decide_eq_false_2 by done. cbn [andb].
    assert (seen ++ seg :: s2 :: segs = (seen ++ [seg]) ++ s2 :: segs) as Eq
      by (by rewrite <- app_assoc).
    rewrite Eq in Hf, Hid |- *.
    eapply triple_bind; [apply folder_step_places; by apply Forall_app in Hf as [??]|].
    intros it db (Hi & Hat & _). rewrite Hi.
    assert (Some (deterministicID dev (seen ++ [seg])) = prefix_parent dev (seen ++ [seg])) as ->
      by (clear; by destruct seen).
    by apply IH.
Qed.

Lemma upsertPath_places dev change now db db' r :
  let segs := path_segments (Change_CurrentPath change) in
  segs ≠ [] → tree_ok (view db) →
  (IsDir change = false → id_apart dev change (removelast segs)) →
  upsertPath dev change now db = (db', Ok r) →
  ∃ it, r = Some it ∧
    Item_ID it = (if IsDir change then deterministicID dev segs else Change_ID change) ∧
    placed dev (removelast segs) (reported_name change segs) it (view db').
Proof.
  intros segs Hne Ht Hid Hr. unfold upsertPath in Hr.
  destruct (splitPath_segments (Change_CurrentPath change) (Change_CurrentName change) Hne)
    as (x & _ & E). rewrite E in Hr. fold segs in Hr.
  destruct segs as [|s0 segs'] eqn:Es; [done|].
  eapply (triple_ok _ _ _ _ _ _ _ (upsert_segments_places dev change now (s0 :: segs') []
    None Hne _ Hid)); [|exact Hr].
  split; [done|]. split; [apply chain_nil|]. by intros q.
  Unshelve. simpl. rewrite <- Es. apply segments_slash_free, path_segments_ok.
Qed.
End Report.

(** C23. A reported file or folder is found again under the path it was reported
    with: the path built by climbing from its stored row is the report's own
    segments (the file's current name last), whatever rows the tree held
    before.  As much fuel as the path has segments is enough. *)
Theorem report_path_roundtrip `{EngineLaws DB} `{Sha1Laws} dev change now db db1 it db2 fuel row
    db3 path :
  let segs := path_segments (Change_CurrentPath change) in
  segs ≠ [] → tree_ok (view db) →
  (IsDir change = false → id_apart dev change (removelast segs)) →
  upsertPath dev change now db = (db1, Ok (Some it)) →
  view db2 = view db1 → items (view db2) !! Item_ID it = Some row →
  (length segs ≤ fuel)%nat →
  BuildLogicalPathFromItem fuel dev (Some row) db2 = (db3, Ok path) →
  path = Some (Join (removelast segs ++ [reported_name change segs])) ∧
  Item_DeviceUUID row = dev.
Proof.
  intros segs Hne Ht Hid Hup Hv Hrow Hfuel Hb.
  destruct (upsertPath_places dev change now db db1 _ Hne Ht Hid Hup)
    as (it' & [= <-] & Hit & Ht1 & Hc & row' & Hrow' & Hd & Hn & Hp).
  rewrite Hv, Hrow' in Hrow. injection Hrow as ->.
  unfold BuildLogicalPathFromItem in Hb. inv_bind. injection Hb as _ <-.
  eapply (climb_chain dev (removelast segs)) in E; [|by rewrite Hv|by rewrite Hv|done|].
  - split; [|done]. rewrite E. simpl. by rewrite Hn.
  - pose proof (app_removelast_last "" Hne) as Hl. apply (f_equal length) in Hl.
    rewrite length_app in Hl. simpl in Hl. fold segs in Hl. lia.
Qed.

Lemma report_path_roundtrip_witness :
  let db1 := (upsertPath (DB := Tables) "dev" sample_change 5 empty_tables).1 in
  ∃ row path, items db1 !! "f1" = Some row ∧
    (BuildLogicalPathFromItem (DB := Tables) 3 "dev" (Some row) db1).2 = Ok path ∧
    path = Some "data/docs/a.txt".
Proof.
  eexists _, _. split; [vm_compute; reflexivity|]. split; [vm_compute; reflexivity|].
  eapply (report_path_roundtrip (DB := Tables) "dev" sample_change 5 empty_tables _ _
    (upsertPath (DB := Tables) "dev" sample_change 5 empty_tables).1 3).
  - by vm_compute.
  - apply empty_tree_ok.
  - intros _ prefix seg rest E. by destruct prefix.
  - vm_compute. reflexivity.
  - vm_compute. reflexivity.
  - vm_compute. reflexivity.
  - vm_compute. lia.
  - vm_compute. reflexivity.
Defined.

(** ** Listing *)

Section Listing.
Context `{EngineLaws DB} `{Sha1}.

(** The rows of a listing are matching rows of the tables. *)
Lemma elem_of_matching_rows f since ev t it :
  valid_env ev → it ∈ matching_rows f since ev t →
  item_matches f since ev it = true ∧ ∃ k, items t !! k = Some it.
Proof.
  intros Hev. unfold matching_rows. intros Hin%list_elem_of_In%in_concat.
  destruct Hin as (l & Hl & Hin). apply list_elem_of_In in Hl, Hin.
  apply list_elem_of_fmap in Hl as (x & -> & Hx).
  apply elem_of_select in Hx as [[Hm _]%andb_true_iff Hk]; [|done].
  assert (it = x) as ->; [|done]. unfold link_rows in Hin.
  destruct (Filter_ContentTypeIDs f); [by apply list_elem_of_singleton in Hin|].
  by apply elem_of_replicate in Hin as [-> _].
Qed.

Lemma order_by_perm {V} (le : V → V → bool) l : order_by le l ≡ₚ l.
Proof. apply merge_sort_Permutation. Qed.

Lemma ListItems_inv now f db db' rows total :
  ListItems now f db = (db', Ok (rows, total)) →
  view db' = view db ∧
  ∃ since ev ev', valid_env ev ∧ valid_env ev' ∧ deleted_since now f = Ok since ∧
    total = Z.of_nat (length (matching_rows f since ev (view db))) ∧
    rows = load (Filter_IncludeDeleted f) ev' (view db) <$>
      slice (Z.to_nat (i64 ((page_of f - 1) * page_size_of f))) (Z.to_nat (page_size_of f))
        (order_by listing_le (matching_rows f since ev' (view db))).
Proof.
  intros Hl. unfold ListItems in Hl. inv_bind. injection Hl as <- <- <-.
  unfold lift in E. injection E as <- Hs.
  apply run_ok in E0 as (ev & Hev & [= Hv1 <-]).
  apply run_ok in E1 as (ev' & Hev' & [= Hv2 <-]).
  rewrite <- Hv2, <- Hv1. split; [done|]. exists a, ev, ev'.
  by split_and!.
Qed.

Lemma listed_matches now f db db' rows total r :
  ListItems now f db = (db', Ok (rows, total)) → r ∈ rows →
  ∃ since ev k, item_matches f since ev (item r) = true ∧ items (view db) !! k = Some (item r).
Proof.
  intros Hl Hr. apply ListItems_inv in Hl as (_ & since & ev & ev' & _ & Hev' & _ & _ & ->).
  apply list_elem_of_fmap in Hr as (it & -> & Hit).
  unfold slice in Hit.
  assert (it ∈ order_by listing_le (matching_rows f since ev' (view db))) as Hin.
  { apply elem_of_take in Hit as (i & Hi & _). rewrite lookup_drop in Hi.
    by eapply list_elem_of_lookup_2. }
  rewrite order_by_perm in Hin. apply elem_of_matching_rows in Hin as [Hm [k Hk]]; [|done].
  by exists since, ev', k.
Qed.

Lemma DeleteItem_effect dev id db db' :
  id ≠ "" → tree_ok (view db) → DeleteItem dev id db = (db', Ok tt) →
  ∀ it, items (view db') !! id = Some it → Item_DeviceUUID it = dev → Item_DeletedAt it ≠ None.
Proof.
  intros Hid Ht Hd. unfold DeleteItem in Hd. rewrite decide_False in Hd by done.
  apply in_transaction_ok in Hd. inv_bind.
  apply run_ok in E as (ev & Hev & [= Hv Ha]).
  destruct a as [x|].
  - (* found: softDeleteItem *)
    assert (Item_ID x = id) as Hxid.
    { assert (x ∈ select ev (λ it, of_device dev it && bool_decide (Item_ID it = id)
        && live_item it) (items (view db))) as Hin.
      { by apply head_Some_elem_of. }
      apply elem_of_select in Hin as [Hx _]; [|done].
      rewrite !andb_true_iff, !bool_decide_eq_true in Hx. tauto. }
    unfold softDeleteItem in Hd. inv_bind. rewrite Hxid in Hd.
    apply run_ok in Hd as (ev' & Hev' & [= Hv']).
    intros it. rewrite <- Hv'. simpl. rewrite update_where_lookup.
    destruct (items (view s2) !! id) as [y|] eqn:Ey; [|done]. intros [= <-].
    assert (Item_ID y = id) as Hyid.
    { assert (tree_ok (view s2)) as Ht2; [|by destruct (tree_items _ Ht2 _ _ Ey)].
      clear -Ht E E0 E1 Hv H0. rewrite Hv in Ht.
      assert (∀ (m : StE DB unit) u u' b, triple tree_ok m (λ _, tree_ok) tree_ok →
        m u = (u', Ok b) → tree_ok (view u) → tree_ok (view u')) as Hstep.
      { intros m u u' b Hm Hr Hu. exact (triple_ok _ _ _ _ _ _ _ Hm Hu Hr). }
      destruct tree_ok_stable as (S1 & S2 & S3 & S4).
      eapply Hstep in E; [..|done].
      - eapply Hstep in E0; [..|done].
        + eapply Hstep in E1; [done| |done].
          destruct (FolderID x); [apply triple_run; eauto|by apply triple_ret].
        + destruct (FileID x); [apply triple_run; eauto|by apply triple_ret].
      - apply triple_run; [|done]. intros ev0 t t' b _ Hb [= <- <-]. by apply S4. }
    unfold of_device, live_item. rewrite (bool_decide_eq_true_2 _ Hyid), andb_true_r.
    destruct (bool_decide (Item_DeviceUUID y = dev)) eqn:Edev; simpl.
    + destruct (bool_decide (Item_DeletedAt y = None)) eqn:Edel; simpl; [done|].
      intros _. by apply bool_decide_eq_false in Edel.
    + apply bool_decide_eq_false in Edev. intros ?. done.
  - injection Hd as <-. intros it Hit Hdev Hdel. rewrite <- Hv in Hit.
    apply head_None in Ha.
    pose proof (select_nil ev _ _ id it Hev Ha Hit) as Hf. cbv beta in Hf.
    destruct (tree_items _ Ht _ _ Hit) as [Hk _].
    unfold of_device, live_item in Hf.
    rewrite (bool_decide_eq_true_2 _ Hdev), (bool_decide_eq_true_2 _ Hk),
      (bool_decide_eq_true_2 _ Hdel) in Hf. done.
Qed.
End Listing.

(** Deleting hides: once a delete of an item succeeded, no listing of that
    device's live items returns it, on any page and under any filter. *)
Theorem deleted_item_not_listed `{EngineLaws DB} `{Sha1} dev id db db1 db2 db3 now f rows total r :
  id ≠ "" → tree_ok (view db) → DeleteItem dev id db = (db1, Ok tt) → view db2 = view db1 →
  Filter_DeviceUUID f = dev → Filter_IncludeDeleted f = false →
  ListItems now f db2 = (db3, Ok (rows, total)) → r ∈ rows → Item_ID (item r) ≠ id.
Proof.
  intros Hid Ht Hd Hv Hf Hinc Hl Hr Heq.
  destruct (listed_matches _ _ _ _ _ _ _ Hl Hr) as (since & ev & k & Hm & Hk).
  assert (tree_ok (view db1)) as Ht1.
  { eapply (triple_ok _ _ _ _ _ _ _ (DeleteItem_keeps tree_ok dev id tree_ok_stable)); done. }
  rewrite Hv in Hk. destruct (tree_items _ Ht1 _ _ Hk) as [Hki _].
  unfold item_matches in Hm. rewrite Hinc, !andb_true_iff in Hm.
  destruct Hm as [[[Hdev%bool_decide_eq_true Hlive%bool_decide_eq_true] _] _].
  eapply (DeleteItem_effect dev id db db1 Hid Ht Hd (item r)); [|congruence|done].
  congruence.
Qed.

Definition whole_filter (dev : string) (parent : option string) : ItemFilter := {|
  Filter_DeviceUUID := dev; Filter_ParentID := parent; Filter_Search := "";
  Filter_Extensions := []; Filter_ContentTypeIDs := []; Filter_Page := 1;
  Filter_PageSize := 50; Filter_IncludeDeleted := false; Filter_DeletedSince := "" |}.

Definition sample_db : Tables :=
  (upsertPath (DB := Tables) "dev" sample_change 5 empty_tables).1.

Lemma sample_db_ok : tree_ok sample_db.
Proof.
  exact (triple_keeps (DB := Tables) tree_ok _
    (upsertPath_keeps _ "dev" sample_change 5 tree_ok_upsert) empty_tables empty_tree_ok).
Qed.

Lemma deleted_item_not_listed_witness :
  let db1 := (DeleteItem (DB := Tables) "dev" "f1" sample_db).1 in
  let f := whole_filter "dev" (Some "") in
  ∃ rows total, (ListItems (DB := Tables) 9 f db1).2 = Ok (rows, total) ∧
    length rows = 2%nat ∧ ∀ r, r ∈ rows → Item_ID (item r) ≠ "f1".
Proof.
  eexists _, _. split; [vm_compute; reflexivity|]. split; [vm_compute; reflexivity|].
  intros r. eapply (deleted_item_not_listed (DB := Tables) "dev" "f1" sample_db
    (DeleteItem (DB := Tables) "dev" "f1" sample_db).1 _ _ 9 (whole_filter "dev" (Some ""))).
  - done.
  - apply sample_db_ok.
  - vm_compute. reflexivity.
  - reflexivity.
  - reflexivity.
  - reflexivity.
  - vm_compute. reflexivity.
Defined.

(** ** Paging *)

Definition with_page (f : ItemFilter) (page size : Z) : ItemFilter := {|
  Filter_DeviceUUID := Filter_DeviceUUID f; Filter_ParentID := Filter_ParentID f;
  Filter_Search := Filter_Search f; Filter_Extensions := Filter_Extensions f;
  Filter_ContentTypeIDs := Filter_ContentTypeIDs f; Filter_Page := page;
  Filter_PageSize := size; Filter_IncludeDeleted := Filter_IncludeDeleted f;
  Filter_DeletedSince := Filter_DeletedSince f |}.

(** Every matching item in listing order: once, or once for each of its links to the
    content types asked for. *)
Definition all_matching (f : ItemFilter) (since : Z) (t : Tables) : list Item :=
  order_by listing_le (concat (link_rows f t <$>
    filter (λ it, item_matches f since plain_env it && extension_matches f t it = true)
      (map_to_list (items t)).*2)).

#[local] Instance listing_le_total : Total (λ a b, Is_true (listing_le a b)).
Proof.
  intros a b. unfold listing_le. destruct (listing_key a) as [x y], (listing_key b) as [u v].
  rewrite !Is_true_true, !orb_true_iff, !andb_true_iff, !Z.ltb_lt, !Z.eqb_eq, !Z.leb_le. lia.
Qed.
#[local] Instance listing_le_trans : Transitive (λ a b, Is_true (listing_le a b)).
Proof.
  intros a b c. unfold listing_le.
  destruct (listing_key a) as [x y], (listing_key b) as [u v], (listing_key c) as [p q].
  rewrite !Is_true_true, !orb_true_iff, !andb_true_iff, !Z.ltb_lt, !Z.eqb_eq, !Z.leb_le. lia.
Qed.

Lemma listing_le_key a b :
  listing_le a b = true → listing_le b a = true → listing_key a = listing_key b.
Proof.
  unfold listing_le. destruct (listing_key a) as [x y], (listing_key b) as [u v].
  rewrite !orb_true_iff, !andb_true_iff, !Z.ltb_lt, !Z.eqb_eq, !Z.leb_le.
  intros. f_equal; lia.
Qed.

(** Rows with different keys have one order. *)
Lemma order_by_listing_unique l1 l2 :
  (∀ a b, a ∈ l1 → b ∈ l1 → listing_key a = listing_key b → a = b) →
  l1 ≡ₚ l2 → order_by listing_le l1 = order_by listing_le l2.
Proof.
  intros Hkey Hp. eapply (StronglySorted_unique_strong (λ a b, Is_true (listing_le a b))).
  - intros a b. rewrite !order_by_perm, <- Hp. intros Ha Hb Hab Hba.
    apply Hkey; [done|done|]. apply listing_le_key; by apply Is_true_true.
  - apply (StronglySorted_merge_sort _).
  - apply (StronglySorted_merge_sort _).
  - by rewrite !order_by_perm.
Qed.

Lemma link_rows_single f t l : Filter_ContentTypeIDs f = [] → concat (link_rows f t <$> l) = l.
Proof.
  intros Hc. induction l as [|x l IH]; [done|]. rewrite fmap_cons. cbn [concat]. rewrite IH.
  unfold link_rows. by rewrite Hc.
Qed.
Lemma concat_fmap_perm {A B} (g : A → list B) l1 l2 :
  l1 ≡ₚ l2 → concat (g <$> l1) ≡ₚ concat (g <$> l2).
Proof.
  induction 1 as [|x l1 l2 _ IH|x y l|l1 l2 l3 _ IH1 _ IH2]; cbn [fmap list_fmap concat].
  - done.
  - by rewrite IH.
  - by rewrite !app_assoc, (Permutation_app_comm (g y)).
  - by rewrite IH1.
Qed.

Lemma matching_rows_perm f since ev t :
  valid_env ev → Filter_Search f = "" →
  matching_rows f since ev t ≡ₚ
  concat (link_rows f t <$>
    filter (λ it, item_matches f since plain_env it && extension_matches f t it = true)
      (map_to_list (items t)).*2).
Proof.
  intros Hev Hs. unfold matching_rows. apply concat_fmap_perm.
  unfold select. rewrite (arrange_perm ev Hev).
  erewrite list_filter_iff; [reflexivity|]. intros it. cbv beta.
  unfold item_matches. rewrite Hs. by rewrite !decide_True by done.
Qed.

(** C34. Paging loses and repeats nothing: without a search for a name, when the
    matching items have pairwise different listing positions (folder or file, time of
    update), the pages concatenate to every matching item, folders first and newest
    first, exactly once, or under a filter of content types once for each of its links
    to them; and the reported total is the number of these rows. *)
Theorem pages_cover_listing `{EngineLaws DB} now f since size db pages total :
  Filter_Search f = "" → 0 < size → deleted_since now f = Ok since →
  (∀ a b, a ∈ all_matching f since (view db) → b ∈ all_matching f since (view db) →
    listing_key a = listing_key b → a = b) →
  (∀ i rows, pages !! i = Some rows → ∃ db',
    ListItems now (with_page f (Z.of_nat i + 1) size) db = (db', Ok (rows, total))) →
  pages ≠ [] → total ≤ Z.of_nat (length pages) * size < 2 ^ 63 →
  item <$> concat pages = all_matching f since (view db) ∧
  total = Z.of_nat (length (all_matching f since (view db))) ∧
  (Filter_ContentTypeIDs f = [] → all_matching f since (view db) ≡ₚ
     filter (λ it, item_matches f since plain_env it && extension_matches f (view db) it = true)
       (map_to_list (items (view db))).*2).
Proof.
  intros Hs Hsize Hsince Hkey Hpages Hne [Htotal Hbound].
  assert (∀ ev, valid_env ev → ∀ p s, order_by listing_le
      (matching_rows (with_page f p s) since ev (view db)) = all_matching f since (view db)) as Hord.
  { intros ev Hev p s.
    change (matching_rows (with_page f p s) since ev (view db))
      with (matching_rows f since ev (view db)).
    apply order_by_listing_unique.
    - intros a b. rewrite !matching_rows_perm by done. intros Ha Hb. apply Hkey;
        unfold all_matching; by rewrite order_by_perm.
    - by apply matching_rows_perm. }
  assert (∀ i rows, pages !! i = Some rows →
    item <$> rows = slice (i * Z.to_nat size) (Z.to_nat size) (all_matching f since (view db)) ∧
    total = Z.of_nat (length (all_matching f since (view db)))) as Hrow.
  { intros i rows Hi. pose proof (lookup_lt_Some _ _ _ Hi) as Hlt.
    destruct (Hpages i rows Hi) as [db' Hl].
    apply ListItems_inv in Hl as (_ & since' & ev & ev' & Hev & Hev' & Hs' & Htot & ->).
    assert (since' = since) as ->.
    { change (deleted_since now f = Ok since') in Hs'. congruence. }
    split.
    - rewrite Hord by done. unfold page_of, page_size_of. simpl. rewrite !decide_False by lia.
      assert (i64 ((Z.of_nat i + 1 - 1) * size) = Z.of_nat i * size) as ->.
      { replace (Z.of_nat i + 1 - 1) with (Z.of_nat i) by lia.
        apply wrap_s_small; [done|]. change (64 - 1) with 63. nia. }
      rewrite <- list_fmap_compose. change (item ∘ _) with (λ x : Item, x).
      rewrite list_fmap_id. f_equal. rewrite Z2Nat.inj_mul, Nat2Z.id by lia. done.
    - rewrite Htot, <- (Hord ev Hev (Z.of_nat i + 1) size). by rewrite order_by_perm. }
  assert (total = Z.of_nat (length (all_matching f since (view db)))) as Htot.
  { destruct pages as [|p pages]; [done|]. by apply (Hrow O p). }
  split; [|split; [done|intros Hc; unfold all_matching; by rewrite order_by_perm, link_rows_single]].
  rewrite <- (slices_concat (Z.to_nat size) (length pages)) by nia.
  rewrite fmap_concat. f_equal. apply list_eq. intros i. rewrite !list_lookup_fmap.
  destruct (pages !! i) as [rows|] eqn:Ei.
  - pose proof (lookup_lt_Some _ _ _ Ei). rewrite lookup_seq_lt by done. simpl.
    f_equal. by apply Hrow.
  - apply lookup_ge_None in Ei. by rewrite lookup_seq_ge.
Qed.

(** A listing without search and joins: its total, and its first page when that fits. *)
Lemma matching_without_joins f since ev t :
  valid_env ev → Filter_Search f = "" → Filter_Extensions f = [] → Filter_ContentTypeIDs f = [] →
  matching_rows f since ev t ≡ₚ
  filter (λ it, item_matches f since plain_env it = true) (map_to_list (items t)).*2.
Proof.
  intros Hev Hs Hext Hct. rewrite (matching_rows_perm f _ ev _ Hev Hs), (link_rows_single f t) by done.
  erewrite list_filter_iff; [reflexivity|].
  intros it. unfold extension_matches. by rewrite Hext, andb_true_r.
Qed.

Lemma first_page_all `{EngineLaws DB} now f since db db' rows total :
  Filter_Search f = "" → Filter_Extensions f = [] → Filter_ContentTypeIDs f = [] →
  Filter_Page f ≤ 1 → deleted_since now f = Ok since →
  ListItems now f db = (db', Ok (rows, total)) →
  let matching := filter (λ it, item_matches f since plain_env it = true) (map_to_list (items (view db))).*2 in
  total = Z.of_nat (length matching) ∧ (total ≤ page_size_of f → item <$> rows ≡ₚ matching).
Proof.
  intros Hs Hext Hct Hpage Hsince Hl.
  apply ListItems_inv in Hl as (_ & since' & ev & ev' & Hev & Hev' & Hsince' & -> & ->).
  rewrite Hsince in Hsince'. injection Hsince' as <-. cbv zeta.
  rewrite (Permutation_length (matching_without_joins f since ev (view db) Hev Hs Hext Hct)).
  split; [done|]. intros Htot.
  rewrite <- (Permutation_length (matching_without_joins f since ev' (view db) Hev' Hs Hext Hct)) in Htot.
  assert (page_of f = 1) as Hp1 by (unfold page_of; case_decide; lia). rewrite Hp1.
  rewrite <- list_fmap_compose. change (item ∘ _) with (λ x : Item, x). rewrite list_fmap_id.
  change (Z.to_nat (i64 ((1 - 1) * page_size_of f))) with O. unfold slice. rewrite drop_0.
  rewrite take_ge by (rewrite order_by_perm; lia).
  rewrite order_by_perm. by apply matching_without_joins.
Qed.

(** The recycle bin: asked for what was deleted in the last [n] hours, days or
    minutes, over the whole device and without other filters, a listing whose total
    fits its page returns exactly the device's items deleted since then. *)
Theorem recycle_bin_window `{EngineLaws DB} now f n u db db' rows total :
  0 ≤ n → n * unit_size u < 2 ^ 63 →
  Filter_IncludeDeleted f = true → Filter_DeletedSince f = age_text n u →
  Filter_ParentID f = Some "" → Filter_Search f = "" → Filter_Extensions f = [] →
  Filter_ContentTypeIDs f = [] → Filter_Page f ≤ 1 →
  ListItems now f db = (db', Ok (rows, total)) → total ≤ page_size_of f →
  ∀ it, it ∈ item <$> rows ↔
    (∃ k, items (view db) !! k = Some it) ∧ Item_DeviceUUID it = Filter_DeviceUUID f ∧
    ∃ t, Item_DeletedAt it = Some t ∧ now - n * unit_size u ≤ t.
Proof.
  intros Hn Hb Hinc Hage Hpar Hs Hext Hct Hpage Hl Htot it.
  assert (deleted_since now f = Ok (now - n * unit_size u)) as Hsince.
  { unfold deleted_since. rewrite Hinc, Hage, decide_False.
    - by rewrite parseDeletedSince_age.
    - unfold age_text. by destruct (pretty n). }
  destruct (first_page_all now f _ db db' rows total Hs Hext Hct Hpage Hsince Hl) as [_ Hall].
  rewrite (Hall Htot).
  rewrite list_elem_of_filter. unfold item_matches, of_device.
  rewrite Hinc, Hpar, Hs, !decide_True by done.
  rewrite !andb_true_r, andb_true_iff, bool_decide_eq_true, list_elem_of_fmap.
  split.
  - intros ((Hdev & Hdel) & [k x] & -> & Hx%elem_of_map_to_list). split_and!; [by exists k|done|].
    destruct (Item_DeletedAt _) as [t|]; [|done]. exists t. split; [done|lia].
  - intros ([k Hk] & Hdev & t & -> & Ht). split; [split; [done|lia]|].
    exists (k, it). split; [done|]. by apply elem_of_map_to_list.
Qed.

Definition listed_item (id : string) (updated : Z) : Item := {|
  Item_ID := id; Item_DeviceUUID := "dev"; Item_Name := id; ParentID := None;
  FileID := Some id; FolderID := None; TotalSize := 0; Item_CreatedAt := 0;
  Item_UpdatedAt := updated; Item_DeletedAt := None |}.
Definition two_items : Tables :=
  with_items {[ "a" := listed_item "a" 1; "b" := listed_item "b" 2 ]} empty_tables.
Definition page_rows (n : Z) : list LoadedItem :=
  match (ListItems (DB := Tables) 9 (with_page (whole_filter "dev" None) n 1) two_items).2 with
  | Ok (rows, _) => rows
  | Err _ => []
  end.

Lemma pages_cover_listing_witness :
  item <$> concat [page_rows 1; page_rows 2] = [listed_item "b" 2; listed_item "a" 1].
Proof.
  destruct (pages_cover_listing (DB := Tables) 9 (whole_filter "dev" None) 0 1 two_items
    [page_rows 1; page_rows 2] 2) as [-> _].
  - reflexivity.
  - lia.
  - reflexivity.
  - assert (all_matching (whole_filter "dev" None) 0 (view two_items)
      = [listed_item "b" 2; listed_item "a" 1]) as -> by (vm_compute; reflexivity).
    intros a b Ha Hb. rewrite !elem_of_cons, elem_of_nil in Ha, Hb.
    destruct Ha as [-> | [-> | []]], Hb as [-> | [-> | []]]; done.
  - intros [|[|i]] rows [= <-]; eexists; vm_compute; reflexivity.
  - done.
  - simpl. lia.
  - vm_compute. reflexivity.
Defined.

Definition dropped_item (id : string) (deleted : Z) : Item := {|
  Item_ID := id; Item_DeviceUUID := "dev"; Item_Name := id; ParentID := Some "root";
  FileID := Some id; FolderID := None; TotalSize := 0; Item_CreatedAt := 0;
  Item_UpdatedAt := deleted; Item_DeletedAt := Some deleted |}.
Definition three_items : Tables :=
  with_items {[ "a" := dropped_item "a" Hour; "b" := dropped_item "b" (9 * Hour);
                "c" := listed_item "c" 1 ]} empty_tables.
Definition bin_filter (since : string) : ItemFilter := {|
  Filter_DeviceUUID := "dev"; Filter_ParentID := Some ""; Filter_Search := "";
  Filter_Extensions := []; Filter_ContentTypeIDs := []; Filter_Page := 1;
  Filter_PageSize := 50; Filter_IncludeDeleted := true; Filter_DeletedSince := since |}.

Lemma recycle_bin_window_witness :
  ∃ rows, (ListItems (DB := Tables) (10 * Hour) (bin_filter "6h") three_items).2 = Ok (rows, 1) ∧
  dropped_item "b" (9 * Hour) ∈ item <$> rows ∧ dropped_item "a" Hour ∉ item <$> rows.
Proof.
  destruct (ListItems (DB := Tables) (10 * Hour) (bin_filter "6h") three_items)
    as [db' [[rows total]|e]] eqn:E.
  2: { apply (f_equal (λ r, is_ok r.2)) in E. vm_compute in E. discriminate. }
  assert (total = 1) as ->.
  { apply (f_equal (λ r, match r.2 with Ok (_, t) => t | _ => 0 end)) in E.
    vm_compute in E. by symmetry. }
  exists rows. split; [done|].
  pose proof (recycle_bin_window (DB := Tables) (10 * Hour) (bin_filter "6h") 6 Hours three_items
    db' rows 1 ltac:(lia) ltac:(reflexivity) eq_refl eq_refl eq_refl eq_refl eq_refl eq_refl
    ltac:(simpl; lia) E ltac:(by vm_compute)) as Hbin.
  rewrite !Hbin. split.
  - split_and!; [by exists "b"|done|]. eexists. split; [reflexivity|by vm_compute].
  - intros (_ & _ & t & [= <-] & Hle). by vm_compute in Hle.
Defined.

(** ** Content types *)

Section Content.
Context `{EngineLaws DB} `{Sha1}.

Lemma create_links_ok id ids ev t t' a :
  sql_create_links id ids ev t = Ok (t', a) →
  NoDup ids ∧ t' = with_links (list_to_set (pair id <$> ids) ∪ item_content_type_links t) t.
Proof. unfold sql_create_links. case_decide; [|done]. intros [= <- <-]. tauto. Qed.

Lemma ReplaceContentTypes_effect id ids db db' :
  ReplaceContentTypes id ids db = (db', Ok tt) →
  NoDup ids ∧ (∀ c, (id, c) ∈ item_content_type_links (view db') ↔ c ∈ ids) ∧
  (∀ k c, k ≠ id → (k, c) ∈ item_content_type_links (view db') ↔
    (k, c) ∈ item_content_type_links (view db)) ∧
  items (view db') = items (view db).
Proof.
  intros Hr%in_transaction_ok. inv_bind.
  apply run_ok in E as (ev & Hev & [= Hv]).
  assert (∀ k c, (k, c) ∈ item_content_type_links (view s) ↔
    k ≠ id ∧ (k, c) ∈ item_content_type_links (view db)) as Hdel.
  { intros k c. rewrite <- Hv. simpl. by rewrite elem_of_filter. }
  assert (items (view s) = items (view db)) as Hi by (by rewrite <- Hv).
  destruct ids as [|c0 ids].
  - injection Hr as <-. split_and!; [constructor| | |done].
    + intros c. rewrite Hdel, elem_of_nil. tauto.
    + intros k c Hne. rewrite Hdel. tauto.
  - apply run_ok in Hr as (ev' & Hev' & Hc). apply create_links_ok in Hc as [Hd Hv'].
    split; [done|].
    assert (∀ k c, (k, c) ∈ item_content_type_links (view db') ↔
      (k = id ∧ c ∈ c0 :: ids) ∨ (k, c) ∈ item_content_type_links (view s)) as Hin.
    { intros k c. rewrite Hv'. cbn [with_links item_content_type_links].
      rewrite elem_of_union, elem_of_list_to_set, list_elem_of_fmap.
      split; (intros [Hx|Hx]; [left|by right]).
      - destruct Hx as (x & [= -> ->] & Hx). done.
      - destruct Hx as [-> Hx]. by exists c. }
    split_and!.
    + intros c. rewrite Hin, Hdel. tauto.
    + intros k c Hne. rewrite Hin, Hdel. tauto.
    + by rewrite Hv'.
Qed.
End Content.

(** Assigning content types is all or nothing: on success the item carries
    exactly the given types, each of them exists, and no other item's labels
    change; on any error the database is as before. *)
Theorem AssignContentTypes_exact `{EngineLaws DB} `{Sha1} dev id ids db db' r :
  AssignContentTypes dev id ids db = (db', r) →
  match r with
  | Ok _ =>
      (∀ c, (id, c) ∈ item_content_type_links (view db') ↔ c ∈ ids) ∧
      (∀ c, c ∈ ids → ∃ k ct, content_types (view db) !! k = Some ct ∧ ContentType_ID ct = c) ∧
      (∀ k c, k ≠ id → (k, c) ∈ item_content_type_links (view db') ↔
        (k, c) ∈ item_content_type_links (view db)) ∧
      items (view db') = items (view db)
  | Err _ => view db' = view db
  end.
Proof.
  intros Ha. set (t0 := view db).
  pose (exists_all (t : Tables) := ∀ c, c ∈ ids → ∃ k ct,
    content_types t !! k = Some ct ∧ ContentType_ID ct = c).
  (* everything before the replacement only reads *)
  assert (triple (λ t, t = t0) (GetItemByID dev id)
    (λ found t, t = t0 ∧ ∀ it, found = Some it → Item_ID (item it) = id) (λ t, t = t0)) as Hget.
  { apply triple_run; [|done]. intros ev t t' a Hev -> [= <- <-]. split; [done|].
    intros it Hit. apply fmap_Some in Hit as (x & Hx%head_Some_elem_of & ->).
    apply elem_of_select in Hx as [Hx _]; [|done]. simpl.
    rewrite !andb_true_iff, !bool_decide_eq_true in Hx. tauto. }
  assert (∀ l, triple (λ t, t = t0) (for_each (λ id, ct ← content_type_get id;
    match ct with None => fail "record not found" | Some _ => mret tt end) l)
    (λ _ t, t = t0 ∧ ∀ c, c ∈ l → ∃ k ct, content_types t0 !! k = Some ct ∧ ContentType_ID ct = c)
    (λ t, t = t0)) as Hall.
  { induction l as [|c l IH]; cbn [for_each].
    { apply triple_ret. intros t ->. split; [done|]. by intros c ?%not_elem_of_nil. }
    apply (triple_bind _ _ (λ _ t, t = t0 ∧ ∃ k ct, content_types t0 !! k = Some ct ∧
      ContentType_ID ct = c)).
    - apply (triple_bind _ _ (λ found t, t = t0 ∧ ∀ ct, found = Some ct →
        ∃ k, content_types t0 !! k = Some ct ∧ ContentType_ID ct = c)).
      + apply triple_run; [|done]. intros ev t t' a Hev -> [= <- <-]. split; [done|].
        intros ct Hct%head_Some_elem_of. apply elem_of_select in Hct as [Hp [k Hk]]; [|done].
        rewrite !andb_true_iff, !bool_decide_eq_true in Hp. exists k. tauto.
      + intros [ct|]; [apply triple_ret|apply triple_fail; by intros t [-> _]].
        intros t [-> Hct]. split; [done|]. destruct (Hct ct eq_refl) as (k & ? & ?). eauto.
    - intros []. intros db0 [Hv Hc]. pose proof (IH db0 Hv) as IHl.
      destruct (for_each _ l db0) as [db1 [b|e]]; [|done]. destruct IHl as [Hv1 Hl].
      split; [done|]. intros c' [->|Hc']%elem_of_cons; [done|by apply Hl]. }
  unfold AssignContentTypes, mbind, StE_bind in Ha.
  pose proof (Hget db eq_refl) as Hg. destruct (GetItemByID dev id db) as [db1 [found|e]];
    [|by injection Ha as <- <-].
  destruct Hg as [Hv1 Hit]. destruct found as [it|]; [|by injection Ha as <- <-].
  pose proof (Hall ids db1 Hv1) as Hl.
  unfold mbind, StE_bind in Hl. destruct (for_each _ ids db1) as [db2 [u|e]];
    [|by injection Ha as <- <-].
  destruct Hl as [Hv2 Hex]. rewrite (Hit it eq_refl) in Ha.
  destruct r as [[]|e].
  - apply ReplaceContentTypes_effect in Ha as (_ & Hin & Hother & Hitems).
    split; [done|]. split; [done|]. by rewrite <- Hv2.
  - apply in_transaction_err in Ha as ->. done.
Qed.

Definition labelled_db : Tables :=
  with_links {[ ("a", 7); ("b", 7) ]} {|
    items := items two_items; file_nodes := ∅; folder_nodes := ∅;
    item_content_type_links := ∅;
    content_types := {[ 8 := {| ContentType_ID := 8; ContentType_Name := "secret";
                                Description := ""; ContentType_CreatedAt := 1;
                                ContentType_UpdatedAt := 1; ContentType_DeletedAt := None |} ]};
    devices := ∅; users := ∅; agent_logs := ∅; agent_commands := ∅;
    backup_file_versions := ∅; website_block_rules := ∅; website_block_statuses := ∅ |}.

Lemma AssignContentTypes_exact_witness :
  let r := AssignContentTypes (DB := Tables) "dev" "a" [8] labelled_db in
  r.2 = Ok tt ∧ ∀ c, ("a", c) ∈ item_content_type_links r.1 ↔ c ∈ [8].
Proof.
  cbv zeta. split; [vm_compute; reflexivity|].
  destruct (AssignContentTypes_exact (DB := Tables) "dev" "a" [8] labelled_db
    (AssignContentTypes (DB := Tables) "dev" "a" [8] labelled_db).1 (Ok tt)) as [Hc _];
    [vm_compute; reflexivity|exact Hc].
Defined.

(** ** Deleted for good *)

(** The row [id] stays soft-deleted. *)
Definition stays_deleted (id : string) (t : Tables) : Prop :=
  tree_ok t ∧ ∃ it, items t !! id = Some it ∧ Item_DeletedAt it ≠ None.

Section Revive.
Context `{EngineLaws DB} `{Sha1}.

Lemma stays_deleted_stable id : stable_delete (stays_deleted id).
Proof.
  split_and!.
  - intros dev i ev t t' a [Ht (it & Hi & Hd)] E. split; [by eapply tree_delete_item|].
    injection E as <- <-. simpl. rewrite update_where_lookup, Hi. simpl.
    eexists. split; [done|]. by case_match.
  - intros dev i ev t t' a [Ht Hi] E. split; [by eapply tree_delete_file|].
    by injection E as <- <-.
  - intros dev i ev t t' a [Ht Hi] E. split; [by eapply tree_delete_folder|].
    by injection E as <- <-.
  - intros L t [Ht Hi]. split; [by apply tree_links|done].
Qed.

Lemma stays_deleted_upsert id : stable_upsert (stays_deleted id).
Proof.
  split.
  - by intros t [? _].
  - intros node ev t t' a [Ht Hi] E.
    destruct (tree_upsert_file _ _ _ _ _ Ht E) as (? & Hitems & _). split; [done|]. by rewrite Hitems.
  - intros node ev t t' a [Ht Hi] E.
    destruct (tree_upsert_folder _ _ _ _ _ Ht E) as (? & Hitems & _).
    split; [done|]. by rewrite Hitems.
  - intros it ev t t' a [Ht (x & Hx & Hd)] Hr E.
    destruct (upsert_item_row _ _ _ _ _ Ht E)
      as ((row & Hrow & _ & _ & _ & _ & _ & _ & _ & Hdel) & Ho & _).
    split; [by eapply tree_upsert_item|].
    destruct (decide (id = Item_ID it)) as [->|Hne]; [|by exists x; rewrite Ho].
    exists row. split; [done|]. by rewrite Hdel, Hx.
  - intros L t [Ht Hi]. split; [by apply tree_links|done].
Qed.
End Revive.

(** A soft-deleted item stays hidden: no batch of changes, not even one that
    reports the same file or folder again, clears its deletion mark. *)
Theorem reported_again_stays_deleted `{EngineLaws DB} `{Sha1} id dev now changes db :
  stays_deleted id (view db) → stays_deleted id (view (ApplyChanges dev now changes db).1).
Proof.
  intros Hd. apply (triple_keeps (stays_deleted id)); [|done].
  apply ApplyChanges_keeps; [apply stays_deleted_stable|apply stays_deleted_upsert].
Qed.

Lemma reported_again_stays_deleted_witness :
  let db1 := (DeleteItem (DB := Tables) "dev" "f1" sample_db).1 in
  let db2 := (ApplyChanges (DB := Tables) "dev" (λ _, 7) [sample_change] db1).1 in
  ∃ it, items db2 !! "f1" = Some it ∧ Item_DeletedAt it ≠ None.
Proof.
  cbv zeta.
  destruct (reported_again_stays_deleted (DB := Tables) "f1" "dev" (λ _, 7) [sample_change]
    (DeleteItem (DB := Tables) "dev" "f1" sample_db).1) as [_ Hx]; [|exact Hx].
  split; [|eexists; split; [vm_compute; reflexivity|done]].
  exact (triple_keeps (DB := Tables) tree_ok _
    (DeleteItem_keeps tree_ok "dev" "f1" tree_ok_stable) sample_db sample_db_ok).
Defined.
