(* ===== verification/Backup.v ===== *)
(** * Backup sessions and versions

    backend/app/services/backup_service.go ([BackupService]) and
    backend/app/repo/backup_version_repo.go.

    The state is the session table, the files under the storage directory and
    the database.  Random bytes, the clock and the failures of the operating
    system are arguments of the call that meets them.  The service's mutex makes
    each method one step. *)

From S2P Require Export Prelude GoStrings Store.
From stdpp Require Export pretty.

Local Open Scope Z_scope.

(** ** Versions in the database *)

(** The columns a query selects on. *)
Definition version_of_path (deviceID logicalPath : string) (v : BackupFileVersion) : bool :=
  bool_decide (BackupFileVersion_DeviceID v = deviceID) && bool_decide (LogicalPath v = logicalPath).
Definition version_of_file (deviceID fileID : string) (v : BackupFileVersion) : bool :=
  bool_decide (BackupFileVersion_DeviceID v = deviceID)
  && bool_decide (BackupFileVersion_FileID v = fileID).

Definition version_asc (a b : BackupFileVersion) : bool := Version a <=? Version b.
Definition version_desc (a b : BackupFileVersion) : bool := Version b <=? Version a.

(** [MAX(version)]: NULL on no rows. *)
Definition max_version (vs : list BackupFileVersion) : option Z :=
  match vs with
  | [] => None
  | v :: vs => Some (foldr Z.max (Version v) (Version <$> vs))
  end.

Section VersionRepo.
Context `{Engine DB}.

Definition NextVersion (deviceID logicalPath : string) : StE DB Z :=
  maxVer ← run (λ ev t, Ok (t,
    max_version (select ev (version_of_path deviceID logicalPath) (backup_file_versions t))));
  match maxVer with
  | None => mret 1
  | Some m => mret (i64 (m + 1))
  end.

(** [Create] fills in the generated key and the creation time. *)
Definition with_version_id (id now : Z) (v : BackupFileVersion) : BackupFileVersion := {|
  BackupFileVersion_ID := id; BackupFileVersion_DeviceID := BackupFileVersion_DeviceID v;
  BackupFileVersion_FileID := BackupFileVersion_FileID v; LogicalPath := LogicalPath v;
  FileName := FileName v; StoredName := StoredName v; Version := Version v;
  BackupFileVersion_Size := BackupFileVersion_Size v; BackupFileVersion_CreatedAt := now |}.
Definition sql_create_version (v : BackupFileVersion) : stmt unit := λ ev t,
  let id := next_key ev (map_to_list (backup_file_versions t)).*1 in
  Ok (with_versions (<[id := with_version_id id (clock ev) v]> (backup_file_versions t)) t, tt).
Definition CreateVersion (v : BackupFileVersion) : StE DB unit := run (sql_create_version v).

Definition ListVersions (deviceID logicalPath : string) : StE DB (list BackupFileVersion) :=
  run (λ ev t, Ok (t, order_by version_asc
    (select ev (version_of_path deviceID logicalPath) (backup_file_versions t)))).

Definition GetVersion (deviceID logicalPath : string) (version : Z) :
    StE DB (option BackupFileVersion) :=
  run (λ ev t, Ok (t, head (
    if decide (0 < version) then
      select ev (λ v, version_of_path deviceID logicalPath v && (Version v =? version))
        (backup_file_versions t)
    else
      order_by version_desc
        (select ev (version_of_path deviceID logicalPath) (backup_file_versions t))))).

Definition GetVersionByID (id : Z) : StE DB (option BackupFileVersion) :=
  run (λ ev t, Ok (t, head
    (select ev (λ v, BackupFileVersion_ID v =? id) (backup_file_versions t)))).

Definition ListByFileID (deviceID fileID : string) : StE DB (list BackupFileVersion) :=
  run (λ ev t, Ok (t, order_by version_desc
    (select ev (version_of_file deviceID fileID) (backup_file_versions t)))).

Definition GetLatestByFileID (deviceID fileID : string) : StE DB (option BackupFileVersion) :=
  run (λ ev t, Ok (t, head (order_by version_desc
    (select ev (version_of_file deviceID fileID) (backup_file_versions t))))).
End VersionRepo.

(** ** Sessions *)

Inductive TransferDirection := DirectionUpload | DirectionDownload.
Inductive SessionStatus := SessionPending | SessionActive | SessionCompleted | SessionError.

#[export] Instance TransferDirection_eq_dec : EqDecision TransferDirection.
Proof. solve_decision. Defined.
#[export] Instance SessionStatus_eq_dec : EqDecision SessionStatus.
Proof. solve_decision. Defined.

Record BackupSession := {
  Session_ID : string;
  Session_Token : string;
  Session_DeviceID : string;
  Session_FileID : string;
  Session_LogicalPath : string;
  Session_FileName : string;
  Session_FileSize : Z;
  Checksum : string;
  Direction : TransferDirection;
  Session_Status : SessionStatus;
  TempPath : string;
  FinalPath : string;
  BytesDone : Z;
  Session_CreatedAt : Z;
  Session_UpdatedAt : Z }.

Record BackupUploadInitRequest := {
  Upload_FileName : string;
  Upload_FileSize : Z;
  Upload_Checksum : string;
  Upload_LogicalPath : string;
  Upload_FileID : string }.

Record BackupSessionResponse := {
  Response_SessionID : string;
  Response_Token : string;
  Response_FileName : string;
  Response_FileSize : Z;
  Response_Offset : Z;
  Response_ChunkSize : Z;
  Response_TCPHost : string;
  Response_TCPPort : Z;
  Response_Direction : TransferDirection;
  Response_Status : SessionStatus }.

(** [NewBackupService]: the configured values with their defaults. *)
Record BackupConfig := {
  StoragePath : string;
  Config_ChunkSize : Z;
  Backup_Host : string;
  Backup_Port : Z;
  TCP_Host : string;
  TCP_Port : Z }.
Definition storageDir (cfg : BackupConfig) : string :=
  if decide (StoragePath cfg = "") then "backups" else StoragePath cfg.
Definition ChunkSize (cfg : BackupConfig) : Z :=
  if decide (Config_ChunkSize cfg ≤ 0) then 512 * 1024 else Config_ChunkSize cfg.
Definition TCPHost (cfg : BackupConfig) : string :=
  if decide (Backup_Host cfg = "") then TCP_Host cfg else Backup_Host cfg.
Definition TCPPort (cfg : BackupConfig) : Z :=
  if decide (Backup_Port cfg ≤ 0) then i64 (TCP_Port cfg + 1) else Backup_Port cfg.

Definition ErrSessionNotFound : string := "backup session not found".
Definition ErrInvalidSession : string := "invalid backup session".
Definition ErrDirectionMismatch : string := "direction mismatch".

(** The answers of the operating system that are not about the file's
    existence: [Some e] is an error. *)
Record os_env := {
  mkdir_err : string → option string;
  stat_err : string → option string;
  create_err : string → option string;
  rename_err : string → option string;
  open_err : string → option string;
  write_err : string → option (nat * string)  (* after so many bytes *) }.

Record BackupState (DB : Type) := {
  files : gmap string (list ascii);
  sessions : gmap string BackupSession;
  db : DB }.
Arguments files {DB} _.
Arguments sessions {DB} _.
Arguments db {DB} _.

(** ** Random tokens *)

Definition hex_digit (n : N) : ascii :=
  ascii_of_N (if (n <? 10)%N then 48 + n else 87 + n)%N.
Definition hex_byte (a : ascii) : list ascii :=
  [hex_digit (N_of_ascii a / 16); hex_digit (N_of_ascii a mod 16)].
(** [rand.Read]'s 16 bytes, or its failure and then the clock. *)
Definition newToken (random : option (list ascii)) (nano : Z) : string :=
  match random with
  | Some b => of_bytes (concat (hex_byte <$> b))
  | None => pretty nano
  end.
Definition newID (prefix : string) (random : option (list ascii)) (nano : Z) : string :=
  prefix +:+ "-" +:+ newToken random nano.

Section Service.
Context `{Engine DB} (cfg : BackupConfig).

Abbreviation State := (BackupState DB) (only parsing).

Definition set_files (m : gmap string (list ascii)) (s : State) : State :=
  {| files := m; sessions := sessions s; db := db s |}.
Definition set_sessions (m : gmap string BackupSession) (s : State) : State :=
  {| files := files s; sessions := m; db := db s |}.
Definition set_db (d : DB) (s : State) : State :=
  {| files := files s; sessions := sessions s; db := d |}.

Definition toResponse (s : BackupSession) : BackupSessionResponse := {|
  Response_SessionID := Session_ID s; Response_Token := Session_Token s;
  Response_FileName := Session_FileName s; Response_FileSize := Session_FileSize s;
  Response_Offset := BytesDone s; Response_ChunkSize := ChunkSize cfg;
  Response_TCPHost := TCPHost cfg; Response_TCPPort := TCPPort cfg;
  Response_Direction := Direction s; Response_Status := Session_Status s |}.

Definition stored_name (unix : Z) (fileName : string) : string :=
  pretty unix +:+ "_" +:+ Base fileName.
Definition upload_path (deviceID : string) (unix : Z) (fileName : string) : string :=
  PathJoin [storageDir cfg; deviceID; stored_name unix fileName].

(** [os.Stat] of the partial file, which is created when it is missing. *)
Definition partial_size (os : os_env) (tempPath : string) : StE State Z := λ s,
  match stat_err os tempPath with
  | Some e => (s, Err ("stat temp file: " +:+ e))
  | None =>
      match files s !! tempPath with
      | Some c => (s, Ok (Z.of_nat (length c)))
      | None =>
          match create_err os tempPath with
          | Some e => (s, Err ("create temp file: " +:+ e))
          | None => (set_files (<[tempPath := []]> (files s)) s, Ok 0)
          end
      end
  end.

(** [r1] and [r2] are the random bytes of the id and of the token. *)
Definition PrepareUpload (os : os_env) (unix nano : Z) (r1 r2 : option (list ascii))
    (deviceID : string) (req : BackupUploadInitRequest) : StE State BackupSessionResponse :=
  if decide (deviceID = "") then fail "missing device id" else
  if decide (Upload_FileName req = "" ∨ Upload_FileSize req ≤ 0)
  then fail "invalid file metadata" else
  let safeName := Base (Upload_FileName req) in
  let logicalPath :=
    if decide (Upload_LogicalPath req = "") then safeName else Upload_LogicalPath req in
  let finalPath := upload_path deviceID unix (Upload_FileName req) in
  let tempPath := finalPath +:+ ".part" in
  match mkdir_err os (Dir finalPath) with
  | Some e => fail ("mkdir device dir: " +:+ e)
  | None =>
      size ← partial_size os tempPath;
      let offset := if decide (Upload_FileSize req < size) then Upload_FileSize req else size in
      let session := {|
        Session_ID := newID "up" r1 nano; Session_Token := newToken r2 nano;
        Session_DeviceID := deviceID; Session_FileID := Upload_FileID req;
        Session_LogicalPath := logicalPath; Session_FileName := safeName;
        Session_FileSize := Upload_FileSize req; Checksum := Upload_Checksum req;
        Direction := DirectionUpload; Session_Status := SessionActive;
        TempPath := tempPath; FinalPath := finalPath; BytesDone := offset;
        Session_CreatedAt := nano; Session_UpdatedAt := nano |} in
      modify (λ s, set_sessions (<[Session_ID session := session]> (sessions s)) s);;
      mret (toResponse session)
  end.

Definition download_path (deviceID fileName : string) : string :=
  PathJoin [storageDir cfg; deviceID; Base fileName].

Definition PrepareDownload (os : os_env) (nano : Z) (r1 r2 : option (list ascii))
    (deviceID fileName : string) : StE State BackupSessionResponse :=
  if decide (deviceID = "" ∨ fileName = "") then fail "missing download parameters" else
  let finalPath := download_path deviceID fileName in
  match stat_err os finalPath with
  | Some e => fail ("stat file: " +:+ e)
  | None =>
      found ← gets (λ s, files s !! finalPath);
      match found with
      | None => fail "stat file: no such file or directory"
      | Some c =>
          let session := {|
            Session_ID := newID "down" r1 nano; Session_Token := newToken r2 nano;
            Session_DeviceID := deviceID; Session_FileID := "";
            Session_LogicalPath := ""; Session_FileName := Base fileName;
            Session_FileSize := Z.of_nat (length c); Checksum := "";
            Direction := DirectionDownload; Session_Status := SessionActive;
            TempPath := ""; FinalPath := finalPath; BytesDone := 0;
            Session_CreatedAt := nano; Session_UpdatedAt := nano |} in
          modify (λ s, set_sessions (<[Session_ID session := session]> (sessions s)) s);;
          mret (toResponse session)
      end
  end.

Definition find_session (id : string) : StE State BackupSession :=
  found ← gets (λ s, sessions s !! id);
  match found with
  | Some sess => mret sess
  | None => fail ErrSessionNotFound
  end.

Definition GetSession (id : string) : StE State BackupSessionResponse :=
  sess ← find_session id; mret (toResponse sess).

Definition ValidateSession (id token : string) (direction : TransferDirection) :
    StE State BackupSession :=
  sess ← find_session id;
  if decide (Session_Token sess ≠ token) then fail ErrInvalidSession else
  if decide (Direction sess ≠ direction) then fail ErrDirectionMismatch else
  mret sess.

Definition with_progress (done : Z) (status : SessionStatus) (now : Z) (s : BackupSession) :
    BackupSession := {|
  Session_ID := Session_ID s; Session_Token := Session_Token s;
  Session_DeviceID := Session_DeviceID s; Session_FileID := Session_FileID s;
  Session_LogicalPath := Session_LogicalPath s; Session_FileName := Session_FileName s;
  Session_FileSize := Session_FileSize s; Checksum := Checksum s; Direction := Direction s;
  Session_Status := status; TempPath := TempPath s; FinalPath := FinalPath s;
  BytesDone := done; Session_CreatedAt := Session_CreatedAt s; Session_UpdatedAt := now |}.

(** The session is shared by reference: an update is an update of the table. *)
Definition store_session (id : string) (sess : BackupSession) : StE State unit :=
  modify (λ s, set_sessions (<[id := sess]> (sessions s)) s).

Definition Advance (now : Z) (id : string) (delta : Z) : StE State Z :=
  sess ← find_session id;
  let done := i64 (BytesDone sess + delta) in
  store_session id (with_progress done (Session_Status sess) now sess);;
  mret done.

Definition CurrentOffset (id : string) : StE State Z :=
  sess ← find_session id; mret (BytesDone sess).

Definition MarkCompleted (now : Z) (id : string) : StE State unit :=
  sess ← find_session id;
  store_session id (with_progress (Session_FileSize sess) SessionCompleted now sess).

(** [os.Rename]. *)
Definition rename (os : os_env) (old new : string) : StE State unit := λ s,
  match rename_err os old with
  | Some e => (s, Err e)
  | None =>
      match files s !! old with
      | None => (s, Err "no such file or directory")
      | Some c => (set_files (<[new := c]> (delete old (files s))) s, Ok tt)
      end
  end.

(** The rename of the partial file with its fallback on a ".path" file. *)
Definition finish_file (os : os_env) (sess : BackupSession) : StE State unit :=
  r ← attempt (rename os (TempPath sess) (FinalPath sess));
  match r with
  | Ok _ => mret tt
  | Err err =>
      if HasSuffix (TempPath sess) ".path" then
        r2 ← attempt (rename os (TempPath sess) (FinalPath sess));
        match r2 with
        | Ok _ => mret tt
        | Err err2 =>
            fail ("finalize upload: " +:+ err +:+ " | fallback .path rename failed: " +:+ err2)
        end
      else
        let alt := FinalPath sess +:+ ".path" in
        present ← gets (λ s, bool_decide (is_Some (files s !! alt)));
        if present && bool_decide (stat_err os alt = None) then
          r3 ← attempt (rename os alt (FinalPath sess));
          match r3 with
          | Ok _ => mret tt
          | Err err3 =>
              fail ("finalize upload: " +:+ err +:+ " | fallback rename from .path failed: " +:+ err3)
          end
        else fail ("finalize upload: " +:+ err)
  end.

Definition record_version (sess : BackupSession) : StE State unit :=
  if decide (Session_LogicalPath sess = "") then mret tt else
  zoom db set_db (
    nextVer ← wrap_st "compute next version: "
      (NextVersion (Session_DeviceID sess) (Session_LogicalPath sess));
    wrap_st "store backup version: " (CreateVersion {|
      BackupFileVersion_ID := 0; BackupFileVersion_DeviceID := Session_DeviceID sess;
      BackupFileVersion_FileID := Session_FileID sess;
      LogicalPath := Session_LogicalPath sess; FileName := Session_FileName sess;
      StoredName := Base (FinalPath sess); Version := nextVer;
      BackupFileVersion_Size := Session_FileSize sess; BackupFileVersion_CreatedAt := 0 |})).

Definition FinalizeUpload (os : os_env) (now : Z) (id : string) : StE State unit :=
  sess ← find_session id;
  if decide (Direction sess ≠ DirectionUpload) then fail ErrDirectionMismatch else
  if decide (TempPath sess = "") then fail "missing temp path" else
  finish_file os sess;;
  store_session id (with_progress (Session_FileSize sess) SessionCompleted now sess);;
  record_version sess.
End Service.

(** ** Paths of stored files *)

Lemma slash_free_app a b : slash_free (a +:+ b) ↔ slash_free a ∧ slash_free b.
Proof. unfold slash_free. rewrite to_bytes_app, elem_of_app. tauto. Qed.

Lemma pretty_N_go_slash_free x s : slash_free s → slash_free (pretty_N_go x s).
Proof.
  revert s. induction (N.lt_wf_0 x) as [x _ IH]. intros s Hs.
  destruct (decide (x = 0)%N) as [->|Hx]; [done|].
  rewrite pretty_N_go_step by lia. apply IH; [apply N.div_lt; lia|].
  unfold slash_free. simpl. apply not_elem_of_cons. split; [|done].
  unfold pretty_N_char. by repeat case_match.
Qed.

Lemma pretty_slash_free (z : Z) : slash_free (pretty z).
Proof.
  destruct z as [|p|p].
  - by_decide.
  - unfold pretty, pretty_Z, pretty, pretty_positive, pretty, pretty_N. case_decide; [done|].
    by apply pretty_N_go_slash_free, not_elem_of_nil.
  - change (slash_free ("-" +:+ pretty (Npos p))). apply slash_free_app. split; [by_decide|].
    unfold pretty, pretty_N. case_decide; [by_decide|].
    by apply pretty_N_go_slash_free, not_elem_of_nil.
Qed.

Lemma Base_cases s : Base s = "/" ∨ (Base s ≠ "" ∧ slash_free (Base s)).
Proof.
  unfold Base. case_decide; [right; split; [done|by_decide]|].
  destruct (list.last (elems s)) as [c|] eqn:E; [right|by left].
  apply last_Some_elem_of in E. unfold elems in E.
  apply list_elem_of_filter in E as [Hne Hc]. split; [done|by eapply Split_slash_free].
Qed.

Lemma has_underscore_wf a b : slash_free a → slash_free b → wf_comp (a +:+ "_" +:+ b).
Proof.
  intros Ha Hb.
  assert ("_"%char ∈ to_bytes (a +:+ "_" +:+ b)) as Hin.
  { rewrite !to_bytes_app, !elem_of_app. right. left. by left. }
  split_and!; [intros E|intros E|intros E|]; try (rewrite E in Hin; revert Hin; by_decide).
  - apply slash_free_app. split; [done|]. apply slash_free_app. split; [by_decide|done].
Qed.

Lemma stored_name_elems unix fileName :
  ∃ name, wf_comp name ∧ elems (stored_name unix fileName) = [name].
Proof.
  unfold stored_name. pose proof (pretty_slash_free unix) as Hp.
  destruct (Base_cases fileName) as [->|[Hne Hs]].
  - exists (pretty unix +:+ "_").
    pose proof (has_underscore_wf (pretty unix) "" Hp ltac:(by_decide)) as Hwf.
    change ("_" +:+ "") with "_" in Hwf. split; [done|].
    replace (pretty unix +:+ "_" +:+ "/") with ((pretty unix +:+ "_") +:+ "/" +:+ "").
    2:{ by rewrite <- string_app_assoc. }
    rewrite elems_slash_app. destruct Hwf as (?&_&_&?). by rewrite elems_comp.
  - pose proof (has_underscore_wf (pretty unix) (Base fileName) Hp Hs) as Hwf.
    eexists. split; [done|]. destruct Hwf as (?&_&_&?). by rewrite elems_comp.
Qed.

(** ** Properties of the service *)

Section Facts.
Context `{EngineLaws DB} (cfg : BackupConfig).

Lemma find_session_ok id (s s' : BackupState DB) sess :
  find_session id s = (s', Ok sess) ↔ s' = s ∧ sessions s !! id = Some sess.
Proof.
  unfold find_session, mbind, StE_bind, gets. destruct (sessions s !! id) as [x|]; simpl.
  - split; [by intros [= <- <-]|by intros [-> [= ->]]].
  - split; [done|by intros [_ ?]].
Qed.
End Facts.

(** C38. Wherever the storage directory is, absolute or relative, an upload of a
    well-named device is kept in that device's own directory below it, whatever file
    name the agent sends: no file name escapes it. *)
Theorem upload_contained {DB} (cfg : BackupConfig) os unix nano r1 r2 device req
    (s s' : BackupState DB) resp :
  wf_comp device →
  PrepareUpload cfg os unix nano r1 r2 device req s = (s', Ok resp) →
  let dir := Clean (storageDir cfg) in
  ∃ name sess, wf_comp name ∧ sessions s' !! Response_SessionID resp = Some sess ∧
    Session_Token sess = Response_Token resp ∧
    FinalPath sess = inside dir [device; name] ∧
    TempPath sess = inside dir [device; name +:+ ".part"] ∧
    (∀ p, p ≠ TempPath sess → files s' !! p = files s !! p).
Proof.
  intros Hdev Hp. cbv zeta. unfold PrepareUpload in Hp.
  case_decide; [done|]. case_decide; [done|].
  destruct (mkdir_err _ _); [done|]. inv_bind. injection Hp as <- <-.
  destruct (stored_name_elems unix (Upload_FileName req)) as (name & Hwf & He).
  exists name. eexists. split; [done|]. simpl in *. injection E0 as <-.
  unfold set_sessions. simpl. rewrite lookup_insert_eq. split; [done|]. split; [done|].
  assert (upload_path cfg device unix (Upload_FileName req) =
    inside (Clean (storageDir cfg)) [device; name]) as Hu.
  { unfold upload_path. apply PathJoin_inside; try done. unfold storageDir. by case_decide. }
  simpl. rewrite Hu. split; [done|]. split; [apply inside_suffix|].
  intros p Hne. rewrite Hu in E.
  unfold partial_size in E. repeat case_match; injection E as <- _; try done.
  simpl. by rewrite lookup_insert_ne.
Qed.

Definition quiet_os : os_env := {|
  mkdir_err := λ _, None; stat_err := λ _, None; create_err := λ _, None;
  rename_err := λ _, None; open_err := λ _, None; write_err := λ _, None |}.
Definition sample_cfg : BackupConfig := {|
  StoragePath := "/srv/backups"; Config_ChunkSize := 0; Backup_Host := ""; Backup_Port := 0;
  TCP_Host := "10.0.0.1"; TCP_Port := 9200 |}.
(** No storage path is configured: the directory is "backups". *)
Definition default_cfg : BackupConfig := {|
  StoragePath := ""; Config_ChunkSize := 0; Backup_Host := ""; Backup_Port := 0;
  TCP_Host := "10.0.0.1"; TCP_Port := 9200 |}.
Definition empty_state : BackupState Tables :=
  {| files := ∅; sessions := ∅; db := empty_tables |}.
Definition sample_upload (name : string) : BackupUploadInitRequest := {|
  Upload_FileName := name; Upload_FileSize := 5; Upload_Checksum := "";
  Upload_LogicalPath := "data/a.txt"; Upload_FileID := "f1" |}.

Lemma upload_contained_witness :
  let r := PrepareUpload default_cfg quiet_os 1700 5 (Some (to_bytes "AB")) (Some (to_bytes "xy"))
             "laptop" (sample_upload "../../etc/passwd") empty_state in
  ∃ resp sess, r.2 = Ok resp ∧ sessions r.1 !! Response_SessionID resp = Some sess ∧
    ∃ name, wf_comp name ∧ FinalPath sess = "backups/laptop/" +:+ name.
Proof.
  cbv zeta. eexists.
  destruct (upload_contained default_cfg quiet_os 1700 5 (Some (to_bytes "AB")) (Some (to_bytes "xy"))
    "laptop" (sample_upload "../../etc/passwd") empty_state
    (PrepareUpload default_cfg quiet_os 1700 5 (Some (to_bytes "AB")) (Some (to_bytes "xy"))
      "laptop" (sample_upload "../../etc/passwd") empty_state).1
    {| Response_SessionID := "up-4142"; Response_Token := "7879"; Response_FileName := "passwd";
       Response_FileSize := 5; Response_Offset := 0; Response_ChunkSize := 524288;
       Response_TCPHost := "10.0.0.1"; Response_TCPPort := 9201;
       Response_Direction := DirectionUpload; Response_Status := SessionActive |}) as (name & sess & Hn & Hs & _ & Hf & _).
  - by_decide.
  - vm_compute. reflexivity.
  - exists sess. split; [vm_compute; reflexivity|]. split; [exact Hs|]. exists name.
    split; [exact Hn|]. rewrite Hf. change (Clean (storageDir default_cfg)) with "backups". unfold inside.
    rewrite !decide_False, Join_cons_cons, Join_singleton by done. reflexivity.
Defined.

(** The device id itself is not checked: one that is ".." leaves the storage
    directory. *)
Example device_id_escapes :
  upload_path sample_cfg ".." 1700 "a.txt" = "/srv/1700_a.txt".
Proof. reflexivity. Qed.

(** *** Sessions *)

(** A transfer is let through exactly for a known session, with its own
    token and in its own direction, and checking it changes nothing; the three
    failures are told apart. *)
Theorem ValidateSession_spec {DB} id token direction (s s' : BackupState DB) r :
  ValidateSession id token direction s = (s', r) ↔
  s' = s ∧
  r = match sessions s !! id with
      | None => Err ErrSessionNotFound
      | Some sess =>
          if decide (Session_Token sess = token) then
            if decide (Direction sess = direction) then Ok sess else Err ErrDirectionMismatch
          else Err ErrInvalidSession
      end.
Proof.
  unfold ValidateSession, find_session, mbind, StE_bind, gets.
  destruct (sessions s !! id) as [sess|]; simpl; [|naive_solver].
  destruct (decide (Session_Token sess = token)) as [Ht|Ht].
  - rewrite decide_False by tauto.
    destruct (decide (Direction sess = direction)) as [Hd|Hd].
    + rewrite decide_False by tauto. unfold mret, StE_ret. naive_solver.
    + rewrite decide_True by done. unfold fail. naive_solver.
  - rewrite decide_True by done. unfold fail. naive_solver.
Qed.

(** Every call on the service. *)
Inductive call :=
  | CPrepareUpload (os : os_env) (unix nano : Z) (r1 r2 : option (list ascii)) (device : string)
      (req : BackupUploadInitRequest)
  | CPrepareDownload (os : os_env) (nano : Z) (r1 r2 : option (list ascii)) (device name : string)
  | CAdvance (now : Z) (id : string) (delta : Z)
  | CMarkCompleted (now : Z) (id : string)
  | CFinalizeUpload (os : os_env) (now : Z) (id : string).

Definition run_call `{Engine DB} (cfg : BackupConfig) (c : call) : StE (BackupState DB) unit :=
  match c with
  | CPrepareUpload os unix nano r1 r2 device req =>
      ignore (PrepareUpload cfg os unix nano r1 r2 device req)
  | CPrepareDownload os nano r1 r2 device name => ignore (PrepareDownload cfg os nano r1 r2 device name)
  | CAdvance now id delta => ignore (Advance now id delta)
  | CMarkCompleted now id => MarkCompleted now id
  | CFinalizeUpload os now id => FinalizeUpload os now id
  end.

(** The id a call may create: random, so none of the existing ones. *)
Definition created_id (c : call) : option string :=
  match c with
  | CPrepareUpload _ _ nano r1 _ _ _ => Some (newID "up" r1 nano)
  | CPrepareDownload _ nano r1 _ _ _ => Some (newID "down" r1 nano)
  | _ => None
  end.

(** What a session is never changes; how far it got does. *)
Definition same_session (a b : BackupSession) : Prop :=
  Session_ID b = Session_ID a ∧ Session_Token b = Session_Token a ∧
  Session_DeviceID b = Session_DeviceID a ∧ Session_FileID b = Session_FileID a ∧
  Session_LogicalPath b = Session_LogicalPath a ∧ Session_FileName b = Session_FileName a ∧
  Session_FileSize b = Session_FileSize a ∧ Direction b = Direction a ∧
  TempPath b = TempPath a ∧ FinalPath b = FinalPath a.
Definition progresses (a b : BackupSession) : Prop :=
  same_session a b ∧ (Session_Status b = Session_Status a ∨ Session_Status b = SessionCompleted).

Lemma progresses_refl a : progresses a a.
Proof. split; [done|by left]. Qed.
#[local] Hint Resolve progresses_refl : core.
Lemma with_progress_progresses done status now a :
  status = Session_Status a ∨ status = SessionCompleted →
  progresses a (with_progress done status now a).
Proof. by split. Qed.

Section Lifecycle.
Context `{Engine DB} (cfg : BackupConfig).
Implicit Types s : BackupState DB.

Lemma keeps_rename m os old new : keeps (λ s, sessions s = m) (rename (DB := DB) os old new).
Proof.
  intros s Hs. unfold rename. destruct (rename_err os old); [done|].
  by destruct (files s !! old).
Qed.

Lemma keeps_finish_file m os sess : keeps (λ s, sessions s = m) (finish_file (DB := DB) os sess).
Proof.
  unfold finish_file. apply keeps_bind; [apply keeps_attempt, keeps_rename|].
  intros [[]|err]; [apply keeps_ret|]. destruct (HasSuffix _ _).
  - apply keeps_bind; [apply keeps_attempt, keeps_rename|].
    intros [[]|err2]; [apply keeps_ret|apply keeps_fail].
  - apply keeps_bind; [apply keeps_gets|]. intros present.
    destruct (present && _); [|apply keeps_fail].
    apply keeps_bind; [apply keeps_attempt, keeps_rename|].
    intros [[]|err3]; [apply keeps_ret|apply keeps_fail].
Qed.

Lemma keeps_record_version m sess : keeps (λ s, sessions s = m) (record_version sess).
Proof. intros s Hs. unfold record_version. by case_decide. Qed.

Lemma keeps_partial_size m os p : keeps (λ s, sessions s = m) (partial_size (DB := DB) os p).
Proof. intros s Hs. unfold partial_size. by repeat case_match. Qed.

(** The table after a call: the session [id] progressed. *)
Definition holds (id : string) (a : BackupSession) s : Prop :=
  ∃ b, sessions s !! id = Some b ∧ progresses a b.

Lemma store_session_holds id j a b s :
  holds id a s → (j = id → progresses a b) → holds id a (store_session j b s).1.
Proof.
  intros (x & Hx & Hp) Hb. unfold store_session, modify, holds. simpl.
  destruct (decide (j = id)) as [->|Hne].
  - exists b. rewrite lookup_insert_eq. auto.
  - exists x. by rewrite lookup_insert_ne.
Qed.
End Lifecycle.

Lemma progresses_trans a b c : progresses a b → progresses b c → progresses a c.
Proof.
  unfold progresses, same_session. intros [Ha Hs] [Hb Hs']. split.
  - destruct_and!. by split_and!; etrans.
  - destruct Hs' as [->|?]; auto.
Qed.

(** C21. A session keeps its identity, token, owner, size, direction and paths for
    ever, and its status only moves forward: under every call, successful or
    not, it stays as it was or becomes completed, and a completed session is
    never active again. *)
Theorem session_lifecycle `{Engine DB} cfg c (s : BackupState DB) id a :
  sessions s !! id = Some a → created_id c ≠ Some id →
  ∃ b, sessions (run_call cfg c s).1 !! id = Some b ∧ progresses a b ∧
    (Session_Status a = SessionCompleted → Session_Status b = SessionCompleted).
Proof.
  intros Ha Hnew.
  cut (holds id a (run_call cfg c s).1).
  { intros (b & Hb & Hp). exists b. split; [done|]. split; [done|].
    intros Hc. destruct Hp as [_ [?|?]]; congruence. }
  assert (holds id a s) as Hs by (exists a; split; [done|apply progresses_refl]).
  destruct c as [os unix nano r1 r2 device req|os nano r1 r2 device name|now j delta|now j|os now j];
    simpl in *.
  - unfold ignore, PrepareUpload. cbn [fst snd].
    case_decide; [done|]. case_decide; [done|]. destruct (mkdir_err _ _); [done|].
    unfold mbind, StE_bind.
    pose proof (keeps_partial_size (sessions s) os
      (upload_path cfg device unix (Upload_FileName req) +:+ ".part") s eq_refl) as Hk.
    destruct (partial_size os _ s) as [s1 [n|e]]; simpl in *; [|by exists a; rewrite Hk].
    exists a. unfold set_sessions. simpl. rewrite lookup_insert_ne by congruence. rewrite Hk.
    split; [done|apply progresses_refl].
  - unfold ignore, PrepareDownload. cbn [fst snd].
    case_decide; [done|]. destruct (stat_err _ _); [done|].
    unfold mbind, StE_bind, gets. destruct (files s !! _); [|done]. simpl.
    exists a. unfold set_sessions. simpl. rewrite lookup_insert_ne by congruence. split; [done|apply progresses_refl].
  - unfold ignore, Advance, find_session, mbind, StE_bind, gets. cbn [fst snd].
    destruct (sessions s !! j) as [sess|] eqn:Ej; [|done]. cbn.
    apply (store_session_holds id j a _ s Hs). intros ->. rewrite Ha in Ej. injection Ej as <-.
    apply with_progress_progresses. by left.
  - unfold MarkCompleted, find_session, mbind, StE_bind, gets.
    destruct (sessions s !! j) as [sess|] eqn:Ej; [|done]. cbn.
    apply (store_session_holds id j a _ s Hs). intros ->. rewrite Ha in Ej. injection Ej as <-.
    apply with_progress_progresses. by right.
  - unfold FinalizeUpload, find_session, mbind at 1, StE_bind at 1, mbind at 1, StE_bind at 1, gets.
    destruct (sessions s !! j) as [sess|] eqn:Ej; [|done]. cbn [mret StE_ret fail fst].
    repeat case_decide; try done.
    unfold mbind at 1, StE_bind at 1.
    pose proof (keeps_finish_file (sessions s) os sess s eq_refl) as Hk.
    destruct (finish_file os sess s) as [s1 [u|e]]; simpl in Hk; [|exists a; simpl; rewrite Hk; auto].
    assert (holds id a s1) as Hs1 by (exists a; rewrite Hk; split; [done|apply progresses_refl]).
    unfold mbind, StE_bind.
    pose proof (store_session_holds id j a
      (with_progress (Session_FileSize sess) SessionCompleted now sess) s1 Hs1) as Hst.
    destruct (store_session _ _ s1) as [s2 [u2|e2]] eqn:E2; [|done]. simpl in Hst.
    destruct Hst as (b & Hb & Hp).
    { intros ->. rewrite Ha in Ej. injection Ej as <-. apply with_progress_progresses. by right. }
    pose proof (keeps_record_version (sessions s2) sess s2 eq_refl) as Hr. simpl in Hr.
    exists b. by rewrite Hr.
Qed.

Definition sample_session : BackupSession := {|
  Session_ID := "up-1"; Session_Token := "t"; Session_DeviceID := "laptop";
  Session_FileID := "f1"; Session_LogicalPath := "data/a.txt"; Session_FileName := "a.txt";
  Session_FileSize := 5; Checksum := ""; Direction := DirectionUpload;
  Session_Status := SessionActive; TempPath := "/srv/laptop/17_a.txt.part";
  FinalPath := "/srv/laptop/17_a.txt"; BytesDone := 0; Session_CreatedAt := 1;
  Session_UpdatedAt := 1 |}.
Definition session_state : BackupState Tables := {|
  files := {[ "/srv/laptop/17_a.txt.part" := to_bytes "hello" ]};
  sessions := {[ "up-1" := sample_session ]}; db := empty_tables |}.

Lemma session_lifecycle_witness :
  let s1 := (run_call sample_cfg (CFinalizeUpload quiet_os 9 "up-1") session_state).1 in
  ∃ b, sessions s1 !! "up-1" = Some b ∧ progresses sample_session b ∧
    Session_Status b = SessionCompleted.
Proof.
  cbv zeta.
  destruct (session_lifecycle sample_cfg (CFinalizeUpload quiet_os 9 "up-1") session_state "up-1"
    sample_session) as (b & Hb & Hp & _); [reflexivity|done|].
  exists b. split; [exact Hb|]. split; [exact Hp|].
  revert Hb. vm_compute. by intros [= <-].
Defined.

(** *** Versions *)

Definition versions_of (deviceID logicalPath : string) (t : Tables) : list BackupFileVersion :=
  filter (λ v, version_of_path deviceID logicalPath v = true)
    (map_to_list (backup_file_versions t)).*2.

(** The versions of every file are numbered 1, 2, 3, ... without a gap. *)
Definition versions_ok (t : Tables) : Prop :=
  ∀ dev path, Version <$> versions_of dev path t ≡ₚ seqZ 1 (Z.of_nat (length (versions_of dev path t))).

Lemma select_versions_perm ev dev path t :
  valid_env ev →
  select ev (version_of_path dev path) (backup_file_versions t) ≡ₚ versions_of dev path t.
Proof. intros Hev. unfold select, versions_of. by rewrite (arrange_perm ev Hev). Qed.

Lemma foldr_max_spec x (l : list Z) :
  foldr Z.max x l ∈ x :: l ∧ ∀ y, y ∈ x :: l → y ≤ foldr Z.max x l.
Proof.
  induction l as [|a l [IH1 IH2]]; simpl.
  { split; [left|]. intros y ->%list_elem_of_singleton. lia. }
  split.
  - destruct (Z.max_spec a (foldr Z.max x l)) as [[_ ->]|[_ ->]].
    + apply elem_of_cons in IH1 as [->|?]; [left|]. right. by right.
    + right. left.
  - intros y [->|[->|Hy]%elem_of_cons]%elem_of_cons.
    + specialize (IH2 x ltac:(left)). lia.
    + lia.
    + specialize (IH2 y ltac:(by right)). lia.
Qed.

Lemma max_version_numbered vs :
  Version <$> vs ≡ₚ seqZ 1 (Z.of_nat (length vs)) →
  max_version vs = if decide (vs = []) then None else Some (Z.of_nat (length vs)).
Proof.
  intros Hp. destruct vs as [|v vs]; [done|]. rewrite decide_False by done.
  unfold max_version. f_equal.
  destruct (foldr_max_spec (Version v) (Version <$> vs)) as [Hin Hmax].
  change (Version v :: (Version <$> vs)) with (Version <$> v :: vs) in Hin, Hmax.
  rewrite Hp in Hin. apply elem_of_seqZ in Hin.
  assert (Z.of_nat (length (v :: vs)) ∈ Version <$> v :: vs) as Hlast.
  { rewrite Hp. apply elem_of_seqZ. simpl. lia. }
  specialize (Hmax _ Hlast). lia.
Qed.

Section Versions.
Context `{EngineLaws DB}.

Lemma next_version_value dev path d d' n :
  versions_ok (view d) → Z.of_nat (length (versions_of dev path (view d))) < 2 ^ 63 - 1 →
  NextVersion dev path d = (d', Ok n) →
  view d' = view d ∧ n = Z.of_nat (length (versions_of dev path (view d))) + 1.
Proof.
  intros Hok Hsmall Hn. unfold NextVersion in Hn. inv_bind.
  apply run_ok in E as (ev & Hev & [= Hv Hm]).
  pose proof (select_versions_perm ev dev path (view d) Hev) as Hsel.
  pose proof (Permutation_length Hsel) as Hlen.
  rewrite max_version_numbered in Hm by (rewrite Hlen, Hsel; apply Hok).
  rewrite Hlen in Hm.
  case_decide as Hnil.
  - rewrite <- Hm in Hn. injection Hn as <- <-. split; [by rewrite Hv|].
    rewrite Hnil in Hlen. simpl in Hlen. lia.
  - rewrite <- Hm in Hn. injection Hn as <- <-. split; [by rewrite Hv|].
    apply wrap_s_small; [done|]. change (64 - 1) with 63. lia.
Qed.

Lemma versions_of_insert dev path id v t :
  backup_file_versions t !! id = None →
  versions_of dev path (with_versions (<[id := v]> (backup_file_versions t)) t) ≡ₚ
  if version_of_path dev path v then v :: versions_of dev path t else versions_of dev path t.
Proof.
  intros Hid. unfold versions_of. cbn [with_versions backup_file_versions].
  rewrite map_to_list_insert by done. rewrite fmap_cons. simpl.
  destruct (version_of_path dev path v) eqn:E.
  - by rewrite filter_cons_True.
  - rewrite filter_cons_False; [done|]. by rewrite E.
Qed.

(** A new row numbered after all the others of its file. *)
Lemma create_version_ok v d d' :
  versions_ok (view d) →
  Version v = Z.of_nat (length (versions_of (BackupFileVersion_DeviceID v) (LogicalPath v) (view d))) + 1 →
  CreateVersion v d = (d', Ok tt) →
  versions_ok (view d') ∧
  ∃ id now, versions_of (BackupFileVersion_DeviceID v) (LogicalPath v) (view d') ≡ₚ
    with_version_id id now v :: versions_of (BackupFileVersion_DeviceID v) (LogicalPath v) (view d).
Proof.
  intros Hok Hver Hc. apply run_ok in Hc as (ev & Hev & [= Hv]).
  pose proof (next_key_free ev (backup_file_versions (view d)) Hev) as Hfree.
  set (id := next_key ev _) in *. rewrite <- Hv.
  assert (∀ dev path, versions_of dev path
    (with_versions (<[id := with_version_id id (clock ev) v]> (backup_file_versions (view d))) (view d)) ≡ₚ
    if version_of_path dev path v then with_version_id id (clock ev) v :: versions_of dev path (view d)
    else versions_of dev path (view d)) as Hins.
  { intros. by rewrite versions_of_insert. }
  split.
  - intros dev path. rewrite Hins.
    destruct (version_of_path dev path v) eqn:E; [|apply Hok].
    unfold version_of_path in E. rewrite andb_true_iff, !bool_decide_eq_true in E.
    destruct E as [<- <-]. rewrite fmap_cons. cbn [length]. simpl Version. rewrite Hver, (Hok _ _).
    rewrite seqZ_S, Z.add_comm. by rewrite Permutation_cons_append.
  - exists id, (clock ev). rewrite Hins. unfold version_of_path. by rewrite !bool_decide_eq_true_2.
Qed.

Lemma latest_version dev path d d' r :
  versions_ok (view d) → GetVersion dev path 0 d = (d', Ok (Some r)) →
  r ∈ versions_of dev path (view d) ∧
  Version r = Z.of_nat (length (versions_of dev path (view d))).
Proof.
  intros Hok Hg. apply run_ok in Hg as (ev & Hev & [= Hv Hh]).
  apply head_Some in Hh as (l & Hl).
  set (vs := select ev (version_of_path dev path) (backup_file_versions (view d))) in *.
  assert (vs ≡ₚ versions_of dev path (view d)) as Hperm by by apply select_versions_perm.
  assert (order_by version_desc vs ≡ₚ vs) as Hord by apply merge_sort_Permutation.
  assert (r ∈ vs) as Hr by (rewrite <- Hord, Hl; left).
  assert (∀ x, x ∈ vs → Version x ≤ Version r) as Hmax.
  { intros x Hx. rewrite <- Hord, Hl in Hx. apply elem_of_cons in Hx as [->|Hx]; [lia|].
    assert (StronglySorted (λ a b, Is_true (version_desc a b)) (order_by version_desc vs)) as Hs.
    { apply StronglySorted_merge_sort.
      - intros a b c. unfold version_desc. rewrite !Is_true_true, !Z.leb_le. lia.
      - intros a b. unfold version_desc. rewrite !Is_true_true, !Z.leb_le. lia. }
    rewrite Hl in Hs. apply StronglySorted_inv in Hs as [_ Hall].
    rewrite Forall_forall in Hall. specialize (Hall x Hx).
    by apply Is_true_true, Z.leb_le in Hall. }
  rewrite Hperm in Hr. split; [done|].
  assert (Version r ∈ Version <$> versions_of dev path (view d)) as Hin by by apply list_elem_of_fmap_2.
  rewrite (Hok dev path) in Hin. apply elem_of_seqZ in Hin.
  assert (Z.of_nat (length (versions_of dev path (view d))) ∈
    Version <$> versions_of dev path (view d)) as Hlast.
  { rewrite (Hok dev path). apply elem_of_seqZ. lia. }
  apply list_elem_of_fmap in Hlast as (x & Hx & Hxin). rewrite <- Hperm in Hxin.
  specialize (Hmax x Hxin). lia.
Qed.
End Versions.

Section Finalize.
Context `{EngineLaws DB}.
Implicit Types s : BackupState DB.

Lemma latest_version_none dev path d d' :
  GetVersion dev path 0 d = (d', Ok None) → versions_of dev path (view d) = [].
Proof.
  intros Hg. apply run_ok in Hg as (ev & Hev & [= Hv Hh]).
  apply head_None in Hh. apply Permutation_nil_r.
  rewrite <- (select_versions_perm ev) by done.
  assert (order_by version_desc (select ev (version_of_path dev path)
    (backup_file_versions (view d))) ≡ₚ _) as Hord by apply merge_sort_Permutation.
  by rewrite <- Hord, Hh.
Qed.

Lemma finish_file_db d os sess : keeps (λ s, db s = d) (finish_file (DB := DB) os sess).
Proof.
  assert (∀ old new, keeps (λ s : BackupState DB, db s = d) (rename os old new)) as Hren.
  { intros old new s Hs. unfold rename. destruct (rename_err os old); [done|].
    by destruct (files s !! old). }
  unfold finish_file. apply keeps_bind; [by apply keeps_attempt|].
  intros [[]|err]; [apply keeps_ret|]. destruct (HasSuffix _ _).
  - apply keeps_bind; [by apply keeps_attempt|].
    intros [[]|err2]; [apply keeps_ret|apply keeps_fail].
  - apply keeps_bind; [apply keeps_gets|]. intros present.
    destruct (present && _); [|apply keeps_fail].
    apply keeps_bind; [by apply keeps_attempt|].
    intros [[]|err3]; [apply keeps_ret|apply keeps_fail].
Qed.

(** The parts of a successful [FinalizeUpload]. *)
Lemma FinalizeUpload_ok os now id s s' :
  FinalizeUpload os now id s = (s', Ok tt) →
  ∃ sess s1, sessions s !! id = Some sess ∧ Direction sess = DirectionUpload ∧
    finish_file os sess s = (s1, Ok tt) ∧ db s1 = db s ∧ files s' = files s1 ∧
    record_version sess (store_session id
      (with_progress (Session_FileSize sess) SessionCompleted now sess) s1).1 = (s', Ok tt).
Proof.
  intros Hf. unfold FinalizeUpload in Hf.
  apply StE_bind_ok in Hf as (s0 & sess & Hs & Hf). apply find_session_ok in Hs as [-> Hs].
  cbv beta in Hf. destruct (decide (Direction sess ≠ DirectionUpload)) as [|Hd]; [done|].
  case_decide; [done|]. inv_bind. destruct a.
  exists sess, s0. pose proof (finish_file_db (db s) os sess s eq_refl) as Hdb.
  rewrite E in Hdb. simpl in Hdb. unfold store_session, modify in E0. injection E0 as <- _.
  split; [done|]. split; [by apply dec_stable|]. split; [done|]. split; [done|].
  split; [|done]. unfold record_version in Hf. case_decide; [by injection Hf as <-|].
  by apply zoom_ok in Hf as (t & _ & ->).
Qed.
End Finalize.

(** C25. Finishing an upload records exactly the next version of its file: the
    versions of every file stay numbered 1, 2, 3, ... without gaps or
    repeats, and asking for the latest version gives the one just stored. *)
Theorem FinalizeUpload_next_version `{EngineLaws DB} os now id (s s' : BackupState DB) sess :
  versions_ok (view (db s)) → sessions s !! id = Some sess → Session_LogicalPath sess ≠ "" →
  let before := versions_of (Session_DeviceID sess) (Session_LogicalPath sess) (view (db s)) in
  Z.of_nat (length before) < 2 ^ 63 - 1 →
  FinalizeUpload os now id s = (s', Ok tt) →
  versions_ok (view (db s')) ∧
  ∀ d r, GetVersion (Session_DeviceID sess) (Session_LogicalPath sess) 0 (db s') = (d, Ok r) →
    ∃ v, r = Some v ∧ Version v = Z.of_nat (length before) + 1 ∧
      StoredName v = Base (FinalPath sess) ∧ BackupFileVersion_FileID v = Session_FileID sess ∧
      BackupFileVersion_Size v = Session_FileSize sess.
Proof.
  intros Hok Hs Hpath before Hsmall Hf.
  apply FinalizeUpload_ok in Hf as (sess' & s1 & Hs' & _ & _ & Hdb & _ & Hrec).
  rewrite Hs in Hs'. injection Hs' as <-. unfold record_version in Hrec.
  rewrite decide_False in Hrec by done. apply zoom_ok in Hrec as (d' & Hrec & ->).
  cbn [set_db db store_session modify fst set_sessions] in Hrec |- *. rewrite Hdb in Hrec.
  inv_bind. apply wrap_st_ok in E, Hrec. apply next_version_value in E as [Hv ->]; [|done..].
  rewrite <- Hv in Hok.
  apply create_version_ok in Hrec as (Hok' & key & now' & Hperm); [|done|simpl; by rewrite Hv].
  cbn [BackupFileVersion_DeviceID LogicalPath] in Hperm. rewrite Hv in Hperm.
  change (versions_of _ _ (view (db s))) with before in Hperm.
  split; [done|]. intros d r Hg. destruct r as [v|].
  - apply latest_version in Hg as [Hin Hver]; [|done]. exists v. split; [done|].
    rewrite Hperm in Hin, Hver. cbn [length] in Hver.
    split; [lia|]. apply elem_of_cons in Hin as [->|Hin]; [done|]. exfalso.
    apply (list_elem_of_fmap_2 Version) in Hin.
    unfold before in Hin. rewrite <- Hv in Hin. rewrite (Hok _ _) in Hin.
    rewrite Hv in Hin. apply elem_of_seqZ in Hin.
    change (versions_of _ _ (view (db s))) with before in Hin. lia.
  - apply latest_version_none in Hg. rewrite Hg in Hperm. by apply Permutation_nil_l in Hperm.
Qed.

Lemma FinalizeUpload_next_version_witness :
  let s1 := (FinalizeUpload quiet_os 9 "up-1" session_state).1 in
  versions_ok (view (db s1)) ∧
  ∃ d v, GetVersion "laptop" "data/a.txt" 0 (db s1) = (d, Ok (Some v)) ∧ Version v = 1 ∧
    StoredName v = "17_a.txt".
Proof.
  cbv zeta.
  assert (FinalizeUpload quiet_os 9 "up-1" session_state =
    ((FinalizeUpload quiet_os 9 "up-1" session_state).1, Ok tt)) as Hf
    by (vm_compute; reflexivity).
  assert (is_ok (GetVersion "laptop" "data/a.txt" 0
    (db (FinalizeUpload quiet_os 9 "up-1" session_state).1)).2 = true) as Hg
    by (vm_compute; reflexivity).
  revert Hf Hg. generalize (FinalizeUpload quiet_os 9 "up-1" session_state).1. intros s1 Hf Hg.
  destruct (FinalizeUpload_next_version quiet_os 9 "up-1" session_state s1 sample_session)
    as [Hok Hv]; [by intros dev path|reflexivity|done|vm_compute; reflexivity|exact Hf|].
  split; [exact Hok|].
  destruct (GetVersion "laptop" "data/a.txt" 0 (db s1)) as [d [r|]] eqn:E; [|done].
  destruct (Hv d r E) as (v & -> & Hn & Hname & _). by exists d, v.
Defined.
