(* ===== verification/Repos.v ===== *)
(** * Devices, users, logs, queued commands and website rules

    The small repositories and services of the backend:
    backend/app/repo/{device,user,agentlog,agent_command,website_block}_repo.go
    and backend/app/services/{device,user,agentlog,website_block}_service.go.

    Each statement is its documented meaning, GORM's rules included: [Create]
    replaces a zero value of a column with a default by the default, writes the
    key and the times back, and violates a unique index when the value exists;
    [Updates] with a map sets every given column; conditions built from a struct
    ([Assign]) skip its zero-valued fields. *)

From S2P Require Export Prelude GoStrings Store.

Local Open Scope Z_scope.

Definition ErrRecordNotFound : string := "record not found".

(** The first row of a query, by primary key; no row is an error. *)
Definition first {V} (id : V → Z) (rows : list V) : result V :=
  match order_by (λ a b, id a <=? id b) rows with
  | [] => Err ErrRecordNotFound
  | v :: _ => Ok v
  end.

Section Repos.
Context `{Engine DB}.

(** ** Devices *)

Definition has_uuid (uuid : string) (d : Device) : bool := bool_decide (UUID d = uuid).

Definition FindByUUID (uuid : string) : StE DB Device :=
  run (λ ev t, d ← first Device_ID (select ev (has_uuid uuid) (devices t)); Ok (t, d)).

(** [ORDER BY created_at DESC]. *)
Definition newest_device (a b : Device) : bool := Device_CreatedAt b <=? Device_CreatedAt a.
Definition ListAll : StE DB (list Device) :=
  run (λ ev t, Ok (t, order_by newest_device (select ev (λ _, true) (devices t)))).

Definition new_device (id now : Z) (d : Device) : Device := {|
  Device_ID := id; UUID := UUID d; Device_Name := Device_Name d; UserID := UserID d;
  OSName := OSName d; OSVersion := OSVersion d; Hostname := Hostname d; Arch := Arch d;
  Device_CreatedAt := now; Device_UpdatedAt := now |}.
Definition update_device (now : Z) (d old : Device) : Device := {|
  Device_ID := Device_ID old; UUID := UUID old; Device_Name := Device_Name d;
  UserID := UserID d; OSName := OSName d; OSVersion := OSVersion d; Hostname := Hostname d;
  Arch := Arch d; Device_CreatedAt := Device_CreatedAt old; Device_UpdatedAt := now |}.

Definition sql_create_device (d : Device) : stmt unit := λ ev t,
  match select ev (has_uuid (UUID d)) (devices t) with
  | _ :: _ => Err "Duplicate entry for key 'devices.uuid'"
  | [] =>
      let id := next_key ev (map_to_list (devices t)).*1 in
      Ok (with_devices (<[id := new_device id (clock ev) d]> (devices t)) t, tt)
  end.
(** [Model(&existing).Updates(map)]: by the primary key of the row read. *)
Definition sql_update_device (existing d : Device) : stmt unit := λ ev t,
  Ok (with_devices (update_where (λ r, Device_ID r =? Device_ID existing)
    (update_device (clock ev) d) (devices t)) t, tt).

Definition Upsert (d : Device) : StE DB unit :=
  r ← attempt (FindByUUID (UUID d));
  match r with
  | Ok existing => run (sql_update_device existing d)
  | Err _ => run (sql_create_device d)
  end.

Definition UpsertDevice (d : Device) : StE DB unit := Upsert d.

(** ** Agent logs *)

Definition new_log (id now : Z) (deviceID content : string) : AgentLog := {|
  AgentLog_ID := id; AgentLog_DeviceID := deviceID; Content := content;
  AgentLog_CreatedAt := now |}.
Definition Logs_Create (deviceID content : string) : StE DB unit :=
  run (λ ev t,
    let id := next_key ev (map_to_list (agent_logs t)).*1 in
    Ok (with_agent_logs (<[id := new_log id (clock ev) deviceID content]> (agent_logs t)) t, tt)).

Definition newest_log (a b : AgentLog) : bool := AgentLog_ID b <=? AgentLog_ID a.
Definition LatestByDevice (deviceID : string) (limit : Z) : StE DB (list AgentLog) :=
  let limit := if decide (limit ≤ 0) then 1 else limit in
  run (λ ev t, Ok (t, take (Z.to_nat limit) (order_by newest_log
    (select ev (λ l, bool_decide (AgentLog_DeviceID l = deviceID)) (agent_logs t))))).

(** ** Queued commands *)

Definition new_command (id now : Z) (c : AgentCommand) : AgentCommand := {|
  AgentCommand_ID := id; AgentCommand_DeviceID := AgentCommand_DeviceID c;
  Command := Command c; Kind := Kind c; Payload := Payload c; Status := Status c;
  LastError := LastError c; AgentCommand_CreatedAt := now; AgentCommand_UpdatedAt := now;
  SentAt := SentAt c |}.
(** [Create] gives back the row with its key. *)
Definition Commands_Create (c : AgentCommand) : StE DB AgentCommand :=
  run (λ ev t,
    let c' := new_command (next_key ev (map_to_list (agent_commands t)).*1) (clock ev) c in
    Ok (with_agent_commands (<[AgentCommand_ID c' := c']> (agent_commands t)) t, c')).

Definition with_status (now : Z) (status lastError : string) (c : AgentCommand) : AgentCommand := {|
  AgentCommand_ID := AgentCommand_ID c; AgentCommand_DeviceID := AgentCommand_DeviceID c;
  Command := Command c; Kind := Kind c; Payload := Payload c; Status := status;
  LastError := lastError; AgentCommand_CreatedAt := AgentCommand_CreatedAt c;
  AgentCommand_UpdatedAt := now; SentAt := SentAt c |}.
Definition as_sent (now : Z) (c : AgentCommand) : AgentCommand := {|
  AgentCommand_ID := AgentCommand_ID c; AgentCommand_DeviceID := AgentCommand_DeviceID c;
  Command := Command c; Kind := Kind c; Payload := Payload c; Status := "sent";
  LastError := LastError c; AgentCommand_CreatedAt := AgentCommand_CreatedAt c;
  AgentCommand_UpdatedAt := now; SentAt := Some now |}.

Definition has_command_id (id : Z) (c : AgentCommand) : bool := AgentCommand_ID c =? id.
Definition Commands_UpdateStatus (id : Z) (status lastError : string) : StE DB unit :=
  run (λ ev t, Ok (with_agent_commands
    (update_where (has_command_id id) (with_status (clock ev) status lastError)
      (agent_commands t)) t, tt)).
Definition MarkSent (id : Z) : StE DB unit :=
  run (λ ev t, Ok (with_agent_commands
    (update_where (has_command_id id) (as_sent (clock ev)) (agent_commands t)) t, tt)).

Definition oldest_command (a b : AgentCommand) : bool := AgentCommand_ID a <=? AgentCommand_ID b.
Definition queued_for (deviceID : string) (includeSent : bool) (c : AgentCommand) : bool :=
  bool_decide (AgentCommand_DeviceID c = deviceID)
  && (includeSent || bool_decide (Status c ∈ ["pending"; "failed"])).
Definition ListByDevice (deviceID : string) (includeSent : bool) : StE DB (list AgentCommand) :=
  run (λ ev t, Ok (t, order_by oldest_command
    (select ev (queued_for deviceID includeSent) (agent_commands t)))).
End Repos.

(** ** Users

    [bcrypt] is not part of the repository: hashing takes random salt and may
    fail, and a hash accepts the password it was made from. *)

Class Bcrypt := {
  GenerateFromPassword : list ascii → string → result string;
  CompareHashAndPassword : string → string → bool }.
Class BcryptLaws `{Bcrypt} : Prop := {
  compare_generated salt pw h :
    GenerateFromPassword salt pw = Ok h → CompareHashAndPassword h pw = true }.

Section Users.
Context `{Engine DB, Bcrypt}.

Definition has_username (username : string) (u : User) : bool :=
  bool_decide (Username u = username).

(** [return count, db.Count(&count).Error]: whether the result [count] is read
    before or after the call fills it is left open by the language
    ([count_read_first]). *)
Definition CountByUsername (count_read_first : bool) (username : string) : StE DB Z :=
  n ← run (λ ev t, Ok (t, Z.of_nat (length (select ev (has_username username) (users t)))));
  mret (if count_read_first then 0 else n).

Definition default_string (dflt s : string) : string := if decide (s = "") then dflt else s.
Definition new_user (id now : Z) (u : User) : User := {|
  User_ID := id; Username := Username u; PasswordHash := PasswordHash u;
  Role := default_string "user" (Role u); User_CreatedAt := now; User_UpdatedAt := now |}.
Definition sql_create_user (u : User) : stmt unit := λ ev t,
  match select ev (has_username (Username u)) (users t) with
  | _ :: _ => Err "Duplicate entry for key 'users.username'"
  | [] =>
      let id := next_key ev (map_to_list (users t)).*1 in
      Ok (with_users (<[id := new_user id (clock ev) u]> (users t)) t, tt)
  end.
Definition Users_Create (u : User) : StE DB unit := run (sql_create_user u).

Definition FindByUsername (username : string) : StE DB User :=
  run (λ ev t, u ← first User_ID (select ev (has_username username) (users t)); Ok (t, u)).

(** [hash, _ := bcrypt.GenerateFromPassword(...)]: the error is dropped. *)
Definition hash_of (salt : list ascii) (password : string) : string :=
  match GenerateFromPassword salt password with Ok h => h | Err _ => "" end.
Definition user_row (username hash role : string) : User := {|
  User_ID := 0; Username := username; PasswordHash := hash; Role := role;
  User_CreatedAt := 0; User_UpdatedAt := 0 |}.

Definition EnsureAdmin (crf : bool) (salt : list ascii) (username password : string) : StE DB unit :=
  count ← CountByUsername crf username;
  if decide (0 < count) then mret tt else
  Users_Create (user_row username (hash_of salt password) "admin").

Definition EnsureUser (crf : bool) (salt : list ascii) (username password role : string) :
    StE DB unit :=
  count ← CountByUsername crf username;
  if decide (0 < count) then mret tt else
  let role := if decide (role = "") then "user" else role in
  Users_Create (user_row username (hash_of salt password) role).

Definition CreateUser (salt : list ascii) (username password role : string) : StE DB unit :=
  let role := if decide (role = "") then "user" else role in
  Users_Create (user_row username (hash_of salt password) role).

Definition ValidateCredentials (username password : string) : StE DB User :=
  u ← FindByUsername username;
  if CompareHashAndPassword (PasswordHash u) password then mret u
  else fail "invalid credentials".
End Users.

(** ** Website rules *)

Record WebsiteBlockRuleRequest := {
  Request_Type : string;
  Request_Category : string;
  Request_Domain : string;
  Request_Enabled : bool }.

Record WebsiteBlockRuleResponse := {
  RuleResponse_ID : Z;
  RuleResponse_DeviceID : string;
  RuleResponse_Type : string;
  RuleResponse_Category : string;
  RuleResponse_Domain : string;
  RuleResponse_Enabled : bool;
  RuleResponse_CreatedAt : Z;
  RuleResponse_UpdatedAt : Z }.

Record WebsiteBlockStatusResponse := {
  StatusResponse_DeviceID : string;
  StatusResponse_Enabled : bool;
  StatusResponse_UpdatedAt : Z }.

Record BlockWebsiteCommand := {
  Block_Action : string;
  Block_Rules : list WebsiteBlockRuleResponse;
  Block_Status : WebsiteBlockStatusResponse }.

Definition ErrInvalidInput : string := "invalid input".

Section Website.
Context `{Engine DB}.

(** A column with [gorm:"default:b"]: the zero value [false] is not saved, the
    default is. *)
Definition default_bool (dflt v : bool) : bool := if v then v else dflt.

Definition new_rule (id now : Z) (r : WebsiteBlockRule) : WebsiteBlockRule := {|
  WebsiteBlockRule_ID := id; WebsiteBlockRule_DeviceID := WebsiteBlockRule_DeviceID r;
  WebsiteBlockRule_Type := WebsiteBlockRule_Type r; Category := Category r; Domain := Domain r;
  WebsiteBlockRule_Enabled := default_bool true (WebsiteBlockRule_Enabled r);
  WebsiteBlockRule_CreatedAt := now; WebsiteBlockRule_UpdatedAt := now;
  WebsiteBlockRule_DeletedAt := None |}.
(** [Create] gives back the row as it was written. *)
Definition Website_CreateRule (r : WebsiteBlockRule) : StE DB WebsiteBlockRule :=
  run (λ ev t,
    let r' := new_rule (next_key ev (map_to_list (website_block_rules t)).*1) (clock ev) r in
    Ok (with_rules (<[WebsiteBlockRule_ID r' := r']> (website_block_rules t)) t, r')).

Definition has_rule_id (id : Z) (r : WebsiteBlockRule) : bool := WebsiteBlockRule_ID r =? id.
(** No row is [(nil, nil)]. *)
Definition GetRule (id : Z) : StE DB (option WebsiteBlockRule) :=
  run (λ ev t, Ok (t, head (order_by (λ a b, WebsiteBlockRule_ID a <=? WebsiteBlockRule_ID b)
    (select ev (has_rule_id id) (website_block_rules t))))).

Definition live_rule (deviceID : string) (r : WebsiteBlockRule) : bool :=
  bool_decide (WebsiteBlockRule_DeviceID r = deviceID)
  && bool_decide (WebsiteBlockRule_DeletedAt r = None).
Definition newest_rule (a b : WebsiteBlockRule) : bool :=
  WebsiteBlockRule_CreatedAt b <=? WebsiteBlockRule_CreatedAt a.
Definition Website_ListRules (deviceID : string) : StE DB (list WebsiteBlockRule) :=
  run (λ ev t, Ok (t, order_by newest_rule
    (select ev (live_rule deviceID) (website_block_rules t)))).

(** The columns of an update map. *)
Record rule_updates := {
  set_type : option string; set_category : option string; set_domain : option string;
  set_enabled : bool }.
Definition update_rule (now : Z) (u : rule_updates) (r : WebsiteBlockRule) : WebsiteBlockRule := {|
  WebsiteBlockRule_ID := WebsiteBlockRule_ID r;
  WebsiteBlockRule_DeviceID := WebsiteBlockRule_DeviceID r;
  WebsiteBlockRule_Type := default (WebsiteBlockRule_Type r) (set_type u);
  Category := default (Category r) (set_category u);
  Domain := default (Domain r) (set_domain u);
  WebsiteBlockRule_Enabled := set_enabled u;
  WebsiteBlockRule_CreatedAt := WebsiteBlockRule_CreatedAt r;
  WebsiteBlockRule_UpdatedAt := now; WebsiteBlockRule_DeletedAt := WebsiteBlockRule_DeletedAt r |}.
Definition Website_UpdateRule (id : Z) (u : rule_updates) : StE DB unit :=
  run (λ ev t, Ok (with_rules
    (update_where (has_rule_id id) (update_rule (clock ev) u) (website_block_rules t)) t, tt)).

Definition mark_deleted (now clk : Z) (r : WebsiteBlockRule) : WebsiteBlockRule := {|
  WebsiteBlockRule_ID := WebsiteBlockRule_ID r;
  WebsiteBlockRule_DeviceID := WebsiteBlockRule_DeviceID r;
  WebsiteBlockRule_Type := WebsiteBlockRule_Type r; Category := Category r; Domain := Domain r;
  WebsiteBlockRule_Enabled := WebsiteBlockRule_Enabled r;
  WebsiteBlockRule_CreatedAt := WebsiteBlockRule_CreatedAt r;
  WebsiteBlockRule_UpdatedAt := clk; WebsiteBlockRule_DeletedAt := Some now |}.
Definition Website_DeleteRule (now : Z) (id : Z) : StE DB unit :=
  run (λ ev t, Ok (with_rules
    (update_where (has_rule_id id) (mark_deleted now (clock ev)) (website_block_rules t)) t, tt)).

Definition new_status (id now : Z) (deviceID : string) (enabled : bool) : WebsiteBlockStatus := {|
  WebsiteBlockStatus_ID := id; WebsiteBlockStatus_DeviceID := deviceID;
  WebsiteBlockStatus_Enabled := default_bool false enabled;
  WebsiteBlockStatus_UpdatedAt := now |}.
Definition status_of_device (deviceID : string) (s : WebsiteBlockStatus) : bool :=
  bool_decide (WebsiteBlockStatus_DeviceID s = deviceID).
Definition first_status (ev : stmt_env) (deviceID : string) (t : Tables) : result WebsiteBlockStatus :=
  first WebsiteBlockStatus_ID (select ev (status_of_device deviceID) (website_block_statuses t)).
Definition sql_create_status (deviceID : string) (enabled : bool) : stmt WebsiteBlockStatus :=
  λ ev t,
    match select ev (status_of_device deviceID) (website_block_statuses t) with
    | _ :: _ => Err "Duplicate entry for key 'website_block_statuses.device_id'"
    | [] =>
        let s := new_status (next_key ev (map_to_list (website_block_statuses t)).*1) (clock ev)
                   deviceID enabled in
        Ok (with_statuses (<[WebsiteBlockStatus_ID s := s]> (website_block_statuses t)) t, s)
    end.

Definition Website_GetStatus (deviceID : string) : StE DB WebsiteBlockStatus :=
  r ← attempt (run (λ ev t, s ← first_status ev deviceID t; Ok (t, s)));
  match r with
  | Ok s => mret s
  | Err e =>
      if decide (e = ErrRecordNotFound) then run (sql_create_status deviceID false) else fail e
  end.

(** [Assign(WebsiteBlockStatus{Enabled: enabled})] on a found row: only the
    non-zero fields of the struct are written. *)
Definition assign_enabled (now : Z) (enabled : bool) (s : WebsiteBlockStatus) :
    WebsiteBlockStatus := {|
  WebsiteBlockStatus_ID := WebsiteBlockStatus_ID s;
  WebsiteBlockStatus_DeviceID := WebsiteBlockStatus_DeviceID s;
  WebsiteBlockStatus_Enabled := if enabled then true else WebsiteBlockStatus_Enabled s;
  WebsiteBlockStatus_UpdatedAt := now |}.
(** [FirstOrCreate]: one query, then an update of the row found or an insert. *)
Definition Website_UpdateStatus (deviceID : string) (enabled : bool) : StE DB unit :=
  found ← run (λ ev t, Ok (t, match first_status ev deviceID t with
    | Ok s => Some s | Err _ => None end));
  match found with
  | Some s =>
      run (λ ev t, Ok (with_statuses
        (update_where (λ r, WebsiteBlockStatus_ID r =? WebsiteBlockStatus_ID s)
          (assign_enabled (clock ev) enabled) (website_block_statuses t)) t, tt))
  | None => run (sql_create_status deviceID enabled);; mret tt
  end.

(** *** The service *)

Definition ruleToDTO (r : WebsiteBlockRule) : WebsiteBlockRuleResponse := {|
  RuleResponse_ID := WebsiteBlockRule_ID r; RuleResponse_DeviceID := WebsiteBlockRule_DeviceID r;
  RuleResponse_Type := WebsiteBlockRule_Type r; RuleResponse_Category := Category r;
  RuleResponse_Domain := Domain r; RuleResponse_Enabled := WebsiteBlockRule_Enabled r;
  RuleResponse_CreatedAt := WebsiteBlockRule_CreatedAt r;
  RuleResponse_UpdatedAt := WebsiteBlockRule_UpdatedAt r |}.

Definition CreateRule (deviceID : string) (req : WebsiteBlockRuleRequest) :
    StE DB WebsiteBlockRuleResponse :=
  if decide (Request_Type req ≠ "category" ∧ Request_Type req ≠ "domain")
  then fail ErrInvalidInput else
  if decide (Request_Type req = "category" ∧ Request_Category req = "")
  then fail ErrInvalidInput else
  if decide (Request_Type req = "domain" ∧ Request_Domain req = "")
  then fail ErrInvalidInput else
  rule ← Website_CreateRule {|
    WebsiteBlockRule_ID := 0; WebsiteBlockRule_DeviceID := deviceID;
    WebsiteBlockRule_Type := Request_Type req; Category := Request_Category req;
    Domain := Request_Domain req; WebsiteBlockRule_Enabled := Request_Enabled req;
    WebsiteBlockRule_CreatedAt := 0; WebsiteBlockRule_UpdatedAt := 0;
    WebsiteBlockRule_DeletedAt := None |};
  mret (ruleToDTO rule).

Definition ListRules (deviceID : string) : StE DB (list WebsiteBlockRuleResponse) :=
  rules ← Website_ListRules deviceID;
  mret (ruleToDTO <$> rules).

Definition non_empty (s : string) : option string := if decide (s = "") then None else Some s.
Definition UpdateRule (id : Z) (req : WebsiteBlockRuleRequest) : StE DB unit :=
  Website_UpdateRule id {|
    set_type := non_empty (Request_Type req); set_category := non_empty (Request_Category req);
    set_domain := non_empty (Request_Domain req); set_enabled := Request_Enabled req |}.

Definition DeleteRule (now : Z) (id : Z) : StE DB unit := Website_DeleteRule now id.

Definition statusToDTO (s : WebsiteBlockStatus) : WebsiteBlockStatusResponse := {|
  StatusResponse_DeviceID := WebsiteBlockStatus_DeviceID s;
  StatusResponse_Enabled := WebsiteBlockStatus_Enabled s;
  StatusResponse_UpdatedAt := WebsiteBlockStatus_UpdatedAt s |}.
Definition GetStatus (deviceID : string) : StE DB WebsiteBlockStatusResponse :=
  status ← Website_GetStatus deviceID; mret (statusToDTO status).

Definition UpdateStatus (deviceID : string) (enabled : bool) : StE DB unit :=
  Website_UpdateStatus deviceID enabled.

Definition GetSyncData (deviceID : string) : StE DB BlockWebsiteCommand :=
  status ← Website_GetStatus deviceID;
  rules ← Website_ListRules deviceID;
  mret {| Block_Action := "sync";
          Block_Rules := ruleToDTO <$> filter (λ r, WebsiteBlockRule_Enabled r = true) rules;
          Block_Status := statusToDTO status |}.
End Website.

(** ** Properties *)

Lemma first_ok {V} (id : V → Z) rows v : first id rows = Ok v → v ∈ rows.
Proof.
  unfold first. intros Hf.
  assert (order_by (λ a b, id a <=? id b) rows ≡ₚ rows) as <- by apply merge_sort_Permutation.
  destruct (order_by _ rows); [done|]. injection Hf as ->. apply elem_of_cons. by left.
Qed.

Lemma order_by_elem {V} (le : V → V → bool) rows v : v ∈ order_by le rows ↔ v ∈ rows.
Proof.
  assert (order_by le rows ≡ₚ rows) as Hp by apply merge_sort_Permutation. by rewrite Hp.
Qed.

Lemma order_by_sorted {V} (f : V → Z) (rows : list V) :
  StronglySorted (λ a b, f b ≤ f a) (order_by (λ a b, f b <=? f a) rows).
Proof.
  assert (StronglySorted (λ a b, Is_true (f b <=? f a)) (order_by (λ a b, f b <=? f a) rows))
    as Hs; [apply StronglySorted_merge_sort|].
  - intros a b c. rewrite !Is_true_true, !Z.leb_le. lia.
  - intros a b. rewrite !Is_true_true, !Z.leb_le. lia.
  - induction Hs as [|a l _ IH Ha]; constructor; [done|]. eapply Forall_impl; [exact Ha|].
    intros b Hb. by apply Is_true_true, Z.leb_le in Hb.
Qed.

Lemma order_by_ascending {V} (f : V → Z) (rows : list V) :
  StronglySorted (λ a b, f a ≤ f b) (order_by (λ a b, f a <=? f b) rows).
Proof.
  assert (StronglySorted (λ a b, Is_true (f a <=? f b)) (order_by (λ a b, f a <=? f b) rows))
    as Hs; [apply StronglySorted_merge_sort|].
  - intros a b c. rewrite !Is_true_true, !Z.leb_le. lia.
  - intros a b. rewrite !Is_true_true, !Z.leb_le. lia.
  - induction Hs as [|a l _ IH Ha]; constructor; [done|]. eapply Forall_impl; [exact Ha|].
    intros b Hb. by apply Is_true_true, Z.leb_le in Hb.
Qed.

(** A table whose rows carry their own key and differ in a unique column. *)
Definition keyed {V} (id : V → Z) (m : gmap Z V) : Prop := ∀ k v, m !! k = Some v → id v = k.
Definition unique {V} (col : V → string) (m : gmap Z V) : Prop :=
  ∀ j k v w, m !! j = Some v → m !! k = Some w → col v = col w → j = k.

Lemma unique_insert {V} (col : V → string) (m : gmap Z V) k v :
  unique col m → (∀ j w, m !! j = Some w → col w ≠ col v) → unique col (<[k := v]> m).
Proof.
  intros Hu Hv i j x y. rewrite !lookup_insert_Some.
  intros [[<- <-]|[Hi Hx]] [[<- <-]|[Hj Hy]] Hc; try done.
  - by destruct (Hv j y Hy).
  - by destruct (Hv i x Hx).
  - by eapply Hu.
Qed.
Lemma keyed_insert {V} (id : V → Z) (m : gmap Z V) k v :
  keyed id m → id v = k → keyed id (<[k := v]> m).
Proof. intros Hk Hv i x. rewrite lookup_insert_Some. intros [[<- <-]|[_ Hx]]; auto. Qed.

(** A row written back in place under the same unique value. *)
Lemma unique_update {V} (col : V → string) p f (m : gmap Z V) :
  unique col m → (∀ v, col (f v) = col v) → unique col (update_where p f m).
Proof.
  intros Hu Hf i j x y. rewrite !update_where_lookup.
  destruct (m !! i) as [v|] eqn:Ei, (m !! j) as [w|] eqn:Ej; try done.
  intros [= <-] [= <-] Hc. apply (Hu i j v w Ei Ej).
  revert Hc. destruct (p v), (p w); by rewrite ?Hf.
Qed.
Lemma keyed_update {V} (id : V → Z) p f (m : gmap Z V) :
  keyed id m → (∀ v, id (f v) = id v) → keyed id (update_where p f m).
Proof.
  intros Hk Hf i x. rewrite update_where_lookup. destruct (m !! i) as [v|] eqn:Ei; [|done].
  intros [= <-]. destruct (p v); rewrite ?Hf; by apply Hk.
Qed.

Definition devices_ok (t : Tables) : Prop := keyed Device_ID (devices t) ∧ unique UUID (devices t).
Definition users_ok (t : Tables) : Prop := keyed User_ID (users t) ∧ unique Username (users t).

Section Facts.
Context `{EngineLaws DB}.

Lemma FindByUUID_ok uuid db db' d :
  FindByUUID uuid db = (db', Ok d) →
  view db' = view db ∧ UUID d = uuid ∧ ∃ k, devices (view db) !! k = Some d.
Proof.
  intros Hf. apply run_ok in Hf as (ev & Hev & Hf).
  destruct (first Device_ID _) as [d0|] eqn:Ef; [|done]. injection Hf as Hv ->.
  split; [done|]. apply first_ok in Ef. apply (elem_of_select ev _ _ _ Hev) in Ef as [Hp Hk].
  by apply bool_decide_eq_true in Hp.
Qed.

Lemma FindByUUID_err uuid db db' e : FindByUUID uuid db = (db', Err e) → view db' = view db.
Proof. apply run_err. Qed.
End Facts.

(** Registering a device leaves exactly one row for its UUID, with the values
    given; a row that existed keeps its key and its creation time, and no other
    device is touched. *)
Theorem UpsertDevice_exact `{EngineLaws DB} d (db db' : DB) :
  devices_ok (view db) → UpsertDevice d db = (db', Ok tt) →
  devices_ok (view db') ∧
  (∃ k r, devices (view db') !! k = Some r ∧ UUID r = UUID d ∧ Device_Name r = Device_Name d ∧
    UserID r = UserID d ∧ OSName r = OSName d ∧ OSVersion r = OSVersion d ∧
    Hostname r = Hostname d ∧ Arch r = Arch d ∧
    ∀ j old, devices (view db) !! j = Some old → UUID old = UUID d →
      j = k ∧ Device_ID old = Device_ID r ∧ Device_CreatedAt old = Device_CreatedAt r) ∧
  ∀ k r, UUID r ≠ UUID d → devices (view db') !! k = Some r ↔ devices (view db) !! k = Some r.
Proof.
  intros [Hkey Huniq] Hu. unfold UpsertDevice, Upsert in Hu. unfold attempt, mbind, StE_bind in Hu.
  destruct (FindByUUID (UUID d) db) as [db1 [ex|e]] eqn:Ef; simpl in Hu.
  - apply FindByUUID_ok in Ef as (Hv & Huid & k & Hk).
    apply run_ok in Hu as (ev & Hev & [= Ht]). rewrite Hv in Ht. rewrite <- Ht.
    unfold devices_ok. cbn [with_devices devices].
    set (p := λ r : Device, Device_ID r =? Device_ID ex).
    assert (∀ j v, devices (view db) !! j = Some v → p v = true ↔ j = k) as Hp.
    { intros j v Hj. unfold p. rewrite Z.eqb_eq, (Hkey _ _ Hj), (Hkey _ _ Hk). done. }
    split; [split; [by apply keyed_update|by apply unique_update]|]. split.
    + exists k, (update_device (clock ev) d ex). rewrite update_where_lookup, Hk. simpl.
      unfold p. rewrite Z.eqb_refl. repeat (split; [done|]).
      intros j old Hj Hold. assert (j = k) as -> by (apply (Huniq j k old ex); congruence).
      rewrite Hk in Hj. by injection Hj as <-.
    + intros j r Hr. rewrite update_where_lookup.
      destruct (devices (view db) !! j) as [v|] eqn:Ej; [|done]. simpl.
      destruct (p v) eqn:E; [|done]. apply (Hp _ _ Ej) in E as ->. rewrite Hk in Ej.
      injection Ej as <-. split; intros Hx; apply (inj Some) in Hx as <-; by destruct Hr.
  - apply FindByUUID_err in Ef. apply run_ok in Hu as (ev & Hev & Hu).
    unfold sql_create_device in Hu. rewrite Ef in Hu.
    destruct (select ev (has_uuid (UUID d)) _) eqn:Es; [|done]. injection Hu as Ht.
    rewrite <- Ht. pose proof (next_key_free ev (devices (view db)) Hev) as Hfree.
    set (id := next_key ev _) in *. unfold devices_ok. cbn [with_devices devices].
    assert (∀ j w, devices (view db) !! j = Some w → UUID w ≠ UUID d) as Hnew.
    { intros j w Hj. apply (select_nil ev _ _ j w Hev Es) in Hj.
      by apply bool_decide_eq_false in Hj. }
    split; [split; [by apply keyed_insert|by apply unique_insert]|]. split.
    + exists id, (new_device id (clock ev) d). rewrite lookup_insert_eq.
      repeat (split; [done|]). intros j old Hj Hold. by destruct (Hnew j old Hj).
    + intros j r Hr. rewrite lookup_insert_Some. split; [by intros [[<- <-]|[_ ?]]|].
      intros Hj. right. split; [|done]. intros <-. congruence.
Qed.

Definition sample_device (name : string) : Device := {|
  Device_ID := 0; UUID := "laptop"; Device_Name := name; UserID := 0; OSName := "linux";
  OSVersion := "6.1"; Hostname := "h"; Arch := "amd64"; Device_CreatedAt := 0;
  Device_UpdatedAt := 0 |}.
Definition one_device : Tables :=
  with_devices {[ 4 := new_device 4 3 (sample_device "old") ]} empty_tables.

Lemma one_device_ok : devices_ok one_device.
Proof.
  unfold devices_ok, one_device. cbn [with_devices devices]. split; intros i.
  - intros v Hi. by apply lookup_singleton_Some in Hi as [<- <-].
  - intros j v w Hv Hw _. by apply lookup_singleton_Some in Hv as [<- _], Hw as [<- _].
Qed.

Lemma UpsertDevice_exact_witness :
  ∃ k r, devices (UpsertDevice (sample_device "new") one_device).1 !! k = Some r ∧
    Device_Name r = "new" ∧ Device_CreatedAt r = 3.
Proof.
  destruct (UpsertDevice_exact (DB := Tables) (sample_device "new") one_device
    (UpsertDevice (sample_device "new") one_device).1)
    as (_ & (k & r & Hk & _ & Hn & _ & _ & _ & _ & _ & Hold) & _).
  - exact one_device_ok.
  - vm_compute. reflexivity.
  - exists k, r. split; [exact Hk|]. split; [exact Hn|].
    destruct (Hold 4 (new_device 4 3 (sample_device "old"))) as (_ & _ & Hc);
      [reflexivity|reflexivity|]. rewrite <- Hc. reflexivity.
Defined.

(** *** Accounts *)

Section Accounts.
Context `{EngineLaws DB, Bcrypt}.

Lemma CountByUsername_ok crf username db db' n :
  CountByUsername crf username db = (db', Ok n) →
  view db' = view db ∧
  (crf = false → ∀ k u, users (view db) !! k = Some u → Username u = username → 0 < n).
Proof.
  intros Hc. unfold CountByUsername in Hc. inv_bind.
  apply run_ok in E as (ev & Hev & [= Hv <-]). unfold mret, StE_ret in Hc.
  injection Hc as <- <-. split; [done|]. intros -> k u Hk Hu.
  assert (u ∈ select ev (has_username username) (users (view db))) as Hin.
  { apply elem_of_select; [done|]. unfold has_username. rewrite bool_decide_eq_true. eauto. }
  destruct (select _ _ _) as [|x l]; [by apply not_elem_of_nil in Hin|]. simpl. lia.
Qed.

Lemma CountByUsername_view crf username db : view (CountByUsername crf username db).1 = view db.
Proof.
  destruct (CountByUsername crf username db) as [db' [n|e]] eqn:E; simpl.
  - by apply CountByUsername_ok in E as [-> _].
  - unfold CountByUsername, mbind, StE_bind in E.
    destruct (run _ db) as [db1 [n|e1]] eqn:Er; [done|]. injection E as -> _.
    by apply run_err in Er.
Qed.

(** Storing a user whose name is taken fails and changes nothing. *)
Lemma create_taken u db k v :
  users (view db) !! k = Some v → Username v = Username u →
  view (Users_Create u db).1 = view db ∧ is_ok (Users_Create u db).2 = false.
Proof.
  intros Hk Hv. destruct (Users_Create u db) as [db' [[]|e]] eqn:E; simpl.
  - apply run_ok in E as (ev & Hev & E). unfold sql_create_user in E.
    destruct (select _ _ _) eqn:Es; [|done].
    apply (select_nil ev _ _ k v Hev Es) in Hk. by apply bool_decide_eq_false in Hk.
  - by apply run_err in E.
Qed.

Lemma create_user_ok u db db' :
  users_ok (view db) → Users_Create u db = (db', Ok tt) →
  users_ok (view db') ∧ ∃ k now, users (view db') = <[k := new_user k now u]> (users (view db)) ∧
    ∀ j w, users (view db) !! j = Some w → Username w ≠ Username u.
Proof.
  intros [Hkey Huniq] Hc. apply run_ok in Hc as (ev & Hev & Hc). unfold sql_create_user in Hc.
  destruct (select _ _ _) eqn:Es; [|done]. injection Hc as Ht. rewrite <- Ht.
  unfold users_ok. cbn [with_users users].
  assert (∀ j w, users (view db) !! j = Some w → Username w ≠ Username u) as Hnew.
  { intros j w Hj. apply (select_nil ev _ _ j w Hev Es) in Hj. by apply bool_decide_eq_false in Hj. }
  split; [split; [by apply keyed_insert|by apply unique_insert]|]. by eexists _, _.
Qed.

Lemma FindByUsername_ok username db db' u :
  FindByUsername username db = (db', Ok u) →
  view db' = view db ∧ Username u = username ∧ ∃ k, users (view db) !! k = Some u.
Proof.
  intros Hf. apply run_ok in Hf as (ev & Hev & Hf).
  destruct (first User_ID _) as [d0|] eqn:Ef; [|done]. injection Hf as Hv ->.
  split; [done|]. apply first_ok in Ef. apply (elem_of_select ev _ _ _ Hev) in Ef as [Hp Hk].
  by apply bool_decide_eq_true in Hp.
Qed.
End Accounts.

(** A created account logs in: whenever its row can be read, the credentials
    check accepts the password it was created with, and accepts or rejects any
    other one by the stored hash alone; the account has the given role, "user"
    by default. *)
Theorem created_account_logs_in `{EngineLaws DB, BcryptLaws} salt username password role h
    (db db1 db2 : DB) q u :
  users_ok (view db) → GenerateFromPassword salt password = Ok h →
  CreateUser salt username password role db = (db1, Ok tt) →
  FindByUsername username db1 = (db2, Ok u) →
  users_ok (view db1) ∧ Username u = username ∧
  Role u = (if decide (role = "") then "user" else role) ∧
  ValidateCredentials username q db1 =
    (db2, if CompareHashAndPassword h q then Ok u else Err "invalid credentials") ∧
  ValidateCredentials username password db1 = (db2, Ok u).
Proof.
  intros Hok Hh Hc Hf. unfold CreateUser, hash_of in Hc. rewrite Hh in Hc.
  apply create_user_ok in Hc as (Hok1 & k & now & Husers & _); [|done].
  pose proof Hf as Hf'. apply FindByUsername_ok in Hf as (_ & Hname & j & Hj).
  assert (u = new_user k now (user_row username h
    (if decide (role = "") then "user" else role))) as Hu.
  { destruct Hok1 as [_ Huniq].
    assert (users (view db1) !! k = Some (new_user k now (user_row username h
      (if decide (role = "") then "user" else role)))) as Hk.
    { rewrite Husers. apply lookup_insert_eq. }
    rewrite (Huniq j k _ _ Hj Hk) in Hj by done. rewrite Hk in Hj. by injection Hj as ->. }
  assert (∀ p, ValidateCredentials username p db1 =
    (db2, if CompareHashAndPassword h p then Ok u else Err "invalid credentials")) as Hval.
  { intros p. unfold ValidateCredentials, mbind, StE_bind. rewrite Hf', Hu.
    cbn [new_user user_row PasswordHash]. by destruct (CompareHashAndPassword h p). }
  split; [done|]. split; [done|]. split.
  - rewrite Hu. cbn [new_user user_row Role]. unfold default_string.
    destruct (decide (role = "")); [done|]. by rewrite decide_False.
  - split; [apply Hval|]. by rewrite Hval, (compare_generated salt password h Hh).
Qed.

(** A stand-in hash: the salt's length, then the password. *)
#[local] Instance plain_bcrypt : Bcrypt := {
  GenerateFromPassword := λ salt pw, Ok ("$" +:+ pw);
  CompareHashAndPassword := λ h pw, bool_decide (h = "$" +:+ pw) }.
#[local] Instance plain_bcrypt_laws : BcryptLaws.
Proof. split. intros salt pw h [= <-]. by apply bool_decide_eq_true. Qed.

Lemma created_account_logs_in_witness :
  ∃ u, ValidateCredentials "ann" "secret" (CreateUser [] "ann" "secret" "" empty_tables).1 =
    ((CreateUser [] "ann" "secret" "" empty_tables).1, Ok u) ∧ Role u = "user".
Proof.
  destruct (created_account_logs_in (DB := Tables) [] "ann" "secret" "" "$secret" empty_tables
    (CreateUser [] "ann" "secret" "" empty_tables).1
    (CreateUser [] "ann" "secret" "" empty_tables).1 "other" {|
      User_ID := 1; Username := "ann"; PasswordHash := "$secret"; Role := "user";
      User_CreatedAt := 0; User_UpdatedAt := 0 |}) as (_ & _ & Hr & _ & Hv).
  - by split; intros j **; simplify_map_eq.
  - reflexivity.
  - vm_compute. reflexivity.
  - vm_compute. reflexivity.
  - eexists. split; [exact Hv|exact Hr].
Defined.

(** Creating the bootstrap accounts never touches an account that exists:
    when the name is taken, neither [EnsureAdmin] nor [EnsureUser] changes any
    row, whatever the outcome and in whichever order the count is read. *)
Theorem ensure_keeps_accounts `{EngineLaws DB, Bcrypt} crf salt username password role
    (db : DB) k u :
  users (view db) !! k = Some u → Username u = username →
  view (EnsureAdmin crf salt username password db).1 = view db ∧
  view (EnsureUser crf salt username password role db).1 = view db.
Proof.
  intros Hk Hu. unfold EnsureAdmin, EnsureUser, mbind, StE_bind.
  pose proof (CountByUsername_view crf username db) as Hv.
  destruct (CountByUsername crf username db) as [db1 [n|e]]; simpl in Hv; [|done].
  rewrite <- Hv in Hk. destruct (decide (0 < n)); [done|]. rewrite <- Hv.
  split; by eapply create_taken.
Qed.

Lemma ensure_keeps_accounts_witness :
  let t := (CreateUser [] "admin" "chosen" "admin" empty_tables).1 in
  (EnsureAdmin true [] "admin" "admin" t).1 = t.
Proof.
  cbv zeta.
  destruct (ensure_keeps_accounts (DB := Tables) true [] "admin" "admin" ""
    (CreateUser [] "admin" "chosen" "admin" empty_tables).1 1 {|
      User_ID := 1; Username := "admin"; PasswordHash := "$chosen"; Role := "admin";
      User_CreatedAt := 0; User_UpdatedAt := 0 |}) as [Ha _]; [vm_compute; reflexivity..|].
  exact Ha.
Defined.

(** *** Website rules *)

Section WebsiteFacts.
Context `{EngineLaws DB}.

Lemma Website_ListRules_ok dev db db' rules :
  Website_ListRules dev db = (db', Ok rules) →
  view db' = view db ∧
  StronglySorted (λ a b, WebsiteBlockRule_CreatedAt b ≤ WebsiteBlockRule_CreatedAt a) rules ∧
  rules ≡ₚ filter (λ r, live_rule dev r = true) (map_to_list (website_block_rules (view db))).*2.
Proof.
  intros Hl. apply run_ok in Hl as (ev & Hev & [= Hv <-]).
  split; [done|]. split; [apply order_by_sorted|].
  etrans; [apply merge_sort_Permutation|]. unfold select.
  by rewrite (arrange_perm ev Hev).
Qed.

(** The status row of a device; a missing one is created, disabled. *)
Lemma Website_GetStatus_ok dev db db' s :
  Website_GetStatus dev db = (db', Ok s) →
  website_block_rules (view db') = website_block_rules (view db) ∧
  WebsiteBlockStatus_DeviceID s = dev ∧
  (∃ k, website_block_statuses (view db') !! k = Some s) ∧
  ((∃ k, website_block_statuses (view db) !! k = Some s ∧ view db' = view db) ∨
   WebsiteBlockStatus_Enabled s = false ∧
   ∀ k r, website_block_statuses (view db) !! k = Some r → WebsiteBlockStatus_DeviceID r ≠ dev).
Proof.
  intros Hg. unfold Website_GetStatus in Hg. unfold attempt, mbind, StE_bind in Hg.
  destruct (run _ db) as [db1 [s0|e]] eqn:Er.
  - injection Hg as <- <-. apply run_ok in Er as (ev & Hev & Er).
    destruct (first_status ev dev (view db)) as [s1|] eqn:Ef; [|done]. injection Er as Hv ->.
    apply first_ok in Ef. apply (elem_of_select ev _ _ _ Hev) in Ef as [Hp [k Hk]].
    apply bool_decide_eq_true in Hp. rewrite Hv in Hk |- *. split; [done|]. split; [done|].
    split; [by exists k|]. left. by exists k.
  - apply run_err in Er.
    simpl in Hg. case_decide; [|done].
    apply run_ok in Hg as (ev & Hev & Hg). unfold sql_create_status in Hg. rewrite Er in Hg.
    destruct (select _ _ _) eqn:Es; [|done]. injection Hg as Hv <-. rewrite <- Hv.
    cbn [with_statuses website_block_rules website_block_statuses].
    split; [done|]. split; [done|]. split; [eexists; apply lookup_insert_eq|].
    right. split; [done|]. intros k r Hk. apply (select_nil ev _ _ k r Hev Es) in Hk.
    by apply bool_decide_eq_false in Hk.
Qed.
End WebsiteFacts.

(** What is synchronised to an agent is the policy of its device: exactly
    the rules that are enabled and not deleted, newest first, and the device's
    own status; a device without one is sent (and given) a disabled status.
    Reading the policy changes no rule. *)
Theorem GetSyncData_exact `{EngineLaws DB} dev (db db' : DB) c :
  GetSyncData dev db = (db', Ok c) →
  website_block_rules (view db') = website_block_rules (view db) ∧
  Block_Rules c ≡ₚ ruleToDTO <$> filter (λ r, live_rule dev r = true ∧
    WebsiteBlockRule_Enabled r = true) (map_to_list (website_block_rules (view db))).*2 ∧
  StronglySorted (λ a b, RuleResponse_CreatedAt b ≤ RuleResponse_CreatedAt a) (Block_Rules c) ∧
  StatusResponse_DeviceID (Block_Status c) = dev ∧
  ((∃ k s, website_block_statuses (view db) !! k = Some s ∧ Block_Status c = statusToDTO s) ∨
   StatusResponse_Enabled (Block_Status c) = false ∧
   ∀ k s, website_block_statuses (view db) !! k = Some s → WebsiteBlockStatus_DeviceID s ≠ dev).
Proof.
  intros Hg. unfold GetSyncData in Hg. inv_bind. injection Hg as <- <-.
  apply Website_GetStatus_ok in E as (Hr & Hd & _ & Hs).
  apply Website_ListRules_ok in E0 as (Hv & Hsort & Hperm).
  cbn [Block_Rules Block_Status statusToDTO StatusResponse_DeviceID StatusResponse_Enabled].
  split; [by rewrite Hv|]. split.
  { apply fmap_Permutation. rewrite Hperm, Hr, list_filter_filter.
    apply Permutation_refl', list_filter_iff. naive_solver. }
  split; [|split; [done|]; destruct Hs as [(k & Hk & _)|Hs]; [left|right]; eauto].
  clear Hperm. induction Hsort as [|r l _ IH Ha]; [constructor|].
  rewrite filter_cons. case_decide; [|done]. constructor; [done|].
  apply Forall_fmap, Forall_forall. intros x [_ Hx]%list_elem_of_filter.
  rewrite Forall_forall in Ha. by apply (Ha x).
Qed.

Definition sample_rule (domain : string) (enabled : bool) : WebsiteBlockRuleRequest := {|
  Request_Type := "domain"; Request_Category := ""; Request_Domain := domain;
  Request_Enabled := enabled |}.
Definition sample_rules : Tables :=
  let t1 := (CreateRule "laptop" (sample_rule "a.com" true) empty_tables).1 in
  let t2 := (CreateRule "laptop" (sample_rule "b.com" true) t1).1 in
  (UpdateRule 1 (sample_rule "" false) t2).1.

Lemma GetSyncData_exact_witness :
  ∃ c, (GetSyncData "laptop" sample_rules).2 = Ok c ∧
    StatusResponse_DeviceID (Block_Status c) = "laptop" ∧
    (RuleResponse_Domain <$> Block_Rules c) = ["b.com"].
Proof.
  destruct (GetSyncData "laptop" sample_rules) as [db' [c|e]] eqn:E;
    [|apply (f_equal (λ r, is_ok r.2)) in E; vm_compute in E; discriminate].
  exists c. split; [reflexivity|].
  destruct (GetSyncData_exact (DB := Tables) "laptop" sample_rules db' c E)
    as (_ & _ & _ & Hd & _).
  split; [exact Hd|].
  apply (f_equal (λ r, match r.2 with Ok c => RuleResponse_Domain <$> Block_Rules c | _ => [] end))
    in E. vm_compute in E. symmetry. exact E.
Defined.

(** A rule request without what its type needs is refused with the database
    untouched; an accepted one is stored for its device and listed, and it is
    enabled even when it was to be created disabled: the column's default
    replaces [false]. *)
Theorem CreateRule_enabled `{EngineLaws DB} dev req (db db' : DB) r :
  CreateRule dev req db = (db', r) →
  let valid := Request_Type req = "category" ∧ Request_Category req ≠ "" ∨
               Request_Type req = "domain" ∧ Request_Domain req ≠ "" in
  (¬ valid → db' = db ∧ r = Err ErrInvalidInput) ∧
  (∀ resp, r = Ok resp → valid ∧ RuleResponse_Enabled resp = true ∧
     RuleResponse_DeviceID resp = dev ∧ RuleResponse_Type resp = Request_Type req ∧
     RuleResponse_Category resp = Request_Category req ∧
     RuleResponse_Domain resp = Request_Domain req ∧
     ∀ db2 l, ListRules dev db' = (db2, Ok l) → resp ∈ l).
Proof.
  intros Hc valid. unfold CreateRule in Hc.
  destruct (decide (Request_Type req ≠ "category" ∧ Request_Type req ≠ "domain")) as [|H1];
    [injection Hc as <- <-; subst valid; split; [done|naive_solver]|].
  destruct (decide (Request_Type req = "category" ∧ Request_Category req = "")) as [|H2];
    [injection Hc as <- <-; subst valid; split; [done|naive_solver]|].
  destruct (decide (Request_Type req = "domain" ∧ Request_Domain req = "")) as [|H3];
    [injection Hc as <- <-; subst valid; split; [done|naive_solver]|].
  assert (valid) as Hvalid.
  { subst valid. destruct (decide (Request_Type req = "category")); [left; tauto|].
    destruct (decide (Request_Type req = "domain")); [right; tauto|]. by destruct H1. }
  split; [intros Hn; by destruct (Hn Hvalid)|]. intros resp ->. split; [done|]. inv_bind.
  apply run_ok in E as (ev & Hev & [= Hv <-]). injection Hc as <- <-.
  split; [by destruct req as [? ? ? []]|]. repeat (split; [done|]).
  intros db2 l Hl. unfold ListRules in Hl. inv_bind.
  injection Hl as <- <-. apply Website_ListRules_ok in E as (_ & _ & Hperm).
  apply list_elem_of_fmap_2. rewrite Hperm, <- Hv. apply list_elem_of_filter. split.
  - unfold live_rule. cbn. by rewrite bool_decide_eq_true_2.
  - apply list_elem_of_fmap. cbn [with_rules website_block_rules]. eexists (_, _).
    split; [reflexivity|]. apply elem_of_map_to_list, lookup_insert_eq.
Qed.

Lemma CreateRule_enabled_witness :
  ∃ db' resp, CreateRule "laptop" (sample_rule "a.com" false) empty_tables = (db', Ok resp) ∧
    RuleResponse_Enabled resp = true.
Proof.
  destruct (CreateRule "laptop" (sample_rule "a.com" false) empty_tables) as [db' [resp|e]] eqn:E;
    [|apply (f_equal (λ r, is_ok r.2)) in E; vm_compute in E; discriminate].
  exists db', resp. split; [reflexivity|].
  destruct (CreateRule_enabled (DB := Tables) "laptop" (sample_rule "a.com" false) empty_tables
    db' (Ok resp) E) as [_ Hok].
  apply (Hok resp). reflexivity.
Defined.

(** Blocking cannot be switched off once it is on: [UpdateStatus] with
    [false] leaves every enabled status enabled, because the assignment skips
    the zero value. *)
Theorem disable_is_lost `{EngineLaws DB} dev (db : DB) k s :
  website_block_statuses (view db) !! k = Some s → WebsiteBlockStatus_Enabled s = true →
  ∃ s', website_block_statuses (view (UpdateStatus dev false db).1) !! k = Some s' ∧
    WebsiteBlockStatus_DeviceID s' = WebsiteBlockStatus_DeviceID s ∧
    WebsiteBlockStatus_Enabled s' = true.
Proof.
  intros Hk Hs. unfold UpdateStatus, Website_UpdateStatus. unfold mbind at 1, StE_bind at 1.
  destruct (run _ db) as [db1 [found|e]] eqn:Er.
  2:{ apply run_err in Er. simpl. rewrite Er. eauto. }
  apply run_ok in Er as (ev & Hev & [= Hv <-]). rewrite Hv in Hk.
  destruct (first_status ev dev (view db)) as [s1|e1].
  - destruct (run _ db1) as [db2 [[]|e2]] eqn:E2; simpl.
    + apply run_ok in E2 as (ev2 & _ & [= Hv2]). rewrite <- Hv2.
      cbn [with_statuses website_block_statuses]. rewrite update_where_lookup, Hk. simpl.
      destruct (_ =? _); eauto.
    + apply run_err in E2. rewrite E2. eauto.
  - unfold mbind, StE_bind. destruct (run _ db1) as [db2 [x|e2]] eqn:E2; simpl.
    + apply run_ok in E2 as (ev2 & Hev2 & E2). unfold sql_create_status in E2.
      destruct (select _ _ _); [|done]. injection E2 as Hv2 _. rewrite <- Hv2.
      cbn [with_statuses website_block_statuses]. exists s. split; [|done].
      rewrite lookup_insert_ne; [done|]. cbn [new_status WebsiteBlockStatus_ID].
      intros Heq. pose proof (next_key_free ev2 (website_block_statuses (view db1)) Hev2) as Hf.
      rewrite Heq, Hk in Hf. done.
    + apply run_err in E2. rewrite E2. eauto.
Qed.

Lemma disable_is_lost_witness :
  let t := (UpdateStatus "laptop" true empty_tables).1 in
  ∃ s', website_block_statuses (UpdateStatus "laptop" false t).1 !! 1 = Some s' ∧
    WebsiteBlockStatus_Enabled s' = true.
Proof.
  destruct (disable_is_lost (DB := Tables) "laptop" (UpdateStatus "laptop" true empty_tables).1 1
    (new_status 1 0 "laptop" true)) as (s' & Hs & _ & He); [vm_compute; reflexivity..|].
  exists s'. split; [exact Hs|exact He].
Defined.
