(* ===== verification/ContentTypes.v ===== *)
(** * Content types

    backend/app/repo/content_type_repo.go and
    backend/app/services/content_type_service.go ([ContentTypeRepository.Get] is in
    FileTree.v, where it is used; nothing calls the writes).

    [ContentType] is soft-deleted: GORM adds [deleted_at IS NULL] to its queries, and
    a [Delete] sets the column.  The unique index on the name knows nothing of it.
    What GORM's [Save] does on two unique keys is a parameter. *)

From S2P Require Export Repos FileTree.

Local Open Scope Z_scope.

Section ContentTypes.
Context `{Engine DB}.

(** ** The repository *)

Definition live_type (c : ContentType) : bool := bool_decide (ContentType_DeletedAt c = None).
Definition has_type_id (id : Z) (c : ContentType) : bool := ContentType_ID c =? id.
Definition has_name (name : string) (c : ContentType) : bool := bool_decide (ContentType_Name c = name).

Definition ContentTypes_List : StE DB (list ContentType) :=
  run (λ ev t, Ok (t, select ev live_type (content_types t))).

(** [Create] generates a key that is zero and fills in the times that are. *)
Definition non_zero (dflt z : Z) : Z := if decide (z = 0) then dflt else z.
Definition new_content_type (id now : Z) (c : ContentType) : ContentType := {|
  ContentType_ID := id; ContentType_Name := ContentType_Name c; Description := Description c;
  ContentType_CreatedAt := non_zero now (ContentType_CreatedAt c);
  ContentType_UpdatedAt := non_zero now (ContentType_UpdatedAt c);
  ContentType_DeletedAt := ContentType_DeletedAt c |}.
Definition sql_create_content_type (c : ContentType) : stmt ContentType := λ ev t,
  let id := non_zero (next_key ev (map_to_list (content_types t)).*1) (ContentType_ID c) in
  let c' := new_content_type id (clock ev) c in
  match content_types t !! id, select ev (has_name (ContentType_Name c)) (content_types t) with
  | Some _, _ => Err "Duplicate entry for key 'content_types.PRIMARY'"
  | None, _ :: _ => Err "Duplicate entry for key 'content_types.name'"
  | None, [] => Ok (with_content_types (<[id := c']> (content_types t)) t, c')
  end.
(** The row as it was written, or an error. *)
Definition ContentTypes_Create (c : ContentType) : StE DB ContentType := run (sql_create_content_type c).

Definition ContentTypes_Update (gorm_save : ContentType → stmt ContentType) (c : ContentType) :
    StE DB ContentType := run (gorm_save c).

Definition delete_type (now : Z) (c : ContentType) : ContentType := {|
  ContentType_ID := ContentType_ID c; ContentType_Name := ContentType_Name c;
  Description := Description c; ContentType_CreatedAt := ContentType_CreatedAt c;
  ContentType_UpdatedAt := ContentType_UpdatedAt c; ContentType_DeletedAt := Some now |}.
Definition ContentTypes_Delete (now id : Z) : StE DB unit :=
  run (λ ev t, Ok (with_content_types
    (update_where (λ c, has_type_id id c && live_type c) (delete_type now) (content_types t)) t, tt)).

(** ** The service *)

Definition TypeService_List : StE DB (list ContentType) := ContentTypes_List.
Definition TypeService_Get (id : Z) : StE DB (option ContentType) := content_type_get id.
Definition TypeService_Create (c : ContentType) : StE DB ContentType := ContentTypes_Create c.
Definition TypeService_Update (gorm_save : ContentType → stmt ContentType) (c : ContentType) :
    StE DB ContentType := ContentTypes_Update gorm_save c.
Definition TypeService_Delete (now id : Z) : StE DB unit := ContentTypes_Delete now id.
End ContentTypes.

(** ** Properties *)

Section Facts.
Context `{EngineLaws DB}.

Definition types_ok (t : Tables) : Prop := keyed ContentType_ID (content_types t).

Lemma ContentTypes_List_ok db db' l :
  ContentTypes_List db = (db', Ok l) →
  view db' = view db ∧
  ∀ c, c ∈ l ↔ live_type c = true ∧ ∃ k, content_types (view db) !! k = Some c.
Proof.
  intros Hl. apply run_ok in Hl as (ev & Hev & [= Hv <-]). split; [done|].
  intros c. by apply elem_of_select.
Qed.

Lemma content_type_get_ok id db db' r :
  types_ok (view db) → content_type_get id db = (db', Ok r) →
  view db' = view db ∧ r = (c ← content_types (view db) !! id; if live_type c then Some c else None).
Proof.
  intros Hk Hg. apply run_ok in Hg as (ev & Hev & [= Hv <-]). split; [done|].
  set (sel := select ev _ _).
  assert (∀ c, c ∈ sel ↔ live_type c = true ∧ content_types (view db) !! id = Some c) as Hsel.
  { intros c. unfold sel. rewrite elem_of_select by done. rewrite andb_true_iff, bool_decide_eq_true.
    split; [intros [[Hid Hl] [k Hc]]|intros [Hl Hc]].
    - pose proof (Hk _ _ Hc) as Hkey. by split; [|congruence].
    - split; [split; [by apply Hk|done]|by exists id]. }
  destruct sel as [|c l]; cbn [head].
  - destruct (content_types (view db) !! id) as [c|] eqn:Ec; [|done]. cbn [mbind option_bind].
    destruct (live_type c) eqn:El; [|done]. exfalso. by eapply not_elem_of_nil, Hsel.
  - destruct (Hsel c) as [Hc _]. destruct Hc as [Hl Hc]; [by left|]. rewrite Hc. cbn [mbind option_bind].
    by rewrite Hl.
Qed.

(** A type that was created is there, under the key it was given. *)
Lemma create_then_get c db db1 c' db2 r :
  types_ok (view db) → ContentType_DeletedAt c = None →
  TypeService_Create c db = (db1, Ok c') → TypeService_Get (ContentType_ID c') db1 = (db2, Ok r) →
  r = Some c' ∧ ContentType_Name c' = ContentType_Name c ∧ types_ok (view db1).
Proof.
  intros Hk Hd Hc Hg. apply run_ok in Hc as (ev & Hev & Hc). unfold sql_create_content_type in Hc.
  set (id := non_zero _ _) in Hc. destruct (content_types (view db) !! id) eqn:Eid; [done|].
  destruct (select _ _ _); [|done]. injection Hc as Hv <-.
  assert (types_ok (view db1)) as Hk1.
  { unfold types_ok. rewrite <- Hv. cbn [with_content_types content_types].
    by apply keyed_insert. }
  apply content_type_get_ok in Hg as [_ ->]; [|done]. split; [|by split].
  rewrite <- Hv. cbn [with_content_types content_types new_content_type ContentType_ID].
  rewrite lookup_insert_eq. cbn [mbind option_bind]. unfold live_type.
  cbn [new_content_type ContentType_DeletedAt]. by rewrite Hd, bool_decide_eq_true_2.
Qed.

Lemma Delete_row now id db db' :
  types_ok (view db) → ContentTypes_Delete now id db = (db', Ok tt) →
  types_ok (view db') ∧
  ∀ k, content_types (view db') !! k =
    (λ c, if decide (k = id) then if live_type c then delete_type now c else c else c)
      <$> content_types (view db) !! k.
Proof.
  intros Hk Hd. apply run_ok in Hd as (ev & Hev & [= Hv]). rewrite <- Hv.
  unfold types_ok. cbn [with_content_types content_types]. split.
  - apply keyed_update; [done|]. by intros [].
  - intros k. rewrite update_where_lookup.
    destruct (content_types (view db) !! k) as [c|] eqn:Ec; [|done]. cbn. f_equal.
    unfold has_type_id. rewrite (Hk _ _ Ec).
    destruct (Z.eqb_spec k id); destruct (decide (k = id)); done.
Qed.

(** A deleted type is gone from every query, and its name can never be used again. *)
Lemma deleted_type_keeps_name now id c db db1 :
  types_ok (view db) → content_types (view db) !! id = Some c →
  TypeService_Delete now id db = (db1, Ok tt) →
  (∀ db2 r, TypeService_Get id db1 = (db2, Ok r) → r = None) ∧
  (∀ db2 l x, TypeService_List db1 = (db2, Ok l) → x ∈ l → ContentType_ID x ≠ id) ∧
  (∀ c', ContentType_Name c' = ContentType_Name c → is_ok (TypeService_Create c' db1).2 = false).
Proof.
  intros Hk Hc Hd. destruct (Delete_row _ _ _ _ Hk Hd) as [Hk1 Hrows].
  pose proof (Hrows id) as Hrow. rewrite Hc in Hrow.
  cbn [fmap option_fmap option_map] in Hrow. rewrite decide_True in Hrow by done.
  set (d := if live_type c then _ else _) in Hrow.
  assert (live_type d = false ∧ ContentType_Name d = ContentType_Name c) as [Hl Hn].
  { unfold d. by destruct (live_type c) eqn:E. }
  split_and!.
  - intros db2 r Hg. apply content_type_get_ok in Hg as [_ ->]; [|done]. rewrite Hrow.
    cbn [mbind option_bind]. by rewrite Hl.
  - intros db2 l x Hll Hx Hid. apply ContentTypes_List_ok in Hll as [_ Hin].
    apply Hin in Hx as [Hlx [k Hkx]]. pose proof (Hk1 _ _ Hkx) as Hkey.
    assert (k = id) as -> by congruence. rewrite Hrow in Hkx. injection Hkx as <-. congruence.
  - intros c' Hname. destruct (TypeService_Create c' db1) as [db2 [r|e]] eqn:Ec; [|done]. exfalso.
    apply run_ok in Ec as (ev & Hev & Ec). unfold sql_create_content_type in Ec.
    destruct (content_types (view db1) !! non_zero _ _); [done|].
    destruct (select ev _ _) eqn:Es; [|done].
    apply (not_elem_of_nil d). rewrite <- Es. apply elem_of_select; [done|]. split; [|by exists id].
    apply bool_decide_eq_true_2. congruence.
Qed.
End Facts.

Lemma deleted_type_keeps_name_witness :
  is_ok (TypeService_Create (DB := Tables) {|
    ContentType_ID := 0; ContentType_Name := "secret"; Description := "again";
    ContentType_CreatedAt := 0; ContentType_UpdatedAt := 0; ContentType_DeletedAt := None |}
    (TypeService_Delete (DB := Tables) 9 1 (TypeService_Create (DB := Tables) {|
      ContentType_ID := 0; ContentType_Name := "secret"; Description := "";
      ContentType_CreatedAt := 0; ContentType_UpdatedAt := 0; ContentType_DeletedAt := None |}
      empty_tables).1).1).2 = false.
Proof. reflexivity. Qed.
