(* ===== verification/Controller.v ===== *)
(** * The protocol controller

    backend/app/controllers/ (ProtocolController: router, login, devices, backup
    transfer, admin commands, disconnect), backend/app/jwt/jwt.go and the
    callbacks of backend/server/protocol.go.

    A handler is a function of the server's state: the sessions, files and
    database of [Backup], the hub and the device registry, the issued tokens, the
    active uploads, the frames written so far and the goroutines started by
    logins.  [encoding/json] on the message types and the JWT library are
    interfaces; clock, randomness and failing sockets or files are the
    environment of a call. *)

From S2P Require Export Prelude GoStrings Wire Registry Store FileTree Backup Repos.

Local Open Scope Z_scope.

(** ** Messages *)

Record ProtocolLoginRequest := {
  Login_Username : string;
  Login_Password : string;
  Login_DeviceID : string;
  Login_Name : string;
  Login_OSName : string;
  Login_OSVersion : string;
  Login_Hostname : string;
  Login_Arch : string }.

Record DeviceRequest := {
  Req_UUID : string;
  Req_Name : string;
  Req_OSName : string;
  Req_OSVersion : string;
  Req_Hostname : string;
  Req_Arch : string }.

Record BackupDownloadStartRequest := {
  Start_SessionID : string;
  Start_Token : string;
  Start_Offset : Z }.

(** A [json.RawMessage] is its bytes; a missing one is empty. *)
Record AdminSendCommandRequest := {
  Send_DeviceID : string;
  Send_Command : string;
  Send_Kind : string;
  Send_Payload : list ascii }.

Record CommandRequest := {
  Wire_DeviceID : string;
  Wire_Command : string;
  Wire_Kind : string;
  Wire_Argument : list ascii }.

Record AdminSendCommandResponse := { Sent_ID : Z; Sent_Status : string; Sent : bool }.

Record DeviceSummary := { Summary_UUID : string; Summary_Name : string; Online : bool }.

Record AdminListTreeRequest := {
  Tree_DeviceID : string;
  Tree_ParentID : option string;
  Tree_Page : Z;
  Tree_PageSize : Z }.

Record TreeNodeResponse := {
  Node_ID : string;
  Node_Name : string;
  Node_Type : string;
  Node_ParentID : option string;
  Node_Size : Z;
  Node_Extension : string;
  Node_ContentTypeIDs : list Z;
  Node_UpdatedAt : Z;
  Node_DeletedAt : option Z }.

Record AdminListTreeResponse := { Nodes : list TreeNodeResponse; Truncated : bool }.

(** The values handed to [sendAckJSON]. *)
Inductive reply :=
  | RNil
  | RLogin (tok deviceID : string)
  | RSession (r : BackupSessionResponse)
  | RSend (r : AdminSendCommandResponse)
  | RDevices (ds : list DeviceSummary)
  | ROnline (ids : list string)
  | RTree (r : AdminListTreeResponse).

(** [encoding/json] on these types.  The envelope is its action and raw data. *)
Class Json := {
  decode_envelope : list ascii → result (string * list ascii);
  decode_login : list ascii → result ProtocolLoginRequest;
  decode_device : list ascii → result DeviceRequest;
  decode_changes : list ascii → result (list FileChange);
  decode_lines : list ascii → result string;
  decode_upload : list ascii → result BackupUploadInitRequest;
  decode_download : list ascii → result string;
  decode_start : list ascii → result BackupDownloadStartRequest;
  decode_send : list ascii → result AdminSendCommandRequest;
  decode_tree : list ascii → result AdminListTreeRequest;
  encode_command : CommandRequest → result (list ascii);
  encode_reply : reply → result (list ascii) }.

(** ** Tokens (backend/app/jwt) *)

Record Claims := {
  Claims_UserID : Z;
  Claims_Username : string;
  Claims_Role : string;
  Claims_DeviceID : string;
  Issuer : string;
  IssuedAt : Z;
  ExpiresAt : Z }.

(** golang-jwt: HS256 signing, and parsing with verification of signature and
    expiry at the current time. *)
Class JwtLib := {
  SignedString : string → Claims → result string;
  ParseWithClaims : string → Z → string → result Claims }.

Record Signer := { Secret : string; Signer_Issuer : string; ExpMin : Z }.

(** [now] is in nanoseconds, the numeric dates in seconds. *)
Definition Sign `{JwtLib} (s : Signer) (now userID : Z) (username role deviceID : string) :
    result string :=
  let exp := now + i64 (ExpMin s * (60 * 10 ^ 9)) in
  SignedString (Secret s) {|
    Claims_UserID := userID; Claims_Username := username; Claims_Role := role;
    Claims_DeviceID := deviceID; Issuer := Signer_Issuer s;
    IssuedAt := now / 10 ^ 9; ExpiresAt := exp / 10 ^ 9 |}.
Definition Parse `{JwtLib} (s : Signer) (now : Z) (tokenStr : string) : result Claims :=
  ParseWithClaims (Secret s) now tokenStr.

(** ** The server's state *)

(** Which of the controller's parts are not nil. *)
Record ProtocolController := {
  CmdRepo : bool;
  Devices : bool;
  Tree : bool;
  Logs : bool;
  Backup_ : option BackupConfig;
  Users : bool;
  Signer_ : option Signer }.

(** What a call meets: [up n fd] tells whether socket [fd] takes a frame when
    [n] frames have been written before. *)
Record call_env := {
  up : nat → Z → bool;
  os : os_env;
  read_err : nat → option string;
  nano : Z;
  nanos : nat → Z;             (* the readings of the clock within a report *)
  random1 : option (list ascii);
  random2 : option (list ascii);
  new_uuid : string }.
Definition unix (env : call_env) : Z := nano env / 10 ^ 9.

Record ServerState (DB : Type) := {
  backup : BackupState DB;
  hub : Hub;
  reg : list device_entry;
  deviceTokens : gmap string string;
  activeUpload : gmap string (string * string);
  wire : list (Z * list ascii);
  spawned : list string }.
Arguments backup {DB} _.
Arguments hub {DB} _.
Arguments reg {DB} _.
Arguments deviceTokens {DB} _.
Arguments activeUpload {DB} _.
Arguments wire {DB} _.
Arguments spawned {DB} _.

Section Controller.
Context `{Engine DB, Sha1, Bcrypt, JwtLib, Json}.
Context (ctl : ProtocolController).

Abbreviation State := (ServerState DB) (only parsing).

Definition set_backup (b : BackupState DB) (s : State) : State := {|
  backup := b; hub := hub s; reg := reg s; deviceTokens := deviceTokens s;
  activeUpload := activeUpload s; wire := wire s; spawned := spawned s |}.
Definition set_hub (h : Hub) (s : State) : State := {|
  backup := backup s; hub := h; reg := reg s; deviceTokens := deviceTokens s;
  activeUpload := activeUpload s; wire := wire s; spawned := spawned s |}.
Definition set_tokens (m : gmap string string) (s : State) : State := {|
  backup := backup s; hub := hub s; reg := reg s; deviceTokens := m;
  activeUpload := activeUpload s; wire := wire s; spawned := spawned s |}.
Definition set_uploads (m : gmap string (string * string)) (s : State) : State := {|
  backup := backup s; hub := hub s; reg := reg s; deviceTokens := deviceTokens s;
  activeUpload := m; wire := wire s; spawned := spawned s |}.
Definition written (fd : Z) (frame : list ascii) (s : State) : State := {|
  backup := backup s; hub := hub s; reg := reg s; deviceTokens := deviceTokens s;
  activeUpload := activeUpload s; wire := wire s ++ [(fd, frame)]; spawned := spawned s |}.
Definition set_spawned (l : list string) (s : State) : State := {|
  backup := backup s; hub := hub s; reg := reg s; deviceTokens := deviceTokens s;
  activeUpload := activeUpload s; wire := wire s; spawned := l |}.

Definition on_backup {A} (m : StE (BackupState DB) A) : StE State A := zoom backup set_backup m.
Definition on_db {A} (m : StE DB A) : StE State A := on_backup (zoom db set_db m).

(** A method of [TCPClient]: the frame it built, if any, goes to its socket. *)
Definition transmit (env : call_env) (client : TCPClient) (what : string)
    (frame : result (list ascii)) : StE State unit := λ s,
  match frame with
  | Err e => (s, Err e)
  | Ok [] => (s, Ok tt)
  | Ok f =>
      if up env (length (wire s)) (client_fd client)
      then (written (client_fd client) f s, Ok tt) else (s, Err what)
  end.

(** [_ = client.SendAck(code, msg)]. *)
Definition ack (env : call_env) (client : TCPClient) (code : Z) (msg : string) : StE State unit :=
  ignore (transmit env client "send ack failed" (SendAck client (u16 code) msg)).

Definition maxLen : nat := 3800.
Definition sendAckJSON (env : call_env) (client : TCPClient) (code : Z) (payload : reply) :
    StE State unit :=
  match payload with
  | RNil => ack env client code ""
  | _ =>
      match encode_reply payload with
      | Err e => ack env client code e
      | Ok b =>
          if decide (maxLen < length b)%nat then ack env client 413 "response too large"
          else ack env client code (of_bytes b)
      end
  end.

Definition authorized (s : State) (deviceID : string) : bool :=
  bool_decide (deviceID ≠ "") && bool_decide (default "" (deviceTokens s !! deviceID) ≠ "").
Definition isAuthorized (deviceID : string) : StE State bool := gets (λ s : State, authorized s deviceID).

(** ** Commands to devices *)

Definition hub_send (env : call_env) (deviceID : string) (payload : list ascii) :
    StE State unit := λ s,
  match Hub_Send (up env (length (wire s))) (hub s) (reg s) deviceID payload with
  | Ok (fd, frame) => (written fd frame s, Ok tt)
  | Err e => (s, Err e)
  end.

Definition retry_request (deviceID : string) (cmd : AgentCommand) : CommandRequest := {|
  Wire_DeviceID := deviceID; Wire_Command := Command cmd; Wire_Kind := Kind cmd;
  Wire_Argument := to_bytes (Payload cmd) |}.

Fixpoint retry_commands (env : call_env) (deviceID : string) (cmds : list AgentCommand) :
    StE State unit :=
  match cmds with
  | [] => mret tt
  | cmd :: rest =>
      match encode_command (retry_request deviceID cmd) with
      | Err e =>
          ignore (on_db (Commands_UpdateStatus (AgentCommand_ID cmd) "failed" e));;
          retry_commands env deviceID rest
      | Ok payload =>
          r ← attempt (hub_send env deviceID payload);
          match r with
          | Err e => ignore (on_db (Commands_UpdateStatus (AgentCommand_ID cmd) "failed" e))
          | Ok _ =>
              ignore (on_db (MarkSent (AgentCommand_ID cmd)));;
              retry_commands env deviceID rest
          end
      end
  end.

Definition retryPendingCommands (env : call_env) (deviceID : string) : StE State unit :=
  if negb (CmdRepo ctl) then mret tt else
  r ← attempt (on_db (ListByDevice deviceID false));
  match r with
  | Err _ => mret tt
  | Ok cmds => retry_commands env deviceID cmds
  end.

Definition pending_command (req : AdminSendCommandRequest) : AgentCommand := {|
  AgentCommand_ID := 0; AgentCommand_DeviceID := Send_DeviceID req; Command := Send_Command req;
  Kind := Send_Kind req; Payload := of_bytes (Send_Payload req); Status := "pending";
  LastError := ""; AgentCommand_CreatedAt := 0; AgentCommand_UpdatedAt := 0; SentAt := None |}.
Definition wire_request (req : AdminSendCommandRequest) : CommandRequest := {|
  Wire_DeviceID := Send_DeviceID req; Wire_Command := Send_Command req;
  Wire_Kind := Send_Kind req; Wire_Argument := Send_Payload req |}.

(** The immediate delivery: whether the command was sent. *)
Definition send_now (env : call_env) (req : AdminSendCommandRequest) (id : Z) : StE State bool :=
  online ← gets (λ s : State, IsOnline (hub s) (reg s) (Send_DeviceID req));
  if negb online then mret false else
  match encode_command (wire_request req) with
  | Err _ => mret false
  | Ok b =>
      r ← attempt (hub_send env (Send_DeviceID req) b);
      match r with
      | Ok _ => ignore (on_db (MarkSent (DB := DB) id));; mret true
      | Err e => ignore (on_db (Commands_UpdateStatus (DB := DB) id "pending" e));; mret false
      end
  end.

Definition handleAdminSendCommand (env : call_env) (payload : list ascii) : StE State reply :=
  if negb (CmdRepo ctl) then fail "command repo not available" else
  req ← lift (decode_send payload);
  if decide (Send_DeviceID req = "" ∨ Send_Command req = "")
  then fail "missing device_id or command" else
  cmd ← wrap_st "queue command: " (on_db (Commands_Create (pending_command req)));
  sent ← send_now env req (AgentCommand_ID cmd);
  mret (RSend {| Sent_ID := AgentCommand_ID cmd;
                 Sent_Status := if sent : bool then "sent" else "pending"; Sent := sent |}).

(** ** Login and devices *)

Definition login_device (deviceID : string) (req : ProtocolLoginRequest) : Device := {|
  Device_ID := 0; UUID := deviceID; Device_Name := Login_Name req; UserID := 0;
  OSName := Login_OSName req; OSVersion := Login_OSVersion req;
  Hostname := Login_Hostname req; Arch := Login_Arch req;
  Device_CreatedAt := 0; Device_UpdatedAt := 0 |}.

(** "Ensure device exists": its errors are dropped. *)
Definition enrich_device (info : Device) : StE State unit :=
  if negb (Devices ctl) then mret tt else
  found ← attempt (on_db (FindByUUID (UUID info)));
  match found with
  | Err e =>
      if decide (e = ErrRecordNotFound) then ignore (on_db (UpsertDevice info)) else mret tt
  | Ok _ => ignore (on_db (UpsertDevice info))
  end.

Definition login_id (env : call_env) (msgDeviceID : string) (req : ProtocolLoginRequest) : string :=
  let deviceID := if decide (Login_DeviceID req = "") then msgDeviceID else Login_DeviceID req in
  if decide (deviceID = "") then "admin-" +:+ new_uuid env else deviceID.

Definition handleLogin (env : call_env) (msgDeviceID : string) (payload : list ascii) :
    StE State reply :=
  match Users ctl, Signer_ ctl with
  | true, Some signer =>
      req ← lift (decode_login payload);
      let deviceID := login_id env msgDeviceID req in
      user ← on_db (ValidateCredentials (Login_Username req) (Login_Password req));
      tok ← lift (Sign signer (nano env) (User_ID user) (Username user) (Role user) deviceID);
      modify (λ s : State, set_tokens
        (let m := <[deviceID := tok]> (deviceTokens s) in
         if decide (msgDeviceID ≠ "" ∧ msgDeviceID ≠ deviceID)
         then <[msgDeviceID := tok]> m else m) s);;
      enrich_device (login_device deviceID req);;
      mret (RLogin tok deviceID)
  | _, _ => fail "auth not available"
  end.

Definition register_device (deviceID : string) (req : DeviceRequest) : Device := {|
  Device_ID := 0; UUID := if decide (Req_UUID req = "") then deviceID else Req_UUID req;
  Device_Name := Req_Name req; UserID := 0; OSName := Req_OSName req;
  OSVersion := Req_OSVersion req; Hostname := Req_Hostname req; Arch := Req_Arch req;
  Device_CreatedAt := 0; Device_UpdatedAt := 0 |}.
Definition empty_device_request : DeviceRequest := {|
  Req_UUID := ""; Req_Name := ""; Req_OSName := ""; Req_OSVersion := ""; Req_Hostname := "";
  Req_Arch := "" |}.

(** The check every handler of a device starts with. *)
Definition require_authorized (deviceID : string) : StE State unit :=
  ok ← isAuthorized deviceID; if ok : bool then mret tt else fail "unauthorized".

Definition handleDeviceRegister (deviceID : string) (payload : list ascii) : StE State unit :=
  require_authorized deviceID;;
  if negb (Devices ctl) then mret tt else
  req ← (if decide (payload = []) then mret empty_device_request else lift (decode_device payload));
  let d := register_device deviceID req in
  if decide (UUID d = "") then fail "missing uuid" else on_db (UpsertDevice d).

Definition handleFileTreeSync (env : call_env) (deviceID : string) (payload : list ascii) :
    StE State unit :=
  require_authorized deviceID;;
  if negb (Tree ctl) then mret tt else
  if decide (deviceID = "") then fail "missing device id" else
  changes ← lift (decode_changes payload);
  on_db (ApplyChanges deviceID (nanos env) changes).

Definition handleAgentLog (deviceID : string) (payload : list ascii) : StE State unit :=
  require_authorized deviceID;;
  if negb (Logs ctl) then mret tt else
  if decide (deviceID = "") then fail "missing device id" else
  lines ← lift (decode_lines payload);
  if decide (lines = "") then fail "empty lines" else on_db (Logs_Create deviceID lines).

Definition handleAdminListDevices : StE State reply :=
  if negb (Devices ctl) then fail "device service not available" else
  ds ← on_db ListAll;
  s ← get_st;
  mret (RDevices ((λ d, {| Summary_UUID := UUID d; Summary_Name := Device_Name d;
    Online := IsOnline (hub s) (reg s) (UUID d) |}) <$> ds)).

Definition handleAdminListOnline (excludeDeviceID : string) : StE State reply :=
  if negb (Devices ctl) then mret (ROnline []) else
  r ← attempt (on_db ListAll);
  match r with
  | Err _ => mret (ROnline [])
  | Ok ds =>
      s ← get_st;
      mret (ROnline (filter (λ id, id ≠ excludeDeviceID ∧ IsOnline (hub s) (reg s) id = true)
        (UUID <$> ds)))
  end.

Definition nodeType (n : LoadedItem) : string :=
  match FolderID (item n) with Some _ => "dir" | None => "file" end.
Definition extFromItem (n : LoadedItem) : string :=
  match File n with
  | Some f => if decide (Extension f = "") then Item_Name (item n) else Extension f
  | None => Item_Name (item n)
  end.
Definition contentTypeIDs (n : LoadedItem) : list Z := ContentType_ID <$> Item_ContentTypes n.
(** Stored times are nanoseconds, [time.Time.Unix] gives whole seconds. *)
Definition Unix (t : Z) : Z := t / 10 ^ 9.
Definition deletedAtUnix (n : LoadedItem) : option Z := Unix <$> Item_DeletedAt (item n).
Definition node_response (n : LoadedItem) : TreeNodeResponse := {|
  Node_ID := Item_ID (item n); Node_Name := Item_Name (item n); Node_Type := nodeType n;
  Node_ParentID := ParentID (item n); Node_Size := TotalSize (item n);
  Node_Extension := extFromItem n; Node_ContentTypeIDs := contentTypeIDs n;
  Node_UpdatedAt := Unix (Item_UpdatedAt (item n)); Node_DeletedAt := deletedAtUnix n |}.

Definition tree_page (req : AdminListTreeRequest) : Z :=
  if decide (Tree_Page req < 1) then 1 else Tree_Page req.
Definition tree_page_size (req : AdminListTreeRequest) : Z :=
  let pageSize := if decide (Tree_PageSize req ≤ 0) then 15 else Tree_PageSize req in
  if decide (30 < pageSize) then 30 else pageSize.
Definition tree_query (req : AdminListTreeRequest) : ItemFilter := {|
  Filter_DeviceUUID := Tree_DeviceID req; Filter_ParentID := Tree_ParentID req;
  Filter_Search := ""; Filter_Extensions := []; Filter_ContentTypeIDs := [];
  Filter_Page := tree_page req; Filter_PageSize := tree_page_size req;
  Filter_IncludeDeleted := false; Filter_DeletedSince := "" |}.

Definition handleAdminListTree (env : call_env) (payload : list ascii) : StE State reply :=
  if negb (Tree ctl) then fail "file tree service not available" else
  req ← lift (decode_tree payload);
  if decide (Tree_DeviceID req = "") then fail "missing device_id" else
  r ← on_db (GetNodes (nano env) (tree_query req));
  let nodes := r.1 in
  let over := bool_decide (tree_page_size req < Z.of_nat (length nodes)) in
  let nodes := if over : bool then take (Z.to_nat (tree_page_size req)) nodes else nodes in
  mret (RTree {| Nodes := node_response <$> nodes; Truncated := over |}).

(** ** Backup transfer *)

Definition handleBackupInitUpload (env : call_env) (deviceID : string) (payload : list ascii) :
    StE State reply :=
  require_authorized deviceID;;
  match Backup_ ctl with
  | None => mret RNil
  | Some cfg =>
      if decide (deviceID = "") then fail "missing device id" else
      req ← lift (decode_upload payload);
      resp ← on_backup (PrepareUpload cfg (os env) (unix env) (nano env) (random1 env)
        (random2 env) deviceID req);
      modify (λ s : State, set_uploads (<[Response_SessionID resp :=
        (Response_SessionID resp, Response_Token resp)]> (activeUpload s)) s);;
      mret (RSession resp)
  end.

Definition handleBackupInitDownload (env : call_env) (deviceID : string) (payload : list ascii) :
    StE State reply :=
  require_authorized deviceID;;
  match Backup_ ctl with
  | None => mret RNil
  | Some cfg =>
      if decide (deviceID = "") then fail "missing device id" else
      name ← lift (decode_download payload);
      resp ← on_backup (PrepareDownload cfg (os env) (nano env) (random1 env) (random2 env)
        deviceID name);
      mret (RSession resp)
  end.

Definition chunkSize : nat := Z.to_nat (512 * 1024).

(** The read loop; [i] counts the reads.  A read fills the buffer as far as the
    file goes; each one takes a byte at least, so [length data + 1] is fuel
    enough. *)
Fixpoint send_chunks (env : call_env) (client : TCPClient) (sessionID tok : string)
    (fuel i : nat) (offset : Z) (data : list ascii) : StE State unit :=
  match fuel with
  | O => fail "out of fuel"
  | S fuel =>
      match read_err env i with
      | Some e => fail e
      | None =>
          match data with
          | [] => mret tt
          | _ =>
              let buf := take chunkSize data in
              transmit env client "send file chunk failed"
                (SendFileChunkWithSession client sessionID tok offset buf);;
              send_chunks env client sessionID tok fuel (S i)
                (u32 (offset + u32 (Z.of_nat (length buf)))) (drop chunkSize data)
          end
      end
  end.

Definition open_file (env : call_env) (path : string) : StE State (list ascii) :=
  match open_err (os env) path with
  | Some e => fail e
  | None =>
      found ← gets (λ s : State, files (backup s) !! path);
      match found with Some data => mret data | None => fail "no such file or directory" end
  end.

Definition handleBackupDownloadStart (env : call_env) (client : TCPClient) (deviceID : string)
    (payload : list ascii) : StE State unit :=
  require_authorized deviceID;;
  match Backup_ ctl with
  | None => fail "backup disabled"
  | Some _ =>
      req ← lift (decode_start payload);
      if decide (Start_SessionID req = "" ∨ Start_Token req = "")
      then fail "missing session id or token" else
      sess ← on_backup (ValidateSession (Start_SessionID req) (Start_Token req) DirectionDownload);
      transmit env client "send file meta failed"
        (SendFileMeta client (Session_FileName sess) (u64 (Session_FileSize sess)));;
      data ← open_file env (FinalPath sess);
      let data := drop (Z.to_nat (Start_Offset req)) data in
      send_chunks env client (Start_SessionID req) (Start_Token req) (S (length data)) 0
        (Start_Offset req) data;;
      transmit env client "send file done failed"
        (SendFileDoneWithSession client (Start_SessionID req) (Start_Token req))
  end.

(** The upload a frame belongs to: known, and with its own token. *)
Definition active_upload (msg : ProtocolMessage) (s : State) : option (string * string) :=
  ctx ← activeUpload s !! SessionID msg;
  if decide (ctx.2 = Token msg) then Some ctx else None.

(** [ChunkData == nil]: [convertProtocolMessage] set no slice. *)
Definition chunk_is_nil (msg : ProtocolMessage) : bool :=
  negb (bool_decide (2 ≤ zlen (Raw msg)) &&
        bool_decide (2 + byte_at (Raw msg) 0 + byte_at (Raw msg) 1 + 8 ≤ zlen (Raw msg))).

(** [Seek] then [Write]: the gap before the offset, if any, reads as zeros. *)
Definition write_at (offset : nat) (data contents : list ascii) : list ascii :=
  take offset contents ++ replicate (offset - length contents) Ascii.zero ++ data ++
  drop (offset + length data) contents.

Definition write_chunk (env : call_env) (path : string) (offset : nat) (data : list ascii) :
    StE State unit :=
  contents ← open_file env path;
  let put d := if decide (d = []) then mret tt else modify (λ s : State, set_backup
    (set_files (<[path := write_at offset d contents]> (files (backup s))) (backup s)) s) in
  match write_err (os env) path with
  | Some (n, e) => put (take n data);; fail e
  | None => put data
  end.

(** Errors are logged. *)
Definition handleFileChunk (env : call_env) (msg : ProtocolMessage) : StE State unit :=
  ok ← isAuthorized (DeviceID msg);
  if negb ok then mret tt else
  match Backup_ ctl with
  | None => mret tt
  | Some _ =>
      if decide (SessionID msg = "" ∨ Token msg = "") then mret tt else
      ctx ← gets (active_upload msg);
      match ctx with
      | None => mret tt
      | Some (id, tok) =>
          v ← attempt (on_backup (ValidateSession id tok DirectionUpload));
          match v with
          | Err _ => mret tt
          | Ok sess =>
              if chunk_is_nil msg || bool_decide (ChunkLen msg = 0) then mret tt else
              w ← attempt (write_chunk env (TempPath sess) (Z.to_nat (ChunkOffset msg))
                (ChunkData msg));
              match w with
              | Err _ => mret tt
              | Ok _ => ignore (on_backup (Advance (nano env) id (ChunkLen msg)))
              end
          end
      end
  end.

Definition handleFileDone (env : call_env) (msg : ProtocolMessage) : StE State unit :=
  ok ← isAuthorized (DeviceID msg);
  if negb ok then mret tt else
  match Backup_ ctl with
  | None => mret tt
  | Some _ =>
      if decide (SessionID msg = "" ∨ Token msg = "") then mret tt else
      ctx ← gets (active_upload msg);
      match ctx with
      | None => mret tt
      | Some (id, tok) =>
          v ← attempt (on_backup (ValidateSession id tok DirectionUpload));
          match v with
          | Err _ => mret tt
          | Ok sess =>
              r ← attempt (on_backup (MarkCompleted (nano env) (Session_ID sess);;
                FinalizeUpload (os env) (nano env) (Session_ID sess)));
              match r with
              | Err _ => mret tt
              | Ok _ => modify (λ s : State, set_uploads (delete (SessionID msg) (activeUpload s)) s)
              end
          end
      end
  end.

(** ** The router *)

Definition open_actions : list string :=
  ["login"; "admin_send_command"; "admin_list_devices"; "admin_list_online"; "admin_list_tree"].

(** [if err := m; err != nil { SendAck(code, err) } else { SendAck(200, done) }]. *)
Definition answer (env : call_env) (client : TCPClient) (code : Z) (done : string)
    (m : StE State unit) : StE State unit :=
  r ← attempt m;
  match r with Err e => ack env client code e | Ok _ => ack env client 200 done end.
Definition answer_json (env : call_env) (client : TCPClient) (code : Z) (m : StE State reply) :
    StE State unit :=
  r ← attempt m;
  match r with Err e => ack env client code e | Ok data => sendAckJSON env client 200 data end.

Definition dispatch (env : call_env) (client : TCPClient) (deviceID action : string)
    (payload : list ascii) : StE State unit :=
  if decide (action = "ping") then ack env client 200 "pong" else
  if decide (action = "login") then
    answer_json env client 401 (handleLogin env deviceID payload) else
  if decide (action = "device_register") then
    answer env client 500 "device registered" (handleDeviceRegister deviceID payload) else
  if decide (action = "filetree_sync") then
    answer env client 500 "filetree synced" (handleFileTreeSync env deviceID payload) else
  if decide (action = "agent_log") then
    answer env client 500 "log stored" (handleAgentLog deviceID payload) else
  if decide (action = "backup_init_upload") then
    answer_json env client 500 (handleBackupInitUpload env deviceID payload) else
  if decide (action = "backup_init_download") then
    answer_json env client 500 (handleBackupInitDownload env deviceID payload) else
  if decide (action = "backup_download_start") then
    r ← attempt (handleBackupDownloadStart env client deviceID payload);
    match r with Err e => ack env client 500 e | Ok _ => mret tt end else
  if decide (action = "admin_send_command") then
    answer_json env client 500 (handleAdminSendCommand env payload) else
  if decide (action = "admin_list_devices") then
    answer_json env client 500 handleAdminListDevices else
  if decide (action = "admin_list_online") then
    data ← handleAdminListOnline deviceID; sendAckJSON env client 200 data else
  if decide (action = "admin_list_tree") then
    answer_json env client 500 (handleAdminListTree env payload) else
  ack env client 400 "unknown action".

Definition handleSubCommand (env : call_env) (client : TCPClient) (msg : ProtocolMessage) :
    StE State unit :=
  if decide (CommandJSON msg = []) then ack env client 400 "empty command payload" else
  match decode_envelope (CommandJSON msg) with
  | Err _ => ack env client 400 "invalid command json"
  | Ok (action, payload) =>
      ok ← isAuthorized (DeviceID msg);
      if bool_decide (action ∉ open_actions) && negb ok
      then ack env client 401 "unauthorized"
      else dispatch env client (DeviceID msg) action payload
  end.

Definition looksLikeJWT (tok : string) : bool :=
  if decide (tok = "") then false
  else bool_decide (2 ≤ length (filter (λ a, a = "."%char) (to_bytes tok)))%nat.

(** Whether a login frame's token authorizes its device. *)
Definition token_accepted (env : call_env) (deviceID tok : string) : bool :=
  match Signer_ ctl with
  | Some signer =>
      if looksLikeJWT tok then
        match Parse signer (nano env) tok with
        | Err _ => false
        | Ok claims =>
            bool_decide (Claims_DeviceID claims = "" ∨ Claims_DeviceID claims = deviceID)
        end
      else true
  | None => true
  end.

Definition handle_login_frame (env : call_env) (client : TCPClient) (msg : ProtocolMessage) :
    StE State unit :=
  let deviceID := DeviceID msg in
  if decide (deviceID = "") then mret tt else
  modify (λ s : State,
    if bool_decide (Token msg ≠ "") && token_accepted env deviceID (Token msg)
    then set_tokens (<[deviceID := Token msg]> (deviceTokens s)) s else s);;
  modify (λ s : State, set_hub (Register (hub s) deviceID client) s);;
  modify (λ s : State, set_spawned (spawned s ++ [deviceID]) s).

Definition HandleMessage (env : call_env) (client : TCPClient) (msg : ProtocolMessage) :
    StE State unit :=
  if decide (Type_ msg = MSG_LOGIN) then handle_login_frame env client msg else
  if decide (Type_ msg = MSG_COMMAND) then handleSubCommand env client msg else
  if decide (Type_ msg = MSG_FILE_CHUNK) then handleFileChunk env msg else
  if decide (Type_ msg = MSG_FILE_DONE) then handleFileDone env msg else
  mret tt.

Definition HandleDisconnect (client : TCPClient) (deviceID : string) : StE State unit :=
  if decide (deviceID = "") then mret tt else
  modify (λ s : State, set_hub (Unregister (hub s) deviceID client) s);;
  modify (λ s : State, set_tokens (delete deviceID (deviceTokens s)) s).
End Controller.

Arguments set_backup {DB} _ _ /.
Arguments set_hub {DB} _ _ /.
Arguments set_tokens {DB} _ _ /.
Arguments set_uploads {DB} _ _ /.
Arguments written {DB} _ _ _ /.
Arguments set_spawned {DB} _ _ /.
