(* ===== verification/ControllerProofs.v ===== *)
(** * The controller keeps its promises

    Who may do what (authorization), what is answered, and what becomes of
    queued commands. *)

From S2P Require Export Controller.

Local Open Scope Z_scope.

(** ** What a handler leaves alone *)

Lemma keeps_on_backup {DB A} (I : ServerState DB → Prop) (m : StE (BackupState DB) A) :
  (∀ b s, I s → I (set_backup b s)) → keeps I (on_backup m).
Proof. intros Hb s Hs. by apply Hb. Qed.

Section Stable.
Context `{Engine DB, Sha1, Bcrypt, JwtLib, Json} (ctl : ProtocolController).
Context (I : ServerState DB → Prop).
Hypothesis I_backup : ∀ b s, I s → I (set_backup b s).
Hypothesis I_written : ∀ fd f s, I s → I (written fd f s).
Hypothesis I_uploads : ∀ m s, I s → I (set_uploads m s).
#[local] Hint Resolve keeps_ret keeps_fail keeps_lift keeps_gets keeps_attempt keeps_ignore
  keeps_wrap_st : core.

Lemma stable_on_db {A} (m : StE DB A) : keeps I (on_db m).
Proof. by apply keeps_on_backup. Qed.
Lemma stable_on_backup {A} (m : StE (BackupState DB) A) : keeps I (on_backup m).
Proof. by apply keeps_on_backup. Qed.
#[local] Hint Resolve stable_on_db stable_on_backup : core.

Lemma stable_transmit env client what frame : keeps I (transmit env client what frame).
Proof.
  intros s Hs. unfold transmit. destruct frame as [[|a f]|]; try done.
  destruct (up _ _ _); [|done]. by apply I_written.
Qed.
#[local] Hint Resolve stable_transmit : core.
Lemma stable_ack env client code msg : keeps I (ack env client code msg).
Proof. apply keeps_ignore, stable_transmit. Qed.
#[local] Hint Resolve stable_ack : core.
Lemma stable_sendAckJSON env client code payload : keeps I (sendAckJSON env client code payload).
Proof.
  unfold sendAckJSON. destruct payload; [auto|..];
    (destruct (encode_reply _); [case_decide; auto|auto]).
Qed.
#[local] Hint Resolve stable_sendAckJSON : core.
Lemma stable_hub_send env dev payload : keeps I (hub_send env dev payload).
Proof.
  intros s Hs. unfold hub_send. destruct (Hub_Send _ _ _ _ _) as [[fd f]|]; [|done].
  by apply I_written.
Qed.
#[local] Hint Resolve stable_hub_send : core.

(** Step through a body whose parts are stable. *)
Ltac stable :=
  repeat first
    [ progress intros
    | done
    | by auto
    | apply keeps_bind
    | apply keeps_modify; by auto
    | match goal with
      | |- keeps I (match ?x with _ => _ end) => destruct x
      | |- keeps I (if ?x then _ else _) => destruct x
      end ].

Lemma stable_require_authorized dev : keeps I (require_authorized dev).
Proof. unfold require_authorized, isAuthorized. stable. Qed.
#[local] Hint Resolve stable_require_authorized : core.
Lemma stable_retry_commands env dev cmds : keeps I (retry_commands env dev cmds).
Proof. induction cmds; simpl; stable. Qed.
#[local] Hint Resolve stable_retry_commands : core.
Lemma stable_retry env dev : keeps I (retryPendingCommands ctl env dev).
Proof. unfold retryPendingCommands. stable. Qed.
Lemma stable_send_now env req id : keeps I (send_now env req id).
Proof. unfold send_now. stable. Qed.
#[local] Hint Resolve stable_send_now : core.
Lemma stable_AdminSendCommand env p : keeps I (handleAdminSendCommand ctl env p).
Proof. unfold handleAdminSendCommand. stable. Qed.
Lemma stable_enrich info : keeps I (enrich_device ctl info).
Proof. unfold enrich_device. stable. Qed.
Lemma stable_DeviceRegister dev p : keeps I (handleDeviceRegister ctl dev p).
Proof. unfold handleDeviceRegister. stable. Qed.
Lemma stable_FileTreeSync env dev p : keeps I (handleFileTreeSync ctl env dev p).
Proof. unfold handleFileTreeSync. stable. Qed.
Lemma stable_AgentLog dev p : keeps I (handleAgentLog ctl dev p).
Proof. unfold handleAgentLog. stable. Qed.
Lemma stable_get_st : keeps I get_st.
Proof. by intros s Hs. Qed.
#[local] Hint Resolve stable_get_st : core.
Lemma stable_AdminListDevices : keeps I (handleAdminListDevices ctl).
Proof. unfold handleAdminListDevices. stable. Qed.
Lemma stable_AdminListOnline dev : keeps I (handleAdminListOnline ctl dev).
Proof. unfold handleAdminListOnline. stable. Qed.
Lemma stable_AdminListTree env p : keeps I (handleAdminListTree ctl env p).
Proof. unfold handleAdminListTree. stable. Qed.
Lemma stable_InitUpload env dev p : keeps I (handleBackupInitUpload ctl env dev p).
Proof. unfold handleBackupInitUpload. stable. Qed.
Lemma stable_InitDownload env dev p : keeps I (handleBackupInitDownload ctl env dev p).
Proof. unfold handleBackupInitDownload. stable. Qed.
Lemma stable_send_chunks env client sid tok fuel i off data :
  keeps I (send_chunks env client sid tok fuel i off data).
Proof.
  revert i off data. induction fuel as [|fuel IH]; intros i off data; cbn [send_chunks]; [auto|].
  destruct (read_err env i); [auto|]. destruct data; [auto|]. apply keeps_bind; auto.
Qed.
#[local] Hint Resolve stable_send_chunks : core.
Lemma stable_open_file env p : keeps I (open_file env p).
Proof. unfold open_file. stable. Qed.
#[local] Hint Resolve stable_open_file : core.
Lemma stable_DownloadStart env client dev p :
  keeps I (handleBackupDownloadStart ctl env client dev p).
Proof. unfold handleBackupDownloadStart. stable. Qed.
Lemma stable_write_chunk env path off data : keeps I (write_chunk env path off data).
Proof. unfold write_chunk. stable. Qed.
#[local] Hint Resolve stable_write_chunk : core.
Lemma stable_FileChunk env msg : keeps I (handleFileChunk ctl env msg).
Proof. unfold handleFileChunk, isAuthorized. stable. Qed.
Lemma stable_FileDone env msg : keeps I (handleFileDone ctl env msg).
Proof. unfold handleFileDone, isAuthorized. stable. Qed.
#[local] Hint Resolve stable_AdminSendCommand stable_DeviceRegister stable_FileTreeSync
  stable_AgentLog stable_AdminListDevices stable_AdminListOnline stable_AdminListTree
  stable_InitUpload stable_InitDownload stable_DownloadStart : core.

(** Everything but a login. *)
Lemma stable_dispatch env client dev action payload :
  action ≠ "login" → keeps I (dispatch ctl env client dev action payload).
Proof.
  intros Ha. unfold dispatch, answer, answer_json.
  repeat (case_decide; [first [done|stable]|]). auto.
Qed.
End Stable.

(** ** Authorization *)

Section Authorization.
Context `{Engine DB, Sha1, Bcrypt, JwtLib, Json} (ctl : ProtocolController).
Implicit Types s : ServerState DB.

(** Answering does not touch the tokens. *)
Lemma answer_json_tokens env client code m s :
  deviceTokens (answer_json env client code m s).1 = deviceTokens (m s).1.
Proof.
  unfold answer_json, mbind, StE_bind, attempt. destruct (m s) as [s1 [r|e]]; simpl.
  - by apply (stable_sendAckJSON (λ s, deviceTokens s = deviceTokens s1)).
  - by apply (stable_ack (λ s, deviceTokens s = deviceTokens s1)).
Qed.

Definition issued (dev frame_dev tok : string) (T : gmap string string) : gmap string string :=
  let m := <[dev := tok]> T in
  if decide (frame_dev ≠ "" ∧ frame_dev ≠ dev) then <[frame_dev := tok]> m else m.

Lemma handleLogin_tokens env frame_dev p s :
  deviceTokens (handleLogin ctl env frame_dev p s).1 = deviceTokens s ∨
  ∃ req d user signer tok, decode_login p = Ok req ∧
    ValidateCredentials (Login_Username req) (Login_Password req) (db (backup s)) = (d, Ok user) ∧
    Signer_ ctl = Some signer ∧
    Sign signer (nano env) (User_ID user) (Username user) (Role user) (login_id env frame_dev req) =
      Ok tok ∧
    deviceTokens (handleLogin ctl env frame_dev p s).1 =
      issued (login_id env frame_dev req) frame_dev tok (deviceTokens s).
Proof.
  unfold handleLogin. destruct (Users ctl), (Signer_ ctl) as [signer|]; try by left.
  unfold mbind, StE_bind, lift, on_db, on_backup, zoom. destruct (decode_login p) as [req|]; [|by left].
  destruct (ValidateCredentials _ _ _) as [d [user|e]] eqn:Ev; [|by left]. simpl.
  destruct (Sign _ _ _ _ _ _) as [tok|] eqn:Es; [|by left]. right.
  exists req, d, user, signer, tok. repeat (split; [done|]). unfold modify, issued. simpl.
  set (T := if decide _ then _ else _).
  set (s1 := {| backup := _ |}).
  assert (deviceTokens (enrich_device ctl (login_device (login_id env frame_dev req) req) s1).1 = T)
    as HT by by apply (stable_enrich ctl (λ s, deviceTokens s = T)).
  by destruct (enrich_device _ _ s1) as [s2 [[]|]].
Qed.

Lemma lookup_issued dev frame_dev tok T x :
  x ≠ dev → x ≠ frame_dev → issued dev frame_dev tok T !! x = T !! x.
Proof.
  intros Hx Hy. unfold issued. case_decide; by rewrite !lookup_insert_ne.
Qed.
End Authorization.

Lemma lookup_issued_eq dev frame_dev tok T x :
  x = dev ∨ x = frame_dev ∧ x ≠ "" → issued dev frame_dev tok T !! x = Some tok.
Proof.
  intros Hx. unfold issued. case_decide as Hc.
  - destruct (decide (x = frame_dev)) as [->|Hne]; [by rewrite lookup_insert_eq|].
    destruct Hx as [->|[? _]]; [|done]. by rewrite lookup_insert_ne, lookup_insert_eq by done.
  - destruct Hx as [->|[-> Hne]]; [by rewrite lookup_insert_eq|].
    destruct (decide (frame_dev = dev)) as [->|]; [by rewrite lookup_insert_eq|]. by destruct Hc.
Qed.


(** *** Stand-ins for the libraries *)

(** Fields separated by slashes for JSON, the claims' device in clear for a
    token. *)
Definition fields (b : list ascii) : list string := Split (of_bytes b).
Definition field (i : nat) (b : list ascii) : string := default "" (fields b !! i).
(** A list of changes as text: six fields each, separated by commas, the size
    as so many marks. *)
Definition sample_changes (cs : list FileChange) : string :=
  of_bytes (join_bytes "," (concat ((λ c, to_bytes <$> [Change_ID c; Change_CurrentPath c;
    Change_CurrentName c; Change_Extension c; of_bytes (replicate (Z.to_nat (Change_Size c)) "1"%char);
    if Deleted c then "deleted" else if IsDir c then "dir" else ""]) <$> cs))).
Fixpoint parse_changes (fuel : nat) (l : list (list ascii)) : result (list FileChange) :=
  match fuel, l with
  | S fuel, id :: path :: name :: ext :: size :: mark :: l =>
      cs ← parse_changes fuel l;
      let mark := of_bytes mark in
      Ok ({| Change_ID := of_bytes id; Change_OriginPath := of_bytes path;
             Change_CurrentPath := of_bytes path; Change_CurrentName := of_bytes name;
             Change_Extension := of_bytes ext; Change_Size := zlen size; Change_SnapshotNumber := 0;
             IsDir := bool_decide (mark = "dir"); Deleted := bool_decide (mark = "deleted");
             Change_Pending := true; ContentTypes := [] |} :: cs)
  | _, [] => Ok []
  | _, _ => Err "json"
  end.
#[export] Instance sample_json : Json := {
  decode_envelope := λ b, match fields b with
    | [] => Err "json" | action :: rest => Ok (action, to_bytes (Join rest)) end;
  decode_login := λ b, Ok {| Login_Username := field 0 b; Login_Password := field 1 b;
    Login_DeviceID := field 2 b; Login_Name := ""; Login_OSName := ""; Login_OSVersion := "";
    Login_Hostname := ""; Login_Arch := "" |};
  decode_device := λ b, Ok {| Req_UUID := field 0 b; Req_Name := field 1 b; Req_OSName := "";
    Req_OSVersion := ""; Req_Hostname := ""; Req_Arch := "" |};
  decode_changes := λ b, let l := split_bytes "," b in parse_changes (length l) l;
  decode_lines := λ b, Ok (of_bytes b);
  decode_upload := λ b, Ok {| Upload_FileName := field 0 b;
    Upload_FileSize := Z.of_nat (String.length (field 1 b)); Upload_Checksum := "";
    Upload_LogicalPath := field 2 b; Upload_FileID := field 3 b |};
  decode_download := λ b, Ok (of_bytes b);
  decode_start := λ b, Ok {| Start_SessionID := field 0 b; Start_Token := field 1 b;
    Start_Offset := 0 |};
  decode_send := λ b, Ok {| Send_DeviceID := field 0 b; Send_Command := field 1 b;
    Send_Kind := field 2 b; Send_Payload := to_bytes (field 3 b) |};
  decode_tree := λ b, Ok {| Tree_DeviceID := field 0 b; Tree_ParentID := None; Tree_Page := 1;
    Tree_PageSize := 100 |};
  encode_command := λ c,
    let b := Join [Wire_Command c; Wire_Kind c; Wire_DeviceID c; of_bytes (Wire_Argument c)] in
    if decide (TrimSpace b = b) then Ok (to_bytes b) else Err "json";
  encode_reply := λ r, Ok (filter (λ a, a ≠ NUL) (match r with
    | RLogin tok dev => to_bytes (Join [tok; dev])
    | RSend r => to_bytes (Sent_Status r)
    | _ => to_bytes "{}" end)) }.
#[export] Instance sample_jwt : JwtLib := {
  SignedString := λ secret c,
    if decide (NUL ∉ to_bytes (Claims_DeviceID c) ∧ "/"%char ∉ to_bytes (Claims_DeviceID c))
    then Ok ("h." +:+ Claims_DeviceID c +:+ ".s") else Err "jwt";
  ParseWithClaims := λ secret now tok, Err "signature is invalid" }.
#[export] Instance name_sha1 : Sha1 := λ s, "sha1-" +:+ s.
#[export] Instance sample_bcrypt : Bcrypt := {
  GenerateFromPassword := λ salt pw, Ok ("$" +:+ pw);
  CompareHashAndPassword := λ h pw, bool_decide (h = "$" +:+ pw) }.

Definition sample_ctl : ProtocolController := {|
  CmdRepo := true; Devices := true; Tree := true; Logs := true; Backup_ := Some sample_cfg;
  Users := true;
  Signer_ := Some {| Secret := "k"; Signer_Issuer := "sagiri"; ExpMin := 60 |} |}.
Definition sample_env : call_env := {|
  up := λ _ _, true; os := quiet_os; read_err := λ _, None; nano := 1700 * 10 ^ 9; nanos := λ _, 1700 * 10 ^ 9;
  random1 := Some (to_bytes "AB"); random2 := Some (to_bytes "xy"); new_uuid := "u-1" |}.
Definition initial_server (t : Tables) : ServerState Tables := {|
  backup := {| files := ∅; sessions := ∅; db := t |}; hub := ∅; reg := []; deviceTokens := ∅;
  activeUpload := ∅; wire := []; spawned := [] |}.

(** A frame as the connection handler delivers it. *)
Definition from_device (dev : string) (m : outgoing) : ProtocolMessage :=
  let r := received m in {|
  Type_ := Type_ r; Raw := Raw r; DeviceID := dev; Token := Token r; SessionID := SessionID r;
  CommandJSON := CommandJSON r; Wire.FileName := Wire.FileName r; FileSize := FileSize r;
  ChunkOffset := ChunkOffset r; ChunkLen := ChunkLen r; ChunkData := ChunkData r;
  StatusCode := StatusCode r; StatusMsg := StatusMsg r |}.
Definition command_from (dev text : string) : ProtocolMessage :=
  from_device dev (OCommand (to_bytes text)).

Definition with_admin : Tables :=
  with_users {[ 1 := {| User_ID := 1; Username := "ann"; PasswordHash := "$secret";
    Role := "user"; User_CreatedAt := 0; User_UpdatedAt := 0 |} ]} empty_tables.


(** ** Frames that arrive *)

(** The frame is received as [m], whatever follows it. *)
Definition delivers (frame : list ascii) (m : ProtocolMessage) : Prop :=
  ∀ c' rest, client_open c' = true → RecvProtocolMessage c' (frame ++ rest) = Ok (m, rest).

Lemma send_delivers c m frame :
  Wire.send c m = Ok frame → wf_outgoing m → sends_nothing m = false →
  delivers frame (received m) ∧ frame ≠ [].
Proof.
  intros Hs Hwf Hn. split; [intros c' rest Hc'; by apply (recv_one c)|].
  apply send_frame_of in Hs as (_ & _ & Hf); [|done].
  apply send_frame_inv in Hf as (_ & _ & ->). by unfold frame_header.
Qed.

Lemma Hub_Send_delivers up h l dev payload fd frame :
  Hub_Send up h l dev payload = Ok (fd, frame) → delivers frame (received (OCommand payload)).
Proof.
  assert (∀ f fr, protocol_send_command f payload = Some fr →
    delivers fr (received (OCommand payload))) as Hd.
  { intros f fr Hf. assert (f ≠ INVALID_SOCKET) as Hfd.
    { intros ->. unfold protocol_send_command in Hf. by case_decide. }
    assert (Wire.send (Some f) (OCommand payload) = Ok fr) as Hs.
    { simpl. unfold SendCommand, guard_open, client_open. rewrite (proj2 (Z.eqb_neq _ _) Hfd).
      change (client_fd (Some f)) with f. rewrite Hf. cbn [negb rc].
      rewrite decide_False; [done|]. intros Hl%nil_length_inv. subst payload.
      by unfold protocol_send_command in Hf. }
    by eapply send_delivers. }
  unfold Hub_Send, SendToDevice, protocol_send_to_device.
  intros Hs.
  assert (∀ e, match h !! dev with
      | Some c => if client_open c then match SendCommand c payload with
          | Ok fr => if up (client_fd c) then Ok (client_fd c, fr) else Err e
          | Err _ => Err e end else Err e
      | None => Err e end = Ok (fd, frame) →
    delivers frame (received (OCommand payload))) as Hany.
  { clear Hs. intros e. destruct (h !! dev) as [c|]; [|done]. destruct (client_open c) eqn:Hc; [|done].
    unfold SendCommand, guard_open. rewrite Hc. destruct (decide (length payload = 0%nat)); [done|].
    destruct (protocol_send_command _ _) as [fr|] eqn:Ef; [|done]. cbn [rc].
    destruct (up _); [|done]. intros [= _ <-]. by eapply Hd. }
  destruct (decide (dev = "")); [exact (Hany _ Hs)|].
  destruct (decide (payload = [])); [exact (Hany _ Hs)|].
  destruct (decide (_ = INVALID_SOCKET)); [exact (Hany _ Hs)|].
  destruct (protocol_send_command _ payload) as [fr|] eqn:Ef; [|exact (Hany _ Hs)].
  cbn in Hs. destruct (up _); [|exact (Hany _ Hs)]. cbn in Hs. injection Hs as _ <-. by eapply Hd.
Qed.

(** ** Answers *)

Section Answers.
Context {DB : Type}.
Implicit Types s : ServerState DB.

(** An acknowledgement is at most one frame to the client; its text arrives. *)
Lemma ack_spec env client code text s :
  nul_free text → 0 ≤ code < 2 ^ 16 →
  ack env client code text s = (s, Ok tt) ∨
  ∃ f, ack env client code text s = (written (client_fd client) f s, Ok tt) ∧
    delivers f (received (OAck code text)).
Proof.
  intros Hn Hc. unfold ack, ignore, transmit. rewrite u16_small by done.
  destruct (SendAck client code text) as [f|] eqn:E; [|by left].
  destruct (send_delivers client (OAck code text) f E) as [Hd Hne]; [done..|].
  destruct f as [|a f]; [done|]. destruct (up _ _ _); [|by left]. right. by exists (a :: f).
Qed.

(** With an open client on a working socket and a text within the limit it is
    exactly one. *)
Lemma ack_sent env client code text s :
  nul_free text → 0 ≤ code < 2 ^ 16 → client_open client = true →
  up env (length (wire s)) (client_fd client) = true → (String.length text ≤ 4096)%nat →
  ∃ f, ack env client code text s = (written (client_fd client) f s, Ok tt) ∧
    delivers f (received (OAck code text)).
Proof.
  intros Hn Hc Ho Hup Hl. unfold ack, ignore, transmit. rewrite u16_small by done.
  destruct (SendAck client code text) as [f|] eqn:E.
  - destruct (send_delivers client (OAck code text) f E) as [Hd Hne]; [done..|].
    destruct f as [|a f]; [done|]. rewrite Hup. by exists (a :: f).
  - pose proof (sent_or_rejected client (OAck code text) Ho) as Hs. simpl in Hs.
    rewrite E, zlen_CString in Hs by done. specialize (Hs ltac:(lia) eq_refl). done.
Qed.

(** What comes of an acknowledgement: exactly one frame that delivers it, unless the
    client is closed or its socket refuses; nothing else changes. *)
Definition answered (env : call_env) (client : TCPClient) (code : Z) (text : string) s
    (r : ServerState DB * result unit) : Prop :=
  if client_open client && up env (length (wire s)) (client_fd client) then
    ∃ f, r = (written (client_fd client) f s, Ok tt) ∧ delivers f (received (OAck code text))
  else r = (s, Ok tt).

Lemma ack_answered env client code text s :
  nul_free text → 0 ≤ code < 2 ^ 16 → (String.length text ≤ 4096)%nat →
  answered env client code text s (ack env client code text s).
Proof.
  intros Hn Hc Hl. unfold answered. destruct (client_open client) eqn:Ho; simpl.
  - destruct (up env _ _) eqn:Hup; [by apply ack_sent|].
    unfold ack, ignore, transmit. destruct (SendAck _ _ _) as [[|a f]|]; [done| |done]. by rewrite Hup.
  - unfold ack, ignore, transmit, SendAck, guard_open. by rewrite Ho.
Qed.
End Answers.

(** What [encoding/json] promises here: its output holds no NUL byte (control
    characters are escaped), and neither do its error messages. *)
Class JsonLaws `{Json} : Prop := {
  encode_reply_clean r b : encode_reply r = Ok b → nul_free (of_bytes b);
  encode_reply_error r e : encode_reply r = Err e → nul_free e ∧ (String.length e ≤ 3800)%nat }.

(** Every reply gets through: on a working connection, answering writes
    exactly one frame, which the client receives as the encoded reply with its
    code, or as code 413 when the reply is longer than 3800 bytes.  No reply is
    too large for the protocol. *)
Theorem reply_always_sent {DB} `{JsonLaws} env client code payload (s : ServerState DB) :
  client_open client = true → up env (length (wire s)) (client_fd client) = true →
  0 ≤ code < 2 ^ 16 →
  ∃ f code' text, sendAckJSON env client code payload s = (written (client_fd client) f s, Ok tt) ∧
    delivers f (received (OAck code' text)) ∧
    (payload = RNil ∧ code' = code ∧ text = "" ∨
     (∃ b, payload ≠ RNil ∧ encode_reply payload = Ok b ∧
        (if decide (3800 < length b)%nat then code' = 413 ∧ text = "response too large"
         else code' = code ∧ text = of_bytes b)) ∨
     (payload ≠ RNil ∧ encode_reply payload = Err text ∧ code' = code)).
Proof.
  intros Ho Hup Hc.
  assert (∀ c t, 0 ≤ c < 2 ^ 16 → nul_free t → (String.length t ≤ 4096)%nat →
    ∃ f, ack env client c t s = (written (client_fd client) f s, Ok tt) ∧
      delivers f (received (OAck c t))) as Hack by (intros; by apply ack_sent).
  assert (payload = RNil ∨ payload ≠ RNil) as [->|Hne]
    by (destruct payload; auto; by right).
  { destruct (Hack code "") as (f & Hf & Hd); [done|by_decide|simpl; lia|].
    exists f, code, "". auto 10. }
  assert (sendAckJSON env client code payload s = (match encode_reply payload with
    | Err e => ack env client code e
    | Ok b => if decide (maxLen < length b)%nat then ack env client 413 "response too large"
              else ack env client code (of_bytes b) end) s) as -> by by destruct payload.
  destruct (encode_reply payload) as [b|e] eqn:Eb.
  - unfold maxLen. destruct (decide (3800 < length b)%nat) as [Hl|Hl].
    + destruct (Hack 413 "response too large") as (f & Hf & Hd); [done|by_decide|simpl; lia|].
      exists f, 413, "response too large". split; [done|]. split; [done|].
      right. left. exists b. by rewrite decide_True.
    + destruct (Hack code (of_bytes b)) as (f & Hf & Hd);
        [done|by apply (encode_reply_clean payload)|rewrite <- to_bytes_length, to_of_bytes; lia|].
      exists f, code, (of_bytes b). split; [done|]. split; [done|].
      right. left. exists b. by rewrite decide_False.
  - destruct (encode_reply_error payload e Eb) as [Hn Hl].
    destruct (Hack code e) as (f & Hf & Hd); [done|done|lia|].
    exists f, code, e. auto 10.
Qed.

#[export] Instance sample_json_laws : JsonLaws.
Proof.
  split; [|done]. intros r b [= <-]. unfold nul_free. rewrite to_of_bytes.
  by intros [? _]%list_elem_of_filter.
Qed.

Lemma reply_always_sent_witness :
  ∃ f, (sendAckJSON sample_env (Some 5) 200 (RLogin "tok" "laptop")
      (initial_server empty_tables)).1 = written 5 f (initial_server empty_tables) ∧
    delivers f (received (OAck 200 "tok/laptop")).
Proof.
  destruct (reply_always_sent sample_env (Some 5) 200 (RLogin "tok" "laptop")
    (initial_server empty_tables)) as (f & code & text & Hf & Hd & Hcase);
    [reflexivity|reflexivity|lia|].
  exists f. split; [by rewrite Hf|].
  destruct Hcase as [[Hx _]|[(b & _ & Hb & Ht)|(_ & Hx & _)]]; [discriminate Hx| |discriminate Hx].
  assert (b = to_bytes "tok/laptop") as ->.
  { assert (encode_reply (RLogin "tok" "laptop") = Ok (to_bytes "tok/laptop")) as He
      by (vm_compute; reflexivity). rewrite He in Hb. by injection Hb as <-. }
  rewrite decide_False in Ht by (vm_compute; lia). destruct Ht as [-> ->].
  exact Hd.
Defined.

(** C22. A client that is not logged in gets nothing done.  Its commands other than
    login and the admin ones are answered with exactly 401 "unauthorized", an empty or
    malformed command with exactly its 400, each in one frame unless the socket
    refuses it, and nothing else happens; its file chunks and end-of-file frames are
    ignored without a trace. *)
Theorem unauthorized_refused `{Engine DB, Sha1, Bcrypt, JwtLib, Json} ctl env client msg
    (s : ServerState DB) :
  authorized s (DeviceID msg) = false →
  let r := HandleMessage ctl env client msg s in
  (Type_ msg = MSG_FILE_CHUNK ∨ Type_ msg = MSG_FILE_DONE → r = (s, Ok tt)) ∧
  (Type_ msg = MSG_COMMAND → CommandJSON msg = [] →
     answered env client 400 "empty command payload" s r) ∧
  (Type_ msg = MSG_COMMAND → CommandJSON msg ≠ [] →
     match decode_envelope (CommandJSON msg) with
     | Err _ => answered env client 400 "invalid command json" s r
     | Ok (action, _) => action ∉ open_actions → answered env client 401 "unauthorized" s r
     end).
Proof.
  intros Hno. cbv zeta.
  assert (Type_ msg = MSG_COMMAND →
    HandleMessage ctl env client msg s = handleSubCommand ctl env client msg s) as Hsub.
  { intros Ht. unfold HandleMessage. rewrite Ht. by rewrite decide_False, decide_True. }
  split; [|split].
  - intros Ht. unfold HandleMessage.
    rewrite decide_False by (by destruct Ht as [->| ->]).
    rewrite decide_False by (by destruct Ht as [->| ->]).
    unfold handleFileChunk, handleFileDone, isAuthorized, gets, mbind, StE_bind.
    destruct Ht as [-> | ->]; [rewrite decide_True by done|
      rewrite decide_False by done; rewrite decide_True by done]; cbv beta iota;
      by rewrite Hno.
  - intros Ht He. rewrite (Hsub Ht). unfold handleSubCommand. rewrite decide_True by done.
    apply ack_answered; [by_decide|lia|vm_compute; lia].
  - intros Ht He. rewrite (Hsub Ht). unfold handleSubCommand. rewrite decide_False by done.
    destruct (decode_envelope (CommandJSON msg)) as [[action payload]|].
    + intros Ha. unfold isAuthorized, gets, mbind, StE_bind. cbv beta iota.
      rewrite Hno, bool_decide_eq_true_2 by done. apply ack_answered; [by_decide|lia|vm_compute; lia].
    + apply ack_answered; [by_decide|lia|vm_compute; lia].
Qed.

Lemma unauthorized_refused_witness :
  (∃ f, HandleMessage sample_ctl sample_env (Some 5) (command_from "laptop" "agent_log/hello")
      (initial_server with_admin) = (written 5 f (initial_server with_admin), Ok tt) ∧
    delivers f (received (OAck 401 "unauthorized"))) ∧
  HandleMessage sample_ctl sample_env (Some 5) (from_device "laptop" (OFileDone "up-1" "t"))
    (initial_server with_admin) = (initial_server with_admin, Ok tt).
Proof.
  split.
  - destruct (unauthorized_refused sample_ctl sample_env (Some 5)
      (command_from "laptop" "agent_log/hello") (initial_server with_admin) eq_refl) as (_ & _ & Hc).
    apply (Hc eq_refl); [by vm_compute|by_decide].
  - destruct (unauthorized_refused sample_ctl sample_env (Some 5)
      (from_device "laptop" (OFileDone "up-1" "t")) (initial_server with_admin) eq_refl) as [Hf _].
    apply Hf. by right.
Defined.

(** ** Queued commands *)

Definition commands_ok (t : Tables) : Prop := keyed AgentCommand_ID (agent_commands t).
Definition row {DB} `{Engine DB} (s : ServerState DB) (id : Z) : option AgentCommand :=
  agent_commands (view (db (backup s))) !! id.
Definition queue_ok {DB} `{Engine DB} (s : ServerState DB) : Prop :=
  commands_ok (view (db (backup s))).

Section Queue.
Context `{EngineLaws DB, Json}.
Implicit Types s : ServerState DB.

(** An update of one command, whether or not the database accepts it. *)
Lemma on_db_update id (f : stmt_env → AgentCommand → AgentCommand) s :
  queue_ok s → (∀ ev c, AgentCommand_ID (f ev c) = AgentCommand_ID c) →
  ∃ d, ignore (on_db (run (λ ev t, Ok (with_agent_commands
      (update_where (has_command_id id) (f ev) (agent_commands t)) t, tt)))) s =
    (set_backup (set_db d (backup s)) s, Ok tt) ∧
    let s' := set_backup (set_db d (backup s)) s in
    queue_ok s' ∧ (∀ j, j ≠ id → row s' j = row s j) ∧
    (row s' id = row s id ∨ ∃ ev, row s' id = f ev <$> row s id).
Proof.
  intros Hok Hid. unfold ignore, on_db, on_backup, zoom.
  destruct (run _ (db (backup s))) as [d [[]|e]] eqn:E; exists d; (split; [done|]).
  - apply run_ok in E as (ev & Hev & [= Hv]).
    assert (agent_commands (view d) = update_where (has_command_id id) (f ev)
      (agent_commands (view (db (backup s))))) as Ht by by rewrite <- Hv.
    unfold queue_ok, commands_ok, row in *. simpl. rewrite Ht.
    split; [by apply keyed_update|].
    assert (∀ j, update_where (has_command_id id) (f ev)
      (agent_commands (view (db (backup s)))) !! j =
      (if decide (j = id) then f ev <$> agent_commands (view (db (backup s))) !! j
       else agent_commands (view (db (backup s))) !! j)) as Hl.
    { intros j. rewrite update_where_lookup.
      destruct (agent_commands (view (db (backup s))) !! j) as [c|] eqn:Ej;
        [|by case_decide]. simpl. unfold has_command_id. rewrite (Hok _ _ Ej).
      destruct (Z.eqb_spec j id); case_decide; done. }
    split; [intros j Hj; by rewrite Hl, decide_False|].
    right. exists ev. by rewrite Hl, decide_True.
  - apply run_err in E. unfold queue_ok, row in *. simpl. rewrite E. auto.
Qed.

Definition encodable (dev : string) (c : AgentCommand) : Prop :=
  is_ok (encode_command (retry_request dev c)) = true.
#[export] Instance encodable_dec dev c : Decision (encodable dev c).
Proof. unfold encodable. apply _. Defined.

(** A frame that brings the command to its device. *)
Definition carries (dev : string) (c : AgentCommand) (fr : Z * list ascii) : Prop :=
  ∃ p, encode_command (retry_request dev c) = Ok p ∧ delivers fr.2 (received (OCommand p)).

(** The hub does not take the next command. *)
Definition refused (env : call_env) (dev : string) (rest : list AgentCommand) s : Prop :=
  match rest with
  | [] => True
  | c :: _ => ∃ p e, encode_command (retry_request dev c) = Ok p ∧
      Hub_Send (up env (length (wire s))) (hub s) (reg s) dev p = Err e
  end.

Definition marked_sent s s' (c : AgentCommand) : Prop :=
  row s' (AgentCommand_ID c) = row s (AgentCommand_ID c) ∨
  ∃ now, row s' (AgentCommand_ID c) = as_sent now <$> row s (AgentCommand_ID c).

(** What a run of the loop over [cmds] does. *)
Definition retried (env : call_env) (dev : string) (cmds : list AgentCommand) s s' : Prop :=
  queue_ok s' ∧ hub s' = hub s ∧ reg s' = reg s ∧
  (∀ id, id ∉ AgentCommand_ID <$> cmds → row s' id = row s id) ∧
  ∃ sent rest frames,
    filter (encodable dev) cmds = sent ++ rest ∧ wire s' = wire s ++ frames ∧
    Forall2 (carries dev) sent frames ∧ refused env dev rest s' ∧
    Forall (marked_sent s s') sent ∧
    Forall (λ c, row s' (AgentCommand_ID c) = row s (AgentCommand_ID c)) (tail rest).

(** One turn that changed only the row of its own command. *)
Lemma same_rows_of s s1 c cmds dev l :
  (∀ j, j ≠ AgentCommand_ID c → row s1 j = row s j) →
  AgentCommand_ID c ∉ AgentCommand_ID <$> cmds → l ⊆ filter (encodable dev) cmds →
  Forall (λ x, row s1 (AgentCommand_ID x) = row s (AgentCommand_ID x)) l.
Proof.
  intros Hrow Hnew Hl. apply Forall_forall. intros x Hx. apply Hrow. intros Heq. apply Hnew.
  apply Hl, list_elem_of_filter in Hx as [_ Hx]. rewrite <- Heq. by apply list_elem_of_fmap_2.
Qed.

Lemma same_outside s s1 s' c cmds :
  (∀ j, j ≠ AgentCommand_ID c → row s1 j = row s j) →
  (∀ id, id ∉ AgentCommand_ID <$> cmds → row s' id = row s1 id) →
  ∀ id, id ∉ AgentCommand_ID <$> c :: cmds → row s' id = row s id.
Proof.
  intros Hrow Ho j Hj. rewrite fmap_cons in Hj. apply not_elem_of_cons in Hj as [Hj1 Hj2].
  by rewrite Ho, Hrow.
Qed.

Lemma marked_sent_from s s1 s' l :
  Forall (λ x, row s1 (AgentCommand_ID x) = row s (AgentCommand_ID x)) l →
  Forall (marked_sent s1 s') l → Forall (marked_sent s s') l.
Proof.
  rewrite !Forall_forall. intros Hs Hm x Hx. unfold marked_sent. rewrite <- Hs by done. by apply Hm.
Qed.

Lemma tail_subset {A} (l k : list A) : tail l ⊆ k ++ l.
Proof. destruct l; set_solver. Qed.

Lemma retried_nil env dev s : queue_ok s → retried env dev [] s s.
Proof.
  intros Hok. do 4 (split; [done|]). exists [], [], []. rewrite (app_nil_r (wire s)).
  split_and!; done || constructor.
Qed.

(** A command without a text is skipped. *)
Lemma retried_skip env dev c cmds s s1 s' :
  ¬ encodable dev c → AgentCommand_ID c ∉ AgentCommand_ID <$> cmds →
  hub s1 = hub s → reg s1 = reg s → wire s1 = wire s →
  (∀ j, j ≠ AgentCommand_ID c → row s1 j = row s j) →
  retried env dev cmds s1 s' → retried env dev (c :: cmds) s s'.
Proof.
  intros He Hnew Eh Er Ew Hrow (Hq & Hh & Hr & Ho & sent & rest & frames & Hf & Hw & Hc & Href & Hm & Ht).
  split; [done|]. split; [congruence|]. split; [congruence|]. split; [by eapply same_outside|].
  exists sent, rest, frames. rewrite filter_cons_False by done.
  split; [done|]. split; [congruence|]. do 2 (split; [done|]). split.
  - eapply marked_sent_from; [|done]. eapply same_rows_of; [done..|]. rewrite Hf. set_solver.
  - pose proof (same_rows_of s s1 c cmds dev (tail rest) Hrow Hnew) as Hs. rewrite Hf in Hs.
    specialize (Hs (tail_subset rest sent)). rewrite Forall_forall in Hs, Ht |- *.
    intros x Hx. by rewrite Ht, Hs.
Qed.

(** A command the hub takes. *)
Lemma retried_sent env dev c cmds fr s s1 s' :
  carries dev c fr → AgentCommand_ID c ∉ AgentCommand_ID <$> cmds →
  hub s1 = hub s → reg s1 = reg s → wire s1 = wire s ++ [fr] →
  (∀ j, j ≠ AgentCommand_ID c → row s1 j = row s j) → marked_sent s s1 c →
  retried env dev cmds s1 s' → retried env dev (c :: cmds) s s'.
Proof.
  intros Hfr Hnew Eh Er Ew Hrow Hmine
    (Hq & Hh & Hr & Ho & sent & rest & frames & Hf & Hw & Hc & Href & Hm & Ht).
  split; [done|]. split; [congruence|]. split; [congruence|]. split; [by eapply same_outside|].
  exists (c :: sent), rest, (fr :: frames). destruct Hfr as (p & Hp & Hd).
  rewrite filter_cons_True by (unfold encodable; by rewrite Hp). rewrite Hf.
  split; [done|]. split; [rewrite Hw, Ew; by rewrite <- app_assoc|].
  split; [constructor; [by exists p|done]|]. split; [done|]. split.
  - constructor; [unfold marked_sent in *; by rewrite (Ho _ Hnew)|].
    eapply marked_sent_from; [|done]. eapply same_rows_of; [done..|]. rewrite Hf. set_solver.
  - pose proof (same_rows_of s s1 c cmds dev (tail rest) Hrow Hnew) as Hs. rewrite Hf in Hs.
    specialize (Hs (tail_subset rest sent)). rewrite Forall_forall in Hs, Ht |- *.
    intros x Hx. by rewrite Ht, Hs.
Qed.

(** A command the hub refuses ends the run. *)
Lemma retried_refused env dev c cmds p e s s1 :
  encode_command (retry_request dev c) = Ok p →
  Hub_Send (up env (length (wire s))) (hub s) (reg s) dev p = Err e →
  AgentCommand_ID c ∉ AgentCommand_ID <$> cmds → queue_ok s1 →
  hub s1 = hub s → reg s1 = reg s → wire s1 = wire s →
  (∀ j, j ≠ AgentCommand_ID c → row s1 j = row s j) → retried env dev (c :: cmds) s s1.
Proof.
  intros Hp He Hnew Hq Eh Er Ew Hrow.
  do 3 (split; [done|]). split; [by eapply same_outside|].
  exists [], (c :: filter (encodable dev) cmds), [].
  rewrite filter_cons_True by (unfold encodable; by rewrite Hp). rewrite app_nil_r.
  split; [done|]. split; [done|]. split; [constructor|].
  split; [exists p, e; by rewrite Eh, Er, Ew|]. split; [constructor|].
  simpl tail. eapply same_rows_of; [done|exact Hnew|reflexivity].
Qed.

Lemma retry_commands_spec env dev cmds s :
  queue_ok s → NoDup (AgentCommand_ID <$> cmds) →
  ∃ s', retry_commands env dev cmds s = (s', Ok tt) ∧ retried env dev cmds s s'.
Proof.
  revert s. induction cmds as [|c cmds IH]; intros s Hok Hnd; simpl.
  { exists s. split; [done|by apply retried_nil]. }
  rewrite fmap_cons in Hnd. apply NoDup_cons in Hnd as [Hnew Hnd].
  destruct (encode_command (retry_request dev c)) as [p|e] eqn:Ep.
  2:{ destruct (on_db_update (AgentCommand_ID c) (λ ev, with_status (clock ev) "failed" e) s Hok)
        as (d & Hrun & Hok1 & Hrow & _); [done|].
      unfold mbind, StE_bind, Commands_UpdateStatus. rewrite Hrun.
      destruct (IH _ Hok1 Hnd) as (s' & Hs' & Hr). exists s'. split; [done|].
      eapply retried_skip; [|done|..|done|done]; [unfold encodable; by rewrite Ep|done..]. }
  unfold mbind, StE_bind, attempt. unfold hub_send at 1 2.
  destruct (Hub_Send (up env (length (wire s))) (hub s) (reg s) dev p) as [[fd f]|e] eqn:Eh;
    cbn [fst snd].
  - destruct (on_db_update (AgentCommand_ID c) (λ ev, as_sent (clock ev)) (written fd f s))
      as (d & Hrun & Hok1 & Hrow & Hmine); [done|done|].
    unfold MarkSent. rewrite Hrun. destruct (IH _ Hok1 Hnd) as (s' & Hs' & Hr).
    exists s'. split; [done|].
    eapply (retried_sent env dev c cmds (fd, f)); [|done| | | |done| |done]; [|done..|].
    + exists p. split; [done|]. by eapply Hub_Send_delivers.
    + destruct Hmine as [Hx|[ev Hx]]; [by left|right]. by exists (clock ev).
  - destruct (on_db_update (AgentCommand_ID c) (λ ev, with_status (clock ev) "failed" e) s Hok)
      as (d & Hrun & Hok1 & Hrow & _); [done|].
    unfold Commands_UpdateStatus. exists (set_backup (set_db d (backup s)) s).
    split; [exact Hrun|by eapply retried_refused].
Qed.
End Queue.

Lemma keyed_ids {V} (id : V → Z) (m : gmap Z V) :
  keyed id m → id <$> (map_to_list m).*2 = (map_to_list m).*1.
Proof.
  intros Hk. rewrite <- list_fmap_compose. apply list_fmap_ext.
  intros i [k v] Hi. simpl. apply Hk, elem_of_map_to_list. by eapply list_elem_of_lookup_2.
Qed.

Lemma ListByDevice_ok `{EngineLaws DB} dev d d' cmds :
  commands_ok (view d) → ListByDevice dev false d = (d', Ok cmds) →
  view d' = view d ∧
  cmds ≡ₚ filter (λ c, queued_for dev false c = true) (map_to_list (agent_commands (view d))).*2 ∧
  StronglySorted (λ a b, AgentCommand_ID a ≤ AgentCommand_ID b) cmds ∧
  NoDup (AgentCommand_ID <$> cmds).
Proof.
  intros Hok Hl. apply run_ok in Hl as (ev & Hev & [= Hv <-]). split; [done|].
  assert (order_by oldest_command (select ev (queued_for dev false) (agent_commands (view d))) ≡ₚ
    filter (λ c, queued_for dev false c = true) (map_to_list (agent_commands (view d))).*2) as Hp.
  { etrans; [apply merge_sort_Permutation|]. unfold select. by rewrite (arrange_perm ev Hev). }
  split; [done|]. split.
  - apply (order_by_ascending AgentCommand_ID).
  - rewrite Hp. apply (sublist_NoDup _ (AgentCommand_ID <$> (map_to_list (agent_commands (view d))).*2)).
    + rewrite keyed_ids by done. apply NoDup_fst_map_to_list.
    + apply fmap_sublist, sublist_filter.
Qed.

(** When a device logs in, its queued commands are delivered in the order
    they were queued, each at most once: the frames written are those of a
    prefix of the pending and failed commands (one that cannot be encoded is
    passed over), every one of them arrives as that command, and delivery stops
    at the first the hub refuses.  Commands behind that one keep their rows, a
    delivered one is marked sent unless the database refuses the mark, and the
    loop always ends without an error. *)
Theorem retry_in_order `{EngineLaws DB, Json} ctl env dev (s s' : ServerState DB) r :
  CmdRepo ctl = true → queue_ok s → retryPendingCommands ctl env dev s = (s', r) →
  r = Ok tt ∧ queue_ok s' ∧
  (wire s' = wire s ∧ view (db (backup s')) = view (db (backup s)) ∨
   ∃ cmds sent rest frames,
     cmds ≡ₚ filter (λ c, queued_for dev false c = true)
       (map_to_list (agent_commands (view (db (backup s))))).*2 ∧
     StronglySorted (λ a b, AgentCommand_ID a ≤ AgentCommand_ID b) cmds ∧
     filter (encodable dev) cmds = sent ++ rest ∧
     wire s' = wire s ++ frames ∧ Forall2 (carries dev) sent frames ∧ refused env dev rest s' ∧
     Forall (marked_sent s s') sent ∧
     Forall (λ c, row s' (AgentCommand_ID c) = row s (AgentCommand_ID c)) (tail rest)).
Proof.
  intros Hc Hok Hr. unfold retryPendingCommands in Hr. rewrite Hc in Hr. cbn [negb] in Hr.
  unfold mbind, StE_bind, attempt, on_db, on_backup, zoom in Hr.
  destruct (ListByDevice dev false (db (backup s))) as [d [cmds|e]] eqn:El; cbn [fst snd] in Hr.
  - apply ListByDevice_ok in El as (Hv & Hperm & Hsort & Hnd); [|done].
    set (s1 := set_backup _ s) in Hr.
    assert (∀ id, row s1 id = row s id) as Hrow by (intros; unfold row; simpl; by rewrite Hv).
    destruct (retry_commands_spec env dev cmds s1) as (s2 & Hs2 & Hq & _ & _ & _ & sent & rest &
      frames & Hf & Hw & Hcar & Href & Hm & Ht); [|done|].
    { unfold queue_ok. simpl. by rewrite Hv. }
    rewrite Hs2 in Hr. injection Hr as <- <-. split; [done|]. split; [done|]. right.
    exists cmds, sent, rest, frames. do 6 (split; [done|]). split.
    + eapply Forall_impl; [exact Hm|]. intros c Hx. unfold marked_sent in *. by rewrite Hrow in Hx.
    + eapply Forall_impl; [exact Ht|]. intros c Hx. by rewrite <- Hrow.
  - apply run_err in El. injection Hr as <- <-. split; [done|].
    unfold queue_ok in *. simpl. rewrite El. auto.
Qed.

Definition sample_request (cmd : string) : AdminSendCommandRequest := {|
  Send_DeviceID := "laptop"; Send_Command := cmd; Send_Kind := "once"; Send_Payload := [] |}.
(** Two commands waiting for a device that has just logged in. *)
Definition queued_server : ServerState Tables :=
  let t1 := (Commands_Create (pending_command (sample_request "get_logs")) empty_tables).1 in
  let t2 := (Commands_Create (pending_command (sample_request "restore")) t1).1 in
  set_hub (Register ∅ "laptop" (Some 5)) (initial_server t2).

Lemma queued_server_ok : queue_ok queued_server.
Proof.
  unfold queue_ok, commands_ok, queued_server. intros k v Hk.
  cbn [set_hub backup initial_server db] in Hk.
  apply elem_of_map_to_list in Hk. vm_compute in Hk.
  repeat (apply elem_of_cons in Hk as [Hk|Hk]; [by injection Hk as -> ->|]).
  by apply not_elem_of_nil in Hk.
Qed.

Lemma retry_in_order_witness :
  let s' := (retryPendingCommands sample_ctl sample_env "laptop" queued_server).1 in
  length (wire s') = 2%nat ∧ ∃ sent frames, wire s' = wire queued_server ++ frames ∧
    Forall2 (carries "laptop") sent frames.
Proof.
  cbv zeta.
  assert (length (wire (retryPendingCommands sample_ctl sample_env "laptop" queued_server).1) = 2%nat)
    as Hl by (vm_compute; reflexivity).
  destruct (retry_in_order sample_ctl sample_env "laptop" queued_server
    (retryPendingCommands sample_ctl sample_env "laptop" queued_server).1
    (retryPendingCommands sample_ctl sample_env "laptop" queued_server).2)
    as (_ & _ & [[Hw _]|(cmds & sent & rest & frames & _ & _ & _ & Hw & Hc & _)]).
  - reflexivity.
  - exact queued_server_ok.
  - apply surjective_pairing.
  - rewrite Hw in Hl. discriminate Hl.
  - split; [exact Hl|]. exists sent, frames. split; [exact Hw|exact Hc].
Defined.

(** *** Commands from an administrator *)

Section Admin.
Context `{EngineLaws DB, Json}.
Implicit Types s : ServerState DB.

Lemma create_command_ok c d d' c' :
  commands_ok (view d) → Commands_Create c d = (d', Ok c') →
  commands_ok (view d') ∧ agent_commands (view d') !! AgentCommand_ID c' = Some c' ∧
  (∃ now, c' = new_command (AgentCommand_ID c') now c) ∧
  agent_commands (view d) !! AgentCommand_ID c' = None ∧
  ∀ j, j ≠ AgentCommand_ID c' → agent_commands (view d') !! j = agent_commands (view d) !! j.
Proof.
  intros Hok Hc. apply run_ok in Hc as (ev & Hev & Hc). injection Hc as Hv <-.
  pose proof (next_key_free ev (agent_commands (view d)) Hev) as Hfree.
  set (id := next_key ev _) in *. cbn [new_command AgentCommand_ID] in Hv |- *. rewrite <- Hv.
  unfold commands_ok in *. cbn [with_agent_commands agent_commands].
  split; [by apply keyed_insert|]. split; [by rewrite lookup_insert_eq|].
  split; [by eexists|]. split; [done|]. intros j Hj. by rewrite lookup_insert_ne.
Qed.

(** The immediate delivery. *)
Lemma send_now_spec env req id s :
  queue_ok s →
  ∃ s' sent, send_now env req id s = (s', Ok sent) ∧ queue_ok s' ∧
    (∀ j, j ≠ id → row s' j = row s j) ∧
    if sent : bool then
      ∃ fr p, wire s' = wire s ++ [fr] ∧ encode_command (wire_request req) = Ok p ∧
        delivers fr.2 (received (OCommand p))
    else
      wire s' = wire s ∧ (row s' id = row s id ∨
        ∃ now e, row s' id = with_status now "pending" e <$> row s id).
Proof.
  intros Hok. unfold send_now, mbind, StE_bind, gets. cbv beta iota.
  destruct (negb _); [exists s, false; split_and!; auto|].
  destruct (encode_command (wire_request req)) as [b|e] eqn:Eb;
    [|exists s, false; split_and!; auto].
  unfold attempt, hub_send.
  destruct (Hub_Send _ _ _ _ b) as [[fd f]|e] eqn:Eh; cbn [fst snd].
  - set (s0 := written fd f s).
    destruct (on_db_update id (λ ev, as_sent (clock ev)) s0) as (d & Hrun & Hok1 & Hrow & _);
      [done|done|].
    unfold MarkSent. rewrite Hrun. eexists _, true. split; [done|]. split; [exact Hok1|].
    split; [exact Hrow|]. exists (fd, f), b. split; [done|]. split; [done|].
    by eapply Hub_Send_delivers.
  - destruct (on_db_update id (λ ev, with_status (clock ev) "pending" e) s Hok)
      as (d & Hrun & Hok1 & Hrow & Hmine); [done|].
    unfold Commands_UpdateStatus. rewrite Hrun. eexists _, false. split; [done|].
    split; [exact Hok1|]. split; [exact Hrow|]. split; [done|].
    destruct Hmine as [Hx|[ev Hx]]; [by left|right]. by exists (clock ev), e.
Qed.
End Admin.

(** An accepted admin command is never lost: its reply names a fresh row of
    the queue with the command as requested; when the reply says sent, exactly
    one frame was written and it arrives as that command, and otherwise nothing
    was written and the row waits as pending for the device's next login.  No
    other command is touched. *)
Theorem admin_command_kept `{EngineLaws DB, Json} ctl env payload (s s' : ServerState DB) r :
  queue_ok s → handleAdminSendCommand ctl env payload s = (s', Ok r) →
  queue_ok s' ∧ ∃ req resp, decode_send payload = Ok req ∧ r = RSend resp ∧
    row s (Sent_ID resp) = None ∧
    (∀ j, j ≠ Sent_ID resp → row s' j = row s j) ∧
    if Sent resp then
      Sent_Status resp = "sent" ∧ ∃ fr p, wire s' = wire s ++ [fr] ∧
        encode_command (wire_request req) = Ok p ∧ delivers fr.2 (received (OCommand p))
    else
      Sent_Status resp = "pending" ∧ wire s' = wire s ∧
      ∃ c, row s' (Sent_ID resp) = Some c ∧ Status c = "pending" ∧
        AgentCommand_DeviceID c = Send_DeviceID req ∧ Command c = Send_Command req ∧
        Kind c = Send_Kind req ∧ Payload c = of_bytes (Send_Payload req) ∧
        queued_for (Send_DeviceID req) false c = true.
Proof.
  intros Hok Hh. unfold handleAdminSendCommand in Hh. destruct (negb _); [done|].
  apply StE_bind_ok in Hh as (s0 & req & Hl & Hh). cbv beta in Hh.
  unfold lift in Hl. injection Hl as <- Hreq. case_decide; [done|].
  apply StE_bind_ok in Hh as (s1 & cmd & Hc & Hh). cbv beta in Hh.
  apply wrap_st_ok in Hc. unfold on_db, on_backup in Hc.
  apply zoom_ok in Hc as (b & Hc & ->). apply zoom_ok in Hc as (d & Hc & ->).
  apply create_command_ok in Hc as (Hok1 & Hrow & (now & Hcmd) & Hnew & Hother); [|done].
  set (s1 := set_backup _ s) in *.
  destruct (send_now_spec env req (AgentCommand_ID cmd) s1) as (s2 & sent & Hs & Hok2 & Hoth & Hcase);
    [done|].
  unfold mbind, StE_bind in Hh. rewrite Hs in Hh. injection Hh as <- <-.
  split; [done|]. exists req. eexists. split; [done|]. split; [done|].
  cbn [Sent_ID Sent Sent_Status]. split; [done|].
  split. { intros j Hj. rewrite Hoth by done. by apply Hother. }
  destruct sent; [done|]. split; [done|]. destruct Hcase as [Hw Hst]. split; [done|].
  assert (row s1 (AgentCommand_ID cmd) = Some cmd) as Hr1 by done.
  rewrite Hr1 in Hst. destruct Hst as [Hst|(now' & e & Hst)]; rewrite Hst; simpl;
    eexists; (split; [done|]); rewrite Hcmd; cbn; (do 5 (split; [done|]));
    unfold queued_for; cbn; by rewrite bool_decide_eq_true_2.
Qed.

Lemma admin_command_kept_witness :
  ∃ s' resp, handleAdminSendCommand sample_ctl sample_env (to_bytes "laptop/get_logs/once/")
      (initial_server empty_tables) = (s', Ok (RSend resp)) ∧
    row (initial_server empty_tables) (Sent_ID resp) = None ∧ queue_ok s'.
Proof.
  destruct (handleAdminSendCommand sample_ctl sample_env (to_bytes "laptop/get_logs/once/")
    (initial_server empty_tables)) as [s' [r|e]] eqn:E;
    [|apply (f_equal (λ r, is_ok r.2)) in E; vm_compute in E; discriminate].
  destruct (admin_command_kept sample_ctl sample_env (to_bytes "laptop/get_logs/once/")
    (initial_server empty_tables) s' r) as (Hok & req & resp & _ & Hr & Hn & _).
  - intros k v Hk. simplify_map_eq.
  - exact E.
  - exists s', resp. rewrite Hr. split; [reflexivity|]. split; [exact Hn|exact Hok].
Defined.
