(* ===== verification/Server.v ===== *)
(** * Serving a connection

    The loop of [protocol_connection_handler] (network/protocol_server.c) with
    the callbacks of backend/server/protocol.go: every frame goes through the
    registry and then to the controller; when the stream ends the connection is
    taken out of the registry and the controller is told. *)

From S2P Require Export Controller ControllerProofs.

Local Open Scope Z_scope.

Section Serve.
Context `{Engine DB, Sha1, Bcrypt, JwtLib, Json} (ctl : ProtocolController).
Abbreviation State := (ServerState DB) (only parsing).

Definition set_reg (l : list device_entry) (s : State) : State := {|
  backup := backup s; hub := hub s; reg := l; deviceTokens := deviceTokens s;
  activeUpload := activeUpload s; wire := wire s; spawned := spawned s |}.

(** One turn of the loop: the new [last_device] and the state. *)
Definition on_frame (env : call_env) (fd : Z) (last : list ascii) (m : protocol_message)
    (s : State) : list ascii * State :=
  let '(last', l, m') := connection_frame fd m last (reg s) in
  (last', (HandleMessage ctl env (Some fd) (convertProtocolMessage m') (set_reg l s)).1).

(** After the loop.  The disconnect callback runs when a device is known. *)
Definition on_close (fd : Z) (last : list ascii) (s : State) : State :=
  let s1 := set_reg (registry_remove_fd fd (reg s)) s in
  if decide (last = []) then s1 else (HandleDisconnect (Some fd) (GoString last) s1).1.

(** [input] is all the peer sends before the connection ends; [envs i] is what
    the [i]th frame meets.  A frame takes five bytes at least. *)
Fixpoint serve (fuel : nat) (envs : nat → call_env) (i : nat) (fd : Z) (last : list ascii)
    (input : list ascii) (s : State) : State :=
  match fuel with
  | O => s
  | S fuel =>
      match protocol_recv_message fd input with
      | None => on_close fd last s
      | Some (m, rest) =>
          let '(last', s') := on_frame (envs i) fd last m s in
          serve fuel envs (S i) fd last' rest s'
      end
  end.
Definition serve_connection (envs : nat → call_env) (fd : Z) (input : list ascii) (s : State) :
    State := serve (S (length input)) envs 0 fd [] input s.

(** The frames of a stream, one after the other. *)
Fixpoint run_frames (envs : nat → call_env) (i : nat) (fd : Z) (last : list ascii)
    (ms : list protocol_message) (s : State) : list ascii * State :=
  match ms with
  | [] => (last, s)
  | m :: ms =>
      let '(last', s') := on_frame (envs i) fd last m s in run_frames envs (S i) fd last' ms s'
  end.

(** [input] holds exactly the frames [ms] before the stream fails. *)
Inductive frames_of (fd : Z) : list ascii → list protocol_message → Prop :=
  | frames_end input : protocol_recv_message fd input = None → frames_of fd input []
  | frames_next input m rest ms :
      protocol_recv_message fd input = Some (m, rest) → frames_of fd rest ms →
      frames_of fd input (m :: ms).

Lemma recv_all_bytes_rest n input p rest :
  recv_all_bytes n input = Some (p, rest) → length input = (n + length rest)%nat.
Proof.
  unfold recv_all_bytes. destruct (decide _); [discriminate|]. intros [= _ <-].
  rewrite length_drop. lia.
Qed.

Lemma recv_consumes fd input m rest :
  protocol_recv_message fd input = Some (m, rest) → (length rest < length input)%nat.
Proof.
  unfold protocol_recv_message. case_decide; [discriminate|].
  destruct (recv_all_bytes 5 input) as [[hdr input1]|] eqn:E1; [|discriminate].
  cbn [mbind option_bind]. case_decide; [discriminate|].
  destruct (recv_all_bytes _ input1) as [[p input2]|] eqn:E2; [|discriminate].
  cbn [mbind option_bind]. intros [= _ <-].
  apply recv_all_bytes_rest in E1, E2. lia.
Qed.

Lemma frames_of_exists fd input : ∃ ms, frames_of fd input ms.
Proof.
  remember (length input) as n eqn:Hn. revert input Hn.
  induction (lt_wf n) as [n _ IH]. intros input ->.
  destruct (protocol_recv_message fd input) as [[m rest]|] eqn:E.
  - destruct (IH (length rest) (recv_consumes _ _ _ _ E) rest eq_refl) as [ms Hms].
    exists (m :: ms). by econstructor.
  - exists []. by constructor.
Qed.

Lemma serve_frames fuel envs i fd last input ms s :
  frames_of fd input ms → (length input < fuel)%nat →
  serve fuel envs i fd last input s =
    let '(last', s') := run_frames envs i fd last ms s in on_close fd last' s'.
Proof.
  intros Hf. revert fuel i last s. induction Hf as [input Hn|input m rest ms Hm _ IH];
    intros fuel i last s Hfuel; (destruct fuel as [|fuel]; [lia|]); cbn [serve run_frames].
  - by rewrite Hn.
  - rewrite Hm. destruct (on_frame (envs i) fd last m s) as [last' s']. apply IH.
    apply recv_consumes in Hm. lia.
Qed.
End Serve.

Arguments set_reg {DB} _ _ /.

(** C33. Serving a connection always ends: whatever bytes the peer sends, they hold
    a finite sequence of frames, each is handled once and in order, and then
    the connection is cleaned up; more fuel than bytes changes nothing. *)
Theorem serve_terminates `{Engine DB, Sha1, Bcrypt, JwtLib, Json} ctl envs fd input
    (s : ServerState DB) :
  ∃ ms, frames_of fd input ms ∧
    (∀ fuel, (length input < fuel)%nat → serve ctl fuel envs 0 fd [] input s =
      let '(last, s') := run_frames ctl envs 0 fd [] ms s in on_close fd last s') ∧
    serve_connection ctl envs fd input s =
      let '(last, s') := run_frames ctl envs 0 fd [] ms s in on_close fd last s'.
Proof.
  destruct (frames_of_exists fd input) as [ms Hms]. exists ms. split; [done|].
  split; [intros; by apply serve_frames|]. apply serve_frames; [done|lia].
Qed.

(** ** The frames of well-formed messages *)

Definition raw (m : outgoing) : protocol_message :=
  parse_payload (u8 (type_of m)) (payload_of m).

Lemma u8_type_of m : u8 (type_of m) = type_of m.
Proof. by destruct m. Qed.

Lemma recv_raw c fd m frame rest :
  Wire.send c m = Ok frame → sends_nothing m = false → fd ≠ INVALID_SOCKET →
  protocol_recv_message fd (frame ++ rest) = Some (raw m, rest).
Proof.
  intros Hs Hn Hfd. apply send_frame_of in Hs as (_ & _ & Hf); [|done].
  by apply (recv_frame _ fd _ _ frame rest Hf).
Qed.

Lemma recv_nothing fd : protocol_recv_message fd [] = None.
Proof. unfold protocol_recv_message. by case_decide. Qed.

Lemma frames_of_sends c fd ms bytes :
  send_seq c ms = Ok bytes → Forall (λ m, sends_nothing m = false) ms → fd ≠ INVALID_SOCKET →
  frames_of fd bytes (raw <$> ms).
Proof.
  intros Hs Hn Hfd. revert bytes Hs. induction Hn as [|m ms Hm _ IH]; intros bytes Hs; simpl in *.
  - injection Hs as <-. constructor. apply recv_nothing.
  - destruct (Wire.send c m) as [f|] eqn:Ef; [|done]. simpl in Hs.
    destruct (send_seq c ms) as [fs|]; [|done]. injection Hs as <-.
    eapply frames_next; [by apply (recv_raw c)|]. by apply IH.
Qed.

Lemma raw_device_id m :
  sendable m → device_id (raw m) = match m with OLogin dev _ => CString dev | _ => [] end.
Proof.
  intros Hs. unfold raw. rewrite u8_type_of. destruct m as [dev tok| | | | |].
  - change (parse_payload _ ?p) with (parse_login MSG_LOGIN p). destruct Hs.
    cbn [payload_of]. by rewrite parse_login_layout by lia.
  - done.
  - apply dec_stable. intros Hne. by destruct (parse_device_id MSG_FILE_META
      (payload_of (OFileMeta name size))) as (_ & _ & Hl); specialize (Hl Hne).
  - apply dec_stable. intros Hne. by destruct (parse_device_id MSG_FILE_CHUNK
      (payload_of (OFileChunk sid tok offset chunk))) as (_ & _ & Hl); specialize (Hl Hne).
  - apply dec_stable. intros Hne. by destruct (parse_device_id MSG_FILE_DONE
      (payload_of (OFileDone sid tok))) as (_ & _ & Hl); specialize (Hl Hne).
  - apply dec_stable. intros Hne. by destruct (parse_device_id MSG_ACK
      (payload_of (OAck code msg))) as (_ & _ & Hl); specialize (Hl Hne).
Qed.

Lemma raw_type m : type (raw m) = type_of m.
Proof.
  destruct (parse_device_id (u8 (type_of m)) (payload_of m)) as (_ & Ht & _).
  unfold raw. by rewrite Ht, u8_type_of.
Qed.

Lemma convert_with_device dev pm :
  nul_free dev →
  convertProtocolMessage (with_device_id (to_bytes dev) pm) =
    let r := convertProtocolMessage pm in {|
    Type_ := Type_ r; Raw := Raw r; DeviceID := dev; Token := Token r; SessionID := SessionID r;
    CommandJSON := CommandJSON r; Wire.FileName := Wire.FileName r; FileSize := FileSize r;
    ChunkOffset := ChunkOffset r; ChunkLen := ChunkLen r; ChunkData := ChunkData r;
    StatusCode := StatusCode r; StatusMsg := StatusMsg r |}.
Proof.
  intros Hd. unfold convertProtocolMessage, with_device_id. cbn.
  f_equal. unfold GoString. rewrite c_str_free by done. apply of_to_bytes.
Qed.

Section Deliver.
Context `{Engine DB, Sha1, Bcrypt, JwtLib, Json} (ctl : ProtocolController).
Implicit Types s : ServerState DB.

(** What one message of a connection does: a login names the device, every other
    message is handled under the name known so far. *)
Definition deliver (env : call_env) (fd : Z) (dev : string) (m : outgoing) s :
    string * ServerState DB :=
  match m with
  | OLogin d _ =>
      (d, (HandleMessage ctl env (Some fd) (received m)
             (set_reg (registry_set (to_bytes d) fd (reg s)) s)).1)
  | _ => (dev, (HandleMessage ctl env (Some fd) (from_device dev m) s).1)
  end.

Lemma on_frame_deliver env fd dev m s :
  wf_outgoing m → sendable m → sends_nothing m = false → nul_free dev →
  on_frame ctl env fd (to_bytes dev) (raw m) s =
    (to_bytes (deliver env fd dev m s).1, (deliver env fd dev m s).2).
Proof.
  intros Hwf Hs Hn Hdev. pose proof (parse_received m Hwf Hs Hn) as Hr. fold (raw m) in Hr.
  unfold on_frame, connection_frame. rewrite raw_device_id by done.
  assert (∀ l, set_reg l s = s ↔ l = reg s) as Hreg.
  { intros l. destruct s; simpl. split; [by intros [= ->]|by intros ->]. }
  destruct m as [d tok| | | | |].
  2-6: rewrite (decide_False (P := c_str [] ≠ [])) by (intros Hc; by destruct Hc);
    destruct (decide (c_str [] = [] ∧ to_bytes dev ≠ [])) as [Hd|Hd]; cbn [deliver fst snd];
    rewrite (proj2 (Hreg (reg s))) by done; f_equal; f_equal; f_equal;
    [rewrite convert_with_device by done; by rewrite Hr|];
    (assert (to_bytes dev = []) as He by (apply dec_stable; naive_solver));
    apply (f_equal of_bytes) in He; rewrite of_to_bytes in He; by rewrite He, Hr.
  destruct Hwf as [Hd Ht], Hs as [[Hl1 Hl2] _].
  rewrite CString_nul_free, c_str_free in * by done.
  rewrite decide_False by (intros [He _]; rewrite He in Hl1; done).
  rewrite decide_True by (intros He; rewrite He in Hl1; done).
  rewrite raw_type, decide_True by done.
  assert (id_prefix (to_bytes d) = to_bytes d) as Hid.
  { apply take_ge. unfold zlen in Hl2. unfold PROTOCOL_MAX_DEVICE_ID. lia. }
  rewrite Hid, Hr. done.
Qed.
End Deliver.

Section DeliverAll.
Context `{Engine DB, Sha1, Bcrypt, JwtLib, Json} (ctl : ProtocolController).
Implicit Types s : ServerState DB.

Fixpoint deliver_all (envs : nat → call_env) (i : nat) (fd : Z) (dev : string)
    (ms : list outgoing) s : string * ServerState DB :=
  match ms with
  | [] => (dev, s)
  | m :: ms => let '(dev', s') := deliver ctl (envs i) fd dev m s in
               deliver_all envs (S i) fd dev' ms s'
  end.

Definition clean (m : outgoing) : Prop := wf_outgoing m ∧ sends_nothing m = false.

Lemma send_seq_sendable c ms bytes :
  send_seq c ms = Ok bytes → Forall clean ms → Forall sendable ms.
Proof.
  intros Hs Hc. revert bytes Hs. induction Hc as [|m ms [Hw Hn] _ IH]; intros bytes Hs; [constructor|].
  simpl in Hs. destruct (Wire.send c m) as [f|] eqn:Ef; [|done]. simpl in Hs.
  destruct (send_seq c ms) as [fs|]; [|done].
  constructor; [by apply (send_frame_of c m f)|by eapply IH].
Qed.

Lemma run_deliver envs fd ms :
  Forall clean ms → Forall sendable ms →
  ∀ i dev s, nul_free dev →
  run_frames ctl envs i fd (to_bytes dev) (raw <$> ms) s =
    (to_bytes (deliver_all envs i fd dev ms s).1, (deliver_all envs i fd dev ms s).2).
Proof.
  induction ms as [|m ms IH]; intros Hc Hs i dev s Hd; [done|].
  apply Forall_cons in Hc as [[Hw Hn] Hc]. apply Forall_cons in Hs as [Hm Hs].
  cbn [fmap list_fmap run_frames deliver_all]. rewrite (on_frame_deliver ctl) by done.
  destruct (deliver ctl (envs i) fd dev m s) as [dev' s'] eqn:Ed. cbn [fst snd]. apply IH; [done..|].
  destruct m; injection Ed as <- _; try done. by destruct Hw.
Qed.

(** A connection on which a well-behaved client sent [ms] and hung up. *)
Lemma serve_sends envs c fd ms bytes s :
  send_seq c ms = Ok bytes → Forall clean ms → fd ≠ INVALID_SOCKET →
  serve_connection ctl envs fd bytes s =
    on_close fd (to_bytes (deliver_all envs 0 fd "" ms s).1) (deliver_all envs 0 fd "" ms s).2.
Proof.
  intros Hs Hc Hfd. pose proof (send_seq_sendable c ms bytes Hs Hc) as Hsd.
  assert (Forall (λ m, sends_nothing m = false) ms) as Hn.
  { eapply Forall_impl; [exact Hc|]. by intros m [_ ?]. }
  unfold serve_connection.
  rewrite (serve_frames ctl _ envs 0 fd [] bytes (raw <$> ms)) by
    (lia || by apply (frames_of_sends c)).
  change [] with (to_bytes "") at 1. rewrite run_deliver by (done || by_decide). done.
Qed.

(** Only a login frame changes who is connected. *)
Lemma handleLogin_keeps (I : ServerState DB → Prop) env dev p :
  (∀ b s, I s → I (set_backup b s)) → (∀ fd f s, I s → I (written fd f s)) →
  (∀ m s, I s → I (set_uploads m s)) → (∀ m s, I s → I (set_tokens m s)) →
  keeps I (handleLogin ctl env dev p).
Proof.
  intros Hb Hw Hu Ht. unfold handleLogin. destruct (Users ctl), (Signer_ ctl);
    try apply keeps_fail.
  apply keeps_bind; [apply keeps_lift|]. intros req.
  apply keeps_bind; [by apply keeps_on_backup|]. intros user.
  apply keeps_bind; [apply keeps_lift|]. intros tok.
  apply keeps_bind; [apply keeps_modify; intros; by apply Ht|]. intros _.
  apply keeps_bind; [by apply stable_enrich|]. intros _. apply keeps_ret.
Qed.

Lemma HandleMessage_keeps (I : ServerState DB → Prop) env client msg :
  (∀ b s, I s → I (set_backup b s)) → (∀ fd f s, I s → I (written fd f s)) →
  (∀ m s, I s → I (set_uploads m s)) → (∀ m s, I s → I (set_tokens m s)) →
  Type_ msg ≠ MSG_LOGIN → keeps I (HandleMessage ctl env client msg).
Proof.
  intros Hb Hw Hu Ht Hty. unfold HandleMessage. rewrite decide_False by done.
  case_decide.
  - unfold handleSubCommand. case_decide; [by apply stable_ack|].
    destruct (decode_envelope _) as [[action payload]|]; [|by apply stable_ack].
    apply keeps_bind; [unfold isAuthorized; apply keeps_gets|]. intros ok.
    destruct (_ && _); [by apply stable_ack|].
    destruct (decide (action = "login")) as [->|Ha]; [|by apply stable_dispatch].
    unfold dispatch. rewrite decide_False by done. rewrite decide_True by done.
    unfold answer_json. apply keeps_bind; [apply keeps_attempt; by apply handleLogin_keeps|].
    intros [r|e]; [by apply stable_sendAckJSON|by apply stable_ack].
  - case_decide; [by apply stable_FileChunk|].
    case_decide; [by apply stable_FileDone|apply keeps_ret].
Qed.
End DeliverAll.

(** *** The end of a connection *)

Definition is_login (m : outgoing) : bool := match m with OLogin _ _ => true | _ => false end.

Section LogsOut.
Context `{Engine DB, Sha1, Bcrypt, JwtLib, Json} (ctl : ProtocolController).
Implicit Types s : ServerState DB.

Lemma deliver_all_keeps (I : ServerState DB → Prop) envs fd dev ms i s :
  (∀ b s, I s → I (set_backup b s)) → (∀ f fr s, I s → I (written f fr s)) →
  (∀ m s, I s → I (set_uploads m s)) → (∀ m s, I s → I (set_tokens m s)) →
  Forall (λ m, is_login m = false) ms → I s →
  (deliver_all ctl envs i fd dev ms s).1 = dev ∧ I (deliver_all ctl envs i fd dev ms s).2.
Proof.
  intros Hb Hw Hu Ht Hms. revert i s. induction Hms as [|m ms Hm _ IH]; intros i s Hs; [done|].
  cbn [deliver_all]. assert (deliver ctl (envs i) fd dev m s =
    (dev, (HandleMessage ctl (envs i) (Some fd) (from_device dev m) s).1)) as -> by by destruct m.
  apply IH. apply HandleMessage_keeps; [done..| |done]. by destruct m.
Qed.

Lemma login_frame_registers env fd dev tok s :
  dev ≠ "" →
  let s1 := (HandleMessage ctl env (Some fd) (received (OLogin dev tok)) s).1 in
  hub s1 = Register (hub s) dev (Some fd) ∧ reg s1 = reg s ∧ backup s1 = backup s ∧
  activeUpload s1 = activeUpload s ∧ wire s1 = wire s ∧
  deviceTokens s1 = (if bool_decide (tok ≠ "") && token_accepted ctl env dev tok
    then <[dev := tok]> (deviceTokens s) else deviceTokens s).
Proof.
  intros Hd. unfold HandleMessage. rewrite decide_True by done. unfold handle_login_frame.
  cbn [received DeviceID Token]. rewrite decide_False by done.
  unfold modify, mbind, StE_bind. cbn [fst]. by destruct (_ && _).
Qed.

Lemma Unregister_own (h : Hub) dev fd :
  h !! dev = Some (Some fd) → Unregister h dev (Some fd) !! dev = None.
Proof.
  intros Hh. unfold Unregister. destruct (h !! dev) as [cur|]; [|done]. injection Hh as ->.
  cbn [Equal]. rewrite Z.eqb_refl. apply lookup_delete_eq.
Qed.

Lemma registry_forgets dev fd l :
  wf_registry l → fd_unique l → (∀ e, e ∈ l → entry_fd e ≠ fd) → valid_id dev →
  fd ≠ INVALID_SOCKET →
  registry_get dev (registry_remove_fd fd (registry_set dev fd l)) = INVALID_SOCKET.
Proof.
  intros Hwf Hu Hfresh Hv Hfd. unfold registry_remove_fd. rewrite decide_False by done.
  pose proof (registry_set_wf dev fd l Hwf Hv Hfd) as Hwf'.
  assert (fd_unique (registry_set dev fd l)) as Hu'.
  { intros x y. rewrite !elem_registry_set by done.
    intros [->|[Hx Hxd]] [->|[Hy Hyd]] Heq; try done.
    - by destruct (Hfresh y Hy).
    - by destruct (Hfresh x Hx).
    - by apply Hu. }
  rewrite (registry_get_spec dev _ None); [done|by apply unlink_fd_wf|done|].
  intros f. split; [|done]. rewrite elem_unlink_fd, elem_registry_set by done.
  intros [[Heq|[_ Hne]] Hf]; [by injection Heq as ->|done].
Qed.
End LogsOut.

(** C35. Every short connection of an agent logs its device out.  When a
    connection that logged in as a device ends, whatever else was sent on it,
    the device is neither authorized nor online and commands cannot be sent to
    it: even if its main connection, logged in earlier, is still open.  The
    agent opens such a connection for every action and every transfer. *)
Theorem short_connection_logs_out `{Engine DB, Sha1, Bcrypt, JwtLib, Json} ctl envs c fd dev tok ms
    bytes (s : ServerState DB) :
  send_seq c (OLogin dev tok :: ms) = Ok bytes → Forall clean (OLogin dev tok :: ms) →
  Forall (λ m, is_login m = false) ms → fd ≠ INVALID_SOCKET →
  wf_registry (reg s) → fd_unique (reg s) → (∀ e, e ∈ reg s → entry_fd e ≠ fd) →
  let s' := serve_connection ctl envs fd bytes s in
  authorized s' dev = false ∧ IsOnline (hub s') (reg s') dev = false ∧
  ∀ up payload, is_ok (Hub_Send up (hub s') (reg s') dev payload) = false.
Proof.
  intros Hsend Hclean Hms Hfd Hwf Hu Hfresh. cbv zeta.
  pose proof (send_seq_sendable c _ bytes Hsend Hclean) as Hsd.
  apply Forall_cons in Hsd as [[[Hl1 Hl2] _] _].
  pose proof Hclean as [[[Hnul _] _] _]%Forall_cons.
  rewrite CString_nul_free in Hl1, Hl2 by done.
  assert (valid_id (to_bytes dev)) as Hv.
  { split; [by intros He; rewrite He in Hl1|]. unfold zlen, PROTOCOL_MAX_DEVICE_ID in *. lia. }
  assert (dev ≠ "") as Hne by (intros ->; by destruct Hv).
  rewrite (serve_sends ctl envs c fd _ bytes s Hsend Hclean Hfd).
  cbn [deliver_all deliver]. set (s0 := set_reg _ s).
  destruct (login_frame_registers ctl (envs 0%nat) fd dev tok s0 Hne) as (Hh & Hr & _).
  set (s1 := (HandleMessage _ _ _ _ _).1) in *.
  destruct (deliver_all_keeps ctl
    (λ x, hub x !! dev = Some (Some fd) ∧ reg x = registry_set (to_bytes dev) fd (reg s))
    envs fd dev ms 1 s1) as (Hdev & Hhub & Hreg); [naive_solver..| |].
  { rewrite Hh, Hr. split; [apply lookup_insert_eq|]. done. }
  destruct (deliver_all ctl envs 1 fd dev ms s1) as [dev' s2]. cbn [fst snd] in *. subst dev'.
  unfold on_close. rewrite decide_False by (by destruct Hv).
  assert (GoString (to_bytes dev) = dev) as ->.
  { unfold GoString. rewrite c_str_free by done. apply of_to_bytes. }
  unfold HandleDisconnect. rewrite decide_False by done.
  unfold modify, mbind, StE_bind. cbn [fst set_reg set_hub set_tokens hub reg deviceTokens].
  assert (registry_get (to_bytes dev) (registry_remove_fd fd (reg s2)) = INVALID_SOCKET) as Hget.
  { rewrite Hreg. by apply registry_forgets. }
  assert (Unregister (hub s2) dev (Some fd) !! dev = None) as Hun.
  { by apply Unregister_own. }
  split.
  - unfold authorized. cbn [deviceTokens]. rewrite lookup_delete_eq. cbn.
    rewrite (bool_decide_eq_false_2 ("" ≠ "")) by (intros Hx; by destruct Hx). apply andb_false_r.
  - split.
    + unfold IsOnline. rewrite Hun. unfold DeviceIsOnline. rewrite decide_False by done.
      unfold protocol_device_is_online. rewrite CString_nul_free, Hget by done. done.
    + intros up payload. unfold Hub_Send, SendToDevice. rewrite Hun, decide_False by done.
      case_decide; [done|]. unfold protocol_send_to_device.
      rewrite CString_nul_free, Hget by done. by rewrite decide_True.
Qed.

(** A device on its main connection, logged in and online. *)
Definition online_server : ServerState Tables :=
  set_tokens {[ "laptop" := "jwt" ]} (set_hub (Register ∅ "laptop" (Some 5))
    (set_reg [entry (to_bytes "laptop") 5] (initial_server empty_tables))).
Definition short_action : list outgoing :=
  [OLogin "laptop" "jwt"; OCommand (to_bytes "agent_log/hello")].

Lemma online_registry :
  wf_registry (reg online_server) ∧ fd_unique (reg online_server) ∧
  ∀ e, e ∈ reg online_server → entry_fd e ≠ 6.
Proof.
  change (reg online_server) with [entry (to_bytes "laptop") 5].
  split; [|split].
  - apply wf_registry_cons. split; [split; [done|vm_compute; lia]|]. split; [done|].
    split; [by intros x ?%not_elem_of_nil|]. split; constructor.
  - by intros x y ->%list_elem_of_singleton ->%list_elem_of_singleton.
  - by intros e ->%list_elem_of_singleton.
Qed.

Lemma short_connection_logs_out_witness :
  authorized online_server "laptop" = true ∧
  IsOnline (hub online_server) (reg online_server) "laptop" = true ∧
  ∃ bytes, send_seq (Some 3) short_action = Ok bytes ∧
    let s' := serve_connection sample_ctl (λ _, sample_env) 6 bytes online_server in
    authorized s' "laptop" = false ∧ IsOnline (hub s') (reg s') "laptop" = false.
Proof.
  split; [vm_compute; reflexivity|]. split; [vm_compute; reflexivity|].
  destruct (send_seq (Some 3) short_action) as [bytes|e] eqn:E; [|vm_compute in E; discriminate].
  exists bytes. split; [reflexivity|].
  destruct online_registry as (Hwf & Hu & Hf).
  destruct (short_connection_logs_out sample_ctl (λ _, sample_env) (Some 3) 6 "laptop" "jwt"
    [OCommand (to_bytes "agent_log/hello")] bytes online_server E) as (Ha & Ho & _).
  - unfold clean. repeat constructor; simpl; unfold nul_free; by_decide.
  - repeat constructor.
  - discriminate.
  - exact Hwf.
  - exact Hu.
  - exact Hf.
  - split; [exact Ha|exact Ho].
Defined.
