(* ===== verification/Footprint.v ===== *)
(** * What a frame leaves alone

    The command queue and the frames already written, under every handler of the
    controller but those of the queue itself: backend/app/controllers. *)

From S2P Require Export Server FileTree.

Local Open Scope Z_scope.

(** The tables of the queue. *)
Definition queue_of {DB} `{Engine DB} (db : DB) : gmap Z AgentCommand := agent_commands (view db).
Definition queue {DB} `{Engine DB} (s : ServerState DB) : gmap Z AgentCommand := queue_of (db (backup s)).

(** ** Statements *)

Section Statements.
Context `{EngineLaws DB, Sha1, Bcrypt} (T : gmap Z AgentCommand).

Abbreviation quiet m := (keeps (λ db : DB, queue_of db = T) m) (only parsing).

Lemma quiet_run {A} (s : stmt A) :
  (∀ ev t t' a, s ev t = Ok (t', a) → agent_commands t' = agent_commands t) → quiet (run s).
Proof.
  intros Hs. apply (keeps_run (λ t, agent_commands t = T)). intros ev t t' a _ Ht E.
  by rewrite (Hs _ _ _ _ E).
Qed.
Lemma quiet_transaction {A} (m : StE DB A) : quiet m → quiet (in_transaction m).
Proof. apply (keeps_in_transaction (λ t, agent_commands t = T)). Qed.

#[local] Hint Resolve keeps_ret keeps_fail keeps_lift keeps_gets keeps_attempt keeps_ignore
  keeps_wrap_st keeps_for_each quiet_transaction : core.

Ltac quiet :=
  repeat first
    [ progress intros
    | done
    | by auto
    | apply quiet_transaction
    | apply keeps_bind
    | match goal with
      | |- keeps _ (attempt _) => apply keeps_attempt
      | |- keeps _ (wrap_st _ _) => apply keeps_wrap_st
      | |- keeps _ (match ?x with _ => _ end) => destruct x
      | |- keeps _ (if ?x then _ else _) => destruct x
      end ].

Lemma quiet_FindByUUID uuid : quiet (FindByUUID uuid).
Proof. apply quiet_run. intros ev t t' a E. destruct (first _ _); by simplify_eq/=. Qed.
Lemma quiet_ListAll : quiet ListAll.
Proof. by apply quiet_run; intros ? ? ? ? [= <- _]. Qed.
Lemma quiet_update_device d d' : quiet (run (sql_update_device d d')).
Proof. by apply quiet_run; intros ? ? ? ? [= <- _]. Qed.
Lemma quiet_create_device d : quiet (run (sql_create_device d)).
Proof. apply quiet_run. intros ev t t' a. unfold sql_create_device. case_match; [by intros [= <- _]|done]. Qed.
#[local] Hint Resolve quiet_FindByUUID quiet_ListAll quiet_update_device quiet_create_device : core.
Lemma quiet_Upsert d : quiet (Upsert d).
Proof. unfold Upsert. quiet. Qed.
Lemma quiet_Logs_Create dev text : quiet (Logs_Create dev text).
Proof. by apply quiet_run; intros ? ? ? ? [= <- _]. Qed.
Lemma quiet_ValidateCredentials u p : quiet (ValidateCredentials u p).
Proof.
  apply keeps_bind; [|quiet]. apply quiet_run. intros ev t t' a E. destruct (first _ _); by simplify_eq/=.
Qed.

(** *** The file tree *)

Ltac other_table := by apply quiet_run; intros ? ? ? ? [= <- _].

Lemma quiet_first_item p : quiet (run (sql_first_item p)).
Proof. other_table. Qed.
Lemma quiet_first_file p : quiet (run (sql_first_file p)).
Proof. other_table. Qed.
Lemma quiet_first_folder p : quiet (run (sql_first_folder p)).
Proof. other_table. Qed.
Lemma quiet_delete_links id : quiet (run (sql_delete_links id)).
Proof. other_table. Qed.
Lemma quiet_delete_item dev id : quiet (run (sql_delete_item dev id)).
Proof. other_table. Qed.
Lemma quiet_delete_file dev id : quiet (run (sql_delete_file dev id)).
Proof. other_table. Qed.
Lemma quiet_delete_folder dev id : quiet (run (sql_delete_folder dev id)).
Proof. other_table. Qed.
Lemma quiet_create_links id ids : quiet (run (sql_create_links id ids)).
Proof. apply quiet_run. intros ev t t' a. unfold sql_create_links. case_decide; [by intros [= <- _]|done]. Qed.
Lemma quiet_UpsertFile n : quiet (UpsertFile n).
Proof. apply quiet_run. intros ev t t' a. unfold sql_upsert_file. repeat case_match; by intros [= <- _]. Qed.
Lemma quiet_UpsertFolder n : quiet (UpsertFolder n).
Proof. apply quiet_run. intros ev t t' a. unfold sql_upsert_folder. repeat case_match; by intros [= <- _]. Qed.
Lemma quiet_UpsertItem it : quiet (UpsertItem it).
Proof. apply quiet_run. intros ev t t' a. unfold sql_upsert_item. repeat case_match; by intros [= <- _]. Qed.
#[local] Hint Resolve quiet_first_item quiet_first_file quiet_first_folder quiet_delete_links
  quiet_delete_item quiet_delete_file quiet_delete_folder quiet_create_links quiet_UpsertFile
  quiet_UpsertFolder quiet_UpsertItem : core.

Lemma quiet_softDeleteItem it dev : quiet (softDeleteItem it dev).
Proof. unfold softDeleteItem. quiet. Qed.
#[local] Hint Resolve quiet_softDeleteItem : core.
Lemma quiet_DeleteItem dev id : quiet (DeleteItem dev id).
Proof. unfold DeleteItem, item_by_id. quiet. Qed.
Lemma quiet_DeleteItemByLogicalPath dev path : quiet (DeleteItemByLogicalPath dev path).
Proof. unfold DeleteItemByLogicalPath, item_by_id. quiet. Qed.
Lemma quiet_ReplaceContentTypes id ids : quiet (ReplaceContentTypes id ids).
Proof. unfold ReplaceContentTypes. quiet. Qed.
#[local] Hint Resolve quiet_DeleteItem quiet_DeleteItemByLogicalPath quiet_ReplaceContentTypes : core.
Lemma quiet_upsert_segments dev change now segs : ∀ seen p last,
  quiet (upsert_segments dev change now seen p last segs).
Proof.
  induction segs as [|seg segs IH]; intros seen p last; cbn [upsert_segments]; [apply keeps_ret|].
  unfold upsert_file_step, upsert_folder_step. quiet.
Qed.
Lemma quiet_ApplyChanges dev now changes : quiet (ApplyChanges dev now changes).
Proof.
  apply keeps_for_each. intros [i change]. cbn [fst snd]. unfold apply_change. destruct (Deleted change); [quiet|].
  apply keeps_bind; [|quiet]. unfold upsertPath. destruct (splitPath _ _). apply quiet_upsert_segments.
Qed.
Lemma quiet_GetNodes now f : quiet (GetNodes now f).
Proof.
  unfold GetNodes, ListItems. apply keeps_bind; [auto|]. intros since.
  apply keeps_bind; [other_table|]. intros total. apply keeps_bind; [other_table|]. auto.
Qed.

(** *** Backup versions *)

Lemma quiet_record_version sess :
  keeps (λ b : BackupState DB, queue_of (db b) = T) (record_version sess).
Proof.
  unfold record_version. case_decide; [auto|]. intros b Hb.
  match goal with |- context [zoom _ _ ?m b] => assert (quiet m) as Hm end.
  { apply keeps_bind; [apply keeps_wrap_st|intros v; apply keeps_wrap_st].
    - apply keeps_bind; [other_table|quiet].
    - apply quiet_run. intros ev t t' a. unfold sql_create_version. repeat case_match; by intros [= <- _]. }
  by apply Hm.
Qed.
End Statements.

(** ** Frames

    The queue stays and the frames written so far stay in front. *)

Section Frames.
Context `{EngineLaws DB, Sha1, Bcrypt, JwtLib, Json} (ctl : ProtocolController).
Context (T : gmap Z AgentCommand) (w : list (Z * list ascii)).
Definition leaves (s : ServerState DB) : Prop := queue s = T ∧ w `prefix_of` wire s.

Lemma leaves_on_db {A} (m : StE DB A) : keeps (λ db, queue_of db = T) m → keeps leaves (on_db m).
Proof. intros Hm s [Hs Hw]. split; [|done]. by apply Hm. Qed.
Lemma leaves_on_backup {A} (m : StE (BackupState DB) A) :
  keeps (λ b, queue_of (db b) = T) m → keeps leaves (on_backup m).
Proof. intros Hm s [Hs Hw]. split; [|done]. by apply Hm. Qed.
Lemma leaves_written fd f s : leaves s → leaves (written fd f s).
Proof. intros [Hs Hw]. split; [done|]. by apply prefix_app_r. Qed.

#[local] Hint Resolve keeps_ret keeps_fail keeps_lift keeps_gets keeps_attempt keeps_ignore
  keeps_wrap_st : core.
Ltac leaves :=
  repeat first
    [ progress intros
    | done
    | by auto
    | apply keeps_bind
    | match goal with
      | |- keeps _ (attempt _) => apply keeps_attempt
      | |- keeps _ (ignore _) => apply keeps_ignore
      | |- keeps _ (modify _) => apply keeps_modify; by auto using leaves_written
      | |- keeps _ (match ?x with _ => _ end) => destruct x
      | |- keeps _ (if ?x then _ else _) => destruct x
      end ].

(** *** The sessions and files of backups *)

Abbreviation same_db m := (keeps (λ b : BackupState DB, queue_of (db b) = T) m) (only parsing).

Lemma leaves_find_session id : same_db (find_session id).
Proof. unfold find_session. leaves. Qed.
Lemma leaves_store_session id sess : same_db (store_session id sess).
Proof. by apply keeps_modify. Qed.
Lemma leaves_partial_size os p : same_db (partial_size os p).
Proof. intros b Hb. unfold partial_size. by repeat case_match. Qed.
Lemma leaves_rename os a b : same_db (rename os a b).
Proof. intros s Hs. unfold rename. by repeat case_match. Qed.
#[local] Hint Resolve leaves_find_session leaves_store_session leaves_partial_size leaves_rename
  quiet_record_version : core.
Lemma leaves_finish_file os sess : same_db (finish_file os sess).
Proof. unfold finish_file. leaves. Qed.
#[local] Hint Resolve leaves_finish_file : core.
Lemma leaves_PrepareUpload cfg os u n r1 r2 dev req : same_db (PrepareUpload cfg os u n r1 r2 dev req).
Proof. unfold PrepareUpload. leaves. Qed.
Lemma leaves_PrepareDownload cfg os n r1 r2 dev name : same_db (PrepareDownload cfg os n r1 r2 dev name).
Proof. unfold PrepareDownload. leaves. Qed.
Lemma leaves_ValidateSession id tok d : same_db (ValidateSession id tok d).
Proof. unfold ValidateSession. leaves. Qed.
Lemma leaves_Advance n id d : same_db (Advance n id d).
Proof. unfold Advance. leaves. Qed.
Lemma leaves_MarkCompleted n id : same_db (MarkCompleted n id).
Proof. unfold MarkCompleted. leaves. Qed.
Lemma leaves_FinalizeUpload os n id : same_db (FinalizeUpload os n id).
Proof. unfold FinalizeUpload. leaves. Qed.
#[local] Hint Resolve leaves_on_db leaves_on_backup leaves_PrepareUpload leaves_PrepareDownload
  leaves_ValidateSession leaves_Advance leaves_MarkCompleted leaves_FinalizeUpload : core.

(** *** Answers *)

Lemma leaves_transmit env client what frame : keeps leaves (transmit env client what frame).
Proof. apply stable_transmit, leaves_written. Qed.
Lemma leaves_ack env client code msg : keeps leaves (ack env client code msg).
Proof. apply keeps_ignore, leaves_transmit. Qed.
Lemma leaves_sendAckJSON env client code payload : keeps leaves (sendAckJSON env client code payload).
Proof. apply stable_sendAckJSON, leaves_written. Qed.
Lemma leaves_send_chunks env client sid tok fuel i off data :
  keeps leaves (send_chunks env client sid tok fuel i off data).
Proof. apply stable_send_chunks, leaves_written. Qed.
#[local] Hint Resolve leaves_transmit leaves_ack leaves_sendAckJSON leaves_send_chunks : core.

(** *** The handlers *)

#[local] Hint Resolve quiet_FindByUUID quiet_ListAll quiet_Upsert quiet_Logs_Create
  quiet_ValidateCredentials quiet_ApplyChanges quiet_GetNodes : core.

Lemma leaves_require_authorized dev : keeps leaves (require_authorized dev).
Proof. unfold require_authorized, isAuthorized. leaves. Qed.
#[local] Hint Resolve leaves_require_authorized : core.
Lemma leaves_enrich info : keeps leaves (enrich_device ctl info).
Proof. unfold enrich_device, UpsertDevice. leaves. Qed.
#[local] Hint Resolve leaves_enrich : core.
Lemma leaves_Login env dev p : keeps leaves (handleLogin ctl env dev p).
Proof. unfold handleLogin. leaves. Qed.
Lemma leaves_DeviceRegister dev p : keeps leaves (handleDeviceRegister ctl dev p).
Proof. unfold handleDeviceRegister, UpsertDevice. leaves. Qed.
Lemma leaves_FileTreeSync env dev p : keeps leaves (handleFileTreeSync ctl env dev p).
Proof. unfold handleFileTreeSync. leaves. Qed.
Lemma leaves_AgentLog dev p : keeps leaves (handleAgentLog ctl dev p).
Proof. unfold handleAgentLog. leaves. Qed.
Lemma leaves_get_st : keeps leaves get_st.
Proof. by intros s Hs. Qed.
#[local] Hint Resolve leaves_get_st : core.
Lemma leaves_AdminListDevices : keeps leaves (handleAdminListDevices ctl).
Proof. unfold handleAdminListDevices. leaves. Qed.
Lemma leaves_AdminListOnline dev : keeps leaves (handleAdminListOnline ctl dev).
Proof. unfold handleAdminListOnline. leaves. Qed.
Lemma leaves_AdminListTree env p : keeps leaves (handleAdminListTree ctl env p).
Proof. unfold handleAdminListTree. leaves. Qed.
Lemma leaves_InitUpload env dev p : keeps leaves (handleBackupInitUpload ctl env dev p).
Proof. unfold handleBackupInitUpload. leaves. Qed.
Lemma leaves_InitDownload env dev p : keeps leaves (handleBackupInitDownload ctl env dev p).
Proof. unfold handleBackupInitDownload. leaves. Qed.
Lemma leaves_open_file env p : keeps leaves (open_file env p).
Proof. unfold open_file. leaves. Qed.
#[local] Hint Resolve leaves_open_file : core.
Lemma leaves_DownloadStart env client dev p : keeps leaves (handleBackupDownloadStart ctl env client dev p).
Proof. unfold handleBackupDownloadStart. leaves. Qed.
Lemma leaves_write_chunk env path off data : keeps leaves (write_chunk env path off data).
Proof. unfold write_chunk. leaves. Qed.
#[local] Hint Resolve leaves_write_chunk : core.
Lemma leaves_FileChunk env msg : keeps leaves (handleFileChunk ctl env msg).
Proof. unfold handleFileChunk, isAuthorized. leaves. Qed.
Lemma leaves_FileDone env msg : keeps leaves (handleFileDone ctl env msg).
Proof. unfold handleFileDone, isAuthorized. leaves. apply leaves_on_backup. leaves. Qed.
Lemma leaves_login_frame env client msg : keeps leaves (handle_login_frame ctl env client msg).
Proof. unfold handle_login_frame. leaves. apply keeps_modify. intros s Hs. by case_match. Qed.
#[local] Hint Resolve leaves_Login leaves_DeviceRegister leaves_FileTreeSync leaves_AgentLog
  leaves_AdminListDevices leaves_AdminListOnline leaves_AdminListTree leaves_InitUpload
  leaves_InitDownload leaves_DownloadStart leaves_FileChunk leaves_FileDone leaves_login_frame : core.

Lemma leaves_dispatch env client dev action payload :
  action ≠ "admin_send_command" → keeps leaves (dispatch ctl env client dev action payload).
Proof.
  intros Ha. unfold dispatch, answer, answer_json.
  repeat (case_decide; [first [done|leaves]|]). auto.
Qed.
End Frames.

(** The payload of a frame that queues a command. *)
Definition admin_request `{Json} (msg : ProtocolMessage) : option (list ascii) :=
  if decide (Type_ msg = MSG_COMMAND ∧ CommandJSON msg ≠ []) then
    match decode_envelope (CommandJSON msg) with
    | Ok (action, payload) => if decide (action = "admin_send_command") then Some payload else None
    | Err _ => None
    end
  else None.

Lemma HandleMessage_leaves `{EngineLaws DB, Sha1, Bcrypt, JwtLib, Json} ctl env client msg
    (s : ServerState DB) :
  admin_request msg = None →
  queue (HandleMessage ctl env client msg s).1 = queue s ∧
  wire s `prefix_of` wire (HandleMessage ctl env client msg s).1.
Proof.
  intros Hno. cut (keeps (leaves (queue s) (wire s)) (HandleMessage ctl env client msg)).
  { intros Hk. by apply Hk. }
  unfold HandleMessage. case_decide; [by apply leaves_login_frame|].
  case_decide as Hc; [|case_decide; [by apply leaves_FileChunk|case_decide; [by apply leaves_FileDone|apply keeps_ret]]].
  unfold handleSubCommand. unfold admin_request in Hno.
  destruct (decide (CommandJSON msg = [])) as [|He]; [by apply leaves_ack|].
  rewrite decide_True in Hno by done.
  destruct (decode_envelope (CommandJSON msg)) as [[action payload]|]; [|by apply leaves_ack].
  case_decide as Ha; [done|]. apply keeps_bind; [apply keeps_gets|]. intros ok.
  destruct (_ && _); [by apply leaves_ack|by apply leaves_dispatch].
Qed.
