(* ===== verification/Queue.v ===== *)
(** * The command queue under concurrency

    Every login starts a goroutine that delivers the queued commands of its device
    ([retryPendingCommands], backend/app/controllers/protocol_controller.go), and
    every [admin_send_command] (protocol_admin.go) queues a command and tries to
    deliver it at once.  No lock orders them: between two statements of the
    database, or a statement and a send, the others run.

    A job is one of these bodies with the point it has reached; an execution is any
    interleaving of the turns of jobs, of whole frames of every other kind, of
    disconnects, and of devices coming and going in the registry.  The log of an
    execution is its history: which job had the hub accept which command, and the
    frame. *)

From S2P Require Export Footprint.

Local Open Scope Z_scope.

(** ** Jobs *)

Inductive job :=
  | RetryStart (dev : string)                                     (* before [ListByDevice] *)
  | RetryLoop (dev : string) (cmds : list AgentCommand)           (* at the head of the loop *)
  | RetrySent (dev : string) (id : Z) (cmds : list AgentCommand)  (* before [MarkSent] *)
  | RetrySkipped (dev : string) (id : Z) (e : string) (cmds : list AgentCommand)
  | RetryRefused (id : Z) (e : string)                            (* before the status, then [break] *)
  | AdminStart (client : TCPClient) (payload : list ascii)
  | AdminCheck (client : TCPClient) (req : AdminSendCommandRequest) (id : Z)   (* before [IsOnline] *)
  | AdminSend (client : TCPClient) (req : AdminSendCommandRequest) (id : Z) (b : list ascii)
  | AdminSent (client : TCPClient) (id : Z)                       (* before [MarkSent] *)
  | AdminRefused (client : TCPClient) (id : Z) (e : string)       (* before the status *)
  | AdminReply (client : TCPClient) (r : result reply)            (* before the acknowledgement *)
  | Done.

Definition send_reply (id : Z) (sent : bool) : result reply :=
  Ok (RSend {| Sent_ID := id; Sent_Status := if sent then "sent" else "pending"; Sent := sent |}).

Section Jobs.
Context `{Engine DB, Sha1, Bcrypt, JwtLib, Json} (ctl : ProtocolController).
Abbreviation State := (ServerState DB) (only parsing).

(** [CreateCommand] of an administrator, with what it checks first. *)
Definition queue_command (payload : list ascii) : StE State (AdminSendCommandRequest * Z) :=
  if negb (CmdRepo ctl) then fail "command repo not available" else
  req ← lift (decode_send payload);
  if decide (Send_DeviceID req = "" ∨ Send_Command req = "")
  then fail "missing device_id or command" else
  cmd ← wrap_st "queue command: " (on_db (Commands_Create (pending_command req)));
  mret (req, AgentCommand_ID cmd).

(** One turn: the state, what is left, and the command the hub has accepted. *)
Definition job_step (env : call_env) (j : job) (s : State) : State * job * option Z :=
  match j with
  | RetryStart dev =>
      if negb (CmdRepo ctl) then (s, Done, None) else
      match on_db (ListByDevice dev false) s with
      | (s', Err _) => (s', Done, None)
      | (s', Ok cmds) => (s', RetryLoop dev cmds, None)
      end
  | RetryLoop dev [] => (s, Done, None)
  | RetryLoop dev (cmd :: rest) =>
      let id := AgentCommand_ID cmd in
      match encode_command (retry_request dev cmd) with
      | Err e => (s, RetrySkipped dev id e rest, None)
      | Ok payload =>
          match hub_send env dev payload s with
          | (s', Ok _) => (s', RetrySent dev id rest, Some id)
          | (s', Err e) => (s', RetryRefused id e, None)
          end
      end
  | RetrySent dev id cmds => ((on_db (MarkSent id) s).1, RetryLoop dev cmds, None)
  | RetrySkipped dev id e cmds =>
      ((on_db (Commands_UpdateStatus id "failed" e) s).1, RetryLoop dev cmds, None)
  | RetryRefused id e => ((on_db (Commands_UpdateStatus id "failed" e) s).1, Done, None)
  | AdminStart client payload =>
      match queue_command payload s with
      | (s', Err e) => (s', AdminReply client (Err e), None)
      | (s', Ok (req, id)) => (s', AdminCheck client req id, None)
      end
  | AdminCheck client req id =>
      if negb (IsOnline (hub s) (reg s) (Send_DeviceID req))
      then (s, AdminReply client (send_reply id false), None)
      else match encode_command (wire_request req) with
           | Err _ => (s, AdminReply client (send_reply id false), None)
           | Ok b => (s, AdminSend client req id b, None)
           end
  | AdminSend client req id b =>
      match hub_send env (Send_DeviceID req) b s with
      | (s', Ok _) => (s', AdminSent client id, Some id)
      | (s', Err e) => (s', AdminRefused client id e, None)
      end
  | AdminSent client id => ((on_db (MarkSent id) s).1, AdminReply client (send_reply id true), None)
  | AdminRefused client id e =>
      ((on_db (Commands_UpdateStatus id "pending" e) s).1, AdminReply client (send_reply id false), None)
  | AdminReply client r =>
      ((match r with
        | Err e => ack env client 500 e
        | Ok data => sendAckJSON env client 200 data
        end s).1, Done, None)
  | Done => (s, Done, None)
  end.

(** A job with nothing in between. *)
Fixpoint run_job (n : nat) (env : call_env) (j : job) (s : State) : State * job :=
  match n with
  | O => (s, j)
  | S n => let '(s', j', _) := job_step env j s in run_job n env j' s'
  end.

(** ** Executions *)

(** Which command, by which job, in which frame. *)
Record delivery := { by_job : nat; command_id : Z; frame : Z * list ascii }.
Record system := { shared : State; jobs : gmap nat job; log : list delivery }.
Definition accepted (i : nat) (sent : option Z) (w : list (Z * list ascii)) : list delivery :=
  match sent, last w with
  | Some id, Some fr => [{| by_job := i; command_id := id; frame := fr |}]
  | _, _ => []
  end.
Definition start (s : State) : system := {| shared := s; jobs := ∅; log := [] |}.

Inductive action :=
  | AFrame (j : nat) (env : call_env) (client : TCPClient) (msg : ProtocolMessage)
  | ATurn (j : nat) (env : call_env)
  | ADisconnect (client : TCPClient) (dev : string)
  | ARegistry (l : list device_entry).    (* connections log in and end *)

(** The job a frame starts: a goroutine, or the handler itself. *)
Definition job_of (msg : ProtocolMessage) (client : TCPClient) : job :=
  match admin_request msg with
  | Some payload => AdminStart client payload
  | None =>
      if decide (Type_ msg = MSG_LOGIN ∧ DeviceID msg ≠ "") then RetryStart (DeviceID msg) else Done
  end.

Definition perform (sys : system) (a : action) : option system :=
  match a with
  | AFrame i env client msg =>
      match jobs sys !! i with
      | Some _ => None
      | None => Some {|
          shared := match admin_request msg with
                    | Some _ => shared sys
                    | None => (HandleMessage ctl env client msg (shared sys)).1
                    end;
          jobs := <[i := job_of msg client]> (jobs sys); log := log sys |}
      end
  | ATurn i env =>
      j ← jobs sys !! i;
      let '(s', j', sent) := job_step env j (shared sys) in
      Some {|
        shared := s'; jobs := <[i := j']> (jobs sys);
        log := log sys ++ accepted i sent (wire s') |}
  | ADisconnect client dev => Some {|
      shared := (HandleDisconnect client dev (shared sys)).1; jobs := jobs sys; log := log sys |}
  | ARegistry l => Some {| shared := set_reg l (shared sys); jobs := jobs sys; log := log sys |}
  end.

Fixpoint run_actions (sys : system) (l : list action) : option system :=
  match l with
  | [] => Some sys
  | a :: l => sys' ← perform sys a; run_actions sys' l
  end.
End Jobs.

(** ** A job alone is the handler *)

Section Alone.
Context `{Engine DB, Sha1, Bcrypt, JwtLib, Json} (ctl : ProtocolController).
Implicit Types s : ServerState DB.

Lemma run_job_app m n env j s :
  run_job ctl (m + n) env j s =
    let '(s', j') := run_job ctl m env j s in run_job ctl n env j' s'.
Proof.
  revert j s. induction m as [|m IH]; intros j s; [done|]. cbn [Nat.add run_job].
  destruct (job_step ctl env j s) as [[s' j'] o]. apply IH.
Qed.

Lemma loop_alone env dev cmds : ∀ s,
  ∃ n, run_job ctl n env (RetryLoop dev cmds) s = ((retry_commands env dev cmds s).1, Done).
Proof.
  induction cmds as [|c cmds IH]; intros s; [by exists 1%nat|].
  cbn [retry_commands]. destruct (encode_command (retry_request dev c)) as [p|e] eqn:Ep.
  - unfold mbind, StE_bind, attempt.
    destruct (hub_send env dev p s) as [s1 [[]|e]] eqn:Eh; cbn [fst snd].
    + destruct (IH (on_db (MarkSent (AgentCommand_ID c)) s1).1) as [n Hn]. exists (S (S n)).
      cbn [run_job job_step]. by rewrite Ep, Eh.
    + exists 2%nat. cbn [run_job job_step]. by rewrite Ep, Eh.
  - destruct (IH (on_db (Commands_UpdateStatus (AgentCommand_ID c) "failed" e) s).1) as [n Hn].
    exists (S (S n)). cbn [run_job job_step]. by rewrite Ep.
Qed.

Lemma retry_alone env dev s :
  ∃ n, run_job ctl n env (RetryStart dev) s = ((retryPendingCommands ctl env dev s).1, Done).
Proof.
  unfold retryPendingCommands. destruct (negb (CmdRepo ctl)) eqn:Ec.
  { exists 1%nat. cbn [run_job job_step]. by rewrite Ec. }
  unfold mbind, StE_bind, attempt.
  destruct (on_db (ListByDevice dev false) s) as [s1 [cmds|e]] eqn:El; cbn [fst snd].
  - destruct (loop_alone env dev cmds s1) as [n Hn]. exists (S n). cbn [run_job job_step]. by rewrite Ec, El.
  - exists 1%nat. cbn [run_job job_step]. by rewrite Ec, El.
Qed.

Lemma handleAdminSendCommand_parts env payload s :
  handleAdminSendCommand ctl env payload s =
    ('(req, id) ← queue_command ctl payload; sent ← send_now env req id;
     lift (send_reply id sent)) s.
Proof.
  unfold handleAdminSendCommand, queue_command.
  destruct (negb (CmdRepo ctl)); [done|]. unfold mbind, StE_bind, lift.
  destruct (decode_send payload) as [req|e]; [|done].
  destruct (decide _); [done|].
  destruct (wrap_st _ _ s) as [s1 [cmd|e]]; [|done]. cbn [mret StE_ret].
  by destruct (send_now env req (AgentCommand_ID cmd) s1) as [s2 [[]|]].
Qed.

Lemma reply_alone n env client r s :
  run_job ctl (S n) env (AdminReply client r) s =
    ((match r with Err e => ack env client 500 e | Ok data => sendAckJSON env client 200 data end s).1, Done).
Proof. cbn [run_job job_step]. induction n as [|n IH]; [done|exact IH]. Qed.

Lemma admin_alone env client msg payload s :
  admin_request msg = Some payload →
  run_job ctl 5 env (AdminStart client payload) s = ((HandleMessage ctl env client msg s).1, Done).
Proof.
  intros Ha. assert (HandleMessage ctl env client msg s =
    answer_json env client 500 (handleAdminSendCommand ctl env payload) s) as ->.
  { unfold admin_request in Ha. case_decide as Hc; [|done]. destruct Hc as [Ht Hne].
    unfold HandleMessage, handleSubCommand. rewrite Ht.
    rewrite decide_False by done. rewrite decide_True by done. rewrite decide_False by done.
    destruct (decode_envelope (CommandJSON msg)) as [[action p]|]; [|done].
    destruct (decide (action = "admin_send_command")) as [->|]; [|done]. injection Ha as ->.
    unfold isAuthorized, gets, mbind, StE_bind. cbv beta iota.
    rewrite bool_decide_eq_false_2 by by_decide. cbn [andb].
    unfold dispatch. do 8 (rewrite decide_False by done). by rewrite decide_True. }
  unfold answer_json, attempt, mbind, StE_bind. rewrite handleAdminSendCommand_parts.
  unfold mbind, StE_bind, lift. cbn [run_job job_step].
  destruct (queue_command ctl payload s) as [s1 [[req id]|e]]; cbn [fst snd]; [|done].
  unfold send_now, mbind, StE_bind, gets, attempt. cbn [job_step].
  destruct (negb _); cbn [fst snd]; [done|].
  destruct (encode_command (wire_request req)) as [b|]; cbn [fst snd]; [|done].
  cbn [job_step]. destruct (hub_send env (Send_DeviceID req) b s1) as [s2 [[]|e]]; cbn [fst snd job_step];
    done.
Qed.
End Alone.

(** ** The invariant *)

Definition statuses : list string := ["pending"; "failed"; "sent"].
(** What never changes in a row. *)
Definition same_command (c c' : AgentCommand) : Prop :=
  AgentCommand_ID c' = AgentCommand_ID c ∧ AgentCommand_DeviceID c' = AgentCommand_DeviceID c ∧
  Command c' = Command c ∧ Kind c' = Kind c ∧ Payload c' = Payload c.
#[export] Instance same_command_preorder : PreOrder same_command.
Proof. split; [by intros c|]. intros a b c (?&?&?&?&?) (?&?&?&?&?). split_and!; congruence. Qed.

Definition evolves (T T' : gmap Z AgentCommand) : Prop :=
  ∀ id c, T !! id = Some c → ∃ c', T' !! id = Some c' ∧ same_command c c'.
#[export] Instance evolves_preorder : PreOrder evolves.
Proof.
  split; [by intros T id c Hc; exists c|].
  intros T1 T2 T3 H1 H2 id c Hc. destruct (H1 id c Hc) as (c' & Hc' & Hs).
  destruct (H2 id c' Hc') as (c'' & Hc'' & Hs'). exists c''. split; [done|by etrans].
Qed.

Lemma same_command_request dev c c' : same_command c c' → retry_request dev c' = retry_request dev c.
Proof. intros (_ & _ & Hc & Hk & Hp). unfold retry_request. by rewrite Hc, Hk, Hp. Qed.

(** The commands a job has had accepted, in order, and those it may still send. *)
Definition ids_of (i : nat) (l : list delivery) : list Z := command_id <$> filter (λ d, by_job d = i) l.
Definition todo (j : job) : list Z :=
  match j with
  | RetryLoop _ cmds | RetrySent _ _ cmds | RetrySkipped _ _ _ cmds => AgentCommand_ID <$> cmds
  | AdminCheck _ _ id | AdminSend _ _ id _ => [id]
  | _ => []
  end.

Lemma ids_of_app i l k : ids_of i (l ++ k) = ids_of i l ++ ids_of i k.
Proof. unfold ids_of. by rewrite filter_app, fmap_app. Qed.
Lemma ids_of_other i l : Forall (λ d, by_job d ≠ i) l → ids_of i l = [].
Proof.
  unfold ids_of. induction 1 as [|d l Hd _ IH]; [done|]. by rewrite filter_cons_False.
Qed.
Lemma ids_of_elem i l id : id ∈ ids_of i l → ∃ d, d ∈ l ∧ command_id d = id.
Proof.
  unfold ids_of. intros (d & -> & [_ Hd]%list_elem_of_filter)%list_elem_of_fmap. by exists d.
Qed.

Section Invariant.
Context `{EngineLaws DB, Sha1, Bcrypt, JwtLib, Json} (ctl : ProtocolController).
Implicit Types s : ServerState DB.

(** A row the job has read, or queued for a request. *)
Definition known (T : gmap Z AgentCommand) (dev : string) (c : AgentCommand) : Prop :=
  AgentCommand_DeviceID c = dev ∧ ∃ c', T !! AgentCommand_ID c = Some c' ∧ same_command c c'.
Definition asked (T : gmap Z AgentCommand) (req : AdminSendCommandRequest) (id : Z) : Prop :=
  ∃ c, T !! id = Some c ∧ AgentCommand_DeviceID c = Send_DeviceID req ∧
    retry_request (Send_DeviceID req) c = wire_request req.
Definition carried_out (T : gmap Z AgentCommand) (d : delivery) : Prop :=
  ∃ c, T !! command_id d = Some c ∧ carries (AgentCommand_DeviceID c) c (frame d).

Definition job_ok (T : gmap Z AgentCommand) (l : list delivery) (i : nat) (j : job) : Prop :=
  StronglySorted Z.lt (ids_of i l ++ todo j) ∧
  match j with
  | RetryStart _ | AdminStart _ _ => ids_of i l = []
  | RetryLoop dev cmds | RetrySkipped dev _ _ cmds => Forall (known T dev) cmds
  | RetrySent dev id cmds => Forall (known T dev) cmds ∧ id ∈ ids_of i l
  | AdminCheck _ req id => asked T req id
  | AdminSend _ req id b => asked T req id ∧ encode_command (wire_request req) = Ok b
  | AdminSent _ id => id ∈ ids_of i l
  | _ => True
  end.

Lemma known_evolves T T' dev c : evolves T T' → known T dev c → known T' dev c.
Proof.
  intros He (Hd & c' & Hc & Hs). destruct (He _ _ Hc) as (c'' & Hc' & Hs').
  split; [done|]. exists c''. split; [done|by etrans].
Qed.
Lemma asked_evolves T T' req id : evolves T T' → asked T req id → asked T' req id.
Proof.
  intros He (c & Hc & Hd & Hr). destruct (He _ _ Hc) as (c' & Hc' & Hs). exists c'. split; [done|].
  split; [destruct Hs as (_ & -> & _); exact Hd|]. by rewrite (same_command_request _ c).
Qed.
Lemma delivered_evolves T T' d : evolves T T' → carried_out T d → carried_out T' d.
Proof.
  intros He (c & Hc & p & Hp & Hf). destruct (He _ _ Hc) as (c' & Hc' & Hs). exists c'. split; [done|].
  exists p. split; [|done]. rewrite (same_command_request _ c c' Hs).
  destruct Hs as (_ & -> & _). exact Hp.
Qed.

Lemma job_ok_evolves T T' l l' i j :
  evolves T T' → ids_of i l' = ids_of i l → job_ok T l i j → job_ok T' l' i j.
Proof.
  intros He Hl [Hs Hj]. unfold job_ok. rewrite Hl. split; [done|].
  destruct j; try done; try (destruct Hj; split); try done;
    try (by eapply asked_evolves); by (eapply Forall_impl; [done|]; intros c; by apply known_evolves).
Qed.

(** What a turn does to the table: rows stay the commands they are, and one is marked
    sent only when the hub has accepted it. *)
Record good_turn (T T' : gmap Z AgentCommand) (l : list delivery) : Prop := {
  gt_keyed : keyed AgentCommand_ID T';
  gt_evolves : evolves T T';
  gt_status id c : T' !! id = Some c → Status c ∈ statuses;
  gt_sent id c : T' !! id = Some c → Status c = "sent" →
    (∃ c0, T !! id = Some c0 ∧ Status c0 = "sent") ∨ ∃ d, d ∈ l ∧ command_id d = id }.

Record queue_inv (T0 : gmap Z AgentCommand) (w0 : list (Z * list ascii)) (sys : system) : Prop := {
  qi_turn : good_turn T0 (queue (shared sys)) (log sys);
  qi_log : Forall (carried_out (queue (shared sys))) (log sys);
  qi_wire : ∃ w, wire (shared sys) = w0 ++ w ∧ frame <$> log sys `sublist_of` w;
  qi_jobs i j : jobs sys !! i = Some j → job_ok (queue (shared sys)) (log sys) i j;
  qi_fresh i : jobs sys !! i = None → ids_of i (log sys) = [] }.

(** One step of job [i] that adds [new] to the log. *)
Lemma queue_inv_step T0 w0 sys i s' j' new w :
  queue_inv T0 w0 sys → Forall (λ d, by_job d = i) new →
  good_turn (queue (shared sys)) (queue s') (log sys ++ new) →
  Forall (carried_out (queue s')) new →
  wire s' = wire (shared sys) ++ w → frame <$> new `sublist_of` w →
  job_ok (queue s') (log sys ++ new) i j' →
  queue_inv T0 w0 {| shared := s'; jobs := <[i := j']> (jobs sys); log := log sys ++ new |}.
Proof.
  intros [Hg Hl (w1 & Hw1 & Hsub) Hj Hf] Hi [Hk He Hst Hse] Hd Hw Hn Hj'. split; cbn [shared jobs log].
  - split; [done|by etrans; [apply (gt_evolves _ _ _ Hg)|]|done|].
    intros id c Hc Hs. destruct (Hse id c Hc Hs) as [(c0 & Hc0 & Hs0)|?]; [|by right].
    destruct (gt_sent _ _ _ Hg id c0 Hc0 Hs0) as [?|(d & ? & ?)]; [by left|right].
    exists d. split; [|done]. apply elem_of_app. by left.
  - apply Forall_app. split; [|done]. eapply Forall_impl; [exact Hl|]. intros d. by apply delivered_evolves.
  - exists (w1 ++ w). split; [by rewrite Hw, Hw1, app_assoc|]. rewrite fmap_app. by apply sublist_app.
  - intros k j. rewrite lookup_insert_Some. intros [[<- <-]|[Hne Hjk]]; [done|].
    eapply job_ok_evolves; [exact He| |by apply Hj]. rewrite ids_of_app, (ids_of_other k new), app_nil_r; [done|].
    eapply Forall_impl; [exact Hi|]. simpl. congruence.
  - intros k [Hk0 Hne]%lookup_insert_None. rewrite ids_of_app, (Hf k Hk0), ids_of_other; [done|].
    eapply Forall_impl; [exact Hi|]. simpl. congruence.
Qed.

(** *** The table *)

Lemma good_turn_same T0 T l l' : good_turn T0 T l → good_turn T T l'.
Proof. intros [Hk _ Hst _]. split; [done|done|done|]. intros id c Hc Hs. left. by exists c. Qed.

Lemma good_turn_update T0 id st (f : stmt_env → AgentCommand → AgentCommand) l l' s :
  good_turn T0 (queue s) l → (∀ ev c, same_command c (f ev c) ∧ Status (f ev c) = st) →
  st ∈ statuses → (st = "sent" → ∃ d, d ∈ l' ∧ command_id d = id) →
  let m := run (λ ev t, Ok (with_agent_commands
    (update_where (has_command_id id) (f ev) (agent_commands t)) t, tt)) in
  good_turn (queue s) (queue (on_db m s).1) l' ∧ wire (on_db m s).1 = wire s.
Proof.
  intros Hg Hf Hst Hsent m. split; [|done].
  destruct (on_db_update id f s (gt_keyed _ _ _ Hg)) as (d & Hrun & Hk & Hrow & Hmine).
  { intros ev c. by destruct (Hf ev c) as [[? _] _]. }
  apply (f_equal fst) in Hrun. change ((on_db m s).1 = set_backup (set_db d (backup s)) s) in Hrun.
  rewrite Hrun. set (s' := set_backup _ s) in *.
  assert (∀ j, j ≠ id → queue s' !! j = queue s !! j) as Hother by exact Hrow.
  assert (queue s' !! id = queue s !! id ∨ ∃ ev, queue s' !! id = f ev <$> queue s !! id) as Hid by exact Hmine.
  assert (∀ j c, queue s !! j = Some c → ∃ c', queue s' !! j = Some c' ∧ same_command c c') as Hev.
  { intros j c Hc. destruct (decide (j = id)) as [->|Hj]; [|rewrite Hother by done; by exists c].
    destruct Hid as [Hx|[ev Hx]]; rewrite Hx, Hc; [by exists c|].
    exists (f ev c). split; [done|apply Hf]. }
  assert (∀ j c, queue s' !! j = Some c → ∃ c0, queue s !! j = Some c0 ∧
    (Status c = Status c0 ∨ j = id ∧ Status c = st)) as Hback.
  { intros j c Hc. destruct (decide (j = id)) as [->|Hj]; [|rewrite Hother in Hc by done; exists c; auto].
    destruct Hid as [Hx|[ev Hx]]; rewrite Hx in Hc; [exists c; auto|].
    destruct (queue s !! id) as [c0|]; [|done]. injection Hc as <-. exists c0. split; [done|].
    right. split; [done|apply Hf]. }
  split; [exact Hk|exact Hev| |].
  - intros j c (c0 & Hc0 & [->|[_ ->]])%Hback; [by apply (gt_status _ _ _ Hg j)|done].
  - intros j c Hc Hs. apply Hback in Hc as (c0 & Hc0 & [He|[-> He]]).
    + left. exists c0. split; [done|congruence].
    + right. apply Hsent. congruence.
Qed.

Lemma good_turn_mark T0 id l l' s :
  good_turn T0 (queue s) l → (∃ d, d ∈ l' ∧ command_id d = id) →
  good_turn (queue s) (queue (on_db (MarkSent id) s).1) l' ∧ wire (on_db (MarkSent id) s).1 = wire s.
Proof.
  intros Hg Hd. apply (good_turn_update T0 id "sent" (λ ev, as_sent (clock ev)) l); try done.
  by_decide.
Qed.
Lemma good_turn_status T0 id st e l l' s :
  good_turn T0 (queue s) l → st ∈ ["pending"; "failed"] →
  good_turn (queue s) (queue (on_db (Commands_UpdateStatus id st e) s).1) l' ∧
  wire (on_db (Commands_UpdateStatus id st e) s).1 = wire s.
Proof.
  intros Hg Hst. apply (good_turn_update T0 id st (λ ev, with_status (clock ev) st e) l); try done.
  - unfold statuses. set_solver.
  - intros ->. exfalso. revert Hst. by_decide.
Qed.

Lemma queue_command_ok T0 payload l l' s s' req id :
  good_turn T0 (queue s) l → queue_command ctl payload s = (s', Ok (req, id)) →
  good_turn (queue s) (queue s') l' ∧ wire s' = wire s ∧ asked (queue s') req id.
Proof.
  intros Hg Hq. unfold queue_command in Hq. destruct (negb (CmdRepo ctl)); [done|].
  apply StE_bind_ok in Hq as (s1 & req' & Hx & Hq). injection Hx as <- Hx.
  destruct (decide _); [done|]. apply StE_bind_ok in Hq as (s2 & c & Hc & Hq).
  injection Hq as <- <- <-. apply wrap_st_ok in Hc.
  unfold on_db, on_backup, zoom in Hc. destruct (Commands_Create _ _) as [d [c1|e]] eqn:E; [|done].
  cbn [fst snd] in Hc. injection Hc as <- <-.
  apply create_command_ok in E as (Hk & Hc & [now Hn] & Hnone & Hother); [|apply (gt_keyed _ _ _ Hg)].
  split; [|split; [done|]].
  - split; [exact Hk| | |].
    + intros j c Hj. exists c. split; [|done]. change (agent_commands (view d) !! j = Some c).
      rewrite Hother; [exact Hj|]. intros ->. change (agent_commands (view (db (backup s)))) with (queue s) in Hnone.
      congruence.
    + intros j c Hj. change (agent_commands (view d) !! j = Some c) in Hj.
      destruct (decide (j = AgentCommand_ID c1)) as [->|Hne].
      * rewrite Hc in Hj. injection Hj as <-. rewrite Hn. by_decide.
      * rewrite Hother in Hj by done. by apply (gt_status _ _ _ Hg j).
    + intros j c Hj Hs. change (agent_commands (view d) !! j = Some c) in Hj.
      destruct (decide (j = AgentCommand_ID c1)) as [->|Hne].
      * rewrite Hc in Hj. injection Hj as <-. rewrite Hn in Hs. discriminate Hs.
      * rewrite Hother in Hj by done. left. by exists c.
  - exists c1. split; [exact Hc|]. rewrite Hn. cbn. split; [done|].
    unfold retry_request, wire_request. cbn. by rewrite to_of_bytes.
Qed.

(** *** One turn *)

(** A send that the hub has accepted. *)
Lemma hub_send_ok env dev p s s' :
  hub_send env dev p s = (s', Ok tt) →
  ∃ fr, s' = written fr.1 fr.2 s ∧ delivers fr.2 (received (OCommand p)).
Proof.
  unfold hub_send. destruct (Hub_Send _ _ _ _ _) as [[fd f]|e] eqn:E; [|done].
  intros [= <-]. exists (fd, f). split; [done|]. by eapply Hub_Send_delivers.
Qed.
Lemma hub_send_err env dev p s s' e : hub_send env dev p s = (s', Err e) → s' = s.
Proof. unfold hub_send. destruct (Hub_Send _ _ _ _ _) as [[fd f]|]; [done|congruence]. Qed.

Lemma ids_strictly_sorted cmds :
  StronglySorted (λ a b, AgentCommand_ID a ≤ AgentCommand_ID b) cmds →
  NoDup (AgentCommand_ID <$> cmds) → StronglySorted Z.lt (AgentCommand_ID <$> cmds).
Proof.
  induction cmds as [|c cmds IH]; intros Hs Hn; [constructor|].
  apply StronglySorted_inv in Hs as [Hs Hc]. rewrite fmap_cons in Hn |- *.
  apply NoDup_cons in Hn as [Hnew Hn]. constructor; [by apply IH|].
  rewrite Forall_fmap. rewrite Forall_forall in Hc |- *. intros c' Hc'. specialize (Hc c' Hc'). cbn.
  assert (AgentCommand_ID c ≠ AgentCommand_ID c'); [|lia].
  intros Heq. apply Hnew. rewrite Heq. by apply list_elem_of_fmap_2.
Qed.

(** The parts of [queue_inv_step] for a turn. *)
Definition turn_ok (s s' : ServerState DB) (l : list delivery) (i : nat) (j' : job) (sent : option Z) : Prop :=
  let new := accepted i sent (wire s') in
  good_turn (queue s) (queue s') (l ++ new) ∧ Forall (carried_out (queue s')) new ∧
  job_ok (queue s') (l ++ new) i j' ∧
  ∃ w, wire s' = wire s ++ w ∧ frame <$> new `sublist_of` w.

Lemma turn_quiet s s' l i j' :
  good_turn (queue s) (queue s') l → wire s `prefix_of` wire s' → job_ok (queue s') l i j' →
  turn_ok s s' l i j' None.
Proof.
  intros Hg [w Hw] Hj. unfold turn_ok. cbn [accepted]. rewrite app_nil_r. split_and!; [done|done|done|].
  exists w. split; [done|apply sublist_nil_l].
Qed.

(** A job that has sent its command goes on with [rest]. *)
Lemma turn_sends T0 s l i id c p fr rest j' :
  good_turn T0 (queue s) l → queue s !! id = Some c →
  encode_command (retry_request (AgentCommand_DeviceID c) c) = Ok p →
  delivers fr.2 (received (OCommand p)) →
  StronglySorted Z.lt (ids_of i l ++ id :: rest) →
  (∀ l', id ∈ ids_of i l' → StronglySorted Z.lt (ids_of i l' ++ rest) → job_ok (queue s) l' i j') →
  turn_ok s (written fr.1 fr.2 s) l i j' (Some id).
Proof.
  intros Hg Hc Hp Hf Hs Hj. unfold turn_ok, accepted. cbn [written wire]. rewrite last_snoc.
  destruct fr as [fd f]. cbn [fst snd] in *.
  assert (ids_of i [{| by_job := i; command_id := id; frame := (fd, f) |}] = [id]) as Hone.
  { unfold ids_of. by rewrite filter_cons_True. }
  split_and!; [by eapply good_turn_same| | |exists [(fd, f)]; by split].
  - repeat constructor. exists c. split; [done|]. by exists p.
  - apply Hj; rewrite ids_of_app, Hone; [apply elem_of_app; right; by apply list_elem_of_singleton|].
    by rewrite <- app_assoc.
Qed.

(** Fewer commands to send, and a condition of its own. *)
Lemma todo_less l i j :
  StronglySorted Z.lt (ids_of i l ++ todo j) → ∀ j', todo j' `sublist_of` todo j →
  StronglySorted Z.lt (ids_of i l ++ todo j').
Proof. intros Hs j' Hj. eapply sorted_sublist; [exact Hs|]. by apply sublist_app. Qed.

Lemma list_turn T0 dev l i s s' cmds :
  good_turn T0 (queue s) l → ids_of i l = [] → on_db (ListByDevice dev false) s = (s', Ok cmds) →
  turn_ok s s' l i (RetryLoop dev cmds) None.
Proof.
  intros Hg Hi Hl. pose proof (gt_keyed _ _ _ Hg) as Hk. unfold on_db, on_backup, zoom in Hl.
  destruct (ListByDevice dev false (db (backup s))) as [d [r|e]] eqn:E; [|done].
  cbn [fst snd] in Hl. injection Hl as <- <-.
  apply ListByDevice_ok in E as (Hv & Hperm & Hsort & Hnd); [|exact Hk].
  match goal with |- turn_ok _ ?x _ _ _ _ => set (s' := x) end.
  assert (queue s' = queue s) as Hq by (unfold queue, queue_of; cbn; by rewrite Hv).
  apply turn_quiet; [rewrite Hq; by eapply good_turn_same|done|].
  split; [rewrite Hi; by apply ids_strictly_sorted|]. rewrite Hq. apply Forall_forall. intros c Hc.
  rewrite Hperm in Hc. apply list_elem_of_filter in Hc as [Hf Hc].
  apply list_elem_of_fmap in Hc as ([k c'] & -> & Hc%elem_of_map_to_list). cbn [snd] in *.
  unfold queued_for in Hf. apply andb_true_iff in Hf as [Hd%bool_decide_eq_true _].
  split; [done|]. exists c'. split; [|done]. by rewrite (Hk _ _ Hc).
Qed.

Lemma list_fails T0 dev l i s s' e :
  good_turn T0 (queue s) l → ids_of i l = [] → on_db (ListByDevice dev false) s = (s', Err e) →
  turn_ok s s' l i Done None.
Proof.
  intros Hg Hi El. unfold on_db, on_backup, zoom in El.
  destruct (ListByDevice _ _ _) as [d [?|e1]] eqn:E; [done|].
  cbn [fst snd] in El. injection El as <- _. apply run_err in E.
  match goal with |- turn_ok _ ?x _ _ _ _ => set (s' := x) end.
  assert (queue s' = queue s) as Hq by (unfold queue, queue_of; cbn; by rewrite E).
  apply turn_quiet; [rewrite Hq; by eapply good_turn_same|done|].
  split; [rewrite Hi; constructor|done].
Qed.

Lemma queue_command_err payload s s' e :
  queue_command ctl payload s = (s', Err e) → queue s' = queue s ∧ wire s' = wire s.
Proof.
  unfold queue_command. destruct (negb (CmdRepo ctl)); [by intros [= <- _]|].
  unfold mbind, StE_bind, lift. destruct (decode_send payload) as [req|]; [|by intros [= <- _]].
  destruct (decide _); [by intros [= <- _]|].
  unfold wrap_st, wrap, on_db, on_backup, zoom.
  destruct (Commands_Create _ _) as [d [c|e1]] eqn:E; cbn [fst snd]; [done|]. intros [= <- _].
  apply run_err in E. split; [|done]. unfold queue, queue_of. cbn. by rewrite E.
Qed.

Lemma loop_turn T0 env i dev c cmds j' sent l s s' :
  good_turn T0 (queue s) l → job_ok (queue s) l i (RetryLoop dev (c :: cmds)) →
  job_step ctl env (RetryLoop dev (c :: cmds)) s = (s', j', sent) → turn_ok s s' l i j' sent.
Proof.
  intros Hg [Hs Hj] Hstep. pose proof (good_turn_same _ _ _ l Hg) as Hsame.
  pose proof (todo_less l i _ Hs) as Hless. cbn [job_step] in Hstep.
  apply Forall_cons in Hj as [(Hd & c' & Hc & Hsc) Hj].
  destruct (encode_command (retry_request dev c)) as [p|e] eqn:Ep.
  2:{ injection Hstep as <- <- <-. apply turn_quiet; [done..|].
      split; [apply Hless; by constructor|done]. }
  destruct (hub_send env dev p s) as [s1 [[]|e]] eqn:Eh; injection Hstep as <- <- <-.
  - apply hub_send_ok in Eh as (fr & -> & Hf).
    eapply turn_sends; [done|exact Hc| |exact Hf|exact Hs|].
    + destruct (same_command_request dev c c' Hsc) as []. destruct Hsc as (_ & -> & _). by rewrite Hd.
    + intros l' Hin Hs'. by repeat split.
  - apply hub_send_err in Eh as ->. apply turn_quiet; [done..|].
    split; [apply Hless; apply sublist_nil_l|done].
Qed.

Lemma send_turn T0 env i client req id b j' sent l s s' :
  good_turn T0 (queue s) l → job_ok (queue s) l i (AdminSend client req id b) →
  job_step ctl env (AdminSend client req id b) s = (s', j', sent) → turn_ok s s' l i j' sent.
Proof.
  intros Hg [Hs [(c & Hc & Hd & Hr) Hb]] Hstep. pose proof (good_turn_same _ _ _ l Hg) as Hsame.
  cbn [job_step] in Hstep.
  destruct (hub_send env _ b s) as [s1 [[]|e]] eqn:Eh; injection Hstep as <- <- <-.
  - apply hub_send_ok in Eh as (fr & -> & Hf).
    eapply turn_sends; [done|exact Hc| |exact Hf|exact Hs|]; [by rewrite Hd, Hr|].
    intros l' Hin Hs'. by split.
  - apply hub_send_err in Eh as ->. apply turn_quiet; [done..|].
    split; [|done]. by apply (todo_less l i _ Hs (AdminRefused client id e)), sublist_nil_l.
Qed.

(** A turn that marks a row, and what is left. *)
Lemma update_turn {A} (m : StE DB A) s l i j' :
  good_turn (queue s) (queue (on_db m s).1) l ∧ wire (on_db m s).1 = wire s →
  job_ok (queue s) l i j' → turn_ok s (on_db m s).1 l i j' None.
Proof.
  intros [Hg Hw] Hj. apply turn_quiet; [done|by rewrite Hw|].
  eapply job_ok_evolves; [apply (gt_evolves _ _ _ Hg)|done|done].
Qed.

Lemma reply_turn T0 env i client r l s :
  good_turn T0 (queue s) l → StronglySorted Z.lt (ids_of i l ++ []) →
  turn_ok s (match r with Err e => ack env client 500 e | Ok data => sendAckJSON env client 200 data end s).1
    l i Done None.
Proof.
  intros Hg Hs. assert (keeps (leaves (queue s) (wire s))
    (match r with Err e => ack env client 500 e | Ok data => sendAckJSON env client 200 data end)) as Hk
    by (destruct r; [apply leaves_sendAckJSON|apply leaves_ack]).
  destruct (Hk s (conj eq_refl (reflexivity _))) as [Hq Hw].
  apply turn_quiet; [rewrite Hq; by eapply good_turn_same|exact Hw|by split].
Qed.

Lemma job_turn T0 env i j j' sent l s s' :
  good_turn T0 (queue s) l → job_ok (queue s) l i j → job_step ctl env j s = (s', j', sent) →
  turn_ok s s' l i j' sent.
Proof.
  intros Hg Hok Hstep. pose proof (good_turn_same _ _ _ l Hg) as Hsame.
  pose proof Hok as [Hs Hj]. pose proof (todo_less l i j Hs) as Hless.
  assert (∀ j1, todo j1 = [] → StronglySorted Z.lt (ids_of i l ++ todo j1)) as Hend
    by (intros j1 Hj1; apply Hless; rewrite Hj1; apply sublist_nil_l).
  destruct j as [dev|dev [|c cmds]|dev id cmds|dev id e cmds|id e|client payload|client req id
    |client req id b|client id|client id e|client r|];
    [| |by eapply loop_turn| | | | | |by eapply send_turn| | | |]; cbn [job_step] in Hstep.
  - destruct (negb (CmdRepo ctl)); [injection Hstep as <- <- <-; apply turn_quiet; [done..|by split; [apply Hend|]]|].
    destruct (on_db (ListByDevice dev false) s) as [s1 [cmds|e]] eqn:El; injection Hstep as <- <- <-;
      [by eapply list_turn|by eapply list_fails].
  - injection Hstep as <- <- <-. apply turn_quiet; [done..|by split; [apply Hend|]].
  - injection Hstep as <- <- <-. destruct Hj as [Hj Hin].
    apply update_turn; [|by split]. eapply good_turn_mark; [done|by eapply ids_of_elem].
  - injection Hstep as <- <- <-. apply update_turn; [|by split].
    eapply good_turn_status; [done|by_decide].
  - injection Hstep as <- <- <-. apply update_turn; [|by split].
    eapply good_turn_status; [done|by_decide].
  - destruct (queue_command ctl payload s) as [s1 [[req id]|e]] eqn:Eq; injection Hstep as <- <- <-.
    + eapply queue_command_ok in Eq as (Hg' & Hw & Ha); [|done].
      apply turn_quiet; [exact Hg'|by rewrite Hw|]. split; [|exact Ha].
      rewrite Hj. by repeat constructor.
    + apply queue_command_err in Eq as [Hq Hw].
      apply turn_quiet; [by rewrite Hq|by rewrite Hw|by split; [apply Hend|]].
  - destruct (negb _); [|destruct (encode_command (wire_request req)) as [b|] eqn:Eb];
      injection Hstep as <- <- <-; apply turn_quiet; try done;
      (split; [first [exact Hs|by apply Hend]|done || by split]).
  - injection Hstep as <- <- <-. apply update_turn; [|by split].
    eapply good_turn_mark; [done|by eapply ids_of_elem].
  - injection Hstep as <- <- <-. apply update_turn; [|by split].
    eapply good_turn_status; [done|by_decide].
  - injection Hstep as <- <- <-. by eapply reply_turn.
  - injection Hstep as <- <- <-. by apply turn_quiet.
Qed.

(** *** Every action *)

Lemma queue_inv_other T0 w0 sys s' :
  queue_inv T0 w0 sys → queue s' = queue (shared sys) → wire (shared sys) `prefix_of` wire s' →
  queue_inv T0 w0 {| shared := s'; jobs := jobs sys; log := log sys |}.
Proof.
  intros [Hg Hl (w & Hw & Hsub) Hj Hf] Hq [w2 Hw2].
  split; cbn [shared jobs log]; rewrite ?Hq; try done.
  exists (w ++ w2). split; [by rewrite Hw2, Hw, app_assoc|]. by apply sublist_inserts_r.
Qed.

Lemma queue_inv_spawn T0 w0 sys i j :
  queue_inv T0 w0 sys → jobs sys !! i = None →
  (ids_of i (log sys) = [] → job_ok (queue (shared sys)) (log sys) i j) →
  queue_inv T0 w0 {| shared := shared sys; jobs := <[i := j]> (jobs sys); log := log sys |}.
Proof.
  intros [Hg Hl Hw Hj Hf] Hi Hok. split; cbn [shared jobs log]; try done.
  - intros k jk [[<- <-]|[_ Hk]]%lookup_insert_Some; [by apply Hok, Hf|by apply Hj].
  - intros k [Hk _]%lookup_insert_None. by apply Hf.
Qed.

Lemma job_of_ok T l i msg client : ids_of i l = [] → job_ok T l i (job_of msg client).
Proof.
  intros Hi. unfold job_ok, job_of. rewrite Hi.
  destruct (admin_request msg); [|destruct (decide _)]; split; constructor.
Qed.

Lemma queue_inv_act T0 w0 sys a sys' :
  queue_inv T0 w0 sys → perform ctl sys a = Some sys' → queue_inv T0 w0 sys'.
Proof.
  intros Hinv. destruct a as [i env client msg|i env|client dev|l]; cbn [perform].
  - destruct (jobs sys !! i) eqn:Ei; [done|]. intros [= <-].
    set (s' := match admin_request msg with Some _ => _ | None => _ end).
    assert (queue s' = queue (shared sys) ∧ wire (shared sys) `prefix_of` wire s') as [Hq Hw].
    { unfold s'. destruct (admin_request msg) eqn:Em; [done|]. by apply HandleMessage_leaves. }
    apply (queue_inv_spawn T0 w0 {| shared := s'; jobs := jobs sys; log := log sys |}); [|done|].
    + by apply queue_inv_other.
    + intros Hi. by apply job_of_ok.
  - destruct (jobs sys !! i) as [j|] eqn:Ej; [|done]. cbn [mbind option_bind].
    destruct (job_step ctl env j (shared sys)) as [[s' j'] sent] eqn:Es. intros [= <-].
    eapply job_turn in Es as (Hg & Hd & Hj & w & Hw & Hsub); [|apply (qi_turn _ _ _ Hinv)|by apply (qi_jobs _ _ _ Hinv)].
    eapply queue_inv_step; [done| |exact Hg|exact Hd|exact Hw|exact Hsub|exact Hj].
    unfold accepted. destruct sent, (last (wire s')); by repeat constructor.
  - intros [= <-]. apply queue_inv_other; [done|..];
      (unfold HandleDisconnect; case_decide; done).
  - intros [= <-]. by apply queue_inv_other.
Qed.

Lemma queue_inv_run T0 w0 acts : ∀ sys sys',
  queue_inv T0 w0 sys → run_actions ctl sys acts = Some sys' → queue_inv T0 w0 sys'.
Proof.
  induction acts as [|a acts IH]; intros sys sys' Hinv Hr; cbn [run_actions] in Hr; [congruence|].
  destruct (perform ctl sys a) as [sys1|] eqn:Ea; [|done]. eapply IH; [|exact Hr]. by eapply queue_inv_act.
Qed.

Definition queue_started (s : ServerState DB) : Prop :=
  keyed AgentCommand_ID (queue s) ∧ ∀ id c, queue s !! id = Some c → Status c ∈ statuses.

Lemma queue_inv_start s : queue_started s → queue_inv (queue s) (wire s) (start s).
Proof.
  intros [Hk Hst]. split; cbn [start shared jobs log]; try done.
  - split; [done|done|done|]. intros id c Hc Hs. left. by exists c.
  - exists []. by rewrite app_nil_r.
Qed.
End Invariant.


(** ** Executions that happen *)

Definition login_of (dev : string) : ProtocolMessage := received (OLogin dev "t").
Definition turns (l : list nat) : list action := (λ i, ATurn i sample_env) <$> l.

(** Two logins of a device with two commands waiting: both goroutines list before
    either sends. *)
Definition two_logins : list action :=
  [AFrame 0 sample_env (Some 5) (login_of "laptop"); AFrame 1 sample_env (Some 5) (login_of "laptop")] ++
  turns [0; 1; 0; 1; 0; 1; 0; 1; 0; 1; 0; 1]%nat.

Lemma delivered_twice :
  (λ sys, (command_id <$> log sys, length (wire (shared sys)))) <$>
    run_actions sample_ctl (start queued_server) two_logins = Some ([1; 1; 2; 2], 4%nat).
Proof. vm_compute. reflexivity. Qed.

(** The send of an administrator fails; before its status is written a login of the
    device delivers the command and marks it; then the late status makes it pending
    again, and the next login will deliver it again. *)
Definition deaf_env : call_env := {|
  up := λ _ _, false; os := quiet_os; read_err := λ _, None; nano := 1700 * 10 ^ 9; nanos := λ _, 1700 * 10 ^ 9;
  random1 := None; random2 := None; new_uuid := "u-1" |}.
Definition late_status : list action :=
  [AFrame 0 sample_env (Some 5) (login_of "laptop"); ATurn 0 sample_env; ATurn 0 sample_env;
   AFrame 1 sample_env (Some 6) (command_from "boss" "admin_send_command/laptop/get_logs/once");
   ATurn 1 sample_env; ATurn 1 sample_env; ATurn 1 deaf_env;
   AFrame 2 sample_env (Some 5) (login_of "laptop")] ++ turns [2; 2; 2; 1; 1]%nat.

Lemma sent_then_pending :
  (λ sys, (command_id <$> log sys, Status <$> queue (shared sys) !! 1)) <$>
    run_actions sample_ctl (start (initial_server empty_tables)) late_status =
  Some ([1], Some "pending").
Proof. vm_compute. reflexivity. Qed.

(** ** Jobs end

    Once the commands are listed, every turn leaves less to do, whatever the others
    do in between. *)

Definition turns_left (j : job) : nat :=
  match j with
  | RetryStart _ | Done => 0
  | RetryLoop _ cmds => 1 + 2 * length cmds
  | RetrySent _ _ cmds | RetrySkipped _ _ _ cmds => 2 + 2 * length cmds
  | RetryRefused _ _ | AdminReply _ _ => 1
  | AdminSent _ _ | AdminRefused _ _ _ => 2
  | AdminSend _ _ _ _ => 3
  | AdminCheck _ _ _ => 4
  | AdminStart _ _ => 5
  end.

Lemma turns_end `{Engine DB, Sha1, Bcrypt, JwtLib, Json} ctl env j (s : ServerState DB) :
  (∀ dev, j ≠ RetryStart dev) → j ≠ Done → (turns_left (job_step ctl env j s).1.2 < turns_left j)%nat.
Proof.
  intros Hj Hd. destruct j as [dev|dev [|c cmds]|dev id cmds|dev id e cmds|id e|client payload
    |client req id|client req id b|client id|client id e|client r|]; try done;
    try (exfalso; by eapply Hj); cbn [job_step turns_left length fst snd]; try lia.
  - destruct (encode_command _); [destruct (hub_send env dev _ s) as [? []]|]; cbn [fst snd turns_left]; lia.
  - destruct (queue_command ctl payload s) as [? [[]|]]; cbn [fst snd turns_left]; lia.
  - destruct (negb _); [|destruct (encode_command _)]; cbn [fst snd turns_left]; lia.
  - destruct (hub_send env _ b s) as [? []]; cbn [fst snd turns_left]; lia.
Qed.

Lemma queued_server_started : queue_started queued_server.
Proof.
  split; [exact queued_server_ok|]. intros id c Hc. apply elem_of_map_to_list in Hc. vm_compute in Hc.
  repeat (apply elem_of_cons in Hc as [Hc|Hc]; [injection Hc as -> ->; by_decide|]).
  by apply not_elem_of_nil in Hc.
Qed.


(** With nothing in between, the jobs are the code: a delivery is
    [retryPendingCommands], and the request of an administrator is the handling of
    its frame, reply included. *)
Theorem jobs_are_handlers `{Engine DB, Sha1, Bcrypt, JwtLib, Json} ctl env client msg payload dev
    (s : ServerState DB) :
  admin_request msg = Some payload →
  (∃ n, run_job ctl n env (RetryStart dev) s = ((retryPendingCommands ctl env dev s).1, Done)) ∧
  run_job ctl 5 env (AdminStart client payload) s = ((HandleMessage ctl env client msg s).1, Done).
Proof. intros Ha. split; [apply retry_alone|by apply admin_alone]. Qed.

Lemma jobs_are_handlers_witness :
  (HandleMessage sample_ctl sample_env (Some 6)
    (command_from "boss" "admin_send_command/laptop/get_logs/once") (initial_server empty_tables)).1 =
  (run_job sample_ctl 5 sample_env (AdminStart (Some 6) (to_bytes "laptop/get_logs/once"))
    (initial_server empty_tables)).1.
Proof.
  destruct (jobs_are_handlers sample_ctl sample_env (Some 6)
    (command_from "boss" "admin_send_command/laptop/get_logs/once") (to_bytes "laptop/get_logs/once")
    "laptop" (initial_server empty_tables)) as [_ ->]; [vm_compute; reflexivity|reflexivity].
Defined.
