(* ===== verification/Transfer.v ===== *)
(** * The agent's side of requests and backups

    agent/internal/protocolclient/client.go ([SendAction]),
    agent/internal/device/client.go ([Register]) and
    agent/internal/backup/backup.go ([InitUpload], [UploadFile], [InitDownload],
    [DownloadFile]).

    A connection of the agent is the bytes it has put on the wire; a send that
    fails may leave a part of its frame there.  What the server sends back is
    the stream [input].  Files are read as a whole; a read fills the buffer as
    far as the file goes. *)

From S2P Require Export Server.

Local Open Scope Z_scope.

(** ** The network *)

Record net_env := {
  dial : string → Z → result TCPClient;
  takes : nat → bool;       (* whether the [n]th send gets through *)
  partial : nat → nat       (* how much of it is written when it does not *) }.

Record Net := { attempts : nat; out : list ascii }.
Definition fresh : Net := {| attempts := 0; out := [] |}.

Definition net_send (env : net_env) (frame : result (list ascii)) : StE Net unit := λ n,
  match frame with
  | Err e => (n, Err e)
  | Ok [] => (n, Ok tt)
  | Ok f =>
      if takes env (attempts n)
      then ({| attempts := S (attempts n); out := out n ++ f |}, Ok tt)
      else ({| attempts := S (attempts n); out := out n ++ take (partial env (attempts n)) f |},
            Err "send failed")
  end.

(** ** Requests *)

(** What the agent sends as the data of an action. *)
Inductive action_data :=
  | DLogin (r : ProtocolLoginRequest)
  | DDevice (r : DeviceRequest)
  | DUpload (r : BackupUploadInitRequest)
  | DDownload (fileName : string)
  | DLines (lines : string)
  | DChanges (changes : list FileChange).

Record Session := {
  S_SessionID : string;
  S_Token : string;
  S_FileName : string;
  S_FileSize : Z;
  S_Offset : Z;
  S_ChunkSize : Z;
  S_TCPHost : string;
  S_TCPPort : Z;
  S_Direction : string;
  S_Status : string }.

(** [json.Marshal] of an action with its data, and of the body [DownloadFile]
    builds, whose fields sit beside the action instead of under "data". *)
Class AgentJson := {
  encode_action : string → action_data → result (list ascii);
  encode_download_start : string → string → Z → list ascii;
  decode_session : string → result Session }.

(** What the server's decoder sees of them. *)
Definition decodes `{Json} (raw : list ascii) (d : action_data) : Prop :=
  match d with
  | DLogin r => decode_login raw = Ok r
  | DDevice r => decode_device raw = Ok r
  | DUpload r => decode_upload raw = Ok r
  | DDownload name => decode_download raw = Ok name
  | DLines lines => decode_lines raw = Ok lines
  | DChanges changes => decode_changes raw = Ok changes
  end.
Class AgentJsonLaws `{Json, AgentJson} := {
  (* the texts are valid UTF-8; others arrive altered *)
  representable : action_data → Prop;
  encode_action_decodes action d b : encode_action action d = Ok b → representable d →
    ∃ payload, decode_envelope b = Ok (action, payload) ∧ decodes payload d;
  (* fields beside the action leave the data empty *)
  encode_download_start_decodes sid tok off :
    decode_envelope (encode_download_start sid tok off) = Ok ("backup_download_start", []) }.

Section Agent.
Context `{AgentJson}.

(** The loop of [SendAction]: frames that are no acknowledgement are skipped.
    Each one takes five bytes at least. *)
Fixpoint await_ack (fuel : nat) (c : TCPClient) (input : list ascii) : result ProtocolMessage :=
  match fuel with
  | O => Err "out of fuel"
  | S fuel =>
      '(msg, rest) ← RecvProtocolMessage c input;
      if decide (Type_ msg = MSG_ACK) then Ok msg else await_ack fuel c rest
  end.

Definition SendAction (env : net_env) (input : list ascii) (host : string) (port : Z)
    (deviceID tok action : string) (data : action_data) : StE Net ProtocolMessage :=
  if decide (action = "") then fail "action is required" else
  c ← lift (dial env host port);
  (if decide (tok ≠ "" ∧ deviceID ≠ "")
   then wrap_st "send login failed: " (net_send env (SendLogin c deviceID tok)) else mret tt);;
  b ← lift (encode_action action data);
  net_send env (SendCommand c b);;
  lift (await_ack (S (length input)) c input).

(** [Register]: the answer's code (0 without an answer) and the error.  The
    returned [Info] has no reader. *)
Definition Register_device (env : net_env) (input : list ascii) (host : string) (port : Z)
    (tok : string) (d : DeviceRequest) (n : Net) : Net * Z * result unit :=
  match SendAction env input host port (Req_UUID d) tok "device_register" (DDevice d) n with
  | (n', Err e) => (n', 0, Err e)
  | (n', Ok msg) =>
      (n', StatusCode msg,
       if decide (Type_ msg ≠ MSG_ACK ∨ StatusCode msg ≠ 200)
       then Err ("device register failed: code=" +:+ pretty (StatusCode msg) +:+ " msg=" +:+
                 StatusMsg msg)
       else Ok tt)
  end.

(** [stat] is the size of the file. *)
Definition InitUpload (env : net_env) (input : list ascii) (host : string) (port : Z)
    (deviceID tok filePath fileID : string) (stat : result Z) : StE Net Session :=
  size ← lift (wrap "stat file: " stat);
  msg ← SendAction env input host port deviceID tok "backup_init_upload" (DUpload {|
    Upload_FileName := Base filePath; Upload_FileSize := size; Upload_Checksum := "";
    Upload_LogicalPath := filePath; Upload_FileID := fileID |});
  if decide (Type_ msg ≠ MSG_ACK ∨ StatusCode msg ≠ 200)
  then fail ("init upload failed: " +:+ StatusMsg msg) else
  lift (wrap "parse upload session response: " (decode_session (StatusMsg msg))).

Definition InitDownload (env : net_env) (input : list ascii) (host : string) (port : Z)
    (deviceID tok fileName : string) : StE Net Session :=
  msg ← SendAction env input host port deviceID tok "backup_init_download" (DDownload fileName);
  if decide (Type_ msg ≠ MSG_ACK ∨ StatusCode msg ≠ 200)
  then fail ("init download failed: " +:+ StatusMsg msg) else
  lift (wrap "parse download session response: " (decode_session (StatusMsg msg))).

(** ** Upload *)

Definition bufSize (session : Session) : nat :=
  if decide (S_ChunkSize session ≤ 0) then Z.to_nat (512 * 1024)
  else Z.to_nat (S_ChunkSize session).

(** A chunk, retried once when its send fails. *)
Definition send_chunk (env : net_env) (c : TCPClient) (session : Session) (offset : Z)
    (data : list ascii) : StE Net unit :=
  let frame := SendFileChunkWithSession c (S_SessionID session) (S_Token session) offset data in
  r ← attempt (net_send env frame);
  match r with
  | Ok _ => mret tt
  | Err _ => wrap_st "send chunk: " (net_send env frame)
  end.

(** The read loop; [read_fail i] is the failure of the [i]th read.  Every read
    before the end takes a byte, so [length data + 1] is fuel enough. *)
Fixpoint upload_loop (env : net_env) (read_fail : nat → option string) (c : TCPClient)
    (session : Session) (fuel i : nat) (offset : Z) (data : list ascii) : StE Net unit :=
  match fuel with
  | O => fail "out of fuel"
  | S fuel =>
      match read_fail i with
      | Some e => fail ("read file: " +:+ e)
      | None =>
          match data with
          | [] => mret tt
          | _ =>
              let buf := take (bufSize session) data in
              send_chunk env c session offset buf;;
              upload_loop env read_fail c session fuel (S i)
                (u32 (offset + u32 (Z.of_nat (length buf)))) (drop (bufSize session) data)
          end
      end
  end.

Definition UploadFile (env : net_env) (read_fail : nat → option string) (deviceID : string)
    (session : Session) (file : result (list ascii)) : StE Net unit :=
  data ← lift (wrap "open file: " file);
  c ← lift (wrap "dial backup server: " (dial env (S_TCPHost session) (S_TCPPort session)));
  (if decide (deviceID ≠ "" ∧ S_Token session ≠ "")
   then ignore (net_send env (SendLogin c deviceID (S_Token session))) else mret tt);;
  wrap_st "send file meta: " (net_send env
    (SendFileMeta c (S_FileName session) (u64 (S_FileSize session))));;
  upload_loop env read_fail c session (S (length data)) 0 0 data;;
  wrap_st "send file done: " (net_send env
    (SendFileDoneWithSession c (S_SessionID session) (S_Token session))).

(** ** Download *)

(** The destination: its contents and the position of the file handle. *)
Record Dest := { contents : list ascii; position : nat; received_name : string;
                 received_size : Z; received_bytes : Z }.

(** The receive loop; [write_fail i] is the failure of the [i]th write. *)
Fixpoint receive_file (write_fail : nat → option string) (fuel i : nat) (c : TCPClient)
    (input : list ascii) (d : Dest) : Dest * result unit :=
  match fuel with
  | O => (d, Err "out of fuel")
  | S fuel =>
      match RecvProtocolMessage c input with
      | Err e => (d, Err e)
      | Ok (msg, rest) =>
          if decide (Type_ msg = MSG_FILE_META) then
            receive_file write_fail fuel i c rest {| contents := contents d; position := 0;
              received_name := Wire.FileName msg; received_size := i64 (FileSize msg);
              received_bytes := received_bytes d |}
          else if decide (Type_ msg = MSG_FILE_CHUNK) then
            match write_fail i with
            | Some e => (d, Err e)
            | None =>
                let data := ChunkData msg in
                receive_file write_fail fuel (S i) c rest {|
                  contents := if decide (data = []) then contents d
                              else write_at (position d) data (contents d);
                  position := position d + length data;
                  received_name := received_name d; received_size := received_size d;
                  received_bytes := i64 (received_bytes d + Z.of_nat (length data)) |}
            end
          else if decide (Type_ msg = MSG_FILE_DONE) then (d, Ok tt)
          else if decide (Type_ msg = MSG_ACK ∨ Type_ msg = MSG_ERROR) then
            (d, Err ("download failed: code=" +:+ pretty (StatusCode msg) +:+ " msg=" +:+
                     StatusMsg msg))
          else receive_file write_fail fuel i c rest d
      end
  end.

Definition receive_all (write_fail : nat → option string) (c : TCPClient) (input : list ascii) :
    StE (Net * Dest) unit := λ s,
  let r := receive_file write_fail (S (length input)) 0 c input s.2 in ((s.1, r.1), r.2).

(** The destination is opened without truncation: [existing] stays below what
    is written. *)
Definition DownloadFile (env : net_env) (write_fail : nat → option string)
    (mkdir open : option string) (input : list ascii) (session : Session)
    (existing : list ascii) : StE (Net * Dest) unit :=
  match mkdir with
  | Some e => fail ("mkdir dest: " +:+ e)
  | None =>
      match open with
      | Some e => fail ("open dest: " +:+ e)
      | None =>
          modify (λ s : Net * Dest, (s.1, {| contents := existing; position := 0;
            received_name := S_FileName session; received_size := S_FileSize session;
            received_bytes := S_Offset session |}));;
          c ← lift (wrap "dial backup server: " (dial env (S_TCPHost session) (S_TCPPort session)));
          zoom fst (λ n s, (n, s.2)) (wrap_st "send download start: " (net_send env (SendCommand c
            (encode_download_start (S_SessionID session) (S_Token session) (S_Offset session)))));;
          receive_all write_fail c input
      end
  end.
End Agent.
