(* ===== verification/TransferProofs.v ===== *)
(** * Transfers end to end

    The agent of [Transfer] against the server of [Server]: what one side puts on
    the wire is what the other receives. *)

From S2P Require Export Transfer.

Local Open Scope Z_scope.

(** What the server wrote to a connection between two states. *)
Definition replies {DB} (fd : Z) (s s' : ServerState DB) : list ascii :=
  concat ((filter (λ f, f.1 = fd) (drop (length (wire s)) (wire s'))).*2).

Lemma replies_written {DB} fd f (s s' : ServerState DB) :
  wire s' = wire s ++ [(fd, f)] → replies fd s s' = f.
Proof.
  intros Hw. unfold replies. rewrite Hw, drop_app_length. rewrite filter_cons_True by done.
  simpl. by rewrite app_nil_r.
Qed.
Lemma replies_same {DB} fd (s s' : ServerState DB) : wire s' = wire s → replies fd s s' = [].
Proof. intros Hw. unfold replies. by rewrite Hw, drop_all. Qed.

Lemma recv_empty c : is_ok (RecvProtocolMessage c []) = false.
Proof.
  unfold RecvProtocolMessage, guard_open. destruct (client_open c); [|done].
  by rewrite recv_nothing.
Qed.

(** ** Restoring a file *)

Section Refused.
Context `{EngineLaws DB, Sha1, Bcrypt, JwtLib, AgentJsonLaws} (ctl : ProtocolController).
Implicit Types s : ServerState DB.

(** A connection without a login whose one command needs one. *)
Lemma anonymous_command envs c fd body action payload frame s :
  SendCommand c body = Ok frame → fd ≠ INVALID_SOCKET →
  decode_envelope body = Ok (action, payload) → action ∉ open_actions → body ≠ [] →
  replies fd s (serve_connection ctl envs fd frame s) = [] ∨
  delivers (replies fd s (serve_connection ctl envs fd frame s))
    (received (OAck 401 "unauthorized")).
Proof.
  intros Hs Hfd Hd Ha Hb.
  assert (send_seq c [OCommand body] = Ok frame) as Hseq.
  { simpl. rewrite Hs. simpl. by rewrite app_nil_r. }
  rewrite (serve_sends ctl envs c fd [OCommand body] frame s Hseq);
    [|repeat constructor|done]. cbn [deliver_all deliver fst snd].
  unfold on_close. rewrite decide_True by done.
  assert ((HandleMessage ctl (envs 0%nat) (Some fd) (from_device "" (OCommand body)) s).1 =
    (ack (envs 0%nat) (Some fd) 401 "unauthorized" s).1) as ->.
  { unfold HandleMessage. rewrite decide_False by done. rewrite decide_True by done.
    unfold handleSubCommand. cbn [from_device received CommandJSON DeviceID].
    rewrite decide_False by done. rewrite Hd.
    unfold isAuthorized, gets, mbind, StE_bind. cbv beta iota.
    by rewrite bool_decide_eq_true_2. }
  destruct (ack_spec (envs 0%nat) (Some fd) 401 "unauthorized" s) as [->|(f & -> & Hf)];
    [by_decide|lia|left; by apply replies_same|right].
  rewrite (replies_written fd f); [done|]. by simpl.
Qed.

Lemma receive_ack wf fuel c input d code text :
  client_open c = true → input = [] ∨ delivers input (received (OAck code text)) →
  (receive_file wf fuel 0 c input d).1 = d ∧ is_ok (receive_file wf fuel 0 c input d).2 = false.
Proof.
  intros Hc Hin. destruct fuel as [|fuel]; [done|]. cbn [receive_file].
  destruct Hin as [->|Hd].
  - pose proof (recv_empty c). by destruct (RecvProtocolMessage c []) as [[]|].
  - specialize (Hd c [] Hc). rewrite app_nil_r in Hd. by rewrite Hd.
Qed.
End Refused.

(** C36. A restore never succeeds: [DownloadFile] opens a connection of its own and
    does not log in on it, so the server answers "unauthorized" whatever the
    session and whatever its state, and the file the agent was to write keeps
    its contents. *)
Theorem download_always_refused `{EngineLaws DB, Sha1, Bcrypt, JwtLib, AgentJsonLaws}
    ctl envs fd env c wf mkdir open session existing frame n (s : ServerState DB) :
  dial env (S_TCPHost session) (S_TCPPort session) = Ok c → client_open c = true →
  SendCommand c (encode_download_start (S_SessionID session) (S_Token session)
    (S_Offset session)) = Ok frame → fd ≠ INVALID_SOCKET →
  let input := replies fd s (serve_connection ctl envs fd frame s) in
  let r := DownloadFile env wf mkdir open input session existing n in
  is_ok r.2 = false ∧ (contents r.1.2 = existing ∨ r.1.2 = n.2).
Proof.
  intros Hdial Hc Hs Hfd input r.
  assert (input = [] ∨ delivers input (received (OAck 401 "unauthorized"))) as Hin.
  { eapply anonymous_command; [exact Hs|exact Hfd| | |].
    - apply encode_download_start_decodes.
    - by_decide.
    - intros He. rewrite He in Hs. unfold SendCommand, guard_open in Hs. rewrite Hc in Hs.
      discriminate Hs. }
  subst r. unfold DownloadFile. destruct mkdir; [split; [done|by right]|].
  destruct open; [split; [done|by right]|].
  unfold modify, mbind, StE_bind, lift. rewrite Hdial. cbn [wrap].
  unfold zoom, wrap_st. cbn [fst snd].
  destruct (net_send env (SendCommand c _) n.1) as [n1 [[]|e]]; cbn [fst snd wrap];
    [|split; [reflexivity|left; reflexivity]].
  unfold receive_all. cbn [fst snd].
  set (d := {| contents := existing |}).
  destruct (receive_ack wf (S (length input)) c input d 401 "unauthorized" Hc Hin) as [Hd Hok].
  rewrite Hd. split; [done|by left].
Qed.

#[export] Instance ProtocolLoginRequest_eq_dec : EqDecision ProtocolLoginRequest.
Proof. solve_decision. Defined.
#[export] Instance DeviceRequest_eq_dec : EqDecision DeviceRequest.
Proof. solve_decision. Defined.
#[export] Instance BackupUploadInitRequest_eq_dec : EqDecision BackupUploadInitRequest.
Proof. solve_decision. Defined.
#[export] Instance decodes_dec `{Json} raw d : Decision (decodes raw d).
Proof. destruct d; unfold decodes; apply _. Defined.

(** A stand-in for the agent's encoder: an action is encoded when it can be read
    back. *)
Definition sample_text (d : action_data) : string :=
  match d with
  | DLogin r => Join [Login_Username r; Login_Password r; Login_DeviceID r]
  | DDevice r => Join [Req_UUID r; Req_Name r]
  | DUpload r => Join [Upload_FileName r; of_bytes (replicate (Z.to_nat (Upload_FileSize r)) "1"%char);
                       Upload_LogicalPath r; Upload_FileID r]
  | DDownload text | DLines text => text
  | DChanges changes => sample_changes changes
  end.
#[export] Instance sample_agent_json : AgentJson := {
  encode_action := λ action d,
    let text := sample_text d in
    let b := to_bytes (action +:+ "/" +:+ text) in
    if decide (decode_envelope b = Ok (action, to_bytes text) ∧ decodes (to_bytes text) d)
    then Ok b else Err "json";
  encode_download_start := λ _ _ _, to_bytes "backup_download_start";
  decode_session := λ _, Err "json" }.
#[export] Instance sample_agent_json_laws : AgentJsonLaws.
Proof.
  refine {| representable := λ _, True |}; [|reflexivity]. intros action d b He _.
  cbn [encode_action sample_agent_json] in He. cbv zeta in He.
  destruct (decide _) as [[Hd Hr]|]; [|discriminate]. injection He as <-. eauto.
Defined.

Definition sample_net : net_env :=
  {| dial := λ _ _, Ok (Some 3); takes := λ _, true; partial := λ _, 0%nat |}.
Definition sample_transfer : Session := {|
  S_SessionID := "down-1"; S_Token := "t"; S_FileName := "1_a.txt"; S_FileSize := 3; S_Offset := 0;
  S_ChunkSize := 0; S_TCPHost := "h"; S_TCPPort := 1; S_Direction := "download";
  S_Status := "active" |}.

Lemma download_always_refused_witness :
  ∃ frame, SendCommand (Some 3) (encode_download_start "down-1" "t" 0) = Ok frame ∧
    let input := replies 7 online_server
      (serve_connection sample_ctl (λ _, sample_env) 7 frame online_server) in
    is_ok (DownloadFile sample_net (λ _, None) None None input sample_transfer (to_bytes "old")
      (fresh, {| contents := []; position := 0; received_name := ""; received_size := 0;
                 received_bytes := 0 |})).2 = false.
Proof.
  destruct (SendCommand (Some 3) (encode_download_start "down-1" "t" 0)) as [frame|e] eqn:E;
    [|vm_compute in E; discriminate].
  exists frame. split; [reflexivity|].
  exact (proj1 (download_always_refused sample_ctl (λ _, sample_env) 7 sample_net (Some 3)
    (λ _, None) None None sample_transfer (to_bytes "old") frame
    (fresh, {| contents := []; position := 0; received_name := ""; received_size := 0;
               received_bytes := 0 |}) online_server eq_refl eq_refl E ltac:(discriminate))).
Defined.

(** ** What the agent sends for an upload *)

(** The chunks of [data] from an offset. *)
Fixpoint chunks_of (session : Session) (fuel : nat) (offset : Z) (data : list ascii) :
    list outgoing :=
  match fuel with
  | O => []
  | S fuel =>
      match data with
      | [] => []
      | _ =>
          let buf := take (bufSize session) data in
          OFileChunk (S_SessionID session) (S_Token session) offset buf ::
          chunks_of session fuel (u32 (offset + u32 (Z.of_nat (length buf))))
            (drop (bufSize session) data)
      end
  end.
Definition upload_messages (deviceID : string) (session : Session) (data : list ascii) :
    list outgoing :=
  OLogin deviceID (S_Token session) ::
  OFileMeta (S_FileName session) (u64 (S_FileSize session)) ::
  chunks_of session (S (length data)) 0 data ++
  [OFileDone (S_SessionID session) (S_Token session)].

Lemma bufSize_pos session : (0 < bufSize session)%nat.
Proof. unfold bufSize. case_decide; lia. Qed.

Section Uploading.
Context `{AgentJson} (env : net_env).
Hypothesis Htakes : ∀ i, takes env i = true.

(** A send that succeeds on a working socket puts exactly its frame on the wire. *)
Lemma net_send_ok frame n n' :
  net_send env frame n = (n', Ok tt) → ∃ f, frame = Ok f ∧ out n' = out n ++ f.
Proof.
  unfold net_send. destruct frame as [[|a f]|]; [|destruct (takes _ _)|]; try done.
  - intros [= <-]. exists []. by rewrite app_nil_r.
  - intros [= <-]. by exists (a :: f).
Qed.

Lemma send_chunk_ok c session off data n n' :
  send_chunk env c session off data n = (n', Ok tt) →
  ∃ f, Wire.send c (OFileChunk (S_SessionID session) (S_Token session) off data) = Ok f ∧
    out n' = out n ++ f.
Proof.
  unfold send_chunk. intros Hs. apply StE_bind_ok in Hs as (n1 & r & Ha & Hs).
  unfold attempt in Ha. injection Ha as Hn1 Hr. destruct r as [[]|e].
  - injection Hs as <-. destruct (net_send env _ n) as [n2 r2] eqn:E. cbn in Hn1, Hr. subst.
    by apply net_send_ok in E.
  - unfold net_send in Hr, Hn1. destruct (SendFileChunkWithSession _ _ _ _ _) as [[|a f]|e'] eqn:E;
      [done|by rewrite Htakes in Hr|]. cbn in Hn1. subst n1.
    apply wrap_st_ok in Hs. by apply net_send_ok in Hs as (f & Hf & _).
Qed.

Lemma send_seq_app c ms1 ms2 b1 b2 :
  send_seq c ms1 = Ok b1 → send_seq c ms2 = Ok b2 → send_seq c (ms1 ++ ms2) = Ok (b1 ++ b2).
Proof.
  revert b1. induction ms1 as [|m ms IH]; intros b1 H1 H2; simpl in *.
  - by injection H1 as <-.
  - destruct (Wire.send c m) as [f|]; [|done]. simpl in *.
    destruct (send_seq c ms) as [fs|]; [|done]. injection H1 as <-.
    by rewrite (IH fs eq_refl H2), <- app_assoc.
Qed.

Lemma upload_loop_ok read_fail c session fuel i off data n n' :
  upload_loop env read_fail c session fuel i off data n = (n', Ok tt) →
  ∃ b, send_seq c (chunks_of session fuel off data) = Ok b ∧ out n' = out n ++ b.
Proof.
  revert i off data n. induction fuel as [|fuel IH]; intros i off data n Hl; [done|].
  cbn [upload_loop chunks_of] in *. destruct (read_fail i); [done|].
  destruct data as [|a data].
  { injection Hl as <-. exists []. by rewrite app_nil_r. }
  apply StE_bind_ok in Hl as (n1 & [] & Hc & Hl). cbv beta in Hl.
  apply send_chunk_ok in Hc as (f & Hf & Hn1). apply IH in Hl as (b & Hb & Hn').
  exists (f ++ b). cbn [send_seq]. rewrite Hf. cbn [mbind result_bind]. rewrite Hb.
  split; [done|]. by rewrite Hn', Hn1, <- app_assoc.
Qed.

Lemma UploadFile_sends read_fail c deviceID session data n n' :
  dial env (S_TCPHost session) (S_TCPPort session) = Ok c →
  sendable (OLogin deviceID (S_Token session)) → client_open c = true →
  deviceID ≠ "" → S_Token session ≠ "" →
  UploadFile env read_fail deviceID session (Ok data) n = (n', Ok tt) →
  ∃ bytes, send_seq c (upload_messages deviceID session data) = Ok bytes ∧
    out n' = out n ++ bytes.
Proof.
  intros Hdial Hlogin Hc Hd Ht Hu. unfold UploadFile in Hu.
  apply StE_bind_ok in Hu as (n0 & data' & Hl & Hu). injection Hl as <- <-. cbv beta in Hu.
  apply StE_bind_ok in Hu as (n1 & c' & Hl & Hu). unfold lift in Hl. rewrite Hdial in Hl.
  injection Hl as <- <-. cbv beta in Hu. rewrite decide_True in Hu by done.
  apply StE_bind_ok in Hu as (n1 & [] & Hlog & Hu). cbv beta in Hu.
  apply StE_bind_ok in Hu as (n2 & [] & Hmeta & Hu). cbv beta in Hu.
  apply StE_bind_ok in Hu as (n3 & [] & Hloop & Hdone). cbv beta in Hdone.
  apply wrap_st_ok in Hmeta, Hdone. apply net_send_ok in Hmeta as (fm & Hfm & Hn2).
  apply net_send_ok in Hdone as (fd & Hfd & Hn'). apply upload_loop_ok in Hloop as (b & Hb & Hn3).
  assert (∃ fl, SendLogin c deviceID (S_Token session) = Ok fl ∧ out n1 = out n ++ fl)
    as (fl & Hfl & Hn1).
  { pose proof (sent_or_rejected c (OLogin deviceID (S_Token session)) Hc Hlogin eq_refl) as Hok.
    simpl in Hok. unfold ignore in Hlog. injection Hlog as Hlog.
    destruct (SendLogin c deviceID (S_Token session)) as [fl|] eqn:El; [|done].
    exists fl. split; [done|]. rewrite <- Hlog. unfold net_send. destruct fl as [|x fl].
    - by rewrite app_nil_r.
    - by rewrite Htakes. }
  exists (fl ++ fm ++ b ++ fd). split; [|by rewrite Hn', Hn3, Hn2, Hn1, <- !app_assoc].
  unfold upload_messages. cbn [send_seq Wire.send]. rewrite Hfl, Hfm. cbn [mbind result_bind].
  rewrite (send_seq_app c _ [OFileDone (S_SessionID session) (S_Token session)] b fd Hb);
    [done|]. cbn [send_seq Wire.send]. rewrite Hfd. cbn [mbind result_bind]. by rewrite app_nil_r.
Qed.
End Uploading.

(** ** What the server makes of it *)

(** Nothing goes wrong with the session's files. *)
Definition files_work (env : call_env) (sess : BackupSession) : Prop :=
  open_err (os env) (TempPath sess) = None ∧ write_err (os env) (TempPath sess) = None ∧
  rename_err (os env) (TempPath sess) = None.

Section Receiving.
Context `{EngineLaws DB, Sha1, Bcrypt, JwtLib, Json} (ctl : ProtocolController).
Context (sess : BackupSession) (dev : string).
Implicit Types s : ServerState DB.
Let sid := Session_ID sess.
Let tok := Session_Token sess.

(** The upload [sess] of the device is under way and [data] has arrived. *)
Definition uploading (data : list ascii) s : Prop :=
  authorized s dev = true ∧ activeUpload s !! sid = Some (sid, tok) ∧
  (∃ a, sessions (backup s) !! sid = Some a ∧ same_session sess a) ∧
  files (backup s) !! TempPath sess = Some data.

Hypothesis Hbackup : Backup_ ctl ≠ None.
Hypothesis Hdir : Direction sess = DirectionUpload.
Hypothesis Hsid : sid ≠ "".
Hypothesis Htok : tok ≠ "".

Lemma same_session_parts a : same_session sess a →
  Session_ID a = sid ∧ Session_Token a = tok ∧ Direction a = DirectionUpload ∧
  TempPath a = TempPath sess ∧ FinalPath a = FinalPath sess.
Proof.
  intros Hs. unfold same_session in Hs. destruct_and!. unfold sid, tok. rewrite <- Hdir. by split_and!.
Qed.

Lemma validate_upload s a :
  sessions (backup s) !! sid = Some a → same_session sess a →
  on_backup (ValidateSession sid tok DirectionUpload) s = (s, Ok a).
Proof.
  intros Ha (_ & Ht & Hd & _)%same_session_parts. unfold on_backup, zoom.
  assert (ValidateSession sid tok DirectionUpload (backup s) = (backup s, Ok a)) as ->.
  { unfold ValidateSession, mbind, StE_bind. rewrite (proj2 (find_session_ok sid _ _ a)) by done.
    rewrite decide_False by (intros Hn; by destruct Hn).
    by rewrite decide_False by (intros Hn; by destruct Hn). }
  by destruct s.
Qed.

(** What a frame of the session passes before its data is looked at. *)
Lemma uploading_session data s msg :
  uploading data s → DeviceID msg = dev → SessionID msg = sid → Token msg = tok →
  isAuthorized (DeviceID msg) s = (s, Ok true) ∧
  gets (active_upload msg) s = (s, Ok (Some (sid, tok))).
Proof.
  intros (Hau & Hact & _) -> Hm Ht. split.
  - unfold isAuthorized, gets. by rewrite Hau.
  - unfold gets, active_upload. rewrite Hm, Hact. cbn [mbind option_bind].
    by rewrite decide_True.
Qed.

Lemma write_chunk_ok env path off data old s :
  open_err (os env) path = None → write_err (os env) path = None →
  files (backup s) !! path = Some old → data ≠ [] →
  write_chunk env path off data s =
    (set_backup (set_files (<[path := write_at off data old]> (files (backup s))) (backup s)) s,
     Ok tt).
Proof.
  intros Ho Hw Hf Hd. unfold write_chunk.
  assert (open_file env path s = (s, Ok old)) as Hopen.
  { unfold open_file, gets, mbind, StE_bind. by rewrite Ho, Hf. }
  rewrite (bind_run _ _ _ _ _ Hopen). cbv beta zeta. by rewrite Hw, decide_False.
Qed.

(** A chunk that continues the file. *)
Lemma chunk_arrives env msg data s :
  uploading data s → files_work env sess → DeviceID msg = dev →
  SessionID msg = sid → Token msg = tok → ChunkData msg ≠ [] → ChunkLen msg ≠ 0 →
  chunk_is_nil msg = false → ChunkOffset msg = Z.of_nat (length data) →
  uploading (data ++ ChunkData msg) (handleFileChunk ctl env msg s).1.
Proof.
  intros Hup (Hopen & Hwrite & _) Hdev Hmsid Hmtok Hdata Hlen Hnil Hoff.
  destruct (uploading_session data s msg Hup Hdev Hmsid Hmtok) as [Hau' Hact'].
  destruct Hup as (Hau & Hact & (a & Ha & Hsame) & Hfile).
  pose proof (same_session_parts a Hsame) as (_ & _ & _ & Htemp & _).
  unfold handleFileChunk. rewrite (bind_run _ _ _ _ _ Hau'). cbn [negb].
  destruct (Backup_ ctl) as [cfg|]; [|by destruct Hbackup].
  rewrite decide_False by (rewrite Hmsid, Hmtok; tauto).
  rewrite (bind_run _ _ _ _ _ Hact'). cbv beta iota.
  rewrite (bind_run _ _ _ _ _ (attempt_run _ _ _ _ (validate_upload s a Ha Hsame))). cbv beta iota.
  rewrite Hnil, bool_decide_eq_false_2 by done. cbn [orb].
  rewrite Htemp, Hoff, Nat2Z.id.
  rewrite (bind_run _ _ _ _ _ (attempt_run _ _ _ _ (write_chunk_ok env _ (length data)
    (ChunkData msg) data s Hopen Hwrite Hfile Hdata))). cbv beta iota.
  assert (write_at (length data) (ChunkData msg) data = data ++ ChunkData msg) as ->.
  { unfold write_at. rewrite take_ge, Nat.sub_diag, drop_ge by lia. by rewrite app_nil_r. }
  unfold ignore, on_backup, zoom. cbn [fst snd set_backup backup].
  set (b1 := set_files _ _).
  assert (sessions b1 !! sid = Some a) as Hb1 by done.
  assert ((Advance (nano env) sid (ChunkLen msg) b1).1 = set_sessions (<[sid :=
    with_progress (i64 (BytesDone a + ChunkLen msg)) (Session_Status a) (nano env) a]> (sessions b1))
    b1) as ->.
  { unfold Advance. by rewrite (bind_run _ _ _ _ _ (proj2 (find_session_ok sid b1 b1 a)
      (conj eq_refl Hb1))). }
  split_and!; [exact Hau|exact Hact| |].
  - eexists. split; [apply lookup_insert_eq|].
    unfold same_session in *. destruct_and!. by split_and!.
  - apply lookup_insert_eq.
Qed.

Lemma finish_file_moves env a b data :
  files b !! TempPath a = Some data → rename_err env (TempPath a) = None →
  finish_file env a b = (set_files (<[FinalPath a := data]> (delete (TempPath a) (files b))) b : BackupState DB, Ok tt).
Proof.
  intros Hf Hr. unfold finish_file, mbind, StE_bind, attempt, rename. by rewrite Hr, Hf.
Qed.

(** The end of the file. *)
Lemma done_arrives env msg data s :
  uploading data s → files_work env sess → DeviceID msg = dev →
  SessionID msg = sid → Token msg = tok → TempPath sess ≠ "" → TempPath sess ≠ FinalPath sess →
  let s' := (handleFileDone ctl env msg s).1 in
  files (backup s') !! FinalPath sess = Some data ∧ files (backup s') !! TempPath sess = None ∧
  ∃ a, sessions (backup s') !! sid = Some a ∧ Session_Status a = SessionCompleted.
Proof.
  intros Hup (_ & _ & Hren) Hdev Hmsid Hmtok Htemp Hne.
  pose proof Hup as (Hau & Hact & (a & Ha & Hsame) & Hfile).
  pose proof (same_session_parts a Hsame) as (Hid & _ & Hd & Ht & Hfin).
  destruct (uploading_session data s msg Hup Hdev Hmsid Hmtok) as [Hau' Hact'].
  cbv zeta. unfold handleFileDone. rewrite (bind_run _ _ _ _ _ Hau'). cbn [negb].
  destruct (Backup_ ctl) as [cfg|]; [|by destruct Hbackup].
  rewrite decide_False by (rewrite Hmsid, Hmtok; tauto).
  rewrite (bind_run _ _ _ _ _ Hact'). cbv beta iota.
  rewrite (bind_run _ _ _ _ _ (attempt_run _ _ _ _ (validate_upload s a Ha Hsame))). cbv beta iota.
  rewrite Hid.
  set (m := (MarkCompleted (nano env) sid;; _)).
  assert (∃ b' r, m (backup s) = (b', r) ∧ files b' !! FinalPath sess = Some data ∧
    files b' !! TempPath sess = None ∧
    ∃ a', sessions b' !! sid = Some a' ∧ Session_Status a' = SessionCompleted)
    as (b' & r & Hm & Hres).
  { subst m. unfold MarkCompleted. unfold mbind, StE_bind.
    rewrite (proj2 (find_session_ok sid (backup s) (backup s) a)) by done.
    unfold store_session, modify.
    set (b1 := set_sessions _ (backup s)).
    assert (sessions b1 !! sid = Some (with_progress (Session_FileSize a) SessionCompleted (nano env) a))
      as Hb1 by apply lookup_insert_eq.
    unfold FinalizeUpload, mbind, StE_bind.
    rewrite (proj2 (find_session_ok sid b1 b1 _)) by done.
    cbn [with_progress Direction TempPath].
    rewrite decide_False by (intros Hn; by destruct Hn).
    rewrite decide_False by (by rewrite Ht).
    rewrite (finish_file_moves (os env) _ b1 data) by (cbn; by rewrite Ht).
    unfold store_session, modify. set (b2 := set_sessions _ _).
    assert (files b2 !! FinalPath sess = Some data ∧ files b2 !! TempPath sess = None ∧
      ∃ a', sessions b2 !! sid = Some a' ∧ Session_Status a' = SessionCompleted) as Hb2.
    { subst b2. cbn [set_sessions set_files files sessions with_progress TempPath FinalPath].
      rewrite Ht, Hfin. split; [apply lookup_insert_eq|]. split.
      - rewrite lookup_insert_ne by done. apply lookup_delete_eq.
      - eexists. split; [apply lookup_insert_eq|done]. }
    eexists _, _. split; [apply surjective_pairing|]. revert Hb2. unfold record_version.
    case_decide; [done|]. unfold zoom. done. }
  unfold attempt, on_backup, zoom, modify, mbind, StE_bind. rewrite Hm. cbn [fst snd].
  destruct r as [[]|e]; exact Hres.
Qed.

(** A chunk as the agent's frame delivers it. *)
Lemma chunk_not_nil off chunk :
  sendable (OFileChunk sid tok off chunk) → wf_outgoing (OFileChunk sid tok off chunk) →
  chunk_is_nil (from_device dev (OFileChunk sid tok off chunk)) = false.
Proof.
  intros [Hn|(Hl & _ & _)] (_ & Hnt & _ & Hc & Ht); [done|].
  assert (zlen (CString tok) ≤ 255) as Ht'.
  { rewrite CString_nul_free by done. unfold zlen. rewrite to_bytes_length. lia. }
  unfold chunk_is_nil. cbn [from_device received Raw payload_of].
  rewrite byte_at_sid, byte_at_tok by done.
  pose proof (zlen_session_prefix (CString sid) (CString tok)).
  rewrite !zlen_app, !zlen_le_bytes. unfold zlen in *.
  rewrite !bool_decide_eq_true_2 by lia. done.
Qed.

(** The next chunk of the agent. *)
Lemma chunks_of_next session fuel prefix x data :
  let whole := x :: data in let buf := take (bufSize session) whole in
  S_SessionID session = sid → S_Token session = tok →
  Z.of_nat (length prefix + length whole) < 2 ^ 32 →
  buf ≠ [] ∧ chunks_of session (S fuel) (Z.of_nat (length prefix)) whole =
    OFileChunk sid tok (Z.of_nat (length prefix)) buf ::
    chunks_of session fuel (Z.of_nat (length (prefix ++ buf))) (drop (bufSize session) whole).
Proof.
  intros whole buf Hid Ht Hlen. pose proof (bufSize_pos session) as Hpos.
  assert (length buf = bufSize session `min` length whole)%nat as Hb by apply length_take.
  split; [intros He; rewrite He in Hb; subst whole; simpl in Hb; lia|].
  cbn [chunks_of]. fold whole buf. rewrite Hid, Ht. do 2 f_equal. unfold u32, wrap_u.
  rewrite length_app, (Z.mod_small (Z.of_nat (length buf))) by lia. rewrite Z.mod_small by lia. lia.
Qed.

Lemma next_chunk_arrives env fd prefix buf s :
  let m := OFileChunk sid tok (Z.of_nat (length prefix)) buf in
  files_work env sess → buf ≠ [] → clean m → sendable m → uploading prefix s →
  (deliver ctl env fd dev m s).1 = dev ∧ uploading (prefix ++ buf) (deliver ctl env fd dev m s).2.
Proof.
  intros m Hos Hb [Hwf _] Hs Hup. split; [done|]. cbn [m deliver snd]. fold m.
  assert ((HandleMessage ctl env (Some fd) (from_device dev m) s).1 =
    (handleFileChunk ctl env (from_device dev m) s).1) as -> by done.
  apply chunk_arrives; try done.
  - change (zlen buf ≠ 0). unfold zlen. by destruct buf.
  - by apply chunk_not_nil.
Qed.

Lemma chunks_arrive envs fd session fuel : ∀ i off data prefix s,
  S_SessionID session = sid → S_Token session = tok →
  (length data < fuel)%nat → off = Z.of_nat (length prefix) →
  Z.of_nat (length prefix + length data) < 2 ^ 32 →
  (∀ i, files_work (envs i) sess) →
  Forall clean (chunks_of session fuel off data) →
  Forall sendable (chunks_of session fuel off data) →
  uploading prefix s →
  (deliver_all ctl envs i fd dev (chunks_of session fuel off data) s).1 = dev ∧
  uploading (prefix ++ data) (deliver_all ctl envs i fd dev (chunks_of session fuel off data) s).2.
Proof.
  pose proof bufSize_pos session as Hpos.
  induction fuel as [|fuel IH]; intros i off data prefix s Hid Ht Hfuel -> Hlen Hos Hclean Hsend Hup;
    [lia|].
  destruct data as [|x data]; [by rewrite app_nil_r|].
  destruct (chunks_of_next session fuel prefix x data Hid Ht Hlen) as [Hb He].
  set (buf := take (bufSize session) (x :: data)) in *. rewrite He in *. cbn [deliver_all].
  apply Forall_cons in Hclean as [Hc1 Hclean], Hsend as [Hs1 Hsend].
  destruct (next_chunk_arrives (envs i) fd prefix buf s (Hos i) Hb Hc1 Hs1 Hup) as [Hd Hup1].
  destruct (deliver ctl (envs i) fd dev _ s) as [dev' s1]. cbn [fst snd] in *. subst dev'.
  assert (length (drop (bufSize session) (x :: data)) = length (x :: data) - bufSize session)%nat as Hl
    by apply length_drop.
  destruct (IH (S i) (Z.of_nat (length (prefix ++ buf))) (drop (bufSize session) (x :: data))
    (prefix ++ buf) s1) as [Hx Hy]; try done.
  - simpl in *. lia.
  - rewrite length_app, Hl. subst buf. rewrite length_take. simpl in *. lia.
  - assert (buf ++ drop (bufSize session) (x :: data) = x :: data) as Hbd by apply take_drop.
    rewrite <- app_assoc, Hbd in Hy. by split.
Qed.
End Receiving.

Lemma deliver_all_app {DB} `{Engine DB, Sha1, Bcrypt, JwtLib, Json} ctl envs i fd dev ms1 ms2
    (s : ServerState DB) :
  deliver_all ctl envs i fd dev (ms1 ++ ms2) s =
  let '(dev', s') := deliver_all ctl envs i fd dev ms1 s in
  deliver_all ctl envs (length ms1 + i) fd dev' ms2 s'.
Proof.
  revert i dev s. induction ms1 as [|m ms IH]; intros i dev s; [done|].
  cbn [app deliver_all]. destruct (deliver ctl (envs i) fd dev m s) as [dev' s'].
  rewrite IH. cbn [length]. by rewrite Nat.add_succ_r.
Qed.

Lemma on_close_backup {DB} `{Engine DB, Sha1, Bcrypt, JwtLib, Json} fd last
    (s : ServerState DB) : backup (on_close fd last s) = backup s.
Proof.
  unfold on_close. case_decide; [done|]. unfold HandleDisconnect. by case_decide.
Qed.


(** The server side of an upload that was just opened: the session is known under
    its id, its temporary file is empty, its token is one the server accepts, and
    the file system works. *)
Record upload_ready `{Engine DB, Sha1, Bcrypt, JwtLib, Json} (ctl : ProtocolController)
    (envs : nat → call_env) (sess : BackupSession) (dev : string) (s : ServerState DB) : Prop := {
  ready_backup : Backup_ ctl ≠ None;
  ready_session : sessions (backup s) !! Session_ID sess = Some sess;
  ready_active : activeUpload s !! Session_ID sess = Some (Session_ID sess, Session_Token sess);
  ready_direction : Direction sess = DirectionUpload;
  ready_temp : files (backup s) !! TempPath sess = Some [];
  ready_paths : TempPath sess ≠ "" ∧ TempPath sess ≠ FinalPath sess;
  ready_files : ∀ i, files_work (envs i) sess;
  ready_token : ∀ i, token_accepted ctl (envs i) dev (Session_Token sess) = true;
  ready_named : Session_ID sess ≠ "" ∧ Session_Token sess ≠ "";
  ready_texts : nul_free (Session_ID sess) ∧ nul_free (Session_Token sess) ∧
    (String.length (Session_Token sess) < 256)%nat }.

Lemma chunks_clean session fuel : ∀ off data,
  nul_free (S_SessionID session) → nul_free (S_Token session) →
  (String.length (S_Token session) < 256)%nat → 0 ≤ off < 2 ^ 32 →
  Forall clean (chunks_of session fuel off data).
Proof.
  pose proof bufSize_pos session as Hpos.
  induction fuel as [|fuel IH]; intros off data Hn Hnt Ht Hoff; [constructor|].
  cbn [chunks_of]. destruct data as [|x data]; [constructor|].
  destruct (bufSize session) as [|k]; [lia|].
  constructor; [by split|]. apply IH; try done. unfold u32, wrap_u. apply Z.mod_pos_bound. lia.
Qed.

Lemma login_authorizes `{Engine DB, Sha1, Bcrypt, JwtLib, Json} ctl env fd dev tok
    (s : ServerState DB) :
  dev ≠ "" → tok ≠ "" → token_accepted ctl env dev tok = true →
  authorized (HandleMessage ctl env (Some fd) (received (OLogin dev tok)) s).1 dev = true.
Proof.
  intros Hd Ht Ha. destruct (login_frame_registers ctl env fd dev tok s Hd) as (_ & _ & _ & _ & _ & Htok).
  unfold authorized. rewrite Htok, Ha, bool_decide_eq_true_2 by done. cbn [andb].
  rewrite (bool_decide_eq_true_2 (tok ≠ "")) by done. cbn [andb].
  rewrite lookup_insert_eq. by apply bool_decide_eq_true_2.
Qed.

Lemma ready_sendable `{Engine DB, Sha1, Bcrypt, JwtLib, Json} ctl envs sess dev (s : ServerState DB) :
  upload_ready ctl envs sess dev s → nul_free dev → 0 < zlen (to_bytes dev) ≤ 255 →
  sendable (OLogin dev (Session_Token sess)).
Proof.
  intros Hr Hdev Hlen. destruct (ready_texts _ _ _ _ _ Hr) as (_ & Hn & Htl).
  destruct (ready_named _ _ _ _ _ Hr) as (_ & Ht0).
  cbn [sendable]. rewrite !CString_nul_free by done. split; [done|].
  unfold zlen. rewrite to_bytes_length.
  destruct (Session_Token sess); [done|]. cbn [String.length] in *. lia.
Qed.

Lemma upload_messages_clean `{Engine DB, Sha1, Bcrypt, JwtLib, Json} ctl envs sess dev session data
    (s : ServerState DB) :
  upload_ready ctl envs sess dev s →
  S_SessionID session = Session_ID sess → S_Token session = Session_Token sess →
  nul_free (S_FileName session) → nul_free dev → 0 < zlen (to_bytes dev) ≤ 255 →
  Forall clean (upload_messages dev session data).
Proof.
  intros Hr Hid Htok Hname Hdev Hlen. destruct (ready_texts _ _ _ _ _ Hr) as (Hn1 & Hn2 & Htl).
  pose proof (ready_sendable _ _ _ _ _ Hr Hdev Hlen) as Hlogin.
  unfold upload_messages. rewrite Htok, Hid. constructor; [by split|].
  constructor; [split; [split; [done|unfold u64, wrap_u; apply Z.mod_pos_bound; lia]|done]|].
  apply Forall_app. split; [apply chunks_clean; by rewrite ?Hid, ?Htok|].
  constructor; [by split|constructor].
Qed.

(** The session waits for its first chunk. *)
Definition waiting {DB} (sess : BackupSession) (s : ServerState DB) : Prop :=
  activeUpload s !! Session_ID sess = Some (Session_ID sess, Session_Token sess) ∧
  sessions (backup s) !! Session_ID sess = Some sess ∧ files (backup s) !! TempPath sess = Some [].

(** The login of the upload's connection opens the session for its chunks. *)
Lemma login_starts_upload `{Engine DB, Sha1, Bcrypt, JwtLib, Json} ctl env fd sess dev
    (s : ServerState DB) :
  waiting sess s → token_accepted ctl env dev (Session_Token sess) = true →
  Session_Token sess ≠ "" → dev ≠ "" →
  uploading sess dev [] (deliver ctl env fd "" (OLogin dev (Session_Token sess)) s).2.
Proof.
  intros (Hact & Hsess & Htemp) Htok Ht0 Hd0. cbn [deliver snd].
  set (s0 := set_reg _ s).
  destruct (login_frame_registers ctl env fd dev (Session_Token sess) s0 Hd0) as (_ & _ & Hb & Ha & _).
  pose proof (login_authorizes ctl env fd dev (Session_Token sess) s0 Hd0 Ht0 Htok) as Hau.
  split_and!; [done|by rewrite Ha|rewrite Hb; exists sess; by split_and!|by rewrite Hb].
Qed.

(** Upload, end to end: when the agent's [UploadFile] of a file under 4 GiB
    succeeds, the bytes it has put on the wire make the server, which receives
    them on a connection of their own, store exactly that file under the
    session's final path, remove the temporary file and complete the session. *)
Theorem upload_stores_file `{EngineLaws DB, Sha1, Bcrypt, JwtLib, Json, AgentJson} ctl envs fd sess
    dev env c read_fail session data n n' (s : ServerState DB) :
  upload_ready ctl envs sess dev s → fd ≠ INVALID_SOCKET →
  S_SessionID session = Session_ID sess → S_Token session = Session_Token sess →
  nul_free (S_FileName session) → nul_free dev → 0 < zlen (to_bytes dev) ≤ 255 →
  zlen data < 2 ^ 32 → (∀ i, takes env i = true) →
  dial env (S_TCPHost session) (S_TCPPort session) = Ok c → client_open c = true →
  UploadFile env read_fail dev session (Ok data) n = (n', Ok tt) →
  ∃ bytes, out n' = out n ++ bytes ∧
    let b := backup (serve_connection ctl envs fd bytes s) in
    files b !! FinalPath sess = Some data ∧ files b !! TempPath sess = None ∧
    ∃ a, sessions b !! Session_ID sess = Some a ∧ Session_Status a = SessionCompleted.
Proof.
  intros Hr Hfd Hid Htok Hname Hdev Hlen Hdata Htakes Hdial Hc Hu.
  destruct (ready_named _ _ _ _ _ Hr) as (Hs0 & Ht0).
  destruct (ready_paths _ _ _ _ _ Hr) as (Hp1 & Hp2).
  assert (dev ≠ "") as Hd0 by (intros ->; by destruct Hlen).
  destruct (UploadFile_sends env Htakes read_fail c dev session data n n') as (bytes & Hseq & Hout);
    try done; [rewrite Htok; by eapply ready_sendable|by rewrite Htok|].
  exists bytes. split; [done|]. cbv zeta.
  pose proof (upload_messages_clean _ _ _ _ _ data _ Hr Hid Htok Hname Hdev Hlen) as Hclean.
  pose proof (send_seq_sendable _ _ _ Hseq Hclean) as Hsend.
  rewrite (serve_sends ctl envs c fd _ bytes s Hseq Hclean Hfd), on_close_backup.
  unfold upload_messages in *.
  apply Forall_cons in Hclean as [_ [_ [Hclean _]%Forall_app]%Forall_cons].
  apply Forall_cons in Hsend as [_ [_ [Hsend _]%Forall_app]%Forall_cons].
  cbn [deliver_all deliver].
  set (s1 := (HandleMessage ctl (envs 0%nat) (Some fd) (received _) _).1).
  set (s2 := (HandleMessage ctl (envs 1%nat) (Some fd) _ s1).1).
  assert (uploading sess dev [] s2) as Hup.
  { assert (s2 = s1) as -> by done. unfold s1. rewrite Htok. apply login_starts_upload; try done; [|by apply (ready_token _ _ _ _ _ Hr)].
    split_and!; [apply (ready_active _ _ _ _ _ Hr)|apply (ready_session _ _ _ _ _ Hr)|
      apply (ready_temp _ _ _ _ _ Hr)]. }
  rewrite deliver_all_app.
  destruct (chunks_arrive ctl sess dev (ready_backup _ _ _ _ _ Hr) (ready_direction _ _ _ _ _ Hr)
    Hs0 Ht0 envs fd session (S (length data)) 2 0 data [] s2) as [H1' H2']; try done.
  { lia. } { by apply (ready_files _ _ _ _ _ Hr). }
  destruct (deliver_all ctl envs 2 fd dev (chunks_of session (S (length data)) 0 data) s2)
    as [dev' s3]. cbn [fst snd] in *. subst dev'. cbn [deliver_all deliver snd].
  rewrite Hid, Htok.
  eapply (done_arrives ctl sess dev (ready_backup _ _ _ _ _ Hr) (ready_direction _ _ _ _ _ Hr) Hs0 Ht0);
    try done. apply (ready_files _ _ _ _ _ Hr).
Qed.

Definition sample_upload : BackupSession := {|
  Session_ID := "up-1"; Session_Token := "tok"; Session_DeviceID := "laptop"; Session_FileID := "f";
  Session_LogicalPath := "/home/a.txt"; Session_FileName := "a.txt"; Session_FileSize := 5;
  Checksum := ""; Direction := DirectionUpload; Session_Status := SessionActive;
  TempPath := "/data/1_a.txt.part"; FinalPath := "/data/1_a.txt"; BytesDone := 0;
  Session_CreatedAt := 0; Session_UpdatedAt := 0 |}.
Definition upload_server : ServerState Tables :=
  set_uploads {[ "up-1" := ("up-1", "tok") ]} (set_backup {|
    files := {[ "/data/1_a.txt.part" := [] ]}; sessions := {[ "up-1" := sample_upload ]};
    db := empty_tables |} (initial_server empty_tables)).
(** The agent's view of it, with chunks of two bytes. *)
Definition agent_upload : Session := {|
  S_SessionID := "up-1"; S_Token := "tok"; S_FileName := "1_a.txt"; S_FileSize := 5; S_Offset := 0;
  S_ChunkSize := 2; S_TCPHost := "h"; S_TCPPort := 1; S_Direction := "upload";
  S_Status := "active" |}.

Lemma upload_server_ready : upload_ready sample_ctl (λ _, sample_env) sample_upload "laptop" upload_server.
Proof.
  split; intros; try reflexivity; try discriminate; repeat split; try discriminate;
    unfold nul_free; try by_decide.
Qed.

Lemma upload_stores_file_witness :
  ∃ bytes,
    out (UploadFile sample_net (λ _, None) "laptop" agent_upload (Ok (to_bytes "hello")) fresh).1 =
      bytes ∧
    files (backup (serve_connection sample_ctl (λ _, sample_env) 9 bytes upload_server))
      !! "/data/1_a.txt" = Some (to_bytes "hello").
Proof.
  destruct (UploadFile sample_net (λ _, None) "laptop" agent_upload (Ok (to_bytes "hello")) fresh)
    as [n' r] eqn:E.
  destruct r as [[]|e]; [|apply (f_equal (λ r, is_ok r.2)) in E; vm_compute in E; discriminate].
  destruct (upload_stores_file sample_ctl (λ _, sample_env) 9 sample_upload "laptop" sample_net
    (Some 3) (λ _, None) agent_upload (to_bytes "hello") fresh n' upload_server upload_server_ready)
    as (bytes & Ho & Hf & _); try reflexivity; try discriminate.
  - unfold nul_free. by_decide.
  - unfold nul_free. by_decide.
  - vm_compute. split; [reflexivity|discriminate].
  - exact E.
  - exists bytes. split; [exact Ho|exact Hf].
Defined.
