(* ===== verification/Uploads.v ===== *)
(** * Uploads among other connections

    Every upload has a connection of its own, and the frames of the others come
    between its frames: handleFileChunk, handleFileDone and handleBackupInitUpload
    of backend/app/controllers/protocol_backup.go share the table of sessions, the
    active uploads, the tokens of the devices and the file system.

    A turn is a frame of the upload's connection, or an action of [Queue]: a whole
    frame of another connection, one turn of a delivery, a disconnect, a change of
    the registry.  An upload is kept apart from the others by its random session
    id and by the paths of its files; not by its device: the end of any other
    connection of the device ends the upload. *)

From S2P Require Export Queue TransferProofs.

Local Open Scope Z_scope.

(** ** What the others leave alone *)

Section Apart.
Context `{EngineLaws DB, Sha1, Bcrypt, JwtLib, Json} (ctl : ProtocolController).
Context (sess : BackupSession) (dev : string).
Let sid := Session_ID sess.
Implicit Types (s : ServerState DB) (b : BackupState DB).

(** An upload stored under [p] touches [p], its partial file and the fallback. *)
Definition apart (temp final : string) : Prop :=
  temp ∉ [TempPath sess; FinalPath sess] ∧ final ∉ [TempPath sess; FinalPath sess] ∧
  final +:+ ".path" ∉ [TempPath sess; FinalPath sess].

(** Every other upload has other files. *)
Definition others_apart b : Prop := ∀ id a, sessions b !! id = Some a →
  Session_ID a = id ∧ (id ≠ sid → Direction a = DirectionUpload → apart (TempPath a) (FinalPath a)).

(** What the server has of the upload. *)
Record view_of := {
  v_active : option (string * string);
  v_session : option BackupSession;
  v_temp : option (list ascii);
  v_final : option (list ascii) }.
Definition stored_as (v : view_of) b : Prop :=
  sessions b !! sid = v_session v ∧ files b !! TempPath sess = v_temp v ∧
  files b !! FinalPath sess = v_final v.

(** The others' sessions are in order; and when [frozen], the upload is as it was. *)
Definition kept (frozen : Prop) (v : view_of) b : Prop :=
  others_apart b ∧ (frozen → stored_as v b).

Definition paths_of (a : BackupSession) := (Session_ID a, Direction a, TempPath a, FinalPath a).

Lemma kept_files frozen v b m :
  kept frozen v b → (frozen → m !! TempPath sess = files b !! TempPath sess ∧
    m !! FinalPath sess = files b !! FinalPath sess) → kept frozen v (set_files m b).
Proof.
  intros [Ho Hf] Hm. split; [done|]. intros Hfr. destruct (Hm Hfr) as [Ht Hfi].
  unfold stored_as. cbn [set_files files sessions]. rewrite Ht, Hfi. by apply Hf.
Qed.

Lemma kept_session frozen v b id a :
  kept frozen v b → (frozen → id ≠ sid) → Session_ID a = id →
  (id ≠ sid → Direction a = DirectionUpload → apart (TempPath a) (FinalPath a)) →
  kept frozen v (set_sessions (<[id := a]> (sessions b)) b).
Proof.
  intros [Ho Hf] Hid Ha Hap. split.
  - intros id' a' Hl. cbn [set_sessions sessions] in Hl.
    apply lookup_insert_Some in Hl as [[<- <-]|[_ Hl]]; [done|by apply Ho].
  - intros Hfr. unfold stored_as. cbn [set_sessions sessions files].
    rewrite lookup_insert_ne by (by apply Hid). by apply Hf.
Qed.

Lemma apart_write frozen v b temp final p c :
  apart temp final → p ∈ [temp; final; final +:+ ".path"] → kept frozen v b →
  kept frozen v (set_files (<[p := c]> (files b)) b).
Proof.
  intros (Ha1 & Ha2 & Ha3) Hp Hk. apply kept_files; [done|]. intros _.
  rewrite !lookup_insert_ne; [done|set_solver..].
Qed.

Lemma kept_rename frozen v os temp final old new :
  (frozen → apart temp final) → old ∈ [temp; final; final +:+ ".path"] →
  new ∈ [temp; final; final +:+ ".path"] → keeps (kept frozen v) (rename (DB := DB) os old new).
Proof.
  intros Hap Ho Hn b Hk. unfold rename. destruct (rename_err os old); [done|].
  destruct (files b !! old) as [c|]; [|done]. apply kept_files; [done|]. intros Hfr.
  destruct (Hap Hfr) as (Ha1 & Ha2 & Ha3).
  rewrite !lookup_insert_ne by set_solver. by rewrite !lookup_delete_ne by set_solver.
Qed.

#[local] Hint Resolve keeps_ret keeps_fail keeps_lift keeps_gets keeps_attempt keeps_ignore
  keeps_wrap_st : core.

Lemma kept_finish_file frozen v os a :
  (frozen → apart (TempPath a) (FinalPath a)) → keeps (kept frozen v) (finish_file (DB := DB) os a).
Proof.
  intros Hap. unfold finish_file.
  assert (∀ old, old ∈ [TempPath a; FinalPath a; FinalPath a +:+ ".path"] →
    keeps (kept frozen v) (attempt (rename (DB := DB) os old (FinalPath a)))) as Hr.
  { intros old Hold. apply keeps_attempt. eapply kept_rename; [exact Hap|done|set_solver]. }
  apply keeps_bind; [apply Hr; set_solver|]. intros [[]|e]; [done|].
  destruct (HasSuffix _ _).
  - apply keeps_bind; [apply Hr; set_solver|]. by intros [[]|e2].
  - apply keeps_bind; [done|]. intros present. destruct (present && _); [|done].
    apply keeps_bind; [apply Hr; set_solver|]. by intros [[]|e3].
Qed.

Lemma kept_db frozen v b d : kept frozen v b → kept frozen v (set_db d b).
Proof. done. Qed.
Lemma kept_record_version frozen v a : keeps (kept frozen v) (record_version (DB := DB) a).
Proof. unfold record_version. case_decide; [done|]. intros b Hk. by apply kept_db. Qed.

(** The calls of the service on a known session. *)
Lemma kept_progress frozen v b id a done status now :
  sessions b !! id = Some a → (frozen → id ≠ sid) → kept frozen v b →
  kept frozen v (set_sessions (<[id := with_progress done status now a]> (sessions b)) b).
Proof.
  intros Ha Hid Hk. destruct (proj1 Hk id a Ha) as [Hi Hap]. by apply kept_session.
Qed.

Lemma kept_Advance frozen v now id delta :
  (frozen → id ≠ sid) → keeps (kept frozen v) (Advance (DB := DB) now id delta).
Proof.
  intros Hid b Hk. unfold Advance, find_session, mbind, StE_bind, gets.
  destruct (sessions b !! id) as [a|] eqn:Ea; [|done]. cbn [mret StE_ret fst].
  by apply kept_progress.
Qed.
Lemma kept_MarkCompleted frozen v now id :
  (frozen → id ≠ sid) → keeps (kept frozen v) (MarkCompleted (DB := DB) now id).
Proof.
  intros Hid b Hk. unfold MarkCompleted, find_session, mbind, StE_bind, gets.
  destruct (sessions b !! id) as [a|] eqn:Ea; [|done]. cbn [mret StE_ret fst].
  by apply kept_progress.
Qed.

Lemma keeps_sessions_finish id a os : keeps (λ b, sessions b !! id = Some a) (finish_file (DB := DB) os a).
Proof. intros b Hb. by rewrite (keeps_finish_file (sessions b) os a b eq_refl). Qed.

Lemma kept_FinalizeUpload frozen v os now id :
  (frozen → id ≠ sid) → keeps (kept frozen v) (FinalizeUpload (DB := DB) os now id).
Proof.
  intros Hid b Hk. unfold FinalizeUpload, find_session, mbind at 1, StE_bind at 1.
  unfold mbind at 1, StE_bind at 1, gets.
  destruct (sessions b !! id) as [a|] eqn:Ea; [|done]. cbn [mret StE_ret].
  case_decide as Hd; [done|]. case_decide; [done|].
  destruct (proj1 Hk id a Ea) as [_ Hap].
  unfold mbind at 1, StE_bind at 1.
  pose proof (kept_finish_file frozen v os a (λ Hfr, Hap (Hid Hfr) Hd) b Hk) as Hk1.
  pose proof (keeps_sessions_finish id a os b Ea) as Ha1. cbn beta in Ha1.
  destruct (finish_file os a b) as [b1 [[]|e]]; [|done]. cbn [fst] in Hk1, Ha1.
  unfold store_session, modify, mbind, StE_bind.
  apply kept_record_version. by apply kept_progress.
Qed.

(** New sessions: another id, and files apart. *)
Definition fresh_ids (env : call_env) : Prop :=
  newID "up" (random1 env) (nano env) ≠ sid ∧ newID "down" (random1 env) (nano env) ≠ sid.

Lemma kept_partial_size frozen v os p :
  (frozen → p ∉ [TempPath sess; FinalPath sess]) → keeps (kept frozen v) (partial_size (DB := DB) os p).
Proof.
  intros Hp b Hk. unfold partial_size. destruct (stat_err os p); [done|].
  destruct (files b !! p); [done|]. destruct (create_err os p); [done|].
  apply kept_files; [done|]. intros Hfr. specialize (Hp Hfr).
  by rewrite !lookup_insert_ne by set_solver.
Qed.

Lemma kept_PrepareUpload frozen v cfg os unix nano r1 r2 d req :
  newID "up" r1 nano ≠ sid →
  (let p := upload_path cfg d unix (Upload_FileName req) in apart (p +:+ ".part") p) →
  keeps (kept frozen v) (PrepareUpload (DB := DB) cfg os unix nano r1 r2 d req).
Proof.
  intros Hid Hap. unfold PrepareUpload. case_decide; [done|]. case_decide; [done|].
  destruct (mkdir_err _ _); [done|].
  apply keeps_bind; [apply kept_partial_size; intros _; apply Hap|]. intros size.
  apply keeps_bind; [|done]. apply keeps_modify. intros b Hk. by apply kept_session.
Qed.
Lemma kept_PrepareDownload frozen v cfg os nano r1 r2 d name :
  newID "down" r1 nano ≠ sid →
  keeps (kept frozen v) (PrepareDownload (DB := DB) cfg os nano r1 r2 d name).
Proof.
  intros Hid. unfold PrepareDownload. case_decide; [done|]. destruct (stat_err _ _); [done|].
  apply keeps_bind; [done|]. intros [c|]; [|done].
  apply keeps_bind; [|done]. apply keeps_modify. intros b Hk. by apply kept_session.
Qed.

(** The paths of the session that a request opens. *)
Definition opens_apart (env : call_env) (d : string) (p : list ascii) : Prop :=
  ∀ cfg req, Backup_ ctl = Some cfg → decode_upload p = Ok req →
    let path := upload_path cfg d (unix env) (Upload_FileName req) in apart (path +:+ ".part") path.
(** The session a command may open is not ours, nor are its files. *)
Definition opens_elsewhere (env : call_env) (msg : ProtocolMessage) : Prop :=
  fresh_ids env ∧
  ∀ payload, decode_envelope (CommandJSON msg) = Ok ("backup_init_upload", payload) →
    opens_apart env (DeviceID msg) payload.

(** *** The state of the server *)

(** [logged]: the device has logged in on the upload's connection. *)
Definition intact (frozen logged : Prop) (v : view_of) s : Prop :=
  kept frozen v (backup s) ∧ (∀ k ctx, activeUpload s !! k = Some ctx → ctx.1 = k) ∧
  (frozen → activeUpload s !! sid = v_active v ∧ (logged → authorized s dev = true)).

Section Intact.
Context (frozen logged : Prop) (v : view_of).
Abbreviation I := (intact frozen logged v) (only parsing).

Lemma intact_on_db {A} (m : StE DB A) : keeps I (on_db m).
Proof. by intros s Hs. Qed.
Lemma intact_on_backup {A} (m : StE (BackupState DB) A) :
  keeps (kept frozen v) m → keeps I (on_backup m).
Proof. intros Hm s (Hk & Hs). split; [|done]. by apply Hm. Qed.
Lemma intact_written fd f s : I s → I (written fd f s).
Proof. done. Qed.
Lemma intact_hub h s : I s → I (set_hub h s).
Proof. done. Qed.
Lemma intact_reg l s : I s → I (set_reg l s).
Proof. done. Qed.
Lemma intact_spawned l s : I s → I (set_spawned l s).
Proof. done. Qed.

Lemma authorized_insert s d tok m :
  tok ≠ "" → authorized (set_tokens m s) dev = true → authorized (set_tokens (<[d := tok]> m) s) dev = true.
Proof.
  unfold authorized. cbn [set_tokens deviceTokens]. rewrite !andb_true_iff. intros Ht [Hd Hm].
  split; [done|]. destruct (decide (d = dev)) as [->|]; [|by rewrite lookup_insert_ne].
  rewrite lookup_insert_eq. by apply bool_decide_eq_true_2.
Qed.
Lemma intact_token d tok s :
  tok ≠ "" → I s → I (set_tokens (<[d := tok]> (deviceTokens s)) s).
Proof.
  intros Ht (Hk & Hu & Hf). split; [done|]. split; [done|]. intros Hfr. destruct (Hf Hfr) as [Ha Hl].
  split; [done|]. intros Hlog. apply authorized_insert; [done|]. specialize (Hl Hlog). by destruct s.
Qed.
Lemma intact_upload k tok s :
  (frozen → k ≠ sid) → I s → I (set_uploads (<[k := (k, tok)]> (activeUpload s)) s).
Proof.
  intros Hk (Hb & Hu & Hf). split; [done|]. cbn [set_uploads activeUpload]. split.
  - intros k' ctx Hl. apply lookup_insert_Some in Hl as [[<- <-]|[_ Hl]]; [done|by apply Hu].
  - intros Hfr. rewrite lookup_insert_ne by (by apply Hk). by apply Hf.
Qed.
Lemma intact_no_upload k s :
  (frozen → k ≠ sid) → I s → I (set_uploads (delete k (activeUpload s)) s).
Proof.
  intros Hk (Hb & Hu & Hf). split; [done|]. cbn [set_uploads activeUpload]. split.
  - intros k' ctx [_ Hl]%lookup_delete_Some. by apply Hu.
  - intros Hfr. rewrite lookup_delete_ne by (by apply Hk). by apply Hf.
Qed.
#[local] Hint Resolve intact_on_db intact_on_backup : core.

Ltac intact :=
  repeat first
    [ progress intros
    | done
    | by auto
    | apply keeps_bind
    | match goal with
      | |- keeps _ (attempt _) => apply keeps_attempt
      | |- keeps _ (ignore _) => apply keeps_ignore
      | |- keeps _ (match ?x with _ => _ end) => destruct x
      | |- keeps _ (if ?x then _ else _) => destruct x
      end ].

Lemma intact_transmit env client what fr : keeps I (transmit env client what fr).
Proof. apply stable_transmit, intact_written. Qed.
Lemma intact_ack env client code msg : keeps I (ack env client code msg).
Proof. apply keeps_ignore, intact_transmit. Qed.
Lemma intact_sendAckJSON env client code payload : keeps I (sendAckJSON env client code payload).
Proof. apply stable_sendAckJSON, intact_written. Qed.
Lemma intact_hub_send env d payload : keeps I (hub_send env d payload).
Proof. apply stable_hub_send, intact_written. Qed.
Lemma intact_require_authorized d : keeps I (require_authorized d).
Proof. unfold require_authorized, isAuthorized. intact. Qed.
#[local] Hint Resolve intact_transmit intact_ack intact_sendAckJSON intact_hub_send
  intact_require_authorized : core.

(** A login stores a token, which is never empty. *)
Hypothesis Hsign : ∀ secret claims, SignedString secret claims ≠ Ok "".

Lemma intact_Login env d p : keeps I (handleLogin ctl env d p).
Proof.
  unfold handleLogin. destruct (Users ctl), (Signer_ ctl) as [signer|]; try done.
  apply keeps_bind; [done|]. intros req. apply keeps_bind; [done|]. intros user.
  destruct (Sign _ _ _ _ _ _) as [tok|e] eqn:Es; [|by apply (keeps_fail (A := reply))].
  assert (tok ≠ "") as Ht by (intros ->; by apply Hsign in Es).
  change (keeps I (modify (λ s : ServerState DB, set_tokens
    (let m := <[login_id env d req := tok]> (deviceTokens s) in
     if decide (d ≠ "" ∧ d ≠ login_id env d req) then <[d := tok]> m else m) s);;
    enrich_device ctl (login_device (login_id env d req) req);; mret (RLogin tok (login_id env d req)))).
  apply keeps_bind; [|intros _; apply keeps_bind; [|done]; unfold enrich_device, UpsertDevice; intact].
  apply keeps_modify. intros s Hs. pose proof (intact_token (login_id env d req) tok s Ht Hs) as Hs1.
  cbv zeta. case_decide; [|done]. by apply (intact_token d tok) in Hs1.
Qed.

Lemma intact_login_frame env client msg : keeps I (handle_login_frame ctl env client msg).
Proof.
  unfold handle_login_frame. case_decide; [done|].
  apply keeps_bind; [|intros _; apply keeps_bind; [|intros _]; by apply keeps_modify].
  apply keeps_modify. intros s Hs. destruct (_ && _) eqn:E; [|done].
  apply andb_true_iff in E as [Ht%bool_decide_eq_true_1 _]. by apply intact_token.
Qed.

(** *** The handlers *)

Lemma intact_DeviceRegister d p : keeps I (handleDeviceRegister ctl d p).
Proof. unfold handleDeviceRegister, UpsertDevice. intact. Qed.
Lemma intact_FileTreeSync env d p : keeps I (handleFileTreeSync ctl env d p).
Proof. unfold handleFileTreeSync. intact. Qed.
Lemma intact_AgentLog d p : keeps I (handleAgentLog ctl d p).
Proof. unfold handleAgentLog. intact. Qed.
Lemma intact_get_st : keeps I get_st.
Proof. by intros s Hs. Qed.
#[local] Hint Resolve intact_get_st : core.
Lemma intact_AdminListDevices : keeps I (handleAdminListDevices ctl).
Proof. unfold handleAdminListDevices. intact. Qed.
Lemma intact_AdminListOnline d : keeps I (handleAdminListOnline ctl d).
Proof. unfold handleAdminListOnline. intact. Qed.
Lemma intact_AdminListTree env p : keeps I (handleAdminListTree ctl env p).
Proof. unfold handleAdminListTree. intact. Qed.
Lemma intact_AdminSendCommand env p : keeps I (handleAdminSendCommand ctl env p).
Proof. unfold handleAdminSendCommand, send_now. intact. Qed.
Lemma intact_open_file env p : keeps I (open_file env p).
Proof. unfold open_file. intact. Qed.
#[local] Hint Resolve intact_open_file : core.
Lemma intact_ValidateSession id tok d : keeps I (on_backup (ValidateSession id tok d)).
Proof. apply intact_on_backup. unfold ValidateSession, find_session. intact. Qed.
Lemma intact_send_chunks env client k tok fuel i off data :
  keeps I (send_chunks env client k tok fuel i off data).
Proof. apply stable_send_chunks, intact_written. Qed.
#[local] Hint Resolve intact_ValidateSession intact_send_chunks : core.
Lemma intact_DownloadStart env client d p : keeps I (handleBackupDownloadStart ctl env client d p).
Proof. unfold handleBackupDownloadStart. intact. Qed.

Lemma PrepareUpload_id cfg os unix nano r1 r2 d req b b' resp :
  PrepareUpload (DB := DB) cfg os unix nano r1 r2 d req b = (b', Ok resp) →
  Response_SessionID resp = newID "up" r1 nano.
Proof.
  unfold PrepareUpload. case_decide; [done|]. case_decide; [done|]. destruct (mkdir_err _ _); [done|].
  intros Hp. apply StE_bind_ok in Hp as (b1 & size & _ & Hp). by injection Hp as _ <-.
Qed.

Lemma intact_InitUpload env d p :
  fresh_ids env → opens_apart env d p → keeps I (handleBackupInitUpload ctl env d p).
Proof.
  intros [Hup _] Hap. unfold handleBackupInitUpload. apply keeps_bind; [done|]. intros [].
  destruct (Backup_ ctl) as [cfg|] eqn:Ec; [|done]. case_decide; [done|].
  apply keeps_lift_bind. intros req Hreq. specialize (Hap cfg req Ec Hreq).
  intros s Hs.
  assert (keeps I (on_backup (PrepareUpload cfg (os env) (unix env) (nano env) (random1 env)
    (random2 env) d req))) as Hp by by apply intact_on_backup, kept_PrepareUpload.
  specialize (Hp s Hs). unfold mbind at 1, StE_bind at 1.
  destruct (on_backup _ s) as [s1 [resp|e]] eqn:E; [|done]. cbn [fst] in Hp.
  unfold on_backup in E. apply zoom_ok in E as (b & E & _). apply PrepareUpload_id in E.
  unfold modify, mbind, StE_bind. apply intact_upload; [|done]. intros _. by rewrite E.
Qed.
Lemma intact_InitDownload env d p : fresh_ids env → keeps I (handleBackupInitDownload ctl env d p).
Proof.
  intros [_ Hdown]. unfold handleBackupInitDownload. apply keeps_bind; [done|]. intros [].
  destruct (Backup_ ctl); [|done]. case_decide; [done|]. apply keeps_bind; [done|]. intros name.
  apply keeps_bind; [|done]. by apply intact_on_backup, kept_PrepareDownload.
Qed.

(** What frames of a file begin with: the upload they name, which must be open. *)
Lemma intact_file_frame msg (body : string → BackupSession → StE (ServerState DB) unit) :
  (∀ a s, I s → sessions (backup s) !! SessionID msg = Some a → Direction a = DirectionUpload →
    I (body (SessionID msg) a s).1) →
  keeps I (ctx ← gets (active_upload msg);
    match ctx with
    | None => mret tt
    | Some (id, tok) =>
        v ← attempt (on_backup (ValidateSession id tok DirectionUpload));
        match v with Err _ => mret tt | Ok a => body id a end
    end).
Proof.
  intros Hbody s Hs. unfold gets, mbind at 1, StE_bind at 1.
  destruct (active_upload msg s) as [[k tok]|] eqn:Ea; [|done].
  assert (k = SessionID msg) as ->.
  { unfold active_upload in Ea. destruct (activeUpload s !! SessionID msg) as [ctx|] eqn:El; [|done].
    cbn [mbind option_bind] in Ea. case_decide; [|done]. injection Ea as ->.
    by apply (proj1 (proj2 Hs)) in El. }
  unfold mbind, StE_bind, attempt, on_backup, zoom.
  destruct (ValidateSession (SessionID msg) tok DirectionUpload (backup s)) as [b r] eqn:E.
  apply ValidateSession_spec in E as [-> Hr]. cbn [fst snd].
  destruct r as [a|e]; [|by destruct s].
  destruct (sessions (backup s) !! SessionID msg) as [a'|] eqn:El; [|done].
  do 2 (case_decide; [|done]). injection Hr as <-.
  assert (set_backup (backup s) s = s) as -> by by destruct s. by apply Hbody.
Qed.

Lemma intact_write_chunk env a s off data :
  (frozen → apart (TempPath a) (FinalPath a)) → I s → I (write_chunk env (TempPath a) off data s).1.
Proof.
  intros Hap Hs. revert s Hs. change (keeps I (write_chunk env (TempPath a) off data)).
  unfold write_chunk. apply keeps_bind; [done|]. intros old.
  assert (∀ d, keeps I (if decide (d = []) then mret tt else modify (λ s : ServerState DB, set_backup
    (set_files (<[TempPath a := write_at off d old]> (files (backup s))) (backup s)) s))) as Hput.
  { intros d. case_decide; [done|]. apply keeps_modify. intros s (Hk & Hs). split; [|done].
    cbn [set_backup backup]. apply kept_files; [done|]. intros Hfr.
    destruct (Hap Hfr) as (Hp & _). by rewrite !lookup_insert_ne by set_solver. }
  destruct (write_err _ _) as [[n e]|]; [|apply Hput]. apply keeps_bind; [apply Hput|done].
Qed.

Lemma intact_FileChunk env msg :
  (frozen → SessionID msg ≠ sid) → keeps I (handleFileChunk ctl env msg).
Proof.
  intros Hid. unfold handleFileChunk, isAuthorized. apply keeps_bind; [done|]. intros ok.
  destruct (negb ok); [done|]. destruct (Backup_ ctl); [|done]. case_decide; [done|].
  apply (intact_file_frame msg (λ id a, if chunk_is_nil msg || bool_decide (ChunkLen msg = 0)
    then mret tt else
    w ← attempt (write_chunk env (TempPath a) (Z.to_nat (ChunkOffset msg)) (ChunkData msg));
    match w with
    | Err _ => mret tt
    | Ok _ => ignore (on_backup (Advance (nano env) id (ChunkLen msg)))
    end)).
  intros a s Hs Ha Hd. destruct (_ || _); [done|].
  destruct (proj1 (proj1 Hs) _ a Ha) as [_ Hap].
  pose proof (intact_write_chunk env a s (Z.to_nat (ChunkOffset msg)) (ChunkData msg)
    (λ Hfr, Hap (Hid Hfr) Hd) Hs) as Hw.
  unfold mbind, StE_bind, attempt. destruct (write_chunk _ _ _ _ s) as [s1 [[]|e]]; [|done].
  cbn [fst] in *. revert s1 Hw. apply (keeps_ignore I), intact_on_backup. by apply kept_Advance.
Qed.
Lemma intact_FileDone env msg :
  (frozen → SessionID msg ≠ sid) → keeps I (handleFileDone ctl env msg).
Proof.
  intros Hid. unfold handleFileDone, isAuthorized. apply keeps_bind; [done|]. intros ok.
  destruct (negb ok); [done|]. destruct (Backup_ ctl); [|done]. case_decide; [done|].
  apply (intact_file_frame msg (λ id a,
    r ← attempt (on_backup (MarkCompleted (nano env) (Session_ID a);;
      FinalizeUpload (os env) (nano env) (Session_ID a)));
    match r with
    | Err _ => mret tt
    | Ok _ => modify (λ s : ServerState DB, set_uploads (delete (SessionID msg) (activeUpload s)) s)
    end)).
  intros a s Hs Ha _. destruct (proj1 (proj1 Hs) _ a Ha) as [-> _]. revert s Hs Ha.
  cut (keeps I (r ← attempt (on_backup (MarkCompleted (nano env) (SessionID msg);;
      FinalizeUpload (os env) (nano env) (SessionID msg)));
    match r with
    | Err _ => mret tt
    | Ok _ => modify (λ s : ServerState DB, set_uploads (delete (SessionID msg) (activeUpload s)) s)
    end)); [intros Hk s Hs _; by apply Hk|].
  apply keeps_bind.
  - apply keeps_attempt, intact_on_backup, keeps_bind; [by apply kept_MarkCompleted|].
    intros _. by apply kept_FinalizeUpload.
  - intros [[]|e]; [|done]. apply keeps_modify. intros s. by apply intact_no_upload.
Qed.

#[local] Hint Resolve intact_Login intact_login_frame intact_DeviceRegister intact_FileTreeSync
  intact_AgentLog intact_AdminListDevices intact_AdminListOnline intact_AdminListTree
  intact_AdminSendCommand intact_DownloadStart : core.

Lemma intact_dispatch env client d action p :
  fresh_ids env → (action = "backup_init_upload" → opens_apart env d p) →
  keeps I (dispatch ctl env client d action p).
Proof.
  intros Hfr Hap. unfold dispatch, answer, answer_json.
  repeat (case_decide; [first [done|by intact|idtac]|]); [..|done].
  - apply keeps_bind; [|intact]. apply keeps_attempt, intact_InitUpload; auto.
  - apply keeps_bind; [|intact]. by apply keeps_attempt, intact_InitDownload.
Qed.

Lemma intact_HandleMessage env client msg :
  (frozen → Type_ msg = MSG_FILE_CHUNK ∨ Type_ msg = MSG_FILE_DONE → SessionID msg ≠ sid) →
  (Type_ msg = MSG_COMMAND → opens_elsewhere env msg) →
  keeps I (HandleMessage ctl env client msg).
Proof.
  intros Hid Hcmd. unfold HandleMessage. case_decide; [done|]. case_decide.
  - destruct Hcmd as [Hfr Hap]; [done|]. unfold handleSubCommand. case_decide; [done|].
    destruct (decode_envelope (CommandJSON msg)) as [[action p]|]; [|done].
    unfold isAuthorized. apply keeps_bind; [done|]. intros ok. destruct (_ && _); [done|].
    apply intact_dispatch; [done|]. intros ->. by apply Hap.
  - case_decide; [apply intact_FileChunk; auto|]. case_decide; [apply intact_FileDone; auto|done].
Qed.

(** A turn of a delivery. *)
Lemma intact_queue_command p : keeps I (queue_command ctl p).
Proof. unfold queue_command. intact. Qed.

Lemma intact_job env j s : I s → I (job_step ctl env j s).1.1.
Proof.
  intros Hs. pose proof (λ d p, intact_hub_send env d p s Hs) as Hhub.
  destruct j as [d|d [|c cmds]|d id cmds|d id e cmds|id e|client p|client req id|client req id b
    |client id|client id e|client r|]; cbn [job_step]; try done.
  - destruct (negb _); [done|]. by destruct (on_db (ListByDevice d false) s) as [s1 [cmds|e]] eqn:E;
      apply (f_equal fst) in E; cbn [fst] in *; subst s1; apply intact_on_db.
  - destruct (encode_command _) as [b|e]; [|done]. specialize (Hhub d b).
    by destruct (hub_send env d b s) as [s1 [[]|e]].
  - pose proof (intact_queue_command p s Hs) as Hq.
    by destruct (queue_command ctl p s) as [s1 [[req id]|e]].
  - destruct (negb _); [done|]. by destruct (encode_command _).
  - specialize (Hhub (Send_DeviceID req) b). by destruct (hub_send env _ b s) as [s1 [[]|e]].
  - destruct r as [data|e]; [by apply intact_sendAckJSON|by apply intact_ack].
Qed.

(** Whatever another connection does. *)
Definition foreign_frame (env : call_env) (msg : ProtocolMessage) : Prop :=
  (Type_ msg = MSG_FILE_CHUNK ∨ Type_ msg = MSG_FILE_DONE → SessionID msg ≠ sid) ∧
  (Type_ msg = MSG_COMMAND → opens_elsewhere env msg).
Definition foreign (a : action) : Prop :=
  match a with
  | AFrame _ env _ msg => foreign_frame env msg
  | ADisconnect _ d => d ≠ dev
  | _ => True
  end.

Lemma intact_act sys a sys' :
  perform ctl sys a = Some sys' → foreign a → I (shared sys) → I (shared sys').
Proof.
  intros Ha Hf Hs. destruct a as [i env client msg|i env|client d|l]; cbn [perform foreign] in *.
  - destruct (jobs sys !! i); [done|]. injection Ha as <-. cbn [shared].
    destruct (admin_request msg); [done|]. destruct Hf. by apply intact_HandleMessage.
  - destruct (jobs sys !! i) as [j|]; [|done]. cbn [mbind option_bind] in Ha.
    pose proof (intact_job env j (shared sys) Hs) as Hj.
    destruct (job_step ctl env j (shared sys)) as [[s' j'] o]. by injection Ha as <-.
  - injection Ha as <-. cbn [shared]. unfold HandleDisconnect. case_decide; [done|].
    unfold modify, mbind, StE_bind. cbn [fst]. destruct Hs as (Hk & Hu & Hfr).
    split; [done|]. split; [done|]. intros Hz. destruct (Hfr Hz) as [Hact Hlog].
    split; [done|]. intros Hl. specialize (Hlog Hl). unfold authorized in *.
    cbn [set_tokens set_hub deviceTokens] in *. by rewrite lookup_delete_ne.
  - by injection Ha as <-.
Qed.
End Intact.
End Apart.

(** ** The connection of the upload *)

Section Turns.
Context `{Engine DB, Sha1, Bcrypt, JwtLib, Json} (ctl : ProtocolController).

(** The loop of the connection on descriptor [fd]: its device and the bytes it has
    not read; [None] when it has ended. *)
Record upload_system := {
  conn : option (list ascii * list ascii);
  around : system (DB := DB) }.

(** [on_frame] and [on_close], as actions on the shared state. *)
Definition own_turn (fd : Z) (i : nat) (env : call_env) (u : upload_system) : option upload_system :=
  match conn u with
  | None => None
  | Some (last, input) =>
      match protocol_recv_message fd input with
      | Some (m, unread) =>
          let '(last', l, m') := connection_frame fd m last (reg (shared (around u))) in
          sys ← run_actions ctl (around u)
            [ARegistry l; AFrame i env (Some fd) (convertProtocolMessage m')];
          Some {| conn := Some (last', unread); around := sys |}
      | None =>
          sys ← run_actions ctl (around u)
            (ARegistry (registry_remove_fd fd (reg (shared (around u)))) ::
             if decide (last = []) then [] else [ADisconnect (Some fd) (GoString last)]);
          Some {| conn := None; around := sys |}
      end
  end.

Inductive turn := TOwn (i : nat) (env : call_env) | TOther (a : action).

Definition take_turn (fd : Z) (u : upload_system) (t : turn) : option upload_system :=
  match t with
  | TOwn i env => own_turn fd i env u
  | TOther a => sys ← perform ctl (around u) a; Some {| conn := conn u; around := sys |}
  end.
Fixpoint run_turns (fd : Z) (u : upload_system) (l : list turn) : option upload_system :=
  match l with
  | [] => Some u
  | t :: l => u' ← take_turn fd u t; run_turns fd u' l
  end.
Definition is_own (t : turn) : Prop := match t with TOwn _ _ => True | TOther _ => False end.
#[export] Instance is_own_dec t : Decision (is_own t).
Proof. destruct t; apply _. Defined.
Definition own_turns (l : list turn) : nat := length (filter is_own l).
End Turns.

(** ** The upload goes on whatever the others do *)

Section Progress.
Context `{EngineLaws DB, Sha1, Bcrypt, JwtLib, Json} (ctl : ProtocolController) (fd : Z).
Context (sess : BackupSession) (dev : string) (session : Session) (data : list ascii).
Let sid := Session_ID sess.
Let tok := Session_Token sess.
Implicit Types s : ServerState DB.
Hypothesis Hbackup : Backup_ ctl ≠ None.
Hypothesis Hdir : Direction sess = DirectionUpload.
Hypothesis Hpaths : TempPath sess ≠ "" ∧ TempPath sess ≠ FinalPath sess.
Hypothesis Hnamed : sid ≠ "" ∧ tok ≠ "".
Hypothesis Hdev : dev ≠ "".
Hypothesis Hsession : S_SessionID session = sid ∧ S_Token session = tok.
Hypothesis Hdata : zlen data < 2 ^ 32.
Hypothesis Hsign : ∀ secret claims, SignedString secret claims ≠ Ok "".

(** Stored, and its temporary file gone. *)
Definition stored s : Prop :=
  files (backup s) !! FinalPath sess = Some data ∧ files (backup s) !! TempPath sess = None ∧
  ∃ a, sessions (backup s) !! sid = Some a ∧ Session_Status a = SessionCompleted.

(** What is left to send, under the name the connection has, and what is there. *)
Inductive progress : list outgoing → string → ServerState DB → Prop :=
  | at_login s : waiting sess s → progress (upload_messages dev session data) "" s
  | at_meta s : uploading sess dev [] s →
      progress (OFileMeta (S_FileName session) (u64 (S_FileSize session)) ::
        chunks_of session (S (length data)) 0 data ++ [OFileDone sid tok]) dev s
  | at_chunk prefix unsent fuel s : prefix ++ unsent = data → (length unsent < fuel)%nat →
      uploading sess dev prefix s →
      progress (chunks_of session fuel (Z.of_nat (length prefix)) unsent ++ [OFileDone sid tok]) dev s
  | at_end s : stored s → progress [] dev s.

(** The sessions are in order. *)
Definition neat s : Prop := intact sess dev False False
  {| v_active := None; v_session := None; v_temp := None; v_final := None |} s.
Definition same_upload s s' : Prop :=
  activeUpload s' !! sid = activeUpload s !! sid ∧
  sessions (backup s') !! sid = sessions (backup s) !! sid ∧
  files (backup s') !! TempPath sess = files (backup s) !! TempPath sess ∧
  files (backup s') !! FinalPath sess = files (backup s) !! FinalPath sess ∧
  (authorized s dev = true → authorized s' dev = true).

Lemma progress_same ms d s s' : progress ms d s → same_upload s s' → progress ms d s'.
Proof.
  intros Hp (Ha & Hs & Ht & Hf & Hau).
  assert (∀ p, uploading sess dev p s → uploading sess dev p s') as Hup.
  { intros p (H1' & H2' & H3' & H4'). unfold uploading. fold sid in H2', H3' |- *.
    rewrite Ha, Hs, Ht. auto. }
  destruct Hp as [s Hw|s Hu|prefix unsent fuel s He Hl Hu|s Hst].
  - apply at_login. unfold waiting in *. fold sid tok in Hw |- *. by rewrite Ha, Hs, Ht.
  - apply at_meta; auto.
  - apply at_chunk; auto.
  - apply at_end. unfold stored. by rewrite Hs, Ht, Hf.
Qed.

(** Any other action leaves the upload as it is. *)
Lemma foreign_same sys a sys' :
  perform ctl sys a = Some sys' → foreign ctl sess dev a → neat (shared sys) →
  neat (shared sys') ∧ same_upload (shared sys) (shared sys').
Proof.
  intros Ha Hf (Hk & Hu & _). set (s := shared sys) in *.
  set (v := {| v_active := activeUpload s !! sid; v_session := sessions (backup s) !! sid;
    v_temp := files (backup s) !! TempPath sess; v_final := files (backup s) !! FinalPath sess |}).
  assert (intact sess dev True (authorized s dev = true) v (shared sys')) as (Hk' & Hu' & Hf').
  { eapply intact_act; [exact Hsign|exact Ha|exact Hf|]. split; [|done].
    split; [apply Hk|done]. }
  destruct Hk' as [Ho Hv]. destruct (Hv I) as (Hx & Hy & Hz). destruct (Hf' I) as [Hact Hau].
  split; [|by split_and!]. split; [by split|]. by split.
Qed.

(** A frame of the upload keeps the other sessions in order. *)
Lemma own_neat env m d s :
  type_of m ≠ MSG_COMMAND → neat s → neat (deliver ctl env fd d m s).2.
Proof.
  intros Hm Hs. destruct m; try done; cbn [deliver snd];
    by apply (intact_HandleMessage ctl sess dev False False _ Hsign); [done|..].
Qed.

Lemma chunks_no_command fuel : ∀ off l,
  Forall (λ m, type_of m ≠ MSG_COMMAND) (chunks_of session fuel off l).
Proof.
  induction fuel as [|fuel IH]; intros off l; [constructor|]. cbn [chunks_of].
  destruct l; by constructor.
Qed.
Lemma progress_no_command ms d s : progress ms d s → Forall (λ m, type_of m ≠ MSG_COMMAND) ms.
Proof.
  assert (∀ fuel off l,
    Forall (λ m, type_of m ≠ MSG_COMMAND) (chunks_of session fuel off l ++ [OFileDone sid tok])) as Hc.
  { intros. apply Forall_app. split; [apply chunks_no_command|by repeat constructor]. }
  destruct Hsession as [Hid Ht].
  intros []; [|by constructor|apply Hc|constructor].
  unfold upload_messages. rewrite Hid, Ht. by do 2 (constructor; [done|]).
Qed.

(** A frame of the upload takes it one step on. *)
Lemma own_progress env m ms d s :
  files_work env sess → token_accepted ctl env dev tok = true → clean m → sendable m →
  progress (m :: ms) d s →
  progress ms (deliver ctl env fd d m s).1 (deliver ctl env fd d m s).2.
Proof.
  intros Hos Htok Hc Hm Hp. destruct Hsession as [Hid Ht], Hnamed as [Hs0 Ht0], Hpaths as [Hp0 Hpne].
  remember (m :: ms) as l eqn:Hl.
  destruct Hp as [s Hw|s Hu|prefix unsent fuel s He Hlen Hu|s Hst]; [| | |done].
  - pose proof (f_equal head Hl) as Hm'. pose proof (f_equal tail Hl) as Hms. unfold upload_messages in *.
    cbn [head tail] in Hm', Hms. injection Hm' as <-. subst ms. rewrite Hid, Ht.
    apply at_meta. by apply login_starts_upload.
  - pose proof (f_equal head Hl) as Hm'. pose proof (f_equal tail Hl) as Hms.
    cbn [head tail] in Hm', Hms. injection Hm' as <-. subst ms.
    by apply (at_chunk [] data (S (length data))); [|lia|].
  - destruct fuel as [|fuel]; [lia|]. destruct unsent as [|x unsent].
    + cbn [chunks_of app] in Hl. injection Hl as <- <-. cbn [deliver fst snd]. apply at_end.
      rewrite app_nil_r in He. subst prefix.
      by apply (done_arrives ctl sess dev Hbackup Hdir Hs0 Ht0).
    + destruct (chunks_of_next sess session fuel prefix x unsent Hid Ht) as [Hb Heq].
      { rewrite <- length_app, He. done. }
      fold sid tok in Heq. rewrite Heq in Hl. cbn [app] in Hl.
      pose proof (f_equal head Hl) as Hm'. pose proof (f_equal tail Hl) as Hms.
      cbn [head tail] in Hm', Hms. injection Hm' as <-. subst ms.
      destruct (next_chunk_arrives ctl sess dev Hbackup Hdir Hs0 Ht0 env fd prefix _ s Hos Hb Hc Hm Hu)
        as [Hd Hup].
      fold sid tok in Hd, Hup. rewrite Hd. pose proof (bufSize_pos session).
      apply at_chunk; [|rewrite length_drop; simpl in *; lia|done].
      by rewrite <- app_assoc, take_drop.
Qed.

Lemma progress_end d s : progress [] d s → stored s.
Proof.
  intros Hp. remember [] as ms eqn:Hms.
  destruct Hp as [| |prefix unsent fuel s ? ? ?|]; [done|done| |done]. by apply app_nil in Hms as [_ ?].
Qed.

(** *** The turns of its connection *)

Lemma connection_frame_type last m l : type (connection_frame fd m last l).2 = type m.
Proof. unfold connection_frame. by repeat case_decide. Qed.

Lemma own_frame i env c m ms d input u u' :
  fd ≠ INVALID_SOCKET → conn u = Some (to_bytes d, input) → nul_free d →
  send_seq c (m :: ms) = Ok input → clean m → sendable m → type_of m ≠ MSG_COMMAND →
  own_turn ctl fd i env u = Some u' →
  let '(d', s') := deliver ctl env fd d m (shared (around u)) in
  shared (around u') = s' ∧
  ∃ input', conn u' = Some (to_bytes d', input') ∧ send_seq c ms = Ok input'.
Proof.
  intros Hfd Hc Hd Hs [Hwf Hn] Hsd Hty Hu. cbn [send_seq] in Hs.
  destruct (Wire.send c m) as [f|] eqn:Ef; [|done]. cbn [mbind result_bind] in Hs.
  destruct (send_seq c ms) as [input'|] eqn:Er; [|done]. injection Hs as <-.
  unfold own_turn in Hu. rewrite Hc, (recv_raw c fd m f input' Ef Hn Hfd) in Hu.
  pose proof (on_frame_deliver ctl env fd d m (shared (around u)) Hwf Hsd Hn Hd) as Hon.
  unfold on_frame in Hon. pose proof (connection_frame_type (to_bytes d) (raw m) (reg (shared (around u)))) as Ht.
  destruct (connection_frame fd (raw m) (to_bytes d) (reg (shared (around u)))) as [[last' l] m'].
  cbn [snd] in Ht. rewrite raw_type in Ht. destruct (deliver ctl env fd d m _) as [d' s'].
  cbn [fst snd] in Hon. injection Hon as Hlast Hst.
  cbn [run_actions perform mbind option_bind jobs shared] in Hu.
  destruct (jobs (around u) !! i); [done|]. cbn [mbind option_bind] in Hu. injection Hu as <-.
  cbn [around shared conn]. unfold admin_request. rewrite decide_False.
  - split; [done|]. exists input'. by rewrite Hlast.
  - intros [Hx _]. apply Hty. rewrite <- Ht. exact Hx.
Qed.

(** The end of the connection. *)
Lemma own_close i env d u u' :
  conn u = Some (to_bytes d, []) → own_turn ctl fd i env u = Some u' →
  conn u' = None ∧ backup (shared (around u')) = backup (shared (around u)) ∧
  activeUpload (shared (around u')) = activeUpload (shared (around u)).
Proof.
  intros Hc Hu. unfold own_turn in Hu. rewrite Hc, recv_nothing in Hu.
  cbn [run_actions perform mbind option_bind] in Hu. case_decide.
  - cbn [run_actions mbind option_bind] in Hu. by injection Hu as <-.
  - cbn [run_actions perform mbind option_bind shared] in Hu. injection Hu as <-.
    cbn [conn around shared]. unfold HandleDisconnect. by case_decide.
Qed.

(** What the turns keep: [left] turns of the connection are to come. *)
Definition going (c : TCPClient) (left : nat) (u : upload_system) : Prop :=
  neat (shared (around u)) ∧
  match conn u with
  | Some (last, input) => ∃ ms d, last = to_bytes d ∧ nul_free d ∧ send_seq c ms = Ok input ∧
      Forall clean ms ∧ progress ms d (shared (around u)) ∧ left = S (length ms)
  | None => stored (shared (around u)) ∧ left = 0%nat
  end.

Definition own_env (env : call_env) : Prop :=
  files_work env sess ∧ token_accepted ctl env dev tok = true.
Definition allowed (t : turn) : Prop :=
  match t with TOwn _ env => own_env env | TOther a => foreign ctl sess dev a end.

Lemma take_turn_going c left t u u' :
  fd ≠ INVALID_SOCKET → going c left u → allowed t → take_turn ctl fd u t = Some u' →
  going c (left - if decide (is_own t) then 1 else 0) u'.
Proof.
  intros Hfd [Hneat Hcase] Ht Hu. destruct t as [i env|a]; cbn [take_turn allowed is_own] in *.
  - rewrite decide_True by done. destruct (conn u) as [[last input]|] eqn:Ec;
      [|unfold own_turn in Hu; by rewrite Ec in Hu].
    destruct Hcase as (ms & d & -> & Hd & Hs & Hcl & Hp & ->). destruct Ht as [Hos Htok].
    pose proof (send_seq_sendable c ms input Hs Hcl) as Hsd.
    pose proof (progress_no_command ms d _ Hp) as Hcmd.
    destruct ms as [|m ms].
    + injection Hs as <-. destruct (own_close i env d u u' Ec Hu) as (Hc & Hb & Ha).
      unfold going. rewrite Hc. split.
      * unfold neat, intact in *. rewrite Hb, Ha. destruct Hneat as (? & ? & _). by split.
      * split; [|done]. unfold stored. rewrite Hb. by apply progress_end in Hp.
    + apply Forall_cons in Hcl as [Hc1 Hcl], Hsd as [Hs1 Hsd], Hcmd as [Hty _].
      pose proof (own_frame i env c m ms d input u u' Hfd Ec Hd Hs Hc1 Hs1 Hty Hu) as Hown.
      pose proof (own_neat env m d (shared (around u)) Hty Hneat) as Hneat'.
      pose proof (own_progress env m ms d (shared (around u)) Hos Htok Hc1 Hs1 Hp) as Hp'.
      destruct (deliver ctl env fd d m (shared (around u))) as [d' s'] eqn:Ed.
      cbn [fst snd] in *. destruct Hown as (Hs' & input' & Hc' & Hseq).
      unfold going. rewrite Hc', Hs'. split; [done|]. exists ms, d'. split_and!; try done.
      destruct m; injection Ed as <- _; try done. by destruct Hc1 as [[] _].
  - rewrite decide_False by tauto. rewrite Nat.sub_0_r.
    destruct (perform ctl (around u) a) as [sys|] eqn:Ea; [|done]. injection Hu as <-.
    destruct (foreign_same _ a sys Ea Ht Hneat) as [Hn Hsame].
    split; [exact Hn|]. cbn [conn around]. destruct (conn u) as [[last input]|].
    + destruct Hcase as (ms & d & ? & ? & ? & ? & Hp & ?). exists ms, d.
      split_and!; try done. by eapply progress_same.
    + destruct Hcase as [Hst ->]. split; [|done].
      assert (progress [] dev (shared sys)) as Hp by (eapply progress_same; [by apply at_end|done]).
      by apply progress_end in Hp.
Qed.

Lemma run_turns_going c l : ∀ left u u',
  fd ≠ INVALID_SOCKET → going c left u → Forall allowed l → run_turns ctl fd u l = Some u' →
  going c (left - own_turns l) u'.
Proof.
  induction l as [|t l IH]; intros left u u' Hfd Hg Hl Hu.
  - injection Hu as <-. by rewrite Nat.sub_0_r.
  - cbn [run_turns] in Hu. destruct (take_turn ctl fd u t) as [u1|] eqn:Et; [|done].
    apply Forall_cons in Hl as [Ht Hl].
    pose proof (take_turn_going c left t u u1 Hfd Hg Ht Et) as Hg1.
    specialize (IH _ u1 u' Hfd Hg1 Hl Hu). unfold own_turns in *.
    destruct (decide (is_own t)) as [Ho|Ho].
    + rewrite filter_cons_True by done. cbn [length]. by rewrite <- Nat.sub_add_distr in IH.
    + rewrite filter_cons_False by done. by rewrite Nat.sub_0_r in IH.
Qed.
End Progress.

(** C1. Uploads do not disturb one another: when the agent's [UploadFile] of a file
    under 4 GiB succeeds, the server that reads its bytes stores exactly that
    file, completes the session and removes the temporary file, whatever else
    happens between its frames: frames of other connections, commands and their
    delivery, devices that come and go.  The connection ends after one turn for
    each frame and one more.  What the others must not do is write to the same
    session, open a session with its id or its paths, and disconnect under the
    name of its device. *)
Theorem uploads_undisturbed `{EngineLaws DB, Sha1, Bcrypt, JwtLib, Json, AgentJson} ctl envs fd sess
    dev env c read_fail session data n n' (sys : system (DB := DB)) :
  (∀ secret claims, SignedString secret claims ≠ Ok "") →
  upload_ready ctl envs sess dev (shared sys) →
  others_apart sess (backup (shared sys)) →
  (∀ k ctx, activeUpload (shared sys) !! k = Some ctx → ctx.1 = k) →
  fd ≠ INVALID_SOCKET →
  S_SessionID session = Session_ID sess → S_Token session = Session_Token sess →
  nul_free (S_FileName session) → nul_free dev → 0 < zlen (to_bytes dev) ≤ 255 →
  zlen data < 2 ^ 32 → (∀ i, takes env i = true) →
  dial env (S_TCPHost session) (S_TCPPort session) = Ok c → client_open c = true →
  UploadFile env read_fail dev session (Ok data) n = (n', Ok tt) →
  ∃ bytes, out n' = out n ++ bytes ∧ ∀ turns fin,
    Forall (λ t, match t with
                 | TOwn _ e => ∃ k, e = envs k
                 | TOther a => foreign ctl sess dev a
                 end) turns →
    run_turns ctl fd {| conn := Some ([], bytes); around := sys |} turns = Some fin →
    (conn fin = None ↔ (length (upload_messages dev session data) < own_turns turns)%nat) ∧
    (conn fin = None →
     let b := backup (shared (around fin)) in
     files b !! FinalPath sess = Some data ∧ files b !! TempPath sess = None ∧
     ∃ a, sessions b !! Session_ID sess = Some a ∧ Session_Status a = SessionCompleted).
Proof.
  intros Hsign Hr Hothers Hkeys Hfd Hid Htok Hname Hdev Hlen Hdata Htakes Hdial Hc Hu.
  assert (dev ≠ "") as Hd0 by (intros ->; by destruct Hlen).
  destruct (UploadFile_sends env Htakes read_fail c dev session data n n') as (bytes & Hseq & Hout);
    try done; [rewrite Htok; by eapply ready_sendable|rewrite Htok; apply (ready_named _ _ _ _ _ Hr)|].
  exists bytes. split; [done|]. intros turns fin Hturns Hrun.
  pose proof (upload_messages_clean _ _ _ _ _ data _ Hr Hid Htok Hname Hdev Hlen) as Hclean.
  assert (going sess dev session data c (S (length (upload_messages dev session data)))
    {| conn := Some ([], bytes); around := sys |}) as Hg.
  { split; [split; [by split|by split]|]. exists (upload_messages dev session data), "".
    split_and!; try done; [by_decide|]. apply at_login.
    split_and!; [apply (ready_active _ _ _ _ _ Hr)|apply (ready_session _ _ _ _ _ Hr)|
      apply (ready_temp _ _ _ _ _ Hr)]. }
  eapply run_turns_going in Hg as [_ Hfin]; [|apply (ready_backup _ _ _ _ _ Hr)|
    apply (ready_direction _ _ _ _ _ Hr)|apply (ready_paths _ _ _ _ _ Hr)|
    apply (ready_named _ _ _ _ _ Hr)|done|done|done|done|done| |exact Hrun].
  - destruct (conn fin) as [[last input]|]; [|by destruct Hfin as [Hst Hl]; split; [split; [lia|done]|]].
    destruct Hfin as (ms & d & _ & _ & _ & _ & _ & Hl). split; [|done]. split; [done|lia].
  - eapply Forall_impl; [exact Hturns|]. intros [i e|a]; [|done]. intros [k ->].
    split; [apply (ready_files _ _ _ _ _ Hr)|apply (ready_token _ _ _ _ _ Hr)].
Qed.

(** *** Two uploads at once *)

Definition other_upload : BackupSession := {|
  Session_ID := "up-2"; Session_Token := "key"; Session_DeviceID := "desk"; Session_FileID := "g";
  Session_LogicalPath := "/home/b.txt"; Session_FileName := "b.txt"; Session_FileSize := 2;
  Checksum := ""; Direction := DirectionUpload; Session_Status := SessionActive;
  TempPath := "/data/1_b.txt.part"; FinalPath := "/data/1_b.txt"; BytesDone := 0;
  Session_CreatedAt := 0; Session_UpdatedAt := 0 |}.
Definition two_uploads : ServerState Tables :=
  set_uploads {[ "up-1" := ("up-1", "tok"); "up-2" := ("up-2", "key") ]} (set_backup {|
    files := {[ "/data/1_a.txt.part" := []; "/data/1_b.txt.part" := [] ]};
    sessions := {[ "up-1" := sample_upload; "up-2" := other_upload ]};
    db := empty_tables |} (initial_server empty_tables)).

(** What the desk sends, on descriptor 12, between the frames of the laptop. *)
Definition desk (i : nat) (m : outgoing) : turn :=
  TOther (AFrame i sample_env (Some 12) (from_device "desk" m)).
Definition own (i : nat) : turn := TOwn i sample_env.
Definition two_at_once : list turn :=
  [desk 10 (OLogin "desk" "key"); own 0; own 1; own 2; desk 11 (OFileChunk "up-2" "key" 0 (to_bytes "xy"));
   own 3; TOther (ATurn 0 sample_env); desk 12 (OFileDone "up-2" "key"); own 4;
   TOther (ADisconnect (Some 12) "desk"); own 5; own 6].
Definition upload_bytes : list ascii :=
  out (UploadFile sample_net (λ _, None) "laptop" agent_upload (Ok (to_bytes "hello")) fresh).1.
Definition run_uploads (l : list turn) : option upload_system :=
  run_turns sample_ctl 9 {| conn := Some ([], upload_bytes); around := start two_uploads |} l.

Lemma two_uploads_ready : upload_ready sample_ctl (λ _, sample_env) sample_upload "laptop" two_uploads.
Proof.
  split; intros; try reflexivity; try discriminate; repeat split; try discriminate;
    unfold nul_free; try by_decide.
Qed.
Lemma two_uploads_apart : others_apart sample_upload (backup two_uploads).
Proof.
  intros id a Ha. cbn [two_uploads set_uploads set_backup backup sessions] in Ha.
  apply lookup_insert_Some in Ha as [[<- <-]|[_ Ha]]; [split; [done|by intros []]|].
  apply lookup_singleton_Some in Ha as [<- <-]. split; [done|]. intros _ _.
  unfold apart. by_decide.
Qed.
Lemma two_uploads_keyed k ctx : activeUpload two_uploads !! k = Some ctx → ctx.1 = k.
Proof.
  cbn [two_uploads set_uploads activeUpload]. intros Ha.
  apply lookup_insert_Some in Ha as [[<- <-]|[_ Ha]]; [done|].
  by apply lookup_singleton_Some in Ha as [<- <-].
Qed.

Lemma uploads_undisturbed_witness :
  ∃ fin, run_uploads two_at_once = Some fin ∧ conn fin = None ∧
    files (backup (shared (around fin))) !! "/data/1_a.txt" = Some (to_bytes "hello") ∧
    files (backup (shared (around fin))) !! "/data/1_b.txt" = Some (to_bytes "xy").
Proof.
  destruct (run_uploads two_at_once) as [fin|] eqn:Er;
    [|apply (f_equal (λ o, match o with Some _ => true | None => false end)) in Er; vm_compute in Er; discriminate].
  exists fin. split; [reflexivity|].
  assert (own_turns two_at_once = 7%nat ∧ files (backup (shared (around fin))) !! "/data/1_b.txt" =
    Some (to_bytes "xy")) as [Hown Hb].
  { split; [reflexivity|]. apply (f_equal (λ o, u ← o; files (backup (shared (around u))) !! "/data/1_b.txt")) in Er.
    vm_compute in Er. symmetry. exact Er. }
  destruct (UploadFile sample_net (λ _, None) "laptop" agent_upload (Ok (to_bytes "hello")) fresh)
    as [n' r] eqn:E.
  destruct r as [[]|e]; [|apply (f_equal (λ r, is_ok r.2)) in E; vm_compute in E; discriminate].
  destruct (uploads_undisturbed sample_ctl (λ _, sample_env) 9 sample_upload "laptop" sample_net
    (Some 3) (λ _, None) agent_upload (to_bytes "hello") fresh n' (start two_uploads)) as (bytes & Ho & Hall).
  - intros secret claims. cbn [SignedString sample_jwt]. case_decide; [|discriminate].
    intros Hx. injection Hx as Hx. discriminate Hx.
  - exact two_uploads_ready.
  - exact two_uploads_apart.
  - exact two_uploads_keyed.
  - discriminate.
  - reflexivity.
  - reflexivity.
  - unfold nul_free. by_decide.
  - unfold nul_free. by_decide.
  - vm_compute. split; [reflexivity|discriminate].
  - reflexivity.
  - reflexivity.
  - reflexivity.
  - reflexivity.
  - exact E.
  - destruct (Hall two_at_once fin) as [Hend Hst].
    + repeat constructor; try (exists 0%nat; reflexivity); try discriminate;
        try (intros [Hx|Hx]; discriminate Hx).
    + rewrite <- Er. unfold run_uploads, upload_bytes. rewrite E. cbn [fst]. rewrite Ho. reflexivity.
    + assert (conn fin = None) as Hn by (apply Hend; rewrite Hown; vm_compute; lia).
      split; [exact Hn|]. split; [apply (Hst Hn)|exact Hb].
Defined.

(** *** Two connections of one device *)

(** Without its token every frame of a file is dropped, and nobody is told. *)
Lemma file_frame_ignored `{Engine DB, Sha1, Bcrypt, JwtLib, Json} ctl env client msg
    (s : ServerState DB) :
  Type_ msg = MSG_FILE_CHUNK ∨ Type_ msg = MSG_FILE_DONE → authorized s (DeviceID msg) = false →
  HandleMessage ctl env client msg s = (s, Ok tt).
Proof.
  intros Hty Ha. unfold HandleMessage.
  destruct Hty as [Hty|Hty]; rewrite Hty; do 2 (rewrite decide_False by done);
    [rewrite decide_True by done|rewrite decide_False by done; rewrite decide_True by done];
    unfold handleFileChunk, handleFileDone, isAuthorized, gets, mbind, StE_bind; by rewrite Ha.
Qed.

(** The condition on disconnects is needed: when another connection of the device
    ends during an upload (that of a second upload, or the agent's own), the
    rest of the file is dropped, while the agent has sent everything and counts
    the file as backed up. *)
Definition one_device : list turn :=
  [own 0; own 1; own 2; TOther (ADisconnect (Some 12) "laptop"); own 3; own 4; own 5; own 6].
Lemma other_connection_ends_upload :
  (UploadFile sample_net (λ _, None) "laptop" agent_upload (Ok (to_bytes "hello")) fresh).2 = Ok tt ∧
  (u ← run_uploads one_device;
   Some (bool_decide (conn u = None), files (backup (shared (around u))) !! "/data/1_a.txt",
         files (backup (shared (around u))) !! "/data/1_a.txt.part")) =
    Some (true, None, Some (to_bytes "he")).
Proof. split; vm_compute; reflexivity. Qed.
