(* ===== verification/Monitor.v ===== *)
(** * Watching files

    The agent's table of monitored files (agent/internal/db/models.go) and the
    Linux monitor (agent/internal/monitor/file_monitor_linux.go).

    The local database is the table itself; a statement may fail
    ([sql_err], by the path it concerns), and generated keys, row order and the
    clock are the engine's choice.  fsnotify, the directory walk and the file
    system are the environment of a call.  Errors are logged and dropped, as in
    the source. *)

From S2P Require Export Repos.

Local Open Scope Z_scope.

(** ** The local table *)

Record MonitoredFile := {
  Monitored_ID : Z;
  Monitored_Path : string;
  ItemID : string;
  LastAction : string;
  Monitored_LastEventAt : Z;
  LastBackupAt : option Z;
  Monitored_ChangePending : bool;
  Monitored_CreatedAt : Z;
  Monitored_UpdatedAt : Z }.

#[export] Instance MonitoredFile_eq_dec : EqDecision MonitoredFile.
Proof. solve_decision. Defined.

Abbreviation LocalDB := (gmap Z MonitoredFile) (only parsing).

Record local_env := {
  engine : stmt_env;
  sql_err : string → option string }.

Definition at_path (path : string) (r : MonitoredFile) : bool :=
  bool_decide (Monitored_Path r = path).

(** [Where("path = ?", path).First(&mf)]. *)
Definition find_path (env : local_env) (path : string) (db : LocalDB) : option MonitoredFile :=
  head (select (engine env) (at_path path) db).

(** ** Events *)

Inductive ActionType :=
  ActionCreate | ActionModify | ActionDelete | ActionRename | ActionMove | ActionMoveOut.
#[export] Instance ActionType_eq_dec : EqDecision ActionType.
Proof. solve_decision. Defined.
Definition action_text (a : ActionType) : string :=
  match a with
  | ActionCreate => "create" | ActionModify => "modify" | ActionDelete => "delete"
  | ActionRename => "rename" | ActionMove => "move" | ActionMoveOut => "move_out"
  end.

Record FileEvent := {
  Action : ActionType;
  Event_Path : string;
  OldPath : string;
  Timestamp : Z }.

Definition eventQueueSize : nat := 128.

Definition shouldMarkPending (action : ActionType) : bool :=
  match action with ActionDelete | ActionMoveOut => false | _ => true end.

(** The three columns an event sets. *)
Definition set_event (action : string) (ts : Z) (pending : bool) (r : MonitoredFile) :
    MonitoredFile := {|
  Monitored_ID := Monitored_ID r; Monitored_Path := Monitored_Path r; ItemID := ItemID r;
  LastAction := action; Monitored_LastEventAt := ts; LastBackupAt := LastBackupAt r;
  Monitored_ChangePending := pending; Monitored_CreatedAt := Monitored_CreatedAt r;
  Monitored_UpdatedAt := Monitored_UpdatedAt r |}.

(** [INSERT ... ON CONFLICT(path) DO UPDATE SET last_action, last_event_at,
    change_pending]. *)
Definition upsert_event (env : local_env) (path action : string) (ts : Z) (pending : bool)
    (db : LocalDB) : LocalDB :=
  match sql_err env path with
  | Some _ => db
  | None =>
      match find_path env path db with
      | Some r => <[Monitored_ID r := set_event action ts pending r]> db
      | None =>
          let id := next_key (engine env) (map_to_list db).*1 in
          <[id := {| Monitored_ID := id; Monitored_Path := path; ItemID := "";
                     LastAction := action; Monitored_LastEventAt := ts; LastBackupAt := None;
                     Monitored_ChangePending := pending;
                     Monitored_CreatedAt := clock (engine env);
                     Monitored_UpdatedAt := clock (engine env) |}]> db
      end
  end.

(** Go's zero time, in nanoseconds of the Unix epoch. *)
Definition zero_time : Z := -62135596800 * 10 ^ 9.

Definition persistOldPath (env : local_env) (oldPath : string) (ts : Z) (db : LocalDB) : LocalDB :=
  upsert_event env oldPath (action_text ActionMoveOut) ts false db.

(** No database, no table. *)
Definition persistMonitoredFile (env : local_env) (evt : FileEvent) (db : option LocalDB) :
    option LocalDB :=
  if decide (Event_Path evt = "") then db else
  match db with
  | None => None
  | Some d =>
      let ts := if decide (Timestamp evt = zero_time) then clock (engine env) else Timestamp evt in
      let d1 := upsert_event env (Event_Path evt) (action_text (Action evt)) ts
        (shouldMarkPending (Action evt)) d in
      Some (if decide (OldPath evt ≠ "" ∧ OldPath evt ≠ Event_Path evt)
            then persistOldPath env (OldPath evt) ts d1 else d1)
  end.

(** ** The monitor *)

Record FileMonitor := {
  local_db : option LocalDB;
  watchedDir : gset string;
  out_events : list FileEvent }.

Definition set_watched (w : gset string) (m : FileMonitor) : FileMonitor :=
  {| local_db := local_db m; watchedDir := w; out_events := out_events m |}.

(** A full channel drops the event, the table keeps it. *)
Definition emitEvent (env : local_env) (evt : FileEvent) (m : FileMonitor) : FileMonitor := {|
  local_db := persistMonitoredFile env evt (local_db m);
  watchedDir := watchedDir m;
  out_events := if decide (length (out_events m) < eventQueueSize)%nat
                then out_events m ++ [evt] else out_events m |}.

(** *** Linux *)

(** What [filepath.WalkDir] shows of one entry. *)
Record walk_entry := { walk_path : string; walk_isdir : bool; walk_err : option string }.

Record linux_env := {
  local_ : local_env;
  event_time : Z;
  wd : string;
  stat_isdir : string → result bool;
  walk : string → list walk_entry;
  watcher_add : string → option string }.

Definition addWatch (env : linux_env) (dir : string) (w : gset string) : gset string * result unit :=
  if decide (dir ∈ w) then (w, Ok tt) else
  match watcher_add env dir with
  | Some e => (w, Err e)
  | None => ({[dir]} ∪ w, Ok tt)
  end.

Definition removeWatch (path : string) (w : gset string) : gset string := w ∖ {[path]}.

(** The walk stops at the first directory that cannot be added. *)
Fixpoint walk_entries (env : linux_env) (entries : list walk_entry) (w : gset string) :
    gset string * result unit :=
  match entries with
  | [] => (w, Ok tt)
  | e :: rest =>
      if walk_err e is Some _ then walk_entries env rest w else
      if negb (walk_isdir e) then walk_entries env rest w else
      match addWatch env (walk_path e) w with
      | (w', Ok _) => walk_entries env rest w'
      | (w', Err x) => (w', Err x)
      end
  end.
Definition watchRecursive (env : linux_env) (root : string) (w : gset string) :
    gset string * result unit := walk_entries env (walk env root) w.

(** One path of the configuration: [(seen, watched)]. *)
Definition watch_path (env : linux_env) (st : gset string * gset string) (raw : string) :
    gset string * gset string :=
  let abs := Abs (wd env) raw in
  match stat_isdir env abs with
  | Err _ => st
  | Ok isdir =>
      let dir := Clean (if isdir then abs else Dir abs) in
      if decide (dir ∈ st.1) then st else
      match watchRecursive env dir st.2 with
      | (w, Err _) => (st.1, w)
      | (w, Ok _) => ({[dir]} ∪ st.1, w)
      end
  end.

Definition NewFileMonitor (env : linux_env) (db : option LocalDB) (paths : list string) :
    result FileMonitor :=
  let w := (foldl (watch_path env) (∅, ∅) paths).2 in
  if decide (w = ∅) then Err "file monitor: no valid directories to watch"
  else Ok {| local_db := db; watchedDir := w; out_events := [] |}.

Definition isDir (env : linux_env) (path : string) : bool :=
  match stat_isdir env path with Ok b => b | Err _ => false end.

(** fsnotify's operation bits. *)
Definition op_has (op : Z) (bit : Z) : bool := Z.testbit op bit.
Definition fsnotify_Create : Z := 0.
Definition fsnotify_Write : Z := 1.
Definition fsnotify_Remove : Z := 2.
Definition fsnotify_Rename : Z := 3.

Definition handleEvent (env : linux_env) (evt_name : string) (op : Z) (m : FileMonitor) :
    FileMonitor :=
  let path := Clean evt_name in
  let event a old := {| Action := a; Event_Path := path; OldPath := old;
                        Timestamp := event_time env |} in
  let m := if op_has op fsnotify_Create then
             let m1 := emitEvent (local_ env) (event ActionCreate "") m in
             if isDir env path then set_watched (watchRecursive env path (watchedDir m1)).1 m1
             else m1
           else m in
  let m := if op_has op fsnotify_Write then emitEvent (local_ env) (event ActionModify "") m
           else m in
  let m := if op_has op fsnotify_Remove then
             let m1 := emitEvent (local_ env) (event ActionDelete "") m in
             set_watched (removeWatch path (watchedDir m1)) m1
           else m in
  if op_has op fsnotify_Rename then
    let m1 := emitEvent (local_ env) (event ActionMoveOut path) m in
    set_watched (removeWatch path (watchedDir m1)) m1
  else m.

(** What the monitor meets, in order: an event of the watcher, an error of the
    watcher, or its reader taking an event from the channel. *)
Inductive monitor_step :=
  | FsEvent (env : linux_env) (name : string) (op : Z)
  | FsError
  | Taken.
Definition processEvent (m : FileMonitor) (s : monitor_step) : FileMonitor :=
  match s with
  | FsEvent env name op => handleEvent env name op m
  | FsError => m
  | Taken => {| local_db := local_db m; watchedDir := watchedDir m;
                out_events := tail (out_events m) |}
  end.
Definition processEvents : FileMonitor → list monitor_step → FileMonitor := foldl processEvent.

(** ** The table stays well formed

    Rows sit under their primary key and paths are unique. *)

Definition wf_local (db : LocalDB) : Prop := keyed Monitored_ID db ∧ unique Monitored_Path db.
Definition has_row (db : LocalDB) (path : string) (r : MonitoredFile) : Prop :=
  db !! Monitored_ID r = Some r ∧ Monitored_Path r = path.

(** The statements of the call succeed and the engine keeps its laws. *)
Definition sql_works (env : local_env) : Prop :=
  Store.valid_env (engine env) ∧ ∀ p, sql_err env p = None.

Lemma has_row_unique db path r r' : wf_local db → has_row db path r → has_row db path r' → r = r'.
Proof.
  intros [_ Hu] [Hr Hp] [Hr' Hp']. pose proof (Hu _ _ _ _ Hr Hr' ltac:(congruence)) as He.
  rewrite He in Hr. congruence.
Qed.

Lemma find_path_some env path db r :
  Store.valid_env (engine env) → wf_local db → find_path env path db = Some r → has_row db path r.
Proof.
  intros Hev [Hk _] Hf. unfold find_path in Hf. apply head_Some_elem_of in Hf.
  apply elem_of_select in Hf as [Hp [k Hl]]; [|done]. apply bool_decide_eq_true_1 in Hp.
  split; [|done]. by rewrite (Hk _ _ Hl).
Qed.
Lemma find_path_none env path db r :
  Store.valid_env (engine env) → find_path env path db = None → ¬ has_row db path r.
Proof.
  intros Hev Hf [Hr Hp]. unfold find_path in Hf. apply head_None in Hf.
  pose proof (select_nil _ _ _ _ _ Hev Hf Hr) as Hn. unfold at_path in Hn.
  by rewrite bool_decide_eq_true_2 in Hn.
Qed.
Lemma find_path_row env path db r :
  Store.valid_env (engine env) → wf_local db → has_row db path r → find_path env path db = Some r.
Proof.
  intros Hev Hwf Hr. destruct (find_path env path db) as [r'|] eqn:E.
  - f_equal. eapply has_row_unique; [done| |done]. by eapply find_path_some.
  - by destruct (find_path_none _ _ _ r Hev E).
Qed.

(** What an event leaves of the row it finds. *)
Definition carries_over (r r' : MonitoredFile) : Prop :=
  Monitored_ID r' = Monitored_ID r ∧ ItemID r' = ItemID r ∧ LastBackupAt r' = LastBackupAt r.

Lemma has_row_insert db path (r : MonitoredFile) p q :
  wf_local db → Monitored_Path r = path →
  (∀ o, db !! Monitored_ID r = Some o → Monitored_Path o = path) → p ≠ path →
  has_row (<[Monitored_ID r := r]> db) p q ↔ has_row db p q.
Proof.
  intros Hwf Hp Hover Hne. unfold has_row. split; intros [Hq Hpq]; (split; [|done]).
  - apply lookup_insert_Some in Hq as [[He Hr]|[_ Hq]]; [congruence|done].
  - rewrite lookup_insert_ne; [done|]. intros He. rewrite <- He in Hq.
    specialize (Hover _ Hq). congruence.
Qed.

Lemma unique_insert_self {V} (col : V → string) (m : gmap Z V) k v :
  unique col m → (∃ old, m !! k = Some old ∧ col old = col v) → unique col (<[k := v]> m).
Proof.
  intros Hu (old & Hold & Hc) i j x y. rewrite !lookup_insert_Some.
  intros [[<- <-]|[Hi Hx]] [[<- <-]|[Hj Hy]] Hxy; try done.
  - apply (Hu k j old y); congruence.
  - apply (Hu i k x old); congruence.
  - by eapply Hu.
Qed.

Lemma upsert_event_spec env path action ts pending db :
  sql_works env → wf_local db →
  let db' := upsert_event env path action ts pending db in
  wf_local db' ∧
  (∃ r', has_row db' path r' ∧ LastAction r' = action ∧ Monitored_LastEventAt r' = ts ∧
    Monitored_ChangePending r' = pending ∧ ∀ r, has_row db path r → carries_over r r') ∧
  (∀ p r, p ≠ path → has_row db' p r ↔ has_row db p r).
Proof.
  intros [Hev Hsql] Hwf. cbv zeta. unfold upsert_event. rewrite Hsql.
  destruct (find_path env path db) as [r|] eqn:Ef.
  - pose proof (find_path_some _ _ _ _ Hev Hwf Ef) as [Hl Hp].
    set (r' := set_event action ts pending r).
    split; [|split].
    + destruct Hwf as [Hk Hu]. split; [by apply keyed_insert|]. apply unique_insert_self; [done|].
      by exists r.
    + exists r'. split; [split; [apply lookup_insert_eq|done]|]. split_and!; [done..|].
      intros q Hq. by rewrite (has_row_unique _ _ q r Hwf Hq (conj Hl Hp)).
    + intros p q Hne. apply (has_row_insert db path r'); [done..| |done].
      intros o Ho. change (Monitored_ID r') with (Monitored_ID r) in Ho. congruence.
  - set (id := next_key _ _). set (r' := Build_MonitoredFile _ _ _ _ _ _ _ _ _).
    assert (db !! id = None) as Hfree by by apply next_key_free.
    split; [|split].
    + destruct Hwf as [Hk Hu]. split; [by apply keyed_insert|].
      apply unique_insert; [done|]. intros j w Hj Hc. cbn in Hc.
      eapply (find_path_none _ _ _ w Hev Ef). split; [by rewrite (Hk _ _ Hj)|done].
    + exists r'. split; [split; [apply lookup_insert_eq|done]|]. split_and!; [done..|].
      intros q Hq. by destruct (find_path_none _ _ _ q Hev Ef).
    + intros p q Hne. apply (has_row_insert db path r'); [done..| |done].
      intros o Ho. change (Monitored_ID r') with id in Ho. congruence.
Qed.

(** ** The table follows the events *)

Definition recorded (r : MonitoredFile) (e : FileEvent) : Prop :=
  LastAction r = action_text (Action e) ∧ Monitored_LastEventAt r = Timestamp e ∧
  Monitored_ChangePending r = shouldMarkPending (Action e).
Definition last_event (path : string) (es : list FileEvent) : option FileEvent :=
  list.last (filter (λ e, Event_Path e = path) es).

(** [db'] is [db] after the events: the row of a path shows the last of its
    events and keeps its identity; paths without an event are untouched. *)
Definition tracks (db : LocalDB) (es : list FileEvent) (db' : LocalDB) : Prop :=
  wf_local db' ∧ ∀ path,
    match last_event path es with
    | Some e => ∃ r', has_row db' path r' ∧ recorded r' e ∧
                  ∀ r, has_row db path r → carries_over r r'
    | None => ∀ r, has_row db' path r ↔ has_row db path r
    end.

(** An event that concerns its path only. *)
Definition plain_event (e : FileEvent) : Prop :=
  Event_Path e ≠ "" ∧ (OldPath e = "" ∨ OldPath e = Event_Path e) ∧ Timestamp e ≠ zero_time.

Lemma carries_over_trans a b c : carries_over a b → carries_over b c → carries_over a c.
Proof. unfold carries_over. intros (-> & -> & ->) (-> & -> & ->). done. Qed.
Lemma carries_over_refl a : carries_over a a.
Proof. done. Qed.

Lemma last_event_snoc path es e :
  last_event path (es ++ [e]) = if decide (Event_Path e = path) then Some e else last_event path es.
Proof.
  unfold last_event. rewrite filter_app. destruct (decide (Event_Path e = path)).
  - by rewrite filter_cons_True, filter_nil, last_snoc.
  - by rewrite filter_cons_False, filter_nil, app_nil_r.
Qed.

Lemma tracks_nil db : wf_local db → tracks db [] db.
Proof. by split. Qed.

Lemma tracks_emit env db es d e :
  sql_works env → plain_event e → tracks db es d →
  ∃ d', persistMonitoredFile env e (Some d) = Some d' ∧ tracks db (es ++ [e]) d'.
Proof.
  intros Hsql (Hp & Hold & Hts) [Hwf Ht]. unfold persistMonitoredFile.
  rewrite decide_False by done. rewrite (decide_False (P := Timestamp e = zero_time)) by done.
  rewrite decide_False by (intros [? ?]; destruct Hold; congruence).
  eexists. split; [reflexivity|].
  destruct (upsert_event_spec env (Event_Path e) (action_text (Action e)) (Timestamp e)
    (shouldMarkPending (Action e)) d Hsql Hwf) as (Hwf' & (r' & Hr' & Ha & Hl & Hc & Hkeep) & Hother).
  split; [done|]. intros path. rewrite last_event_snoc. specialize (Ht path). case_decide as Hq.
  - subst path. exists r'. split; [done|]. split; [done|]. intros r Hr.
    destruct (last_event (Event_Path e) es) as [e0|].
    + destruct Ht as (r1 & Hr1 & _ & Hk). eapply carries_over_trans; [by apply Hk|by apply Hkeep].
    + apply Hkeep. by apply Ht.
  - destruct (last_event path es) as [e0|].
    + destruct Ht as (r1 & Hr1 & Hrec & Hk). exists r1. split; [by apply Hother|done].
    + intros r. rewrite (Hother path r) by done. apply Ht.
Qed.

Lemma clean_stack_nonempty rooted cs : ∀ acc,
  Forall (λ c, c ≠ "") acc → Forall (λ c, c ≠ "") (clean_stack rooted acc cs).
Proof.
  induction cs as [|c cs IH]; intros acc Ha; [done|]. cbn [clean_stack].
  destruct (decide (c = "" ∨ c = ".")) as [|Hc]; [by apply IH|].
  assert (c ≠ "") by tauto.
  repeat (case_decide || case_match); subst; apply IH; try (by constructor); by inversion Ha.
Qed.
Lemma Clean_nonempty s : Clean s ≠ "".
Proof.
  unfold Clean. destruct (IsAbs s); [done|].
  pose proof (clean_stack_nonempty false (Split s) [] ltac:(constructor)) as Hc.
  apply Forall_reverse in Hc. destruct (reverse _) as [|c [|d cs]]; [done| |].
  - rewrite Join_singleton. by apply Forall_cons in Hc as [Hc _].
  - rewrite Join_cons_cons. destruct c; [by apply Forall_cons in Hc as [Hc _]|done].
Qed.

Definition linux_works (env : linux_env) : Prop :=
  sql_works (local_ env) ∧ event_time env ≠ zero_time.

(** The events one watcher event gives, in the order they are emitted. *)
Definition fs_events (env : linux_env) (name : string) (op : Z) : list FileEvent :=
  let event a old := {| Action := a; Event_Path := Clean name; OldPath := old;
                        Timestamp := event_time env |} in
  (if op_has op fsnotify_Create then [event ActionCreate ""] else []) ++
  (if op_has op fsnotify_Write then [event ActionModify ""] else []) ++
  (if op_has op fsnotify_Remove then [event ActionDelete ""] else []) ++
  (if op_has op fsnotify_Rename then [event ActionMoveOut (Clean name)] else []).
Definition step_events (s : monitor_step) : list FileEvent :=
  match s with FsEvent env name op => fs_events env name op | _ => [] end.
Definition step_works (s : monitor_step) : Prop :=
  match s with FsEvent env _ _ => linux_works env | _ => True end.

Definition follows (db : LocalDB) (es : list FileEvent) (m : FileMonitor) : Prop :=
  (∃ d, local_db m = Some d ∧ tracks db es d) ∧ (length (out_events m) ≤ eventQueueSize)%nat.

Lemma follows_emit env db es m e :
  sql_works env → plain_event e → follows db es m → follows db (es ++ [e]) (emitEvent env e m).
Proof.
  intros Hsql He [(d & Hd & Ht) Hlen]. split.
  - cbn [emitEvent local_db]. rewrite Hd. by apply tracks_emit.
  - cbn [emitEvent out_events]. case_decide; [|done]. rewrite length_app. simpl. lia.
Qed.
Lemma follows_set_watched db es w m : follows db es m → follows db es (set_watched w m).
Proof. done. Qed.

Lemma handleEvent_follows env db es name op m :
  linux_works env → follows db es m →
  follows db (es ++ fs_events env name op) (handleEvent env name op m).
Proof.
  intros [Hsql Hts] Hm. unfold handleEvent, fs_events. cbv zeta.
  set (event := λ a old, Build_FileEvent a (Clean name) old (event_time env)).
  assert (∀ a old, old = "" ∨ old = Clean name → plain_event (event a old)) as Hev.
  { intros a old Ho. split; [apply Clean_nonempty|done]. }
  set (m1 := if op_has op fsnotify_Create then _ else m).
  assert (follows db (es ++ if op_has op fsnotify_Create then [event ActionCreate ""] else []) m1)
    as H1.
  { subst m1. destruct (op_has op fsnotify_Create); [|by rewrite app_nil_r].
    destruct (isDir env (Clean name)); try apply follows_set_watched; apply follows_emit; solve [assumption | apply Hev; auto]. }
  clearbody m1. set (m2 := if op_has op fsnotify_Write then _ else m1).
  assert (follows db ((es ++ if op_has op fsnotify_Create then [event ActionCreate ""] else []) ++
    if op_has op fsnotify_Write then [event ActionModify ""] else []) m2) as H2.
  { subst m2. destruct (op_has op fsnotify_Write); [|by rewrite app_nil_r].
    apply follows_emit; solve [assumption | apply Hev; auto]. }
  clearbody m2. set (m3 := if op_has op fsnotify_Remove then _ else m2).
  assert (follows db (((es ++ if op_has op fsnotify_Create then [event ActionCreate ""] else []) ++
    if op_has op fsnotify_Write then [event ActionModify ""] else []) ++
    if op_has op fsnotify_Remove then [event ActionDelete ""] else []) m3) as H3.
  { subst m3. destruct (op_has op fsnotify_Remove); [|by rewrite app_nil_r].
    apply follows_set_watched, follows_emit; solve [assumption | apply Hev; auto]. }
  clearbody m3. rewrite !app_assoc in *.
  destruct (op_has op fsnotify_Rename); [|by rewrite app_nil_r].
  apply follows_set_watched, follows_emit; solve [assumption | apply Hev; auto].
Qed.

Lemma processEvents_follows db steps : ∀ es m,
  Forall step_works steps → follows db es m →
  follows db (es ++ (steps ≫= step_events)) (processEvents m steps).
Proof.
  induction steps as [|s steps IH]; intros es m Hs Hm; [by rewrite app_nil_r|].
  apply Forall_cons in Hs as [Hs Hsteps]. cbn [mbind list_bind]. rewrite app_assoc.
  apply (IH (es ++ step_events s)); [done|]. destruct s as [env name op| |].
  - by apply handleEvent_follows.
  - cbn [step_events]. by rewrite app_nil_r.
  - cbn [step_events]. rewrite app_nil_r. destruct Hm as [Hd Hlen]. split; [done|].
    cbn [processEvent out_events]. destruct (out_events m); simpl in *; lia.
Qed.

(** C10. The local table never misses an event: whatever the watcher reports and
    however slowly its channel is read (a full channel drops the notification),
    the row of every path shows the last action on it with its time and whether
    it needs a report, keeps its key, item id and backup time, rows of other
    paths are untouched, and the table stays well formed.  The channel never
    holds more than 128 events. *)
Theorem monitor_tracks_events db steps m :
  local_db m = Some db → wf_local db → (length (out_events m) ≤ eventQueueSize)%nat →
  Forall step_works steps →
  ∃ db', local_db (processEvents m steps) = Some db' ∧
    tracks db (steps ≫= step_events) db' ∧
    (length (out_events (processEvents m steps)) ≤ eventQueueSize)%nat.
Proof.
  intros Hm Hwf Hlen Hs.
  destruct (processEvents_follows db steps [] m Hs) as [(d & Hd & Ht) Hl].
  - split; [|done]. exists db. split; [done|]. by apply tracks_nil.
  - by exists d.
Qed.

Definition plain_local : local_env := {| engine := plain_env; sql_err := λ _, None |}.
Definition sample_fs (now : Z) : linux_env := {|
  local_ := plain_local; event_time := now; wd := "/"; stat_isdir := λ p, Ok (bool_decide (p = "/home"));
  walk := λ p, [{| walk_path := p; walk_isdir := true; walk_err := None |}];
  watcher_add := λ _, None |}.
Definition idle_monitor : FileMonitor := {| local_db := Some ∅; watchedDir := ∅; out_events := [] |}.
(** A file is created, written and deleted. *)
Definition short_life : list monitor_step :=
  [FsEvent (sample_fs 1) "/home/a" 1; FsEvent (sample_fs 2) "/home/a" 2; Taken;
   FsEvent (sample_fs 3) "/home/a" 4].

Lemma empty_wf : wf_local ∅.
Proof. by split; [intros ? ?|intros ? ? ? ?]. Qed.

Lemma monitor_tracks_events_witness :
  ∃ db' r, local_db (processEvents idle_monitor short_life) = Some db' ∧
    has_row db' "/home/a" r ∧ LastAction r = "delete" ∧ Monitored_ChangePending r = false.
Proof.
  destruct (monitor_tracks_events ∅ short_life idle_monitor) as (db' & Hd & [_ Ht] & _).
  - reflexivity.
  - apply empty_wf.
  - vm_compute. lia.
  - repeat constructor; simpl; (apply plain_env_valid || discriminate).
  - specialize (Ht "/home/a"). exists db'.
    assert (last_event "/home/a" (short_life ≫= step_events) =
      Some {| Action := ActionDelete; Event_Path := "/home/a"; OldPath := ""; Timestamp := 3 |})
      as Hl by (vm_compute; reflexivity).
    rewrite Hl in Ht. destruct Ht as (r & Hr & (Ha & _ & Hp) & _).
    exists r. split; [exact Hd|]. split; [exact Hr|]. split; [exact Ha|exact Hp].
Defined.
