(* ===== verification/MonitorWindows.v ===== *)
(** * The Windows monitor

    agent/internal/monitor/file_monitor.go: the buffers of
    ReadDirectoryChangesW are parsed into records, renames arrive as two records
    that a queue pairs up, and the events go to the table and the channel
    ([emitEvent], the same code as on Linux; [MonitorRun] has the goroutines).

    The Windows rules of package filepath are a parameter ([Filepath]); the
    system calls are the environment. *)

From S2P Require Export Monitor Wire.

Local Open Scope Z_scope.

Class Filepath := {
  fp_Clean : string → string;
  fp_Join : string → string → string;
  fp_Dir : string → string }.

(** ** UTF-16 names *)

(** [binary.LittleEndian.Uint16] of each pair; an odd byte at the end is cut. *)
Fixpoint u16_units (b : list ascii) : list Z :=
  match b with
  | lo :: hi :: rest => le_val [lo; hi] :: u16_units rest
  | _ => []
  end.

(** [utf16.Decode]: surrogate pairs are combined, a lone surrogate becomes
    U+FFFD. *)
Definition replacement : Z := 0xFFFD.
Fixpoint utf16_decode (us : list Z) : list Z :=
  match us with
  | [] => []
  | u :: us' =>
      if decide (u < 0xD800 ∨ 0xE000 ≤ u) then u :: utf16_decode us' else
      match us' with
      | v :: us'' =>
          if decide (u < 0xDC00 ∧ 0xDC00 ≤ v < 0xE000)
          then (0x10000 + (u - 0xD800) * 0x400 + (v - 0xDC00)) :: utf16_decode us''
          else replacement :: utf16_decode us'
      | [] => [replacement]
      end
  end.

(** [string(runes)]: UTF-8. *)
Definition utf8_encode (r : Z) : list ascii :=
  byte_of <$>
  if decide (r < 0x80) then [r]
  else if decide (r < 0x800) then [0xC0 + r / 0x40; 0x80 + r mod 0x40]
  else if decide (r < 0x10000)
    then [0xE0 + r / 0x1000; 0x80 + r / 0x40 mod 0x40; 0x80 + r mod 0x40]
  else [0xF0 + r / 0x40000; 0x80 + r / 0x1000 mod 0x40; 0x80 + r / 0x40 mod 0x40;
        0x80 + r mod 0x40].
Definition string_of_runes (rs : list Z) : string := of_bytes (rs ≫= utf8_encode).

Definition decodeUTF16 (b : list ascii) : string := string_of_runes (utf16_decode (u16_units b)).

(** ** Records *)

Definition fileActionAdded : Z := 1.
Definition fileActionRemoved : Z := 2.
Definition fileActionModified : Z := 3.
Definition fileActionRenamedOld : Z := 4.
Definition fileActionRenamedNew : Z := 5.
Definition fileActionAddedStream : Z := 6.
Definition fileActionRemovedStream : Z := 7.
Definition fileActionModifiedStream : Z := 8.

Definition le32_at (data : list ascii) (off : nat) : Z := le_val (take 4 (drop off data)).

(** The records of a buffer from an offset on, with whether the loop ended in an
    out-of-range slice.  Every turn moves the offset forward, so
    [length data + 1] is fuel enough. *)
Fixpoint read_records (fuel : nat) (data : list ascii) (offset : nat) :
    list (Z * string) * bool :=
  match fuel with
  | O => ([], false)
  | S fuel =>
      if decide (length data < offset)%nat then ([], true) else
      if decide (length data - offset < 12)%nat then ([], false) else
      let next := le32_at data offset in
      let action := le32_at data (offset + 4) in
      let nameLen := Z.to_nat (le32_at data (offset + 8)) in
      let end_ := (offset + 12 + nameLen)%nat in
      if decide (length data < end_)%nat then ([], false) else
      let name := decodeUTF16 (take nameLen (drop (offset + 12) data)) in
      if decide (next = 0) then ([(action, name)], false) else
      let '(rs, panics) := read_records fuel data (offset + Z.to_nat next) in
      ((action, name) :: rs, panics)
  end.

(** ** Renames *)

Record pendingRename := { pending_path : string; pending_when : Z }.
Definition renamePairTTL : Z := 2 * 10 ^ 9.

Section Windows.
Context `{Filepath}.

(** The new queue and the events, in the order they are emitted. *)
Definition dispatchAction (action : Z) (fullPath : string) (ts : Z) (queue : list pendingRename) :
    list pendingRename * list FileEvent :=
  let event a old := {| Action := a; Event_Path := fullPath; OldPath := old; Timestamp := ts |} in
  if decide (action = fileActionAdded) then (queue, [event ActionCreate ""])
  else if decide (action = fileActionRemoved) then (queue, [event ActionDelete ""])
  else if decide (action ∈ [fileActionModified; fileActionAddedStream; fileActionRemovedStream;
                            fileActionModifiedStream]) then (queue, [event ActionModify ""])
  else if decide (action = fileActionRenamedOld) then
    (queue ++ [{| pending_path := fullPath; pending_when := ts |}], [])
  else if decide (action = fileActionRenamedNew) then
    match queue with
    | [] => (queue, [event ActionCreate ""])
    | old :: queue =>
        (queue, [event (if decide (fp_Dir (pending_path old) = fp_Dir fullPath)
                        then ActionRename else ActionMove) (pending_path old)])
    end
  else (queue, [event ActionModify ""]).

Fixpoint flushExpiredRenames (queue : list pendingRename) (now : Z) :
    list pendingRename * list FileEvent :=
  match queue with
  | [] => ([], [])
  | p :: rest =>
      if decide (renamePairTTL < now - pending_when p) then
        let '(q, evs) := flushExpiredRenames rest now in
        (q, {| Action := ActionMoveOut; Event_Path := pending_path p; OldPath := pending_path p;
               Timestamp := now |} :: evs)
      else (queue, [])
  end.

(** One record of a watched directory at a time. *)
Definition handle_record (target : string) (queue : list pendingRename) (ts : Z)
    (rec : Z * string) : list pendingRename * list FileEvent :=
  let fullPath := fp_Clean (fp_Join target rec.2) in
  let '(q1, evs1) := flushExpiredRenames queue ts in
  let '(q2, evs2) := dispatchAction rec.1 fullPath ts q1 in
  (q2, evs1 ++ evs2).

(** The records in order; [clock i] is the time at the [i]th. *)
Fixpoint handle_records (target : string) (clock : nat → Z) (i : nat)
    (queue : list pendingRename) (recs : list (Z * string)) :
    list pendingRename * list FileEvent :=
  match recs with
  | [] => (queue, [])
  | r :: recs =>
      let '(q1, evs1) := handle_record target queue (clock i) r in
      let '(q2, evs2) := handle_records target clock (S i) q1 recs in
      (q2, evs1 ++ evs2)
  end.

(** ** The loop over ReadDirectoryChangesW *)

Definition maxRetries : nat := 10.
Definition ERROR_INVALID_HANDLE : Z := 6.
Definition ERROR_INVALID_PARAMETER : Z := 87.
Definition ERROR_OPERATION_ABORTED : Z := 995.

(** A call's outcome: a failure ([None]: not an error number) or the data it
    read, with the clock of the records in it. *)
Inductive read_outcome :=
  | ReadFailed (errno : option Z)
  | ReadData (data : list ascii) (clock : nat → Z).

Definition isTerminalWatcherErr (errno : option Z) : bool :=
  match errno with
  | Some e => bool_decide (e ∈ [ERROR_OPERATION_ABORTED; ERROR_INVALID_HANDLE; 0xC0000005])
  | None => false
  end.

Inductive stream_status := Watching | Stopped | Panicked.
#[export] Instance stream_status_eq_dec : EqDecision stream_status.
Proof. solve_decision. Defined.

(** The events of the outcomes of successive calls, and how the loop stands
    after the last of them. *)
Fixpoint streamDirectory (target : string) (queue : list pendingRename) (retryCount : nat)
    (outcomes : list read_outcome) : list FileEvent * stream_status :=
  match outcomes with
  | [] => ([], Watching)
  | ReadFailed e :: rest =>
      if isTerminalWatcherErr e then ([], Stopped)
      else if decide (e = Some ERROR_INVALID_HANDLE ∨ e = Some ERROR_INVALID_PARAMETER)
      then ([], Stopped)
      else if decide (maxRetries ≤ S retryCount)%nat then ([], Stopped)
      else streamDirectory target queue (S retryCount) rest
  | ReadData data clock :: rest =>
      let '(recs, panics) := read_records (S (length data)) data 0 in
      let '(q, evs) := handle_records target clock 0 queue recs in
      if panics : bool then (evs, Panicked) else
      let '(evs', st) := streamDirectory target q 0 rest in (evs ++ evs', st)
  end.

(** *** Opening and closing *)

(** What the system answers for one configured path: its absolute form, whether it
    is a directory, and whether that directory can be inspected, opened, watched. *)
Record open_env := {
  win_abs : string → result string;
  win_stat : string → result bool;
  win_stat_dir : string → result unit;
  win_open : string → result unit;
  openDirectoryHandle : string → result Z }.
Definition InvalidHandle : Z := 2 ^ 64 - 1.

Record WindowsMonitor := { targets : list (string * Z); closed : bool }.

(** One turn of the loop over the paths; [seen] holds the directories of the
    targets so far. *)
Definition add_target (seen : list (string * Z)) (path : open_env * string) : list (string * Z) :=
  let '(env, raw) := path in
  default seen (
    abs ← to_option (win_abs env raw);
    isdir ← to_option (win_stat env abs);
    let dir := fp_Clean (if (isdir : bool) then abs else fp_Dir abs) in
    if decide (dir ∈ seen.*1) then None else
    to_option (win_stat_dir env dir);;
    to_option (win_open env dir);;
    handle ← to_option (openDirectoryHandle env dir);
    if decide (handle = 0 ∨ handle = InvalidHandle) then None
    else Some (seen ++ [(dir, handle)])).

Definition Windows_NewFileMonitor (paths : list (open_env * string)) : result WindowsMonitor :=
  match foldl add_target [] paths with
  | [] => Err "file monitor: no valid directories to watch"
  | ts => Ok {| targets := ts; closed := false |}
  end.

(** [Close], once: every handle is closed, the first error is returned. *)
Definition Windows_Close (close : Z → option string) (m : WindowsMonitor) :
    WindowsMonitor * list Z * option string :=
  if closed m then (m, [], None) else
  let hs := filter (λ h, h ≠ 0) (targets m).*2 in
  ({| targets := targets m; closed := true |}, hs, head (omap close hs)).

(** Everything a stream emits goes to the table and the channel. *)
Definition emit_all (envs : nat → local_env) (evs : list FileEvent) (m : FileMonitor) :
    FileMonitor :=
  (foldl (λ '(i, m) e, (S i, emitEvent (envs i) e m)) (0%nat, m) evs).2.
End Windows.

(** ** The watched directories *)

Section Targets.
Context `{Filepath}.

Definition targets_ok (ts : list (string * Z)) : Prop :=
  NoDup ts.*1 ∧ Forall (λ h, h ≠ 0 ∧ h ≠ InvalidHandle) ts.*2.

Lemma add_target_ok seen path : targets_ok seen → targets_ok (add_target seen path).
Proof.
  intros [Hnd Hh]. destruct path as [env raw]. unfold add_target.
  destruct (to_option (win_abs env raw)) as [abs|]; [|done].
  cbn [option_bind mbind]. destruct (to_option (win_stat env abs)) as [isdir|]; [|done].
  cbn [option_bind mbind]. case_decide as Hdir; [done|].
  destruct (to_option (win_stat_dir env _)); [|done]. cbn [option_bind mbind].
  destruct (to_option (win_open env _)); [|done]. cbn [option_bind mbind].
  destruct (to_option (openDirectoryHandle env _)) as [handle|]; [|done]. cbn [option_bind mbind].
  case_decide as Hok; [done|]. simpl. unfold targets_ok. rewrite !fmap_app. split.
  - apply NoDup_app. split_and!; [done| |apply NoDup_singleton].
    intros d Hd ->%list_elem_of_singleton. done.
  - apply Forall_app. split; [done|]. repeat constructor; tauto.
Qed.

(** No directory is watched twice and every watched handle is one the system gave. *)
Lemma Windows_NewFileMonitor_ok paths m :
  Windows_NewFileMonitor paths = Ok m → targets_ok (targets m) ∧ targets m ≠ [] ∧ closed m = false.
Proof.
  assert (targets_ok (foldl add_target [] paths)) as Hok.
  { assert (∀ ts, targets_ok ts → targets_ok (foldl add_target ts paths)) as Hf.
    { induction paths as [|p ps IH]; intros ts Hts; [done|]. by apply IH, add_target_ok. }
    apply Hf. split; [apply NoDup_nil_2|constructor]. }
  unfold Windows_NewFileMonitor. destruct (foldl add_target [] paths); [done|]. by intros [= <-].
Qed.

(** [Close] closes every handle of the monitor the first time and none after. *)
Lemma Windows_Close_once close paths m :
  Windows_NewFileMonitor paths = Ok m →
  let '(m1, hs, _) := Windows_Close close m in
  hs = (targets m).*2 ∧ Windows_Close close m1 = (m1, [], None).
Proof.
  intros ((_ & Hh) & _ & Hc)%Windows_NewFileMonitor_ok. unfold Windows_Close. rewrite Hc. split; [|done].
  induction Hh as [|h hs [Hne _] _ IH]; [done|]. by rewrite filter_cons_True, IH.
Qed.
End Targets.

(** ** Buffers are read back *)

(** A Unicode scalar value. *)
Definition scalar (r : Z) : Prop := 0 ≤ r < 0x110000 ∧ ¬ (0xD800 ≤ r < 0xE000).
Definition utf16_encode (r : Z) : list Z :=
  if decide (r < 0x10000) then [r]
  else [0xD800 + (r - 0x10000) / 0x400; 0xDC00 + (r - 0x10000) mod 0x400].
Definition name_bytes (name : list Z) : list ascii := (name ≫= utf16_encode) ≫= le_bytes 2.

(** One FILE_NOTIFY_INFORMATION with its padding. *)
Definition encode_record (last : bool) (rec : Z * list Z) (pad : list ascii) : list ascii :=
  let body := le_bytes 4 rec.1 ++ le_bytes 4 (Z.of_nat (length (name_bytes rec.2))) ++
              name_bytes rec.2 ++ pad in
  le_bytes 4 (if last then 0 else Z.of_nat (4 + length body)) ++ body.
Fixpoint encode_buffer (recs : list (Z * list Z * list ascii)) : list ascii :=
  match recs with
  | [] => []
  | [(r, pad)] => encode_record true r pad
  | (r, pad) :: recs => encode_record false r pad ++ encode_buffer recs
  end.

Lemma utf16_units_range name :
  Forall scalar name → Forall (λ u, 0 ≤ u < 2 ^ 16) (name ≫= utf16_encode).
Proof.
  induction 1 as [|r name [Hr Hs] _ IH]; [constructor|]. cbn [mbind list_bind].
  apply Forall_app. split; [|exact IH]. unfold utf16_encode. case_decide.
  - repeat constructor; lia.
  - pose proof (Z.mod_pos_bound (r - 0x10000) 0x400).
    assert (0 ≤ (r - 0x10000) / 0x400 < 0x400).
    { split; [apply Z.div_pos; lia|apply Z.div_lt_upper_bound; lia]. }
    repeat constructor; lia.
Qed.

Lemma u16_units_cons u k : 0 ≤ u < 2 ^ 16 → u16_units (le_bytes 2 u ++ k) = u :: u16_units k.
Proof.
  intros Hu. change (u16_units (le_bytes 2 u ++ k)) with (le_val (le_bytes 2 u) :: u16_units k).
  by rewrite (le_val_bytes 2).
Qed.
Lemma u16_units_le us :
  Forall (λ u, 0 ≤ u < 2 ^ 16) us → u16_units (us ≫= le_bytes 2) = us.
Proof.
  induction 1 as [|u us Hu _ IH]; [done|].
  change ((u :: us) ≫= le_bytes 2) with (le_bytes 2 u ++ (us ≫= le_bytes 2)).
  rewrite u16_units_cons by done. by rewrite IH.
Qed.

Lemma utf16_decode_encode name : Forall scalar name → utf16_decode (name ≫= utf16_encode) = name.
Proof.
  induction 1 as [|r name [Hr Hs] _ IH]; [done|].
  change ((r :: name) ≫= utf16_encode) with (utf16_encode r ++ (name ≫= utf16_encode)).
  unfold utf16_encode at 1. case_decide as Hb; cbn [app utf16_decode].
  - rewrite decide_True by lia. by rewrite IH.
  - pose proof (Z.mod_pos_bound (r - 0x10000) 0x400).
    pose proof (Z.div_mod (r - 0x10000) 0x400).
    assert (0 ≤ (r - 0x10000) / 0x400 < 0x400).
    { split; [apply Z.div_pos; lia|apply Z.div_lt_upper_bound; lia]. }
    rewrite decide_False by lia. rewrite decide_True by lia. rewrite IH. f_equal. lia.
Qed.

Lemma decodeUTF16_name name : Forall scalar name → decodeUTF16 (name_bytes name) = string_of_runes name.
Proof.
  intros Hn. unfold decodeUTF16, name_bytes.
  rewrite u16_units_le by by apply utf16_units_range. by rewrite utf16_decode_encode.
Qed.

Definition record_ok (rp : Z * list Z * list ascii) : Prop :=
  0 ≤ rp.1.1 < 2 ^ 32 ∧ Forall scalar rp.1.2.

Lemma le32_here v k : 0 ≤ v < 2 ^ 32 → le_val (take 4 (le_bytes 4 v ++ k)) = v.
Proof.
  intros Hv. replace 4%nat with (length (le_bytes 4 v)) at 1 by by rewrite le_bytes_length.
  rewrite take_app_length. by apply (le_val_bytes 4).
Qed.

(** A record at the front of what is left of the buffer. *)
Lemma read_records_cons last r pad rest fuel data off :
  record_ok (r, pad) → drop off data = encode_record last r pad ++ rest →
  (off ≤ length data)%nat → Z.of_nat (length data) < 2 ^ 32 →
  read_records (S fuel) data off =
    if last then ([(r.1, string_of_runes r.2)], false)
    else let '(rs, p) := read_records fuel data (off + length (encode_record last r pad)) in
         ((r.1, string_of_runes r.2) :: rs, p).
Proof.
  intros [Ha Hs] Hd Hoff Hlen. destruct r as [a name]. cbn [fst snd] in *.
  set (nb := name_bytes name).
  set (next := if last then 0
    else Z.of_nat (4 + length (le_bytes 4 a ++ le_bytes 4 (Z.of_nat (length nb)) ++ nb ++ pad))).
  assert (encode_record last (a, name) pad =
    le_bytes 4 next ++ le_bytes 4 a ++ le_bytes 4 (Z.of_nat (length nb)) ++ nb ++ pad) as He by done.
  assert (length (encode_record last (a, name) pad) = 12 + length nb + length pad)%nat as Hel.
  { rewrite He, !length_app, !le_bytes_length. lia. }
  assert (length data - off = 12 + length nb + length pad + length rest)%nat as Hdl.
  { rewrite <- length_drop, Hd, length_app, Hel. lia. }
  assert (0 ≤ next < 2 ^ 32) as Hnext.
  { subst next. destruct last; [lia|]. rewrite !length_app, !le_bytes_length. lia. }
  assert (∀ k, drop (off + k) data = drop k (encode_record last (a, name) pad ++ rest)) as Hdrop.
  { intros k. by rewrite <- Hd, drop_drop. }
  assert (le32_at data off = next) as H0.
  { unfold le32_at. rewrite Hd, He, <- !app_assoc. by apply le32_here. }
  assert (le32_at data (off + 4) = a) as H4.
  { unfold le32_at. rewrite Hdrop, He, <- !app_assoc.
    rewrite (drop_app_length' _ _ 4) by by rewrite le_bytes_length. by apply le32_here. }
  assert (le32_at data (off + 8) = Z.of_nat (length nb)) as H8.
  { unfold le32_at. rewrite Hdrop, He, <- !app_assoc.
    rewrite (app_assoc (le_bytes 4 next)).
    rewrite (drop_app_length' _ _ 8) by by rewrite length_app, !le_bytes_length.
    apply le32_here. lia. }
  assert (take (length nb) (drop (off + 12) data) = nb) as Hname.
  { rewrite Hdrop, He, <- !app_assoc.
    rewrite (app_assoc (le_bytes 4 next)), (app_assoc (_ ++ _)).
    rewrite (drop_app_length' _ _ 12) by by rewrite !length_app, !le_bytes_length.
    by rewrite take_app_length. }
  cbn [read_records]. rewrite decide_False by lia. rewrite decide_False by lia.
  rewrite H0, H4, H8, Nat2Z.id, decide_False by lia. rewrite Hname.
  unfold nb. rewrite decodeUTF16_name by done. fold nb.
  destruct last; [by rewrite decide_True|].
  rewrite decide_False by (subst next; lia).
  assert (Z.to_nat next = length (encode_record false (a, name) pad)) as ->; [|done].
  rewrite He, length_app, le_bytes_length. subst next. lia.
Qed.

Lemma read_records_encode recs : ∀ fuel data off,
  Forall record_ok recs → drop off data = encode_buffer recs → (off ≤ length data)%nat →
  Z.of_nat (length data) < 2 ^ 32 → (length recs < fuel)%nat →
  read_records fuel data off = ((λ rp, (rp.1.1, string_of_runes rp.1.2)) <$> recs, false).
Proof.
  induction recs as [|[r pad] recs IH]; intros fuel data off Hok Hd Hoff Hlen Hf;
    (destruct fuel as [|fuel]; [simpl in Hf; lia|]).
  - assert (length data - off = 0)%nat as Hz by (rewrite <- length_drop, Hd; done).
    cbn [read_records]. rewrite decide_False by lia. by rewrite decide_True by lia.
  - apply Forall_cons in Hok as [Hr Hok]. destruct recs as [|rp recs].
    + by rewrite (read_records_cons true r pad [] fuel data off Hr) by (rewrite ?app_nil_r; done).
    + change (encode_buffer ((r, pad) :: rp :: recs)) with
        (encode_record false r pad ++ encode_buffer (rp :: recs)) in Hd.
      rewrite (read_records_cons false r pad _ fuel data off Hr Hd) by done.
      rewrite (IH fuel data _ Hok); [done| | |done|simpl in *; lia].
      * rewrite <- drop_drop, Hd. apply drop_app_length.
      * apply (f_equal length) in Hd. rewrite length_drop, length_app in Hd. lia.
Qed.

Lemma encode_record_length last r pad : (12 ≤ length (encode_record last r pad))%nat.
Proof. unfold encode_record. rewrite !length_app, !le_bytes_length. lia. Qed.
Lemma encode_buffer_length recs : (12 * length recs ≤ length (encode_buffer recs))%nat.
Proof.
  induction recs as [|[r pad] recs IH]; [done|]. destruct recs as [|rp recs].
  - pose proof (encode_record_length true r pad). cbn [encode_buffer length]. lia.
  - change (encode_buffer ((r, pad) :: rp :: recs)) with
      (encode_record false r pad ++ encode_buffer (rp :: recs)).
    rewrite length_app. pose proof (encode_record_length false r pad). cbn [length] in *. lia.
Qed.

(** C37. Change buffers are read back: from a buffer of any number of records with
    any padding between them, as Windows fills it, the loop reads exactly those
    records in order, every name decoded from UTF-16 (surrogate pairs included)
    to UTF-8, and neither slices out of range nor runs on. *)
Theorem change_buffer_roundtrip recs :
  Forall record_ok recs → Z.of_nat (length (encode_buffer recs)) < 2 ^ 32 →
  read_records (S (length (encode_buffer recs))) (encode_buffer recs) 0 =
    ((λ rp, (rp.1.1, string_of_runes rp.1.2)) <$> recs, false).
Proof.
  intros Hok Hlen. apply read_records_encode; [done..| |done|].
  - lia.
  - pose proof (encode_buffer_length recs). lia.
Qed.

(** A name with a character beyond the basic plane, and a padded one. *)
Definition two_records : list (Z * list Z * list ascii) :=
  [((1, [0x61; 0x1F600]), [Ascii.zero; Ascii.zero]); ((3, [0x111]), [])].
Lemma change_buffer_roundtrip_witness :
  read_records 100 (encode_buffer two_records) 0 =
    ([(1, string_of_runes [0x61; 0x1F600]); (3, string_of_runes [0x111])], false) ∧
  read_records (S (length (encode_buffer two_records))) (encode_buffer two_records) 0 =
    ([(1, string_of_runes [0x61; 0x1F600]); (3, string_of_runes [0x111])], false).
Proof.
  split; [vm_compute; reflexivity|].
  apply (change_buffer_roundtrip two_records).
  - repeat constructor; simpl; unfold scalar; lia.
  - vm_compute. reflexivity.
Defined.

(** ** Renames are paired in order *)

Class FilepathLaws `{Filepath} : Prop :=
  (* package filepath: Clean never returns the empty string *)
  fp_Clean_nonempty s : fp_Clean s ≠ "".

Section Renames.
Context `{FilepathLaws} (target : string).

Definition full_path (name : string) : string := fp_Clean (fp_Join target name).

(** The records with the time each is handled at, and the old names they announce. *)
Definition stamped (clock : nat → Z) (i : nat) (recs : list (Z * string)) : list (Z * (Z * string)) :=
  imap (λ k r, (clock (i + k)%nat, r)) recs.
Definition announced (recs : list (Z * (Z * string))) : list pendingRename :=
  (λ r, {| pending_path := full_path r.2.2; pending_when := r.1 |}) <$>
  filter (λ r, r.2.1 = fileActionRenamedOld) recs.

(** The events that name an old path, and those that stand for a record. *)
Definition renames (evs : list FileEvent) : list FileEvent := filter (λ e, OldPath e ≠ "") evs.
Definition of_records (evs : list FileEvent) : list FileEvent :=
  filter (λ e, Action e ≠ ActionMoveOut) evs.

(** The event an old name comes out in: a move-out after the time limit, or a rename or
    a move within it, by the directories of the two names. *)
Definition came_out (p : pendingRename) (e : FileEvent) : Prop :=
  OldPath e = pending_path p ∧
  (Action e = ActionMoveOut ∧ Event_Path e = pending_path p ∧
     renamePairTTL < Timestamp e - pending_when p ∨
   Action e = (if decide (fp_Dir (pending_path p) = fp_Dir (Event_Path e))
               then ActionRename else ActionMove) ∧
     Timestamp e - pending_when p ≤ renamePairTTL).

(** The event of a record that is no old name. *)
Definition stands_for (r : Z * (Z * string)) (e : FileEvent) : Prop :=
  let action := r.2.1 in
  Event_Path e = full_path r.2.2 ∧ Timestamp e = r.1 ∧
  if decide (action = fileActionRenamedNew)
  then (if decide (OldPath e = "") then Action e = ActionCreate
        else Action e = ActionRename ∨ Action e = ActionMove)
  else OldPath e = "" ∧
    Action e = (if decide (action = fileActionAdded) then ActionCreate
                else if decide (action = fileActionRemoved) then ActionDelete else ActionModify).

Lemma stamped_cons clock i r recs :
  stamped clock i (r :: recs) = (clock i, r) :: stamped clock (S i) recs.
Proof.
  unfold stamped. rewrite imap_cons, Nat.add_0_r. f_equal. apply imap_ext. intros k x _.
  simpl. by rewrite Nat.add_succ_r.
Qed.
Lemma announced_app a b : announced (a ++ b) = announced a ++ announced b.
Proof. unfold announced. by rewrite filter_app, fmap_app. Qed.
Lemma renames_app a b : renames (a ++ b) = renames a ++ renames b.
Proof. apply filter_app. Qed.
Lemma of_records_app a b : of_records (a ++ b) = of_records a ++ of_records b.
Proof. apply filter_app. Qed.

Definition named (q : list pendingRename) : Prop := Forall (λ p, pending_path p ≠ "") q.
Definition fresh_head (now : Z) (q : list pendingRename) : Prop :=
  match q with [] => True | p :: _ => now - pending_when p ≤ renamePairTTL end.

Lemma flush_out queue now : named queue →
  let '(q, evs) := flushExpiredRenames queue now in
  named q ∧ fresh_head now q ∧ of_records evs = [] ∧
  ∃ out, queue = out ++ q ∧ Forall2 came_out out (renames evs).
Proof.
  induction 1 as [|p queue Hp Hq IH]; [repeat split; [constructor|by exists []]|].
  cbn [flushExpiredRenames]. case_decide as He.
  - destruct (flushExpiredRenames queue now) as [q evs].
    destruct IH as (Hn & Hf & Hr & out & -> & Hout). split; [done|]. split; [done|].
    unfold of_records, renames in *. rewrite filter_cons_False by (simpl; auto). split; [done|].
    rewrite filter_cons_True by done. exists (p :: out). split; [done|]. constructor; [|done].
    split; [done|]. by left.
  - split; [by constructor|]. split; [simpl; lia|]. split; [done|]. by exists [].
Qed.

Lemma dispatch_out action name ts queue : named queue → fresh_head ts queue →
  let r := (ts, (action, name)) in
  let '(q, evs) := dispatchAction action (full_path name) ts queue in
  named q ∧
  (∃ out, queue ++ announced [r] = out ++ q ∧ Forall2 came_out out (renames evs)) ∧
  Forall2 stands_for (if decide (action = fileActionRenamedOld) then [] else [r]) (of_records evs) ∧
  (action = fileActionRenamedNew → ∃ e, evs = [e] ∧ Event_Path e = full_path name ∧
     (OldPath e = "" → queue = [])).
Proof.
  intros Hq Hh r. set (event A old := {| Action := A; Event_Path := full_path name;
    OldPath := old; Timestamp := ts |}).
  assert (∀ A, A ≠ ActionMoveOut → action ≠ fileActionRenamedOld → stands_for r (event A "") →
    (action = fileActionRenamedNew → queue = []) →
    named queue ∧
    (∃ out, queue ++ announced [r] = out ++ queue ∧ Forall2 came_out out (renames [event A ""])) ∧
    Forall2 stands_for (if decide (action = fileActionRenamedOld) then [] else [r])
      (of_records [event A ""]) ∧
    (action = fileActionRenamedNew → ∃ e, [event A ""] = [e] ∧ Event_Path e = full_path name ∧
       (OldPath e = "" → queue = []))) as Hplain.
  { intros A HA Hold Hst Hnew. split; [done|]. unfold announced, renames, of_records.
    rewrite filter_cons_False by done. rewrite filter_cons_False by (simpl; auto).
    rewrite filter_cons_True, decide_False by done. split; [|split; [by constructor|eauto]].
    exists []. by rewrite app_nil_r. }
  unfold dispatchAction. cbv zeta. fold (event ActionCreate "").
  destruct (decide (action = fileActionAdded)) as [->|Ha].
  { apply (Hplain ActionCreate); done. }
  destruct (decide (action = fileActionRemoved)) as [->|Hr].
  { apply (Hplain ActionDelete); done. }
  destruct (decide (action ∈ _)) as [Hm|Hm].
  { assert (action ≠ fileActionRenamedOld ∧ action ≠ fileActionRenamedNew) as [Ho Hn].
    { split; intros ->; apply (bool_decide_pack _) in Hm; vm_compute in Hm; done. }
    apply (Hplain ActionModify); [done..| |done]. unfold stands_for. subst r. cbn [fst snd].
    by rewrite !decide_False. }
  destruct (decide (action = fileActionRenamedOld)) as [->|Ho].
  { split; [apply Forall_app; split; [done|]; repeat constructor; apply fp_Clean_nonempty|].
    split; [|split; [constructor|done]]. exists []. split; [|constructor]. unfold announced.
    by rewrite filter_cons_True. }
  destruct (decide (action = fileActionRenamedNew)) as [->|Hn].
  - destruct queue as [|old queue]; [by apply (Hplain ActionCreate)|].
    apply Forall_cons in Hq as [Hp Hq]. split; [done|]. cbn [fresh_head] in Hh.
    unfold announced, renames, of_records. rewrite filter_cons_False by done.
    rewrite filter_cons_True by done. rewrite filter_cons_True by (simpl; by case_decide).
    split; [exists [old]; rewrite app_nil_r; split; [done|]|split].
    + constructor; [|constructor]. split; [done|]. right. by split.
    + constructor; [|constructor]. split; [done|]. split; [done|]. cbn [fst snd r OldPath Action].
      rewrite decide_True, (decide_False (P := pending_path old = "")) by done.
      case_decide; auto.
    + intros _. eexists. split; [done|]. by split.
  - apply (Hplain ActionModify); [done..| |done]. unfold stands_for. subst r. cbn [fst snd].
    by rewrite !decide_False.
Qed.

Lemma handle_record_out ts r queue : named queue →
  let '(q, evs) := handle_record target queue ts r in
  named q ∧
  (∃ out, queue ++ announced [(ts, r)] = out ++ q ∧ Forall2 came_out out (renames evs)) ∧
  Forall2 stands_for (filter (λ x, x.2.1 ≠ fileActionRenamedOld) [(ts, r)]) (of_records evs).
Proof.
  intros Hq. unfold handle_record. fold (full_path r.2). cbv zeta.
  pose proof (flush_out queue ts Hq) as Hf.
  destruct (flushExpiredRenames queue ts) as [q1 evs1]. destruct Hf as (Hq1 & Hh & Hr1 & o1 & -> & Ho1).
  pose proof (dispatch_out r.1 r.2 ts q1 Hq1 Hh) as Hd. cbv zeta in Hd.
  destruct (dispatchAction r.1 (full_path r.2) ts q1) as [q2 evs2].
  destruct r as [action name]. cbn [fst snd] in Hd.
  destruct Hd as (Hq2 & (o2 & Ho2 & Hout) & Hs & _). split; [done|]. split.
  - exists (o1 ++ o2). rewrite <- !app_assoc, Ho2. split; [done|]. rewrite renames_app.
    by apply Forall2_app.
  - rewrite of_records_app, Hr1. revert Hs. case_decide as Hold.
    + by rewrite filter_cons_False by (simpl; auto).
    + by rewrite filter_cons_True.
Qed.

Lemma handle_records_out clock recs : ∀ i queue, named queue →
  let '(q, evs) := handle_records target clock i queue recs in
  named q ∧
  (∃ out, queue ++ announced (stamped clock i recs) = out ++ q ∧ Forall2 came_out out (renames evs)) ∧
  Forall2 stands_for (filter (λ x, x.2.1 ≠ fileActionRenamedOld) (stamped clock i recs)) (of_records evs).
Proof.
  induction recs as [|r recs IH]; intros i queue Hq.
  { split; [done|]. split; [|constructor]. exists []. by rewrite app_nil_r. }
  cbn [handle_records]. pose proof (handle_record_out (clock i) r queue Hq) as Hf.
  destruct (handle_record target queue (clock i) r) as [q1 evs1].
  destruct Hf as (Hq1 & (o1 & Ho1 & Hout1) & Hs1). pose proof (IH (S i) q1 Hq1) as Hr.
  destruct (handle_records target clock (S i) q1 recs) as [q2 evs2].
  destruct Hr as (Hq2 & (o2 & Ho2 & Hout2) & Hs2). split; [done|].
  rewrite stamped_cons. change ((clock i, r) :: stamped clock (S i) recs) with
    ([(clock i, r)] ++ stamped clock (S i) recs).
  rewrite announced_app, filter_app, renames_app, of_records_app. split; [|by apply Forall2_app].
  exists (o1 ++ o2). split; [|by apply Forall2_app]. by rewrite app_assoc, Ho1, <- !app_assoc, Ho2.
Qed.

Lemma handle_records_app clock r1 r2 : ∀ i queue,
  handle_records target clock i queue (r1 ++ r2) =
  let '(q1, e1) := handle_records target clock i queue r1 in
  let '(q2, e2) := handle_records target clock (i + length r1)%nat q1 r2 in (q2, e1 ++ e2).
Proof.
  induction r1 as [|r r1 IH]; intros i queue; cbn [app handle_records length].
  { rewrite Nat.add_0_r. by destruct (handle_records _ _ _ _ r2). }
  destruct (handle_record _ _ _ _) as [q1 e1]. rewrite IH, Nat.add_succ_comm.
  destruct (handle_records _ _ _ q1 r1) as [q2 e2].
  destruct (handle_records _ _ _ q2 r2) as [q3 e3]. by rewrite app_assoc.
Qed.

(** A new name takes the first old name that has not expired. *)
Lemma flush_events queue now : Forall (λ o, Action o = ActionMoveOut) (flushExpiredRenames queue now).2.
Proof.
  induction queue as [|p queue IH]; [constructor|]. cbn [flushExpiredRenames].
  case_decide; [|constructor]. destruct (flushExpiredRenames queue now). by constructor.
Qed.
Lemma flush_all queue now :
  (flushExpiredRenames queue now).1 = [] → Forall (λ p, renamePairTTL < now - pending_when p) queue.
Proof.
  induction queue as [|p queue IH]; [constructor|]. cbn [flushExpiredRenames].
  case_decide; [|done]. destruct (flushExpiredRenames queue now). by constructor; [|apply IH].
Qed.

Lemma handle_records_new clock r1 name r2 queue : named queue →
  let '(q1, evs1) := handle_records target clock 0 queue r1 in
  let '(_, evs) := handle_records target clock 0 queue (r1 ++ (fileActionRenamedNew, name) :: r2) in
  ∃ outs e evs2, evs = evs1 ++ outs ++ e :: evs2 ∧ Forall (λ o, Action o = ActionMoveOut) outs ∧
    Event_Path e = full_path name ∧
    (OldPath e = "" → Forall (λ p, renamePairTTL < clock (length r1) - pending_when p) q1).
Proof.
  intros Hq. rewrite handle_records_app. pose proof (handle_records_out clock r1 0 queue Hq) as Hr.
  destruct (handle_records target clock 0 queue r1) as [q1 e1]. destruct Hr as [Hq1 _].
  cbn [handle_records Nat.add]. unfold handle_record. cbn [fst snd]. fold (full_path name). cbv zeta.
  pose proof (flush_out q1 (clock (length r1)) Hq1) as Hf.
  pose proof (flush_events q1 (clock (length r1))) as Hev.
  pose proof (flush_all q1 (clock (length r1))) as Hall.
  destruct (flushExpiredRenames q1 (clock (length r1))) as [q2 e2]. destruct Hf as (Hq2 & Hh & _).
  pose proof (dispatch_out fileActionRenamedNew name _ q2 Hq2 Hh) as Hd. cbv zeta in Hd.
  destruct (dispatchAction _ _ _ q2) as [q3 e3]. destruct Hd as (_ & _ & _ & Hd).
  destruct (Hd eq_refl) as (e & -> & He & Hnil).
  destruct (handle_records target clock _ q3 r2) as [q4 e4]. cbn [fst snd] in *.
  exists e2, e, e4. split; [by rewrite <- app_assoc|]. split; [done|]. split; [done|].
  intros Ho. by apply Hall, Hnil.
Qed.

(** The queue is in order of arrival, nothing in it older than the time limit. *)
Definition young (now : Z) (q : list pendingRename) : Prop :=
  StronglySorted (λ a b, pending_when a ≤ pending_when b) q ∧
  Forall (λ p, now - renamePairTTL ≤ pending_when p ≤ now) q.
Definition in_order (now : Z) (q : list pendingRename) : Prop :=
  StronglySorted (λ a b, pending_when a ≤ pending_when b) q ∧
  Forall (λ p, pending_when p ≤ now) q.

Lemma flush_young queue now : in_order now queue → young now (flushExpiredRenames queue now).1.
Proof.
  intros [Hs Hn]. induction Hs as [|p queue Hs IH Hp]; [by repeat constructor|].
  apply Forall_cons in Hn as [Hpn Hn]. cbn [flushExpiredRenames]. case_decide.
  - specialize (IH Hn). by destruct (flushExpiredRenames queue now).
  - split; [by constructor|]. apply Forall_cons. split; [lia|].
    rewrite Forall_forall in *. intros x Hx. specialize (Hp x Hx). specialize (Hn x Hx). lia.
Qed.

Lemma dispatch_young action path ts queue :
  young ts queue → young ts (dispatchAction action path ts queue).1.
Proof.
  intros [Hs Hn]. unfold dispatchAction. cbv zeta. repeat case_decide; try done.
  - cbn [fst]. split.
    + induction Hs as [|p queue Hs IH Hp]; [by repeat constructor|].
      apply Forall_cons in Hn as [Hpn Hn]. constructor; [by apply IH|].
      apply Forall_app. split; [done|]. repeat constructor. simpl. lia.
    + apply Forall_app. split; [done|]. repeat constructor; simpl; unfold renamePairTTL; lia.
  - destruct queue as [|old queue]; [done|]. inversion Hs; subst. by apply Forall_cons in Hn as [_ Hn].
Qed.

Lemma handle_records_young clock recs : ∀ i queue,
  (∀ i j, (i ≤ j)%nat → clock i ≤ clock j) → in_order (clock i) queue → recs ≠ [] →
  young (clock (i + length recs - 1)%nat) (handle_records target clock i queue recs).1.
Proof.
  induction recs as [|[a name] recs IH]; intros i queue Hmono Hq Hne; [done|].
  cbn [handle_records]. unfold handle_record. cbn [fst snd].
  pose proof (flush_young queue (clock i) Hq) as Hf.
  destruct (flushExpiredRenames queue (clock i)) as [q1 evs1]. cbn [fst] in Hf.
  cbv zeta. fold (full_path name).
  pose proof (dispatch_young a (full_path name) (clock i) q1 Hf) as [Hs Hd].
  destruct (dispatchAction a (full_path name) (clock i) q1) as [q2 evs2]. cbn [fst] in *.
  destruct recs as [|r recs].
  - cbn [handle_records fst length]. replace (i + 1 - 1)%nat with i by lia. by split.
  - specialize (IH (S i) q2 Hmono).
    destruct (handle_records target clock (S i) q2 (r :: recs)) as [q3 evs3]. cbn [fst] in *.
    replace (i + length ((a, name) :: r :: recs) - 1)%nat with
      (S i + length (r :: recs) - 1)%nat by (simpl; lia).
    apply IH; [|done]. split; [done|]. eapply Forall_impl; [exact Hd|].
    intros p [_ Hp]. cbv beta. pose proof (Hmono i (S i)). lia.
Qed.
End Renames.

(** C26. No rename is lost, repeated or paired out of order.  The old names that wait
    or are announced come out in the order they came in, each exactly once, in an event
    that names it as the old path, or still wait: in a move-out of the name itself when
    it waited longer than two seconds, and otherwise in a rename or a move, by whether
    the directory stays the same.  The other events stand, one for each record that is
    no old name and in order, for its file with the action of the record; a new name
    is a create only if no old name was waiting that is at most two seconds old.  Just
    after a record has been handled nothing older than two seconds waits. *)
Theorem renames_paired_in_order `{FilepathLaws} target clock queue recs :
  named queue → (∀ i j, (i ≤ j)%nat → clock i ≤ clock j) → in_order (clock 0%nat) queue →
  recs ≠ [] →
  let '(q, evs) := handle_records target clock 0 queue recs in
  (∃ out, queue ++ announced target (stamped clock 0 recs) = out ++ q ∧
     Forall2 came_out out (renames evs)) ∧
  Forall2 (stands_for target) (filter (λ r, r.2.1 ≠ fileActionRenamedOld) (stamped clock 0 recs))
    (of_records evs) ∧
  (∀ r1 name r2, recs = r1 ++ (fileActionRenamedNew, name) :: r2 →
     let '(q1, evs1) := handle_records target clock 0 queue r1 in
     ∃ outs e evs2, evs = evs1 ++ outs ++ e :: evs2 ∧ Forall (λ o, Action o = ActionMoveOut) outs ∧
       Event_Path e = full_path target name ∧
       (OldPath e = "" →
        Forall (λ p, renamePairTTL < clock (length r1) - pending_when p) q1)) ∧
  young (clock (length recs - 1)%nat) q.
Proof.
  intros Hn Hmono Hq Hne. pose proof (handle_records_out target clock recs 0 queue Hn) as Hc.
  pose proof (handle_records_young target clock recs 0 queue Hmono Hq Hne) as Hy.
  pose proof (λ r1 name r2, handle_records_new target clock r1 name r2 queue) as Hnew.
  destruct (handle_records target clock 0 queue recs) as [q evs] eqn:E.
  destruct Hc as (_ & Hout & Hs). split; [exact Hout|]. split; [exact Hs|]. split; [|exact Hy].
  intros r1 name r2 ->. specialize (Hnew r1 name r2 Hn). rewrite E in Hnew. exact Hnew.
Qed.

(** The rules of this platform, to run the definitions. *)
#[export] Instance unix_filepath : Filepath :=
  {| fp_Clean := Clean; fp_Join := λ a b, PathJoin [a; b]; fp_Dir := Dir |}.
#[export] Instance unix_filepath_laws : FilepathLaws.
Proof. exact Clean_nonempty. Qed.

(** Two old names, one new name within the limit, then a change three seconds on. *)
Definition rename_burst : list (Z * string) := [(4, "a"); (4, "b"); (5, "c"); (3, "d")].
Definition burst_clock (i : nat) : Z := if decide (i < 3)%nat then 0 else 3 * 10 ^ 9.
Lemma renames_paired_in_order_witness :
  handle_records "/t" burst_clock 0 [] rename_burst =
    ([], [{| Action := ActionRename; Event_Path := "/t/c"; OldPath := "/t/a"; Timestamp := 0 |};
          {| Action := ActionMoveOut; Event_Path := "/t/b"; OldPath := "/t/b";
             Timestamp := 3 * 10 ^ 9 |};
          {| Action := ActionModify; Event_Path := "/t/d"; OldPath := "";
             Timestamp := 3 * 10 ^ 9 |}]) ∧
  ∃ out, announced "/t" (stamped burst_clock 0 rename_burst) = out ++ [] ∧
    Forall2 came_out out (renames (handle_records "/t" burst_clock 0 [] rename_burst).2).
Proof.
  assert (handle_records "/t" burst_clock 0 [] rename_burst =
    ([], [{| Action := ActionRename; Event_Path := "/t/c"; OldPath := "/t/a"; Timestamp := 0 |};
          {| Action := ActionMoveOut; Event_Path := "/t/b"; OldPath := "/t/b";
             Timestamp := 3 * 10 ^ 9 |};
          {| Action := ActionModify; Event_Path := "/t/d"; OldPath := "";
             Timestamp := 3 * 10 ^ 9 |}])) as Hr by (vm_compute; reflexivity).
  split; [exact Hr|].
  pose proof (renames_paired_in_order "/t" burst_clock [] rename_burst) as Hp.
  rewrite Hr in *. destruct Hp as [Hp _].
  - constructor.
  - intros i j Hij. unfold burst_clock. repeat case_decide; lia.
  - split; constructor.
  - discriminate.
  - exact Hp.
Defined.
