(* ===== verification/MonitorRun.v ===== *)
(** * A running monitor

    agent/internal/monitor/file_monitor.go: [MonitorFiles] starts one goroutine per
    watched directory, all of them sending on one channel and writing to one table;
    [Close] stops them and waits; a last goroutine closes the channel after them.

    An execution is any interleaving of the steps of the goroutines, of [Close], of
    the closing of the channel and of the reader taking events.  A goroutine emits an
    event in up to three steps, the two statements on the table and the send, and the
    others run between them.  The theorem shows that every directory is followed as
    [streamDirectory] says, whatever the others do, that each event is stored before
    it is sent, and that nothing is ever sent on the closed channel.  The last section
    is the same of file_monitor_linux.go, whose monitor is one goroutine. *)

From S2P Require Export MonitorWindows.

Local Open Scope Z_scope.

(** ** The table and the channel

    file_monitor.go repeats these functions of file_monitor_linux.go word for word. *)

Definition Windows_shouldMarkPending : ActionType → bool := shouldMarkPending.
Definition Windows_persistOldPath : local_env → string → Z → LocalDB → LocalDB := persistOldPath.
Definition Windows_persistMonitoredFile : local_env → FileEvent → option LocalDB → option LocalDB :=
  persistMonitoredFile.
Definition Windows_emitEvent (env : local_env) (evt : FileEvent) (m : FileMonitor) : FileMonitor := {|
  local_db := Windows_persistMonitoredFile env evt (local_db m);
  watchedDir := watchedDir m;
  out_events := if decide (length (out_events m) < eventQueueSize)%nat
                then out_events m ++ [evt] else out_events m |}.

(** *** The steps of [emitEvent]

    No lock is held over an event: the statement that stores it, the one that stores
    its old path, and the send. *)

Definition event_time (env : local_env) (evt : FileEvent) : Z :=
  if decide (Timestamp evt = zero_time) then clock (engine env) else Timestamp evt.
Definition save_event (env : local_env) (evt : FileEvent) (db : option LocalDB) : option LocalDB :=
  upsert_event env (Event_Path evt) (action_text (Action evt)) (event_time env evt)
    (Windows_shouldMarkPending (Action evt)) <$> db.
Definition save_old_path (env : local_env) (evt : FileEvent) (ts : Z) (db : option LocalDB) :
    option LocalDB := Windows_persistOldPath env (OldPath evt) ts <$> db.
Definition send_event (evt : FileEvent) (m : FileMonitor) : FileMonitor := {|
  local_db := local_db m; watchedDir := watchedDir m;
  out_events := if decide (length (out_events m) < eventQueueSize)%nat
                then out_events m ++ [evt] else out_events m |}.
Definition set_local_db (db : option LocalDB) (m : FileMonitor) : FileMonitor :=
  {| local_db := db; watchedDir := watchedDir m; out_events := out_events m |}.

Inductive part := PSave (e : FileEvent) | PSaveOld (e : FileEvent) | PSend (e : FileEvent).
Definition names_old (e : FileEvent) : bool := bool_decide (OldPath e ≠ "" ∧ OldPath e ≠ Event_Path e).
Definition old_parts (e : FileEvent) : list part := (if names_old e then [PSaveOld e] else []) ++ [PSend e].
Definition event_parts (e : FileEvent) : list part :=
  if decide (Event_Path e = "") then [PSend e] else PSave e :: old_parts e.

(** What was done: a part, in what state of the world, with the time of the event. *)
Inductive emit_act :=
  | Saved (env : local_env) (e : FileEvent)
  | SavedOld (env : local_env) (e : FileEvent) (ts : Z)
  | Sent (e : FileEvent).
Definition act_part (x : emit_act) : part :=
  match x with Saved _ e => PSave e | SavedOld _ e _ => PSaveOld e | Sent e => PSend e end.
Definition do_act (x : emit_act) (m : FileMonitor) : FileMonitor :=
  match x with
  | Saved env e => set_local_db (save_event env e (local_db m)) m
  | SavedOld env e ts => set_local_db (save_old_path env e ts (local_db m)) m
  | Sent e => send_event e m
  end.
Definition act_db (x : emit_act) (db : option LocalDB) : option LocalDB :=
  match x with
  | Saved env e => save_event env e db
  | SavedOld env e ts => save_old_path env e ts db
  | Sent _ => db
  end.

(** Where a goroutine is within the first of the events it has to emit; the time of
    the event is taken once. *)
Inductive stage := AtSave | AtSaveOld (ts : Z) | AtSend.
Definition first_stage (todo : list FileEvent) : stage :=
  match todo with e :: _ => if decide (Event_Path e = "") then AtSend else AtSave | [] => AtSave end.
Definition emit_one (env : local_env) (e : FileEvent) (st : stage) : emit_act * option stage :=
  match st with
  | AtSave =>
      (Saved env e, Some (if names_old e then AtSaveOld (event_time env e) else AtSend))
  | AtSaveOld ts => (SavedOld env e ts, Some AtSend)
  | AtSend => (Sent e, None)
  end.

(** ** Goroutines *)

Section Run.
Context `{Filepath}.

(** One return of ReadDirectoryChangesW: the queue and the retries afterwards, the
    events, and whether the loop goes on. *)
Definition stream_turn (target : string) (queue : list pendingRename) (retryCount : nat)
    (o : read_outcome) : list pendingRename * nat * list FileEvent * stream_status :=
  match o with
  | ReadFailed e =>
      if isTerminalWatcherErr e then (queue, retryCount, [], Stopped)
      else if decide (e = Some ERROR_INVALID_HANDLE ∨ e = Some ERROR_INVALID_PARAMETER)
      then (queue, retryCount, [], Stopped)
      else if decide (maxRetries ≤ S retryCount)%nat then (queue, S retryCount, [], Stopped)
      else (queue, S retryCount, [], Watching)
  | ReadData data clock =>
      let '(recs, panics) := read_records (S (length data)) data 0 in
      let '(q, evs) := handle_records target clock 0 queue recs in
      (q, 0%nat, evs, if panics : bool then Panicked else Watching)
  end.

(** A goroutine: before the [select] on [stop], in the system call, emitting the events
    of what it read, with what comes after them, or gone. *)
Inductive stream_pc :=
  | Looping | Reading
  | Emitting (todo : list FileEvent) (st : stage) (after : stream_status)
  | Gone.

Record stream := {
  s_target : string;
  s_handle : Z;
  s_queue : list pendingRename;
  s_retry : nat;
  s_pc : stream_pc }.
Definition set_pc (pc : stream_pc) (s : stream) : stream :=
  {| s_target := s_target s; s_handle := s_handle s; s_queue := s_queue s; s_retry := s_retry s; s_pc := pc |}.
Definition is_gone (s : stream) : bool := match s_pc s with Gone => true | _ => false end.

(** With events left it emits; otherwise it loops, or ends. *)
Definition emitting (todo : list FileEvent) (after : stream_status) : stream_pc :=
  match todo, after with
  | [], Watching => Looping
  | [], _ => Gone
  | _, _ => Emitting todo (first_stage todo) after
  end.
Definition panics_now (todo : list FileEvent) (after : stream_status) : bool :=
  match todo, after with [], Panicked => true | _, _ => false end.

Record running_monitor := {
  streams : list stream;
  stop : bool;               (* [f.stop] is closed *)
  out_closed : bool;
  crashed : bool;            (* a goroutine panicked: the process is gone *)
  shared : FileMonitor }.    (* the table and the channel *)

Definition MonitorFiles (m : WindowsMonitor) (db : option (gmap Z MonitoredFile)) : running_monitor := {|
  streams := (λ t, {| s_target := t.1; s_handle := t.2; s_queue := []; s_retry := 0; s_pc := Looping |})
             <$> targets m;
  stop := closed m; out_closed := false; crashed := false;
  shared := {| local_db := db; watchedDir := ∅; out_events := [] |} |}.

Inductive run_step :=
  | RCheck (i : nat)                                   (* the top of the loop *)
  | RRead (i : nat) (o : read_outcome)
  | REmit (i : nat) (env : local_env)                  (* one statement, or the send *)
  | RClose                                             (* [Close] up to its wait *)
  | RCloseOut                                          (* after [f.wg.Wait()] *)
  | RTake.                                             (* the reader *)

(** What a step does to the table or the channel, and which goroutine does it. *)
Definition acts (r : running_monitor) (a : run_step) : list (nat * emit_act) :=
  match a with
  | REmit i env =>
      match s_pc <$> streams r !! i with
      | Some (Emitting (e :: _) st _) => [(i, (emit_one env e st).1)]
      | _ => []
      end
  | _ => []
  end.
Definition is_send (x : emit_act) : bool := match x with Sent _ => true | _ => false end.

Definition with_streams (l : list stream) (r : running_monitor) : running_monitor :=
  {| streams := l; stop := stop r; out_closed := out_closed r; crashed := crashed r; shared := shared r |}.
Definition bad_handle (h : Z) : bool := bool_decide (h = 0 ∨ h = InvalidHandle).

(** [None]: the step cannot happen now.  Sending on a closed channel panics. *)
Definition run_one (r : running_monitor) (a : run_step) : option running_monitor :=
  if crashed r then None else
  match a with
  | RCheck i =>
      s ← streams r !! i;
      match s_pc s with
      | Looping =>
          let pc := if stop r || bad_handle (s_handle s) then Gone else Reading in
          Some (with_streams (<[i := set_pc pc s]> (streams r)) r)
      | _ => None
      end
  | RRead i o =>
      s ← streams r !! i;
      match s_pc s with
      | Reading =>
          let '(q, n, evs, st) := stream_turn (s_target s) (s_queue s) (s_retry s) o in
          let s' := {| s_target := s_target s; s_handle := s_handle s; s_queue := q; s_retry := n;
                       s_pc := emitting evs st |} in
          Some {| streams := <[i := s']> (streams r); stop := stop r; out_closed := out_closed r;
                  crashed := panics_now evs st; shared := shared r |}
      | _ => None
      end
  | REmit i env =>
      s ← streams r !! i;
      match s_pc s with
      | Emitting (e :: todo) st after =>
          let '(x, st') := emit_one env e st in
          let '(pc, panics) := match st' with
            | Some st' => (Emitting (e :: todo) st' after, false)
            | None => (emitting todo after, panics_now todo after)
            end in
          Some {| streams := <[i := set_pc pc s]> (streams r); stop := stop r; out_closed := out_closed r;
                  crashed := panics || (out_closed r && is_send x); shared := do_act x (shared r) |}
      | _ => None
      end
  | RClose => Some {| streams := streams r; stop := true; out_closed := out_closed r;
                      crashed := crashed r; shared := shared r |}
  | RCloseOut =>
      if negb (out_closed r) && forallb is_gone (streams r)
      then Some {| streams := streams r; stop := stop r; out_closed := true;
                   crashed := crashed r; shared := shared r |}
      else None
  | RTake => Some {| streams := streams r; stop := stop r; out_closed := out_closed r; crashed := crashed r;
                     shared := {| local_db := local_db (shared r); watchedDir := watchedDir (shared r);
                                  out_events := tail (out_events (shared r)) |} |}
  end.

(** An execution and everything done to the table and the channel in it. *)
Inductive monitor_runs (r0 : running_monitor) :
    list run_step → list (nat * emit_act) → running_monitor → Prop :=
  | runs_here : monitor_runs r0 [] [] r0
  | runs_on steps log r a r' :
      monitor_runs r0 steps log r → run_one r a = Some r' →
      monitor_runs r0 (steps ++ [a]) (log ++ acts r a) r'.

(** [Close] returns when the goroutines are gone. *)
Definition close_returned (r : running_monitor) : bool := stop r && forallb is_gone (streams r).

Definition outcome_for (i : nat) (a : run_step) : option read_outcome :=
  match a with RRead j o => if decide (j = i) then Some o else None | _ => None end.
End Run.

(** ** Properties *)

(** Undisturbed, the steps of an event are [emitEvent]. *)
Lemma emission_alone env e m :
  foldl (λ m x, do_act x m) m
    (match first_stage [e] with
     | AtSend => [Sent e]
     | _ => Saved env e ::
         (if names_old e then [SavedOld env e (event_time env e)] else []) ++ [Sent e]
     end) = Windows_emitEvent env e m.
Proof.
  unfold Windows_emitEvent, Windows_persistMonitoredFile, persistMonitoredFile, first_stage, names_old.
  destruct (decide (Event_Path e = "")) as [Hp|Hp]; [done|].
  destruct m as [[d|] w o]; simpl; [|by destruct (bool_decide _)].
  destruct (decide (OldPath e ≠ "" ∧ OldPath e ≠ Event_Path e)) as [Ho|Ho].
  - by rewrite bool_decide_eq_true_2.
  - by rewrite bool_decide_eq_false_2.
Qed.

Section Facts.
Context `{Filepath}.

(** The loop of one directory with the state it leaves. *)
Fixpoint follow (target : string) (q : list pendingRename) (n : nat) (os : list read_outcome) :
    list pendingRename * nat * list FileEvent * stream_status :=
  match os with
  | [] => (q, n, [], Watching)
  | o :: os =>
      let '(q1, n1, evs, st) := stream_turn target q n o in
      match st with
      | Watching => let '(q2, n2, evs', st') := follow target q1 n1 os in (q2, n2, evs ++ evs', st')
      | _ => (q1, n1, evs, st)
      end
  end.

Lemma follow_streamDirectory target os : ∀ q n,
  streamDirectory target q n os =
    let '(_, _, evs, st) := follow target q n os in (evs, st).
Proof.
  induction os as [|o os IH]; intros q n; [done|]. cbn [follow streamDirectory].
  destruct o as [e|data clock]; cbn [stream_turn].
  - destruct (isTerminalWatcherErr e); [done|]. case_decide; [done|]. case_decide; [done|].
    rewrite IH. by destruct (follow target q (S n) os) as [[[q2 n2] evs] st].
  - destruct (read_records _ data 0) as [recs panics].
    destruct (handle_records target clock 0 q recs) as [q1 evs]. destruct panics; [done|].
    rewrite IH. by destruct (follow target q1 0 os) as [[[q2 n2] evs'] st].
Qed.

Lemma follow_snoc target os o : ∀ q n q1 n1 evs,
  follow target q n os = (q1, n1, evs, Watching) →
  follow target q n (os ++ [o]) =
    let '(q2, n2, evs', st) := stream_turn target q1 n1 o in (q2, n2, evs ++ evs', st).
Proof.
  induction os as [|o' os IH]; intros q n q1 n1 evs; cbn [follow app].
  - intros [= -> -> <-]. destruct (stream_turn target q1 n1 o) as [[[q2 n2] evs'] st].
    destruct st; [by rewrite app_nil_r|done..].
  - destruct (stream_turn target q n o') as [[[q' n'] evs0] st0]. destruct st0; [|done..].
    destruct (follow target q' n' os) as [[[q2 n2] evs1] st] eqn:E. intros [= -> -> <- ->].
    rewrite (IH _ _ _ _ _ E). destruct (stream_turn target q1 n1 o) as [[[q3 n3] evs2] st2].
    by rewrite app_assoc.
Qed.

(** What directory [i] has done, what it has sent, and what it still has to do. *)
Definition parts_by (i : nat) (log : list (nat * emit_act)) : list part :=
  (λ x, act_part x.2) <$> filter (λ x, x.1 = i) log.
Definition part_sent (p : part) : option FileEvent := match p with PSend e => Some e | _ => None end.
Definition sent_by (i : nat) (log : list (nat * emit_act)) : list FileEvent := omap part_sent (parts_by i log).
Definition todo_parts (pc : stream_pc) : list part :=
  match pc with
  | Emitting (e :: todo) st _ =>
      match st with AtSave => PSave e :: old_parts e | AtSaveOld _ => [PSaveOld e; PSend e]
      | AtSend => [PSend e] end ++ concat (event_parts <$> todo)
  | _ => []
  end.
Definition outcomes_of (i : nat) (steps : list run_step) : list read_outcome :=
  omap (outcome_for i) steps.
Definition is_emitting (pc : stream_pc) : bool := match pc with Emitting _ _ _ => true | _ => false end.

Lemma parts_by_app i l l' : parts_by i (l ++ l') = parts_by i l ++ parts_by i l'.
Proof. unfold parts_by. by rewrite filter_app, fmap_app. Qed.
Lemma parts_by_one i j x : parts_by i [(j, x)] = if decide (j = i) then [act_part x] else [].
Proof.
  unfold parts_by. case_decide; [by rewrite filter_cons_True|by rewrite filter_cons_False].
Qed.
Lemma sent_concat evs : omap part_sent (concat (event_parts <$> evs)) = evs.
Proof.
  induction evs as [|e evs IH]; [done|]. cbn [fmap list_fmap concat]. rewrite omap_app, IH.
  unfold event_parts, old_parts. by case_decide; [|destruct (names_old e)].
Qed.
Lemma todo_emitting todo after : todo_parts (emitting todo after) = concat (event_parts <$> todo).
Proof.
  destruct todo as [|e todo]; [by destruct after|]. cbn [emitting first_stage todo_parts fmap list_fmap concat].
  unfold event_parts. by case_decide.
Qed.

(** How the loop stands after what a goroutine has read. *)
Definition stands (pc : stream_pc) (st : stream_status) : Prop :=
  match pc with Looping | Reading => st = Watching | Emitting _ _ after => st = after | Gone => True end.
Lemma stands_emitting todo after : stands (emitting todo after) after.
Proof. by destruct todo, after. Qed.

(** The time of an old path is that of its event. *)
Definition right_time (x : emit_act) : Prop :=
  match x with SavedOld _ e ts => Timestamp e ≠ zero_time → ts = Timestamp e | _ => True end.
Definition staged (pc : stream_pc) : Prop :=
  match pc with
  | Emitting (e :: _) (AtSaveOld ts) _ => names_old e = true ∧ (Timestamp e ≠ zero_time → ts = Timestamp e)
  | Emitting [] _ _ => False
  | _ => True
  end.
Lemma staged_emitting todo after : staged (emitting todo after).
Proof. destruct todo as [|e todo]; [by destruct after|]. simpl. by case_decide. Qed.

Record run_inv (ts : list (string * Z)) (db : option (gmap Z MonitoredFile)) (steps : list run_step)
    (log : list (nat * emit_act)) (r : running_monitor) : Prop := {
  ri_length : length (streams r) = length ts;
  ri_stream i s : streams r !! i = Some s →
    fst <$> ts !! i = Some (s_target s) ∧ staged (s_pc s) ∧
    ∃ evs st, follow (s_target s) [] 0 (outcomes_of i steps) = (s_queue s, s_retry s, evs, st) ∧
      parts_by i log ++ todo_parts (s_pc s) = concat (event_parts <$> evs) ∧ stands (s_pc s) st;
  ri_closed : out_closed r = true → ∀ i s, streams r !! i = Some s → s_pc s = Gone;
  ri_crashed : crashed r = true → ∃ i s, streams r !! i = Some s ∧
    (streamDirectory (s_target s) [] 0 (outcomes_of i steps)).2 = Panicked;
  ri_times : Forall (λ x, right_time x.2) log;
  ri_db : local_db (shared r) = foldl (λ d x, act_db x.2 d) db log }.

Lemma outcomes_of_snoc i steps a :
  outcomes_of i (steps ++ [a]) = outcomes_of i steps ++ option_list (outcome_for i a).
Proof. unfold outcomes_of. by rewrite omap_app. Qed.

Lemma run_inv_start m db : run_inv (targets m) db [] [] (MonitorFiles m db).
Proof.
  split; cbn [MonitorFiles streams out_closed crashed shared local_db foldl];
    [apply length_fmap| |done|done|done|done].
  intros i s. rewrite list_lookup_fmap. destruct (targets m !! i) as [[t h]|]; [|done].
  intros [= <-]. split; [done|]. split; [done|]. by exists [], Watching.
Qed.

Lemma all_gone l : forallb is_gone l = true → ∀ i s, l !! i = Some s → s_pc s = Gone.
Proof.
  intros Hl i s Hi. rewrite forallb_forall in Hl. specialize (Hl s). unfold is_gone in Hl.
  destruct (s_pc s); try done; discriminate Hl;
    by apply list_elem_of_In, list_elem_of_lookup_2 with i.
Qed.

Section Step.
Context (ts : list (string * Z)) (db : option (gmap Z MonitoredFile)) (steps : list run_step)
  (log : list (nat * emit_act)) (r : running_monitor).
Hypothesis Hinv : run_inv ts db steps log r.

Lemma open_while i s : streams r !! i = Some s → s_pc s ≠ Gone → out_closed r = false.
Proof.
  intros Hi Hpc. destruct (out_closed r) eqn:Ho; [|done]. by destruct Hpc, (ri_closed _ _ _ _ _ Hinv Ho i s).
Qed.

(** Steps that neither read nor emit. *)
Lemma run_inv_quiet a r' :
  (∀ i, outcome_for i a = None) →
  length (streams r') = length (streams r) →
  (∀ i s', streams r' !! i = Some s' → ∃ s, streams r !! i = Some s ∧ s_target s' = s_target s ∧
     s_queue s' = s_queue s ∧ s_retry s' = s_retry s ∧
     (s_pc s' = s_pc s ∨ s_pc s = Looping ∧ (s_pc s' = Reading ∨ s_pc s' = Gone))) →
  (out_closed r' = true → ∀ i s, streams r' !! i = Some s → s_pc s = Gone) →
  crashed r' = false → local_db (shared r') = local_db (shared r) →
  run_inv ts db (steps ++ [a]) (log ++ []) r'.
Proof.
  intros Ha Hl Hs Hc Hcr Hdb. rewrite app_nil_r. destruct Hinv as [HL HS _ _ HT HD].
  assert (∀ i, outcomes_of i (steps ++ [a]) = outcomes_of i steps) as Ho.
  { intros i. by rewrite outcomes_of_snoc, Ha, app_nil_r. }
  split; [congruence| |done|congruence|done|congruence].
  intros i s' Hi. rewrite Ho. destruct (Hs i s' Hi) as (s & Hi' & -> & -> & -> & Hpc).
  destruct (HS i s Hi') as (Ht & Hst & evs & st & Hf & Hp & Hw). split; [done|].
  destruct Hpc as [->|[Hl' Hpc]]; [split; [done|]; by exists evs, st|].
  rewrite Hl' in *. split; [by destruct Hpc as [->| ->]|]. exists evs, st.
  destruct Hpc as [->| ->]; by split_and!.
Qed.

Lemma run_inv_check i s pc :
  crashed r = false → streams r !! i = Some s → s_pc s = Looping → (pc = Reading ∨ pc = Gone) →
  run_inv ts db (steps ++ [RCheck i]) (log ++ [])
    (with_streams (<[i := set_pc pc s]> (streams r)) r).
Proof.
  intros Hcr Hi Hpc Hto. apply run_inv_quiet; try done; cbn [with_streams streams out_closed].
  - apply length_insert.
  - intros j s'. rewrite list_lookup_insert_Some. intros [(-> & <- & _)|[_ Hj]].
    + exists s. split_and!; try done. by right.
    + exists s'. split_and!; try done. by left.
  - rewrite (open_while i s Hi) by congruence. done.
Qed.

Lemma run_inv_read i o s q n evs st :
  crashed r = false → streams r !! i = Some s → s_pc s = Reading →
  stream_turn (s_target s) (s_queue s) (s_retry s) o = (q, n, evs, st) →
  let s' := {| s_target := s_target s; s_handle := s_handle s; s_queue := q; s_retry := n;
               s_pc := emitting evs st |} in
  run_inv ts db (steps ++ [RRead i o]) (log ++ [])
    {| streams := <[i := s']> (streams r); stop := stop r; out_closed := out_closed r;
       crashed := panics_now evs st; shared := shared r |}.
Proof.
  intros Hcr Hi Hpc Ht s'. pose proof (open_while i s Hi ltac:(congruence)) as Hopen.
  rewrite app_nil_r. destruct Hinv as [HL HS HC _ HT HD].
  destruct (HS i s Hi) as (Hti & _ & evs0 & st0 & Hf & Hp & Hw). rewrite Hpc in Hp, Hw.
  cbn [stands] in Hw. subst st0. cbn [todo_parts] in Hp. rewrite app_nil_r in Hp.
  pose proof (follow_snoc _ _ o _ _ _ _ _ Hf) as Hf'. rewrite Ht in Hf'.
  assert (∀ j, outcomes_of j (steps ++ [RRead i o]) =
    if decide (i = j) then outcomes_of i steps ++ [o] else outcomes_of j steps) as Ho.
  { intros j. rewrite outcomes_of_snoc. cbn [outcome_for]. case_decide; [by subst|apply app_nil_r]. }
  split; cbn [streams out_closed crashed shared]; [by rewrite length_insert| |congruence| |done|done].
  - intros j x. rewrite list_lookup_insert_Some, Ho. intros [(-> & <- & _)|[Hne Hj]].
    + rewrite decide_True by done. split; [done|]. split; [apply staged_emitting|].
      exists (evs0 ++ evs), st. split; [exact Hf'|]. cbn [s_pc s'].
      rewrite todo_emitting, Hp, fmap_app, concat_app. split; [done|apply stands_emitting].
    + rewrite decide_False by done. by apply HS.
  - intros Hpn. exists i, s'. split; [apply list_lookup_insert_eq; by eapply lookup_lt_Some|].
    cbn [s_target s']. rewrite follow_streamDirectory, Ho, decide_True by done. rewrite Hf'.
    by destruct evs, st.
Qed.

Lemma emit_one_ok env e todo st after x st' :
  staged (Emitting (e :: todo) st after) → emit_one env e st = (x, st') →
  let pc := match st' with Some st' => Emitting (e :: todo) st' after | None => emitting todo after end in
  todo_parts (Emitting (e :: todo) st after) = act_part x :: todo_parts pc ∧ staged pc ∧
  stands pc after ∧ right_time x.
Proof.
  intros Hst. destruct st as [|t|]; intros [= <- <-]; cbv zeta iota.
  - unfold names_old. cbn [todo_parts act_part]. unfold old_parts, names_old.
    destruct (bool_decide _) eqn:E; cbn [app]; (split; [done|]); cbn [staged stands]; split_and!; try done.
    intros Hz. unfold event_time. by rewrite decide_False.
  - destruct Hst as [_ Hst]. by split_and!.
  - cbn [todo_parts act_part app]. rewrite todo_emitting.
    split_and!; [done|apply staged_emitting|apply stands_emitting|done].
Qed.

Lemma run_inv_emit i env s e todo st after x st' pc panics :
  crashed r = false → streams r !! i = Some s → s_pc s = Emitting (e :: todo) st after →
  emit_one env e st = (x, st') →
  (pc, panics) = match st' with
                 | Some st' => (Emitting (e :: todo) st' after, false)
                 | None => (emitting todo after, panics_now todo after)
                 end →
  run_inv ts db (steps ++ [REmit i env]) (log ++ [(i, x)])
    {| streams := <[i := set_pc pc s]> (streams r); stop := stop r; out_closed := out_closed r;
       crashed := panics || (out_closed r && is_send x); shared := do_act x (shared r) |}.
Proof.
  intros Hcr Hi Hpc He Hto. pose proof (open_while i s Hi ltac:(congruence)) as Hopen.
  destruct Hinv as [HL HS HC _ HT HD].
  destruct (HS i s Hi) as (Hti & Hsg & evs & st0 & Hf & Hp & Hw). rewrite Hpc in Hsg, Hp, Hw.
  cbn [stands] in Hw. subst st0.
  destruct (emit_one_ok env e todo st after x st' Hsg He) as (Htodo & Hsg' & Hst' & Hrt).
  assert (pc = match st' with Some st' => Emitting (e :: todo) st' after | None => emitting todo after end)
    as Hpc' by (by destruct st'; injection Hto as -> ->).
  rewrite <- Hpc' in *. rewrite Htodo in Hp.
  assert (∀ j, outcomes_of j (steps ++ [REmit i env]) = outcomes_of j steps) as Ho.
  { intros j. by rewrite outcomes_of_snoc, app_nil_r. }
  split; cbn [streams out_closed crashed shared]; [by rewrite length_insert| |congruence| | |].
  - intros j y. rewrite list_lookup_insert_Some, Ho, parts_by_app, parts_by_one.
    intros [(-> & <- & _)|[Hne Hj]].
    + rewrite decide_True by done. split; [done|]. split; [done|]. exists evs, after.
      split; [exact Hf|]. cbn [set_pc s_pc]. by rewrite <- app_assoc.
    + rewrite decide_False by done. rewrite app_nil_r. by apply HS.
  - rewrite Hopen, orb_false_r. intros ->. exists i, (set_pc pc s).
    split; [apply list_lookup_insert_eq; by eapply lookup_lt_Some|]. rewrite Ho. cbn [set_pc s_target].
    rewrite follow_streamDirectory, Hf. cbn [snd]. destruct st'; injection Hto as _ Hpn; [done|].
    by destruct todo, after.
  - by apply Forall_app; split; [|constructor].
  - rewrite foldl_app, <- HD. by destruct x.
Qed.

Lemma run_inv_step a r' :
  run_one r a = Some r' → run_inv ts db (steps ++ [a]) (log ++ acts r a) r'.
Proof.
  unfold run_one. destruct (crashed r) eqn:Hcr; [done|].
  assert (∀ i s, streams r !! i = Some s → ∃ s0, streams r !! i = Some s0 ∧ s_target s = s_target s0 ∧
    s_queue s = s_queue s0 ∧ s_retry s = s_retry s0 ∧
    (s_pc s = s_pc s0 ∨ s_pc s0 = Looping ∧ (s_pc s = Reading ∨ s_pc s = Gone))) as Hsame.
  { intros i s Hi. exists s. split_and!; auto. }
  destruct a as [i|i o|i env| | |].
  - destruct (streams r !! i) as [s|] eqn:Hi; [|done]. cbn [mbind option_bind].
    destruct (s_pc s) eqn:Hpc; try done. intros [= <-]. apply run_inv_check; try done.
    destruct (stop r || _); auto.
  - destruct (streams r !! i) as [s|] eqn:Hi; [|done]. cbn [mbind option_bind].
    destruct (s_pc s) eqn:Hpc; try done.
    destruct (stream_turn _ _ _ o) as [[[q n] evs] st] eqn:Ht. cbv zeta. intros [= <-].
    by apply run_inv_read.
  - cbn [acts]. destruct (streams r !! i) as [s|] eqn:Hi; [|done]. cbn [mbind option_bind fmap option_fmap option_map].
    destruct (s_pc s) as [| |[|e todo] st after|] eqn:Hpc; try done.
    destruct (emit_one env e st) as [x st'] eqn:He. cbn [fst].
    destruct (match st' with Some _ => _ | None => _ end) as [pc panics] eqn:Hto. intros [= <-].
    by eapply run_inv_emit.
  - intros [= <-]. apply run_inv_quiet; try done. apply (ri_closed _ _ _ _ _ Hinv).
  - destruct (negb _ && _) eqn:Hd; [|done]. apply andb_true_iff in Hd as [_ Hg]. intros [= <-].
    apply run_inv_quiet; try done. intros _. by apply all_gone.
  - intros [= <-]. apply run_inv_quiet; try done. apply (ri_closed _ _ _ _ _ Hinv).
Qed.
End Step.

Lemma run_inv_runs m db steps log r :
  monitor_runs (MonitorFiles m db) steps log r → run_inv (targets m) db steps log r.
Proof. intros Hr. induction Hr; [apply run_inv_start|by eapply run_inv_step]. Qed.
End Facts.


(** Two directories, the second renamed into while the first one fails, and the end. *)
Definition two_dirs : WindowsMonitor := {| targets := [("/a", 11); ("/b", 12)]; closed := false |}.
Definition renames_read : read_outcome :=
  ReadData (encode_buffer [((4, [120]), []); ((5, [121]), [])]) (λ _, 7).
Definition quiet_local : local_env := {| engine := plain_env; sql_err := λ _, None |}.
Definition two_dirs_run : list run_step :=
  [RCheck 0; RCheck 1; RRead 1 renames_read; REmit 1 quiet_local; RRead 0 (ReadFailed (Some 5));
   REmit 1 quiet_local; REmit 1 quiet_local; RTake;
   RCheck 1; RClose; RCheck 0; RRead 1 (ReadFailed (Some 995)); RCloseOut].

Fixpoint run_all `{Filepath} (r : running_monitor) (l : list run_step) :
    option (list (nat * emit_act) * running_monitor) :=
  match l with
  | [] => Some ([], r)
  | a :: l => r1 ← run_one r a; '(log, r2) ← run_all r1 l; Some (acts r a ++ log, r2)
  end.
Lemma run_all_runs `{Filepath} r0 l : ∀ steps log r log' r',
  monitor_runs r0 steps log r → run_all r l = Some (log', r') →
  monitor_runs r0 (steps ++ l) (log ++ log') r'.
Proof.
  induction l as [|a l IH]; intros steps log r log' r' Hr Hl; cbn [run_all] in Hl.
  - injection Hl as <- <-. by rewrite !app_nil_r.
  - destruct (run_one r a) as [r1|] eqn:E1; [|done]. cbn [mbind option_bind] in Hl.
    destruct (run_all r1 l) as [[log2 r2]|] eqn:E2; [|done]. injection Hl as <- <-.
    rewrite app_assoc, cons_middle, app_assoc. eapply IH; [by eapply runs_on|done].
Qed.


(** Nothing orders the sends of two goroutines as their statements: with one watched
    directory inside another, the last event sent about a file can be a create while the
    table has the file deleted. *)
Definition nested_dirs : WindowsMonitor := {| targets := [("/a", 11); ("/a/b", 12)]; closed := false |}.
Definition one_record (action : Z) (name : list Z) : read_outcome :=
  ReadData (encode_buffer [((action, name), [])]) (λ _, 7).
Definition crossing_run : list run_step :=
  [RCheck 0; RCheck 1; RRead 0 (one_record fileActionAdded [98; 47; 120]);
   RRead 1 (one_record fileActionRemoved [120]);
   REmit 0 quiet_local; REmit 1 quiet_local; REmit 1 quiet_local; REmit 0 quiet_local].
Lemma table_order_differs :
  match run_all (MonitorFiles nested_dirs (Some ∅)) crossing_run with
  | Some (_, r) =>
      Action <$> out_events (shared r) = [ActionDelete; ActionCreate] ∧
      Event_Path <$> out_events (shared r) = ["/a/b/x"; "/a/b/x"] ∧
      (λ d, (λ x, (Monitored_Path x.2, LastAction x.2)) <$> map_to_list d) <$> local_db (shared r) =
        Some [("/a/b/x", "delete")]
  | None => False
  end.
Proof. vm_compute. repeat split. Qed.

(** *** Stopping *)

(** Steps a goroutine can still take at the top of its loop or in the system call after
    [Close], and what it still has to emit. *)
Definition rank (s : stream) : nat :=
  match s_pc s with Looping | Emitting _ _ _ => 1 | Reading => 2 | Gone => 0 end.
Definition to_emit (s : stream) : nat := length (todo_parts (s_pc s)).
Definition of_stream (a : run_step) : bool := match a with RCheck _ | RRead _ _ => true | _ => false end.

Lemma sum_insert (f : stream → nat) l : ∀ i s s',
  l !! i = Some s → (sum_list_with f (<[i := s']> l) + f s = sum_list_with f l + f s')%nat.
Proof.
  induction l as [|x l IH]; intros [|i] s s' Hi; simpl in *; try done.
  - injection Hi as ->. lia.
  - specialize (IH i s s' Hi). lia.
Qed.
Lemma rank_emitting todo after s : (rank (set_pc (emitting todo after) s) ≤ 1)%nat.
Proof. destruct todo, after; simpl; unfold rank; simpl; lia. Qed.

Lemma stopped_step `{Filepath} r a r' :
  stop r = true → run_one r a = Some r' →
  stop r' = true ∧
  (sum_list_with rank (streams r') + (if of_stream a then 1 else 0) ≤ sum_list_with rank (streams r))%nat.
Proof.
  intros Hst Hr. unfold run_one in Hr. destruct (crashed r); [done|]. destruct a as [i|i o|i env| | |].
  - destruct (streams r !! i) as [s|] eqn:Hi; [|done]. cbn [mbind option_bind] in Hr.
    destruct (s_pc s) eqn:Hpc; try done. injection Hr as <-. split; [done|].
    cbn [with_streams streams of_stream]. rewrite Hst. cbn [orb].
    pose proof (sum_insert rank _ i s (set_pc Gone s) Hi) as Hsum.
    unfold rank in Hsum at 2 4. cbn [set_pc s_pc] in Hsum. rewrite Hpc in Hsum. lia.
  - destruct (streams r !! i) as [s|] eqn:Hi; [|done]. cbn [mbind option_bind] in Hr.
    destruct (s_pc s) eqn:Hpc; try done. destruct (stream_turn _ _ _ o) as [[[q n] evs] st].
    cbv zeta in Hr. injection Hr as <-. split; [done|]. cbn [streams of_stream].
    match goal with |- context [<[i := ?x]> (streams r)] => set (s' := x) end.
    pose proof (sum_insert rank _ i s s' Hi) as Hsum.
    assert (rank s = 2%nat) as Hs by (unfold rank; by rewrite Hpc).
    pose proof (rank_emitting evs st s) as Hr. change (rank s' ≤ 1)%nat in Hr. lia.
  - destruct (streams r !! i) as [s|] eqn:Hi; [|done]. cbn [mbind option_bind] in Hr.
    destruct (s_pc s) as [| |[|e todo] stg after|] eqn:Hpc; try done.
    destruct (emit_one env e stg) as [x st'].
    destruct (match st' with Some _ => _ | None => _ end) as [pc panics] eqn:Hto.
    injection Hr as <-. split; [done|]. cbn [streams of_stream].
    pose proof (sum_insert rank _ i s (set_pc pc s) Hi) as Hsum.
    assert (rank s = 1%nat) as Hs by (unfold rank; by rewrite Hpc).
    assert (rank (set_pc pc s) ≤ 1)%nat.
    { destruct st'; injection Hto as <- _; [done|apply rank_emitting]. } lia.
  - injection Hr as <-. split; [done|]. simpl. lia.
  - destruct (_ && _); [|done]. injection Hr as <-. split; [done|]. simpl. lia.
  - injection Hr as <-. split; [done|]. simpl. lia.
Qed.

(** After [Close] the goroutines take at most two such steps each, whatever the answers,
    and every step of emission leaves one part less. *)
Lemma close_ends `{Filepath} r steps log r' :
  stop r = true → monitor_runs r steps log r' →
  (length (filter (λ a, of_stream a = true) steps) ≤ 2 * length (streams r))%nat.
Proof.
  intros Hst Hr.
  assert (stop r' = true ∧ (sum_list_with rank (streams r') +
    length (filter (λ a, of_stream a = true) steps) ≤ sum_list_with rank (streams r))%nat) as [_ Hl].
  { induction Hr as [|steps log r1 a r' Hr IH Ha]; [split; [done|simpl; lia]|].
    destruct IH as [Hs1 IH]. destruct (stopped_step r1 a r' Hs1 Ha) as [Hs' Hl]. split; [done|].
    rewrite filter_app, length_app. destruct (of_stream a) eqn:E.
    - rewrite filter_cons_True by done. simpl. lia.
    - rewrite filter_cons_False by (by rewrite E). simpl. lia. }
  assert (sum_list_with rank (streams r) ≤ 2 * length (streams r))%nat.
  { clear. induction (streams r) as [|s l IH]; simpl; [lia|]. unfold rank at 1. destruct (s_pc s); lia. }
  lia.
Qed.

Lemma emission_ends `{Filepath} m db steps log r i env r' :
  monitor_runs (MonitorFiles m db) steps log r → run_one r (REmit i env) = Some r' →
  sum_list_with to_emit (streams r) = S (sum_list_with to_emit (streams r')).
Proof.
  intros Hinv%run_inv_runs Hr. unfold run_one in Hr. destruct (crashed r); [done|].
  destruct (streams r !! i) as [s|] eqn:Hi; [|done]. cbn [mbind option_bind] in Hr.
  destruct (ri_stream _ _ _ _ _ Hinv i s Hi) as (_ & Hsg & _).
  destruct (s_pc s) as [| |[|e todo] stg after|] eqn:Hpc; try done.
  destruct (emit_one env e stg) as [x st'] eqn:He.
  destruct (emit_one_ok env e todo stg after x st' Hsg He) as (Htodo & _).
  destruct (match st' with Some _ => _ | None => _ end) as [pc panics] eqn:Hto.
  injection Hr as <-. cbn [streams]. pose proof (sum_insert to_emit _ i s (set_pc pc s) Hi) as Hsum.
  unfold to_emit in Hsum at 2 4. cbn [set_pc s_pc] in Hsum. rewrite Hpc, Htodo in Hsum.
  cbn [length] in Hsum. destruct st'; injection Hto as <- _; lia.
Qed.

(** Until it returns, some goroutine can go on, in the system call once it answers. *)
Lemma close_progress `{Filepath} m db steps log r :
  monitor_runs (MonitorFiles m db) steps log r →
  stop r = true → crashed r = false → close_returned r = false →
  ∃ i, is_Some (run_one r (RCheck i)) ∨ (∀ o, is_Some (run_one r (RRead i o))) ∨
    ∀ env, is_Some (run_one r (REmit i env)).
Proof.
  intros Hinv%run_inv_runs Hst Hcr Hc. unfold close_returned in Hc. rewrite Hst in Hc. cbn [andb] in Hc.
  assert (∃ i s, streams r !! i = Some s ∧ is_gone s = false) as (i & s & Hi & Hpc).
  { clear -Hc. induction (streams r) as [|s l IH]; [done|]. simpl in Hc.
    destruct (is_gone s) eqn:Hg.
    - destruct (IH Hc) as (i & s' & ? & ?). by exists (S i), s'.
    - by exists 0%nat, s. }
  destruct (ri_stream _ _ _ _ _ Hinv i s Hi) as (_ & Hsg & _).
  exists i. unfold run_one. rewrite Hcr, Hi. cbn [mbind option_bind]. unfold is_gone in Hpc.
  destruct (s_pc s) as [| |[|e todo] stg after|]; try done; [left; eauto|right; left|right; right].
  - intros o. destruct (stream_turn _ _ _ o) as [[[q n] evs] st]. eauto.
  - intros env. destruct (emit_one env e stg) as [x []]; eauto.
Qed.

(** ** Linux

    One goroutine selects between the end, the watcher's events and its errors. *)

Record linux_run := {
  l_monitor : FileMonitor;
  l_stop : bool;              (* [f.stop] is closed *)
  l_gone : bool;
  l_out_closed : bool }.

Definition Linux_MonitorFiles (m : FileMonitor) : linux_run :=
  {| l_monitor := m; l_stop := false; l_gone := false; l_out_closed := false |}.

(** [Close]: the first call closes [stop] and the watcher, and answers for it; every
    call then waits. *)
Definition Linux_Close (watcher_close : option string) (r : linux_run) : linux_run * option string :=
  if l_stop r then (r, None) else
  ({| l_monitor := l_monitor r; l_stop := true; l_gone := l_gone r; l_out_closed := l_out_closed r |},
   watcher_close).

Inductive linux_step :=
  | LReturn                     (* [f.stop], or a channel of the watcher, is closed *)
  | LSelect (s : monitor_step)  (* an event, an error, or the reader *)
  | LClose (watcher_close : option string)
  | LCloseOut.

Definition is_taken (s : monitor_step) : bool := match s with Taken => true | _ => false end.

(** Until the goroutine takes notice of the end the watcher may still deliver. *)
Definition linux_one (r : linux_run) (a : linux_step) : option linux_run :=
  match a with
  | LReturn =>
      if l_stop r && negb (l_gone r) then
        Some {| l_monitor := l_monitor r; l_stop := l_stop r; l_gone := true; l_out_closed := l_out_closed r |}
      else None
  | LSelect s =>
      if is_taken s || negb (l_gone r) then
        Some {| l_monitor := processEvent (l_monitor r) s; l_stop := l_stop r; l_gone := l_gone r;
                l_out_closed := l_out_closed r |}
      else None
  | LClose w => Some (Linux_Close w r).1
  | LCloseOut =>
      if l_gone r && negb (l_out_closed r) then
        Some {| l_monitor := l_monitor r; l_stop := l_stop r; l_gone := l_gone r; l_out_closed := true |}
      else None
  end.
Definition linux_all (r : linux_run) (l : list linux_step) : option linux_run :=
  foldl (λ o a, o ≫= λ r, linux_one r a) (Some r) l.

Definition selected (a : linux_step) : option monitor_step :=
  match a with LSelect s => Some s | _ => None end.

(** The monitor is what [processEvents] makes of the selected steps; the channel is
    closed only behind a goroutine that has returned, and that only after [Close]. *)
Lemma linux_as_processed m l r :
  linux_all (Linux_MonitorFiles m) l = Some r →
  l_monitor r = processEvents m (omap selected l) ∧
  (l_out_closed r = true → l_gone r = true) ∧ (l_gone r = true → l_stop r = true).
Proof.
  revert r. induction l as [|a l IH] using rev_ind; intros r; unfold linux_all.
  { by intros [= <-]. }
  rewrite foldl_app. cbn [foldl]. fold (linux_all (Linux_MonitorFiles m) l).
  destruct (linux_all _ l) as [r1|]; [|done]. destruct (IH r1 eq_refl) as (Hm & Ho & Hg).
  rewrite omap_app. unfold processEvents in *. rewrite foldl_app, <- Hm. cbn [mbind option_bind].
  destruct a as [|s|w|]; simpl.
  - destruct (l_stop r1) eqn:E, (l_gone r1); simpl; try done. by intros [= <-].
  - destruct (is_taken s || negb (l_gone r1)); [|done]. by intros [= <-].
  - unfold Linux_Close. destruct (l_stop r1) eqn:E; intros [= <-]; simpl; [by rewrite E|auto].
  - destruct (l_gone r1) eqn:E, (l_out_closed r1); simpl; try done. intros [= <-]. simpl. auto.
Qed.
