(* ===== verification/Service.v ===== *)
(** * Reporting and backing up files

    agent/internal/service: the periodic report of the local table to the server
    (filetree_sync.go) and the automatic backup (service.go).

    Paths follow the Unix rules of package filepath.  A goroutine is a step of
    its own ([backup_step]); the clock, the file system and the database engine
    are the environment of a call. *)

From S2P Require Export Monitor Transfer.

Local Open Scope Z_scope.

(** What [os.Stat] says of a path. *)
Inductive stat_result :=
  | StatOk (isdir : bool) (size : Z)
  | StatNotExist
  | StatErr (e : string).

(** ** Logical paths *)

(** The configuration and the working directory [filepath.Abs] uses. *)
Record agent_cfg := { MonitorPaths : list string; cwd : string }.

Definition splitSegments (p : string) : list string :=
  if decide (p = "") then [] else filter (λ s, s ≠ "") (TrimSpace <$> Split p).

(** The segments of a path below a root; [filepath.Rel] of two absolute paths
    does not fail. *)
Definition segments_below (absRoot absPath : string) : list string :=
  let rel := RelAbs absRoot absPath in
  let rootName := Base absRoot in
  (if decide (rootName ≠ "") then [rootName] else []) ++
  (if decide (rel ≠ ".") then filter (λ s, s ≠ "") (TrimSpace <$> Split rel) else []).

Definition below_root (absRoot absPath : string) : bool :=
  let p := ToLower absPath in
  let r := ToLower absRoot in
  bool_decide (p = r) || HasPrefix p (r +:+ "/").

Fixpoint first_root (cwd : string) (roots : list string) (absPath : string) : option string :=
  match roots with
  | [] => None
  | root :: roots =>
      if decide (TrimSpace root = "") then first_root cwd roots absPath else
      let absRoot := Abs cwd root in
      if below_root absRoot absPath then Some absRoot else first_root cwd roots absPath
  end.

Definition buildLogicalSegments (cfg : agent_cfg) (p : string) : list string :=
  if decide (MonitorPaths cfg = [] ∨ TrimSpace p = "") then splitSegments p else
  let absPath := Abs (cwd cfg) p in
  match first_root (cwd cfg) (MonitorPaths cfg) absPath with
  | Some absRoot => segments_below absRoot absPath
  | None => splitSegments p
  end.

Definition uniqueID `{Sha1} (deviceUUID : string) (segments : list string)
    (dbID lastEventAt now : Z) : string :=
  if decide (segments = []) then "" else
  NewSHA1 (deviceUUID +:+ "|" +:+ Join segments +:+ "|" +:+ pretty dbID +:+ "|" +:+
           pretty lastEventAt +:+ "|" +:+ pretty now).

(** The agent's copy of the server's function. *)
Definition agent_deterministicID `{Sha1} (deviceUUID : string) (segments : list string) : string :=
  if decide (segments = []) then "" else NewSHA1 (deviceUUID +:+ "|" +:+ Join segments).

(** ** The report *)

(** [ConnectionSender]: the connection the report goes through. *)
Class ConnectionSender (C : Type) := Send_changes : list FileChange → StE C unit.

Record sync_env := {
  sync_local : local_env;
  sync_cfg : agent_cfg;
  deviceUUID : string;
  stat : string → stat_result;
  unique_now : Z → Z;                  (* the clock when a row gets its id *)
  select_err : option string;
  id_err : Z → option string;          (* of storing a row's item id *)
  flags_err : option string }.

(** Rows still to be reported. *)
Definition needs_sync (r : MonitoredFile) : bool :=
  Monitored_ChangePending r ||
  match LastBackupAt r with None => true | Some t => t <? Monitored_LastEventAt r end ||
  bool_decide (LastAction r ∈ ["delete"; "move_out"]).
Definition oldest_event (a b : MonitoredFile) : bool :=
  Monitored_LastEventAt a <=? Monitored_LastEventAt b.
Definition sync_limit : nat := 256.
Definition select_rows (env : sync_env) (db : LocalDB) : list MonitoredFile :=
  take sync_limit (order_by oldest_event (select (engine (sync_local env)) needs_sync db)).

Definition with_item_id (id : string) (now : Z) (r : MonitoredFile) : MonitoredFile := {|
  Monitored_ID := Monitored_ID r; Monitored_Path := Monitored_Path r; ItemID := id;
  LastAction := LastAction r; Monitored_LastEventAt := Monitored_LastEventAt r;
  LastBackupAt := LastBackupAt r; Monitored_ChangePending := Monitored_ChangePending r;
  Monitored_CreatedAt := Monitored_CreatedAt r; Monitored_UpdatedAt := now |}.
Definition reported (now : Z) (r : MonitoredFile) : MonitoredFile := {|
  Monitored_ID := Monitored_ID r; Monitored_Path := Monitored_Path r; ItemID := ItemID r;
  LastAction := LastAction r; Monitored_LastEventAt := Monitored_LastEventAt r;
  LastBackupAt := LastBackupAt r; Monitored_ChangePending := false;
  Monitored_CreatedAt := Monitored_CreatedAt r; Monitored_UpdatedAt := now |}.

Section Sync.
Context `{Sha1} (env : sync_env).

(** Whether the file is gone for good, a directory, and its size; [None]: the
    row is skipped. *)
Definition inspect (row : MonitoredFile) (path : string) : option (bool * bool * Z) :=
  match stat env path with
  | StatOk isdir size => Some (false, isdir, if isdir : bool then 0 else size)
  | StatNotExist => Some (bool_decide (LastAction row ∈ ["delete"; "move_out"]), false, 0)
  | StatErr _ => None
  end.

Definition logical_segments (path : string) : list string :=
  match buildLogicalSegments (sync_cfg env) path with
  | [] => splitSegments path
  | segs => segs
  end.
Definition item_id (row : MonitoredFile) (segs : list string) : string :=
  if decide (ItemID row = "")
  then uniqueID (deviceUUID env) segs (Monitored_ID row) (Monitored_LastEventAt row)
         (unique_now env (Monitored_ID row))
  else ItemID row.
Definition extension (path : string) (isDir : bool) : string :=
  if isDir then "folder" else TrimPrefix (ToLower (Ext path)) ".".
Definition needs_backup (row : MonitoredFile) : bool :=
  match LastBackupAt row with None => true | Some t => t <? Monitored_LastEventAt row end.

Definition change_of (row : MonitoredFile) : option FileChange :=
  let path := TrimSpace (Monitored_Path row) in
  if decide (path = "") then None else
  '(deleted, isdir, size) ← inspect row path;
  let segs := logical_segments path in
  let logicalPath := Join segs in
  Some {| Change_ID := item_id row segs; Change_OriginPath := logicalPath;
          Change_CurrentPath := logicalPath;
          Change_CurrentName := match list.last segs with Some n => n | None => Base path end;
          Change_Extension := extension path isdir; Change_Size := size;
          Change_SnapshotNumber := 0; IsDir := isdir; Deleted := deleted;
          Change_Pending := needs_backup row; ContentTypes := [] |}.

(** [UPDATE ... SET item_id WHERE id = row.id], for a reported row without one. *)
Definition store_item_id (row : MonitoredFile) (c : FileChange) (db : LocalDB) : LocalDB :=
  if decide (ItemID row ≠ "") then db else
  match id_err env (Monitored_ID row) with
  | Some _ => db
  | None => update_where (λ r, bool_decide (Monitored_ID r = Monitored_ID row))
              (with_item_id (Change_ID c) (clock (engine (sync_local env)))) db
  end.

(** The rows in order: what is reported, and the ids stored on the way. *)
Fixpoint collect_changes (rows : list MonitoredFile) (db : LocalDB) :
    list FileChange * LocalDB :=
  match rows with
  | [] => ([], db)
  | row :: rows =>
      match change_of row with
      | None => collect_changes rows db
      | Some c =>
          let '(cs, db') := collect_changes rows (store_item_id row c db) in (c :: cs, db')
      end
  end.

Definition collectIDs (rows : list MonitoredFile) : list Z := Monitored_ID <$> rows.
Definition clear_pending (rows : list MonitoredFile) (db : LocalDB) : LocalDB :=
  match flags_err env with
  | Some _ => db
  | None => update_where (λ r, bool_decide (Monitored_ID r ∈ collectIDs rows))
              (reported (clock (engine (sync_local env)))) db
  end.

Definition syncFileTreeOnce `{ConnectionSender C} : StE (option LocalDB * C) unit := λ '(db, c),
  match db with
  | None => ((None, c), Ok tt)
  | Some db =>
      if decide (deviceUUID env = "") then ((Some db, c), Err "device UUID not set") else
      match select_err env with
      | Some e => ((Some db, c), Err e)
      | None =>
          let rows := select_rows env db in
          let '(changes, db1) := collect_changes rows db in
          if decide (changes = []) then ((Some db1, c), Ok tt) else
          match Send_changes changes c with
          | (c', Err e) => ((Some db1, c'), Err e)
          | (c', Ok _) => ((Some (clear_pending rows db1), c'), Ok tt)
          end
      end
  end.
End Sync.

(** The rounds of [StartFileTreeSyncLoop], each in its environment. *)
Definition sync_rounds `{Sha1, ConnectionSender C} (envs : list sync_env)
    (s : option LocalDB * C) : option LocalDB * C :=
  foldl (λ s env, (syncFileTreeOnce env s).1) s envs.

(** ** Automatic backup *)

Record BackupFlags := {
  inFlight : gset string;
  recent : gmap string Z;
  enabled : bool }.
Definition initial_flags : BackupFlags := {| inFlight := ∅; recent := ∅; enabled := true |}.
Definition backupCooldown : Z := 10 * 10 ^ 9.
Definition fileSettleInterval : Z := 500 * 10 ^ 6.
Definition fileSettleMaxWait : Z := 15 * 10 ^ 9.
Definition fileSettleStablePass : Z := 2.

Definition SetBackupEnabled (b : bool) (s : BackupFlags) : BackupFlags :=
  {| inFlight := inFlight s; recent := recent s; enabled := b |}.
Definition IsBackupEnabled (s : BackupFlags) : bool := enabled s.

(** The new flags and whether a goroutine is started. *)
Definition scheduleBackup (path : string) (now : Z) (s : BackupFlags) : BackupFlags * bool :=
  if negb (enabled s) then (s, false) else
  if match recent s !! path with
     | Some last => bool_decide (now - last < backupCooldown)
     | None => false
     end then (s, false) else
  if decide (path ∈ inFlight s) then (s, false) else
  ({| inFlight := {[path]} ∪ inFlight s; recent := recent s; enabled := enabled s |}, true).

(** The deferred end of the goroutine. *)
Definition backup_finished (path : string) (now : Z) (s : BackupFlags) : BackupFlags :=
  {| inFlight := inFlight s ∖ {[path]}; recent := <[path := now]> (recent s);
     enabled := enabled s |}.

(** *** Waiting for a file to settle *)

(** One turn: the time at its start, the stat and whether the file opens. *)
Record poll := { poll_now : Z; poll_stat : stat_result; poll_open : option string }.

Fixpoint settle_loop (fuel : nat) (polls : nat → poll) (i : nat) (deadline lastSize stable : Z) :
    result unit :=
  match fuel with
  | O => Err "out of fuel"
  | S fuel =>
      let p := polls i in
      if decide (poll_now p < deadline) then
        match poll_stat p with
        | StatNotExist => settle_loop fuel polls (S i) deadline lastSize stable
        | StatErr e => Err e
        | StatOk true _ => Err "path is a directory"
        | StatOk false size =>
            if decide (size = lastSize) then
              if decide (fileSettleStablePass ≤ stable + 1 ∧ poll_open p = None) then Ok tt
              else settle_loop fuel polls (S i) deadline lastSize (stable + 1)
            else settle_loop fuel polls (S i) deadline size 0
        end
      else match poll_open p with
           | None => Ok tt
           | Some e => Err ("file not ready: " +:+ e)
           end
  end.
(** A turn sleeps for half a second and the wait is fifteen: thirty-two turns. *)
Definition settle_fuel : nat := 32.
Definition waitForStableFile (polls : nat → poll) (start : Z) : result unit :=
  settle_loop settle_fuel polls 0 (start + fileSettleMaxWait) (-1) 0.

(** *** One backup *)

Record backup_env := {
  bk_local : local_env;
  bk_stat : stat_result;
  bk_token : string;
  bk_device : string;
  bk_host : string;
  bk_port : Z;
  bk_net : net_env;
  bk_reply : list ascii;             (* what the server sends back *)
  bk_size : result Z;                (* the size [InitUpload] finds *)
  bk_data : result (list ascii);
  bk_read_fail : nat → option string;
  bk_now : Z }.

Definition with_backup_at (now : Z) (stamp : Z) (r : MonitoredFile) : MonitoredFile := {|
  Monitored_ID := Monitored_ID r; Monitored_Path := Monitored_Path r; ItemID := ItemID r;
  LastAction := LastAction r; Monitored_LastEventAt := Monitored_LastEventAt r;
  LastBackupAt := Some now; Monitored_ChangePending := Monitored_ChangePending r;
  Monitored_CreatedAt := Monitored_CreatedAt r; Monitored_UpdatedAt := stamp |}.

(** [UPDATE ... SET last_backup_at WHERE path = ?]; a failure is logged. *)
Definition mark_backed_up (env : local_env) (path : string) (now : Z) (db : LocalDB) : LocalDB :=
  match sql_err env path with
  | Some _ => db
  | None => update_where (at_path path) (with_backup_at now (clock (engine env))) db
  end.

(** The item id of a path: empty without a database or a row. *)
Definition file_id (env : local_env) (path : string) (db : option LocalDB) : string :=
  match db with
  | None => ""
  | Some d =>
      match sql_err env path with
      | Some _ => ""
      | None => match find_path env path d with Some r => ItemID r | None => "" end
      end
  end.

Definition backupFile `{AgentJson} (env : backup_env) (path : string) :
    StE (option LocalDB * Net) unit := λ '(db, n),
  match bk_stat env with
  | StatErr e => ((db, n), Err e)
  | StatNotExist => ((db, n), Err "no such file or directory")
  | StatOk true _ => ((db, n), Ok tt)
  | StatOk false _ =>
      let token := TrimSpace (bk_token env) in
      if decide (token = "") then ((db, n), Ok tt) else
      match (session ← InitUpload (bk_net env) (bk_reply env) (bk_host env) (bk_port env)
               (bk_device env) token path (file_id (bk_local env) path db) (bk_size env);
             UploadFile (bk_net env) (bk_read_fail env) (bk_device env) session (bk_data env)) n with
      | (n', Err e) => ((db, n'), Err e)
      | (n', Ok _) => ((mark_backed_up (bk_local env) path (bk_now env) <$> db, n'), Ok tt)
      end
  end.

(** *** Events and goroutines *)

(** The flags and the backups under way. *)
Record Backups := { flags : BackupFlags; running : list string }.

Inductive backup_step : Backups → Backups → Prop :=
  (* an event of the monitor; [s'] and whether a goroutine starts *)
  | step_event path now f f' started run :
      scheduleBackup path now f = (f', started) →
      backup_step {| flags := f; running := run |}
        {| flags := f'; running := if started : bool then path :: run else run |}
  (* a goroutine ends *)
  | step_finish path now f run1 run2 :
      backup_step {| flags := f; running := run1 ++ path :: run2 |}
        {| flags := backup_finished path now f; running := run1 ++ run2 |}
  (* a command switches backups on or off *)
  | step_toggle b f run :
      backup_step {| flags := f; running := run |} {| flags := SetBackupEnabled b f; running := run |}.

(** The reader of the monitor's channel in [BootstrapDevice]: which paths it
    schedules. *)
Definition schedules (e : FileEvent) : option string :=
  if decide (Event_Path e = "") then None else
  match Action e with
  | ActionCreate | ActionModify | ActionRename | ActionMove => Some (Event_Path e)
  | ActionDelete | ActionMoveOut => None
  end.
