(* ===== verification/ServiceProofs.v ===== *)
(** * Reports and automatic backups: properties *)

From S2P Require Export Service FileTreeProofs.

Local Open Scope Z_scope.

(** ** One backup per file at a time *)

(** The goroutines under way are those the flags know, each path once. *)
Definition exclusive (s : Backups) : Prop :=
  NoDup (running s) ∧ ∀ p, p ∈ running s ↔ p ∈ inFlight (flags s).

Lemma scheduleBackup_started path now f f' :
  scheduleBackup path now f = (f', true) →
  enabled f = true ∧ (∀ last, recent f !! path = Some last → backupCooldown ≤ now - last) ∧
  path ∉ inFlight f ∧ inFlight f' = {[path]} ∪ inFlight f.
Proof.
  unfold scheduleBackup. destruct (enabled f); [|done]. cbn [negb].
  destruct (recent f !! path) as [last|] eqn:E.
  - case_bool_decide; [done|]. case_decide; [done|]. intros [= <-].
    split_and!; [done| |done|done]. intros l [= <-]. lia.
  - case_decide; [done|]. intros [= <-]. by split_and!.
Qed.
Lemma scheduleBackup_refused path now f f' :
  scheduleBackup path now f = (f', false) →
  f' = f ∧ (enabled f = false ∨ (∃ last, recent f !! path = Some last ∧ now - last < backupCooldown) ∨
            path ∈ inFlight f).
Proof.
  unfold scheduleBackup. destruct (enabled f); [|intros [= <-]; by auto]. cbn [negb].
  destruct (recent f !! path) as [last|] eqn:E.
  - case_bool_decide; [intros [= <-]; split; [done|right; left; by exists last]|]. case_decide; [|done]. intros [= <-]. auto.
  - case_decide; [|done]. intros [= <-]. auto.
Qed.

Lemma exclusive_step a b : backup_step a b → exclusive a → exclusive b.
Proof.
  destruct 1 as [path now f f' started run Hs|path now f run1 run2|on f run]; intros [Hd Hin];
    cbn [running flags] in *.
  - destruct started.
    + apply scheduleBackup_started in Hs as (_ & _ & Hni & Hf). split.
      * constructor; [by rewrite Hin|done].
      * intros p. cbn [flags running]. rewrite Hf. set_solver.
    + apply scheduleBackup_refused in Hs as [-> _]. by split.
  - split; cbn [running flags backup_finished inFlight].
    + rewrite <- Permutation_middle in Hd. by apply NoDup_cons in Hd as [_ Hd].
    + rewrite <- Permutation_middle in Hd. apply NoDup_cons in Hd as [Hn Hd].
      intros p. specialize (Hin p). set_solver.
  - by split.
Qed.

(** C19. However events, commands and ends of backups interleave, no file is ever
    backed up twice at a time; and an event starts a backup exactly when backups
    are enabled, none of the file is under way, and the last one ended at least
    ten seconds ago. *)
Theorem backups_exclusive s :
  star backup_step {| flags := initial_flags; running := [] |} s →
  NoDup (running s) ∧
  ∀ path now, (scheduleBackup path now (flags s)).2 = true ↔
    enabled (flags s) = true ∧ path ∉ running s ∧
    ∀ last, recent (flags s) !! path = Some last → backupCooldown ≤ now - last.
Proof.
  intros Hs. assert (exclusive s) as [Hd Hin].
  { eapply (star_invariant backup_step exclusive); [apply exclusive_step|exact Hs|].
    split; [apply NoDup_nil_2|cbn; set_solver]. }
  split; [done|]. intros path now.
  destruct (scheduleBackup path now (flags s)) as [f' [|]] eqn:E; cbn [snd].
  - apply scheduleBackup_started in E as (He & Hr & Hn & _). by rewrite Hin.
  - apply scheduleBackup_refused in E as [_ Hno]. rewrite Hin. split; [done|].
    intros (He & Hn & Hr). destruct Hno as [Hno|[(last & Hl & Hlt)|Hno]]; [congruence| |done].
    specialize (Hr last Hl). lia.
Qed.

(** A backup of "/a" runs; another event on it starts nothing. *)
Lemma backups_exclusive_witness :
  let f := (scheduleBackup "/a" 0 initial_flags).1 in
  star backup_step {| flags := initial_flags; running := [] |} {| flags := f; running := ["/a"] |} ∧
  NoDup ["/a"].
Proof.
  cbv zeta. set (f := (scheduleBackup "/a" 0 initial_flags).1).
  assert (star backup_step {| flags := initial_flags; running := [] |}
    {| flags := f; running := ["/a"] |}) as Hs.
  { apply star_one. by apply (step_event "/a" 0 initial_flags f true []). }
  split; [exact Hs|]. exact (proj1 (backups_exclusive _ Hs)).
Defined.

(** ** Waiting ends *)

(** What the loop found at its last turn [i]. *)
Definition settled (polls : nat → poll) (deadline : Z) (i : nat) (r : result unit) : Prop :=
  let p := polls i in
  if decide (poll_now p < deadline) then
    match r with
    | Ok _ => poll_open p = None ∧ ∃ size, poll_stat p = StatOk false size
    | Err e => poll_stat p = StatErr e ∨
               (∃ size, poll_stat p = StatOk true size) ∧ e = "path is a directory"
    end
  else match r with
       | Ok _ => poll_open p = None
       | Err e => ∃ e', poll_open p = Some e' ∧ e = "file not ready: " +:+ e'
       end.

Lemma settle_loop_ends polls deadline fuel : ∀ i last stable,
  (∀ j, poll_now (polls j) + fileSettleInterval ≤ poll_now (polls (S j))) →
  deadline ≤ poll_now (polls i) + (Z.of_nat fuel - 1) * fileSettleInterval → (0 < fuel)%nat →
  ∃ j, (i ≤ j < i + fuel)%nat ∧
    (∀ more, settle_loop (fuel + more) polls i deadline last stable =
             settle_loop fuel polls i deadline last stable) ∧
    settled polls deadline j (settle_loop fuel polls i deadline last stable).
Proof.
  induction fuel as [|fuel IH]; intros i last stable Hclock Hd Hf; [lia|].
  cbn [Nat.add settle_loop].
  assert (∀ last' stable', poll_now (polls i) < deadline →
    ∃ j, (i ≤ j < i + S fuel)%nat ∧
      (∀ more, settle_loop (fuel + more) polls (S i) deadline last' stable' =
               settle_loop fuel polls (S i) deadline last' stable') ∧
      settled polls deadline j (settle_loop fuel polls (S i) deadline last' stable')) as Hnext.
  { intros last' stable' Hlt. specialize (Hclock i) as Hi.
    destruct (IH (S i) last' stable' Hclock) as (j & Hj & Hm & Hs);
      [unfold fileSettleInterval in *; lia..|].
    exists j. split; [lia|done]. }
  assert (∀ r, settled polls deadline i r →
    ∃ j, (i ≤ j < i + S fuel)%nat ∧ (nat → r = r) ∧ settled polls deadline j r) as Hhere.
  { intros r Hr. exists i. split; [lia|done]. }
  destruct (decide (poll_now (polls i) < deadline)) as [Hlt|Hge].
  - destruct (poll_stat (polls i)) as [[] size| |e] eqn:Est.
    + apply Hhere. unfold settled. rewrite decide_True by done. right. eauto.
    + case_decide; [case_decide as Hok|]; [|by apply Hnext..]. apply Hhere. unfold settled.
      rewrite decide_True by done. destruct Hok. eauto.
    + by apply Hnext.
    + apply Hhere. unfold settled. rewrite decide_True by done. by left.
  - destruct (poll_open (polls i)) as [e|] eqn:Eo; apply Hhere; unfold settled;
      rewrite decide_False by done; eauto.
Qed.

(** Waiting for a file to settle always ends within thirty-two polls, when each
    poll sleeps half a second as it asks for: with an error exactly as one of the
    polls found it (the file is a directory, cannot be examined, or still cannot
    be opened after fifteen seconds), and otherwise with a file that opened. *)
Theorem waiting_ends polls start :
  start ≤ poll_now (polls 0%nat) →
  (∀ j, poll_now (polls j) + fileSettleInterval ≤ poll_now (polls (S j))) →
  ∃ j, (j < settle_fuel)%nat ∧
    (∀ more, settle_loop (settle_fuel + more) polls 0 (start + fileSettleMaxWait) (-1) 0 =
             waitForStableFile polls start) ∧
    settled polls (start + fileSettleMaxWait) j (waitForStableFile polls start).
Proof.
  intros Hs Hclock.
  destruct (settle_loop_ends polls (start + fileSettleMaxWait) settle_fuel 0 (-1) 0 Hclock)
    as (j & Hj & Hm & Hr).
  - unfold fileSettleMaxWait, fileSettleInterval, settle_fuel. lia.
  - unfold settle_fuel. lia.
  - exists j. split; [lia|]. split; [exact Hm|exact Hr].
Qed.

(** A file that appears after a second and keeps its size. *)
Definition late_file (i : nat) : poll := {|
  poll_now := Z.of_nat i * fileSettleInterval;
  poll_stat := if decide (i < 2)%nat then StatNotExist else StatOk false 7;
  poll_open := None |}.
Lemma waiting_ends_witness :
  waitForStableFile late_file 0 = Ok tt ∧
  ∃ j, (j < settle_fuel)%nat ∧ settled late_file (0 + fileSettleMaxWait) j (waitForStableFile late_file 0).
Proof.
  split; [vm_compute; reflexivity|].
  destruct (waiting_ends late_file 0) as (j & Hj & _ & Hs).
  - vm_compute. discriminate.
  - intros j. unfold late_file. cbn [poll_now]. lia.
  - exists j. split; [exact Hj|exact Hs].
Defined.

(** ** A round of the report *)

(** What a round never changes of a row. *)
Definition same_row (r r' : MonitoredFile) : Prop :=
  Monitored_ID r' = Monitored_ID r ∧ Monitored_Path r' = Monitored_Path r ∧
  LastAction r' = LastAction r ∧ Monitored_LastEventAt r' = Monitored_LastEventAt r ∧
  LastBackupAt r' = LastBackupAt r.
#[export] Instance same_row_preorder : PreOrder same_row.
Proof.
  split; [done|]. intros a b c (? & ? & ? & ? & ?) (? & ? & ? & ? & ?). split_and!; congruence.
Qed.

Definition same_rows (db db' : LocalDB) : Prop := ∀ id, option_Forall2 same_row (db !! id) (db' !! id).
#[export] Instance same_rows_preorder : PreOrder same_rows.
Proof.
  split.
  - intros db id. destruct (db !! id); constructor; reflexivity.
  - intros a b c Hab Hbc id. specialize (Hab id). specialize (Hbc id).
    destruct Hab as [x y Hxy|]; inversion Hbc; subst; constructor. by etrans.
Qed.

Lemma same_rows_update p f (db : LocalDB) : (∀ r, same_row r (f r)) → same_rows db (update_where p f db).
Proof.
  intros Hf id. rewrite update_where_lookup. destruct (db !! id) as [r|]; constructor.
  by destruct (p r).
Qed.
Lemma same_rows_keyed db db' : same_rows db db' → keyed Monitored_ID db → keyed Monitored_ID db'.
Proof.
  intros Hs Hk id r Hr. specialize (Hs id). rewrite Hr in Hs. inversion Hs as [x y (Hid & _) Hx|]; subst.
  rewrite Hid. by apply Hk.
Qed.

Section Round.
Context `{Sha1} (env : sync_env).

Lemma store_item_id_same row c db : same_rows db (store_item_id env row c db).
Proof.
  unfold store_item_id. case_decide; [reflexivity|]. destruct (id_err _ _); [reflexivity|].
  by apply same_rows_update.
Qed.
Lemma collect_same rows : ∀ db, same_rows db (collect_changes env rows db).2.
Proof.
  induction rows as [|row rows IH]; intros db; [reflexivity|]. cbn [collect_changes].
  destruct (change_of env row) as [c|]; [|apply IH].
  specialize (IH (store_item_id env row c db)).
  destruct (collect_changes env rows _) as [cs db']. cbn [snd] in *.
  etrans; [apply store_item_id_same|exact IH].
Qed.
Lemma clear_pending_same rows db : same_rows db (clear_pending env rows db).
Proof. unfold clear_pending. destruct (flags_err env); [reflexivity|]. by apply same_rows_update. Qed.

Lemma collect_changes_sent rows : ∀ db, (collect_changes env rows db).1 = omap (change_of env) rows.
Proof.
  induction rows as [|row rows IH]; intros db; [done|]. cbn [collect_changes omap list_omap].
  destruct (change_of env row) as [c|]; [|apply IH]. specialize (IH (store_item_id env row c db)).
  destruct (collect_changes env rows _) as [cs db']. cbn [fst] in *. by rewrite IH.
Qed.

Lemma syncFileTreeOnce_same `{ConnectionSender C} db (c : C) :
  ∃ db', (syncFileTreeOnce env (Some db, c)).1.1 = Some db' ∧ same_rows db db'.
Proof.
  unfold syncFileTreeOnce. case_decide; [by exists db|]. destruct (select_err env); [by exists db|].
  pose proof (collect_same (select_rows env db) db) as Hc. cbv zeta.
  destruct (collect_changes env (select_rows env db) db) as [cs db1]. cbn [snd] in Hc.
  case_decide; [by exists db1|]. destruct (Send_changes cs c) as [c' [[]|e]].
  - eexists. split; [reflexivity|]. etrans; [exact Hc|apply clear_pending_same].
  - by exists db1.
Qed.

(** *** The rows of a round *)

Hypothesis Hev : Store.valid_env (engine (sync_local env)).

Lemma ordered_perm (rows : list MonitoredFile) : order_by oldest_event rows ≡ₚ rows.
Proof. apply merge_sort_Permutation. Qed.
Lemma ordered_sorted rows :
  StronglySorted (λ a b, Monitored_LastEventAt a ≤ Monitored_LastEventAt b) (order_by oldest_event rows).
Proof. apply (order_by_ascending Monitored_LastEventAt). Qed.

Lemma select_rows_elem db r : r ∈ select_rows env db → needs_sync r = true ∧ ∃ k, db !! k = Some r.
Proof.
  intros Hr. apply (subseteq_take sync_limit) in Hr. rewrite order_by_elem in Hr.
  by apply elem_of_select in Hr.
Qed.
Lemma select_rows_keyed db r :
  keyed Monitored_ID db → r ∈ select_rows env db → db !! Monitored_ID r = Some r.
Proof. intros Hk [_ [k Hr]]%select_rows_elem. by rewrite (Hk _ _ Hr). Qed.

Lemma select_NoDup db : keyed Monitored_ID db →
  NoDup (Monitored_ID <$> order_by oldest_event (select (engine (sync_local env)) needs_sync db)).
Proof.
  intros Hk. rewrite ordered_perm. unfold select.
  assert (NoDup (Monitored_ID <$> arrange (engine (sync_local env)) MonitoredFile (map_to_list db).*2))
    as Hd.
  { rewrite (arrange_perm _ Hev). rewrite <- list_fmap_compose.
    rewrite (list_fmap_ext _ fst).
    - apply NoDup_fst_map_to_list.
    - intros i [k r] Hi. apply list_elem_of_lookup_2, elem_of_map_to_list in Hi. by apply Hk. }
  revert Hd. generalize (arrange (engine (sync_local env)) MonitoredFile (map_to_list db).*2).
  intros l Hd. induction l as [|x l IH]; [constructor|].
  apply NoDup_cons in Hd as [Hx Hd]. destruct (decide (needs_sync x = true)).
  - rewrite filter_cons_True by done. constructor; [|by apply IH].
    intros (y & Hy & [_ Hin]%list_elem_of_filter)%list_elem_of_fmap. apply Hx.
    apply list_elem_of_fmap. by exists y.
  - rewrite filter_cons_False by done. by apply IH.
Qed.
Lemma select_rows_NoDup db : keyed Monitored_ID db → NoDup (Monitored_ID <$> select_rows env db).
Proof.
  intros Hk. unfold select_rows. rewrite fmap_take. pose proof (select_NoDup db Hk) as Hd.
  rewrite <- (take_drop sync_limit (Monitored_ID <$> _)) in Hd. by apply NoDup_app in Hd as [Hd _].
Qed.

Lemma select_rows_full db id r :
  db !! id = Some r → needs_sync r = true → r ∉ select_rows env db →
  length (select_rows env db) = sync_limit.
Proof.
  intros Hr Hn Hnot. unfold select_rows in *. set (l := order_by oldest_event _) in *.
  assert (r ∈ l) as Hin by (apply order_by_elem, elem_of_select; eauto).
  rewrite <- (take_drop sync_limit l) in Hin. apply elem_of_app in Hin as [Hin|Hin]; [done|].
  rewrite length_take. assert (length (drop sync_limit l) ≠ 0%nat) as Hl.
  { intros Hl%length_zero_iff_nil. rewrite Hl in Hin. set_solver. }
  rewrite length_drop in Hl. lia.
Qed.
(** A row left out of a full round is no older than those in it. *)
Lemma select_rows_oldest db id r x :
  db !! id = Some r → needs_sync r = true → r ∉ select_rows env db → x ∈ select_rows env db →
  Monitored_LastEventAt x ≤ Monitored_LastEventAt r.
Proof.
  intros Hr Hn Hnot Hx. unfold select_rows in *. set (l := order_by oldest_event _) in *.
  assert (r ∈ l) as Hin by (apply order_by_elem, elem_of_select; eauto).
  rewrite <- (take_drop sync_limit l) in Hin. apply elem_of_app in Hin as [Hin|Hin]; [done|].
  pose proof (ordered_sorted (select (engine (sync_local env)) needs_sync db)) as Hs. fold l in Hs.
  rewrite <- (take_drop sync_limit l) in Hs.
  exact (StronglySorted_app_1_elem_of _ _ _ _ _ Hs Hx Hin).
Qed.
Lemma change_of_item_id row c : change_of env row = Some c → ItemID row ≠ "" → Change_ID c = ItemID row.
Proof.
  unfold change_of. case_decide; [done|]. intros Hc Hi.
  apply bind_Some in Hc as ([[d i] sz] & _ & Hc). injection Hc as <-. cbn [Change_ID].
  unfold item_id. by rewrite decide_False.
Qed.
End Round.

(** *** What is stored and cleared *)

Section Stored.
Context `{Sha1} (env : sync_env).

(** The row after the round stored the ids of [rows]. *)
Definition stored_row (rows : list MonitoredFile) (r : MonitoredFile) : MonitoredFile :=
  if decide (r ∈ rows) then
    match change_of env r with
    | Some c =>
        if decide (ItemID r ≠ "") then r else
        match id_err env (Monitored_ID r) with
        | Some _ => r
        | None => with_item_id (Change_ID c) (clock (engine (sync_local env))) r
        end
    | None => r
    end
  else r.

Lemma store_item_id_lookup row c db id :
  keyed Monitored_ID db → db !! Monitored_ID row = Some row → change_of env row = Some c →
  store_item_id env row c db !! id =
    (λ r, if decide (id = Monitored_ID row) then stored_row [row] r else r) <$> db !! id.
Proof.
  intros Hk Hrow Hc. unfold store_item_id, stored_row.
  assert (∀ f : MonitoredFile → MonitoredFile, f row = row →
    (λ r, if decide (id = Monitored_ID row) then f r else r) <$> db !! id = db !! id) as Hsame.
  { intros f Hf. destruct (db !! id) as [r|] eqn:Hr; [|done]. simpl. case_decide; [|done].
    subst id. rewrite Hrow in Hr. injection Hr as <-. by rewrite Hf. }
  destruct (decide (ItemID row ≠ "")) as [Hi|Hi].
  { symmetry. apply Hsame. rewrite decide_True by set_solver. by rewrite Hc, decide_True. }
  destruct (id_err env (Monitored_ID row)) as [e|] eqn:Ee.
  { symmetry. apply Hsame. rewrite decide_True by set_solver. by rewrite Hc, decide_False, Ee. }
  rewrite update_where_lookup. destruct (db !! id) as [r|] eqn:Hr; [|done]. simpl. f_equal.
  pose proof (Hk _ _ Hr) as Hid. case_decide as Heq.
  - subst id. rewrite Hrow in Hr. injection Hr as <-.
    rewrite bool_decide_eq_true_2 by done. rewrite decide_True by set_solver.
    by rewrite Hc, decide_False, Ee.
  - by rewrite bool_decide_eq_false_2 by congruence.
Qed.

Lemma collect_changes_lookup rows : ∀ db id,
  keyed Monitored_ID db → NoDup (Monitored_ID <$> rows) →
  (∀ r, r ∈ rows → db !! Monitored_ID r = Some r) →
  (collect_changes env rows db).2 !! id = stored_row rows <$> db !! id.
Proof.
  induction rows as [|row rows IH]; intros db id Hk Hd Hrows.
  { cbn [collect_changes snd]. destruct (db !! id); [|done]. simpl. unfold stored_row.
    by rewrite decide_False by apply not_elem_of_nil. }
  apply NoDup_cons in Hd as [Hnot Hd]. cbn [collect_changes].
  assert (db !! Monitored_ID row = Some row) as Hrow by (apply Hrows; set_solver).
  assert (∀ r, db !! id = Some r → Monitored_ID r = Monitored_ID row → r = row) as Hown.
  { intros r Hr Hi. pose proof (Hk _ _ Hr) as Hid. rewrite <- Hid, Hi, Hrow in Hr. congruence. }
  destruct (change_of env row) as [c|] eqn:Hc.
  - assert (∀ r, r ∈ rows → store_item_id env row c db !! Monitored_ID r = Some r) as Hrest.
    { intros r Hr. rewrite (store_item_id_lookup row c db _ Hk Hrow Hc).
      rewrite (Hrows r) by set_solver. simpl. rewrite decide_False; [done|].
      intros He. apply Hnot. rewrite <- He. by apply list_elem_of_fmap_2. }
    specialize (IH (store_item_id env row c db) id
      (same_rows_keyed _ _ (store_item_id_same env row c db) Hk) Hd Hrest).
    destruct (collect_changes env rows (store_item_id env row c db)) as [cs db'].
    cbn [snd] in *. rewrite IH, (store_item_id_lookup row c db _ Hk Hrow Hc).
    destruct (db !! id) as [r|] eqn:Hr; [|done]. simpl. f_equal. pose proof (Hk _ _ Hr) as Hid.
    case_decide as Heq.
    + assert (r = row) as -> by (apply Hown; congruence).
      assert (∀ x, Monitored_ID x = Monitored_ID row → stored_row rows x = x) as Hskip.
      { intros x Hx. unfold stored_row. rewrite decide_False; [done|]. intros Hin. apply Hnot.
        rewrite <- Hx. by apply list_elem_of_fmap_2. }
      rewrite Hskip.
      * unfold stored_row. by rewrite !decide_True by set_solver.
      * unfold stored_row. rewrite decide_True by set_solver. rewrite Hc. case_decide; [done|].
        by destruct (id_err env (Monitored_ID row)).
    + unfold stored_row. assert (r ≠ row) as Hne by (intros ->; congruence).
      destruct (decide (r ∈ rows)); [by rewrite decide_True by set_solver|].
      by rewrite decide_False by set_solver.
  - rewrite IH by (done || set_solver). destruct (db !! id) as [r|] eqn:Hr; [|done]. simpl. f_equal.
    unfold stored_row. destruct (decide (r ∈ rows)); [by rewrite decide_True by set_solver|].
    destruct (decide (r = row)) as [->|]; [rewrite decide_True by set_solver; by rewrite Hc|].
    by rewrite decide_False by set_solver.
Qed.

Lemma stored_row_spec rows x : (∀ id, id_err env id = None) →
  same_row x (stored_row rows x) ∧ (x ∉ rows → stored_row rows x = x) ∧
  (ItemID x ≠ "" → ItemID (stored_row rows x) = ItemID x) ∧
  (∀ ch, x ∈ rows → change_of env x = Some ch → ItemID (stored_row rows x) = Change_ID ch) ∧
  Monitored_ChangePending (stored_row rows x) = Monitored_ChangePending x.
Proof.
  intros Hids. unfold stored_row. rewrite Hids. split_and!.
  - by repeat (case_decide || case_match).
  - intros Hnot. by rewrite decide_False.
  - intros Hi. case_decide; [|done]. case_match; [|done]. by rewrite decide_True.
  - intros ch Hx Hch. rewrite decide_True, Hch by done. case_decide as Hi; [|done].
    symmetry. by apply (change_of_item_id env).
  - by repeat (case_decide || case_match).
Qed.
End Stored.

(** C20. One round of the report: it concerns at most 256 rows, the oldest of those
    that need it; what is sent is exactly the change of each of them that can be
    examined.  A row keeps the item id it has; one that had none gets the id that
    was reported.  Only when the sending succeeded are the rows of the round no
    longer pending, so a failed round is repeated; other rows stay as they were. *)
Theorem sync_reports_rows `{Sha1, ConnectionSender C} env db (c : C) :
  Store.valid_env (engine (sync_local env)) → keyed Monitored_ID db → deviceUUID env ≠ "" →
  select_err env = None → flags_err env = None → (∀ id, id_err env id = None) →
  let rows := select_rows env db in
  let cs := omap (change_of env) rows in
  let r := syncFileTreeOnce env (Some db, c) in
  (length rows ≤ 256)%nat ∧
  (∀ id x, db !! id = Some x → needs_sync x = true → x ∉ rows →
     length rows = 256%nat ∧ ∀ y, y ∈ rows → Monitored_LastEventAt y ≤ Monitored_LastEventAt x) ∧
  (r.1.2, r.2) = (if decide (cs = []) then (c, Ok tt) else Send_changes cs c) ∧
  ∃ db', r.1.1 = Some db' ∧ ∀ id x, db !! id = Some x →
    ∃ x', db' !! id = Some x' ∧ same_row x x' ∧ (x ∉ rows → x' = x) ∧
      (ItemID x ≠ "" → ItemID x' = ItemID x) ∧
      (∀ ch, x ∈ rows → change_of env x = Some ch → ItemID x' = Change_ID ch) ∧
      Monitored_ChangePending x' =
        (if decide (x ∈ rows ∧ cs ≠ [] ∧ is_ok (Send_changes cs c).2 = true) then false
         else Monitored_ChangePending x).
Proof.
  intros Hev Hk Hdev Hsel Hflags Hids. cbv zeta.
  split; [unfold select_rows; rewrite length_take; unfold sync_limit; lia|]. split.
  { intros id x Hx Hn Hnot. split; [by apply (select_rows_full env Hev db id x)|].
    intros y Hy. by apply (select_rows_oldest env Hev db id x y). }
  pose proof (collect_changes_sent env (select_rows env db) db) as Hsent.
  assert (∀ id, (collect_changes env (select_rows env db) db).2 !! id =
    stored_row env (select_rows env db) <$> db !! id) as Hdb.
  { intros id. apply collect_changes_lookup; [done|by apply select_rows_NoDup|].
    intros y Hy. by eapply select_rows_keyed. }
  unfold syncFileTreeOnce. rewrite decide_False by done. rewrite Hsel. cbv zeta.
  destruct (collect_changes env (select_rows env db) db) as [cs db1]. cbn [fst snd] in *. subst cs.
  set (rows := select_rows env db) in *. set (cs := omap (change_of env) rows) in *.
  pose proof (λ x, stored_row_spec env rows x Hids) as Hst.
  destruct (decide (cs = [])) as [Hnil|Hcs].
  { split; [done|]. exists db1. split; [done|]. intros id x Hx. exists (stored_row env rows x).
    rewrite Hdb, Hx. destruct (Hst x) as (? & ? & ? & ? & ?). split_and!; try done.
    by rewrite decide_False by tauto. }
  destruct (Send_changes cs c) as [c' [[]|e]] eqn:Esend; cbn [fst snd].
  - split; [done|]. eexists. split; [reflexivity|]. intros id x Hx.
    unfold clear_pending. rewrite Hflags, update_where_lookup, Hdb, Hx. cbn [fmap option_fmap option_map].
    eexists. split; [reflexivity|]. destruct (Hst x) as (Hsame & Hout & Hid & Hch & Hp).
    assert (Monitored_ID (stored_row env rows x) = Monitored_ID x) as Hxid by apply Hsame.
    case_bool_decide as Hin; rewrite Hxid in Hin; unfold collectIDs in Hin.
    + assert (x ∈ rows) as Hxr.
      { apply list_elem_of_fmap in Hin as (y & Hy & Hyr).
        pose proof (select_rows_keyed env Hev db y Hk Hyr) as Hl. rewrite <- Hy, (Hk _ _ Hx) in Hl.
        congruence. }
      rewrite decide_True by done. split_and!; try done.
    + assert (x ∉ rows) as Hxr by (intros Hxr; apply Hin; by apply list_elem_of_fmap_2).
      rewrite decide_False by tauto. by split_and!.
  - split; [done|]. eexists. split; [reflexivity|]. intros id x Hx. exists (stored_row env rows x).
    rewrite Hdb, Hx. destruct (Hst x) as (? & ? & ? & ? & ?). split_and!; try done.
    by rewrite decide_False by (intros (_ & _ & Hok); discriminate Hok).
Qed.

Definition plain_sync (now : Z) : sync_env := {|
  sync_local := plain_local; sync_cfg := {| MonitorPaths := ["/data"]; cwd := "/" |};
  deviceUUID := "laptop"; stat := λ p, if decide (p = "/data/gone") then StatNotExist
                                       else StatOk false 3;
  unique_now := λ id, now + id; select_err := None; id_err := λ _, None; flags_err := None |}.
(** A connection that records what is sent on it. *)
#[export] Instance recording : ConnectionSender (list (list FileChange)) :=
  λ cs sent, (sent ++ [cs], Ok tt).

Definition file_row (id : Z) (path action : string) (event : Z) : MonitoredFile := {|
  Monitored_ID := id; Monitored_Path := path; ItemID := ""; LastAction := action;
  Monitored_LastEventAt := event; LastBackupAt := None;
  Monitored_ChangePending := shouldMarkPending (if decide (action = "delete") then ActionDelete
                                                else ActionModify);
  Monitored_CreatedAt := 0; Monitored_UpdatedAt := 0 |}.
Definition two_files : LocalDB :=
  {[ 1 := file_row 1 "/data/docs/a.txt" "modify" 5; 2 := file_row 2 "/data/gone" "delete" 4 ]}.

Lemma two_files_keyed : keyed Monitored_ID two_files.
Proof.
  intros id r Hr. unfold two_files in Hr.
  apply lookup_insert_Some in Hr as [[<- <-]|[_ Hr]]; [reflexivity|].
  by apply lookup_singleton_Some in Hr as [<- <-].
Qed.

Lemma sync_reports_rows_witness :
  let r := syncFileTreeOnce (plain_sync 100) (Some two_files, []) in
  Change_CurrentPath <$> concat r.1.2 = ["data/gone"; "data/docs/a.txt"] ∧
  ∃ db', r.1.1 = Some db' ∧ ∀ id x, two_files !! id = Some x →
    ∃ x', db' !! id = Some x' ∧ same_row x x' ∧ Monitored_ChangePending x' = false.
Proof.
  cbv zeta.
  destruct (sync_reports_rows (plain_sync 100) two_files []) as (_ & _ & Hsent & db' & Hdb & Hrows).
  - apply plain_env_valid.
  - apply two_files_keyed.
  - discriminate.
  - reflexivity.
  - reflexivity.
  - reflexivity.
  - split; [vm_compute; reflexivity|]. exists db'. split; [exact Hdb|]. intros id x Hx.
    destruct (Hrows id x Hx) as (x' & Hx' & Hsame & _ & _ & _ & Hp).
    exists x'. split; [exact Hx'|]. split; [exact Hsame|]. rewrite Hp.
    unfold two_files in Hx.
    apply lookup_insert_Some in Hx as [[_ <-]|[_ Hx]];
      [|apply lookup_singleton_Some in Hx as [_ <-]]; vm_compute; reflexivity.
Defined.

(** ** Rows that are never reported *)

(** 256 rows or more that never had a backup, all older than the row [id]. *)
Definition crowded (id t : Z) (db : LocalDB) : Prop :=
  (∃ r, db !! id = Some r ∧ Monitored_LastEventAt r = t) ∧
  ∃ ids, NoDup ids ∧ (sync_limit ≤ length ids)%nat ∧
    ∀ i, i ∈ ids → ∃ r, db !! i = Some r ∧ LastBackupAt r = None ∧ Monitored_LastEventAt r < t.

Lemma crowded_same id t db db' : same_rows db db' → crowded id t db → crowded id t db'.
Proof.
  intros Hs [(r & Hr & Ht) (ids & Hd & Hl & Hids)]. split.
  - specialize (Hs id). rewrite Hr in Hs. inversion Hs as [x y Hxy Hx0 Hy|]; subst.
    destruct Hxy as (_ & _ & _ & He & _). exists y. by rewrite He.
  - exists ids. split; [done|]. split; [done|]. intros i Hi. destruct (Hids i Hi) as (x & Hx & Hb & Hlt).
    specialize (Hs i). rewrite Hx in Hs. inversion Hs as [x' y Hxy Hx0 Hy|]; subst.
    destruct Hxy as (_ & _ & _ & He & Hb'). exists y. by rewrite He, Hb'.
Qed.

Lemma crowded_out env id t db x :
  Store.valid_env (engine (sync_local env)) → keyed Monitored_ID db → crowded id t db →
  x ∈ select_rows env db → Monitored_ID x ≠ id.
Proof.
  intros Hev Hk [(r & Hr & Ht) (ids & Hd & Hl & Hids)] Hx Heq.
  pose proof (select_rows_keyed env Hev db x Hk Hx) as Hxk. rewrite Heq, Hr in Hxk.
  injection Hxk as <-.
  assert (id :: ids ⊆+ (Monitored_ID <$> select_rows env db)) as Hsub.
  { apply NoDup_submseteq.
    - constructor; [|done]. intros Hin. destruct (Hids id Hin) as (y & Hy & _ & Hlt).
      rewrite Hr in Hy. injection Hy as <-. lia.
    - intros i [->|Hi]%elem_of_cons; [by rewrite <- Heq; apply list_elem_of_fmap_2|].
      destruct (Hids i Hi) as (y & Hy & Hb & Hlt). pose proof (Hk _ _ Hy) as Hyi. subst i.
      apply list_elem_of_fmap_2. destruct (decide (y ∈ select_rows env db)) as [|Hnot]; [done|].
      exfalso. assert (needs_sync y = true) as Hn.
      { unfold needs_sync. rewrite Hb. by rewrite orb_true_r. }
      pose proof (select_rows_oldest env Hev db _ y r Hy Hn Hnot Hx). lia. }
  apply submseteq_length in Hsub. rewrite length_fmap in Hsub. cbn [length] in Hsub.
  unfold select_rows in Hsub. rewrite length_take in Hsub. lia.
Qed.

(** The report starves: while 256 rows that never had a backup (folders never
    get one, nor do deleted files) are older than a row, that row is never
    reported, however many rounds succeed.  A new file of a large tree does not
    show up on the server until something happens to the old rows. *)
Theorem sync_starves `{Sha1, ConnectionSender C} envs id t db (c : C) :
  keyed Monitored_ID db → crowded id t db →
  ∃ db', (sync_rounds envs (Some db, c)).1 = Some db' ∧
    ∀ env x, Store.valid_env (engine (sync_local env)) →
      x ∈ select_rows env db' → Monitored_ID x ≠ id.
Proof.
  intros Hk Hc. assert (∃ db', (sync_rounds envs (Some db, c)).1 = Some db' ∧ same_rows db db')
    as (db' & Hdb & Hs).
  { clear Hk Hc. unfold sync_rounds. revert db c. induction envs as [|env envs IH]; intros db c.
    - exists db. split; [done|reflexivity].
    - cbn [foldl]. destruct (syncFileTreeOnce_same env db c) as (db1 & Hdb1 & Hs1).
      destruct (syncFileTreeOnce env (Some db, c)) as [[o c1] r]. cbn [fst] in *. subst o.
      destruct (IH db1 c1) as (db' & Hdb' & Hs'). exists db'. split; [done|]. by etrans. }
  exists db'. split; [done|]. intros env x Hev Hx.
  apply (crowded_out env id t db' x Hev); [by eapply same_rows_keyed|by eapply crowded_same|done].
Qed.

(** 256 folders and one new file. *)
Definition big_tree : LocalDB :=
  list_to_map ((λ i : nat, let id := Z.of_nat i in
    (id, file_row id ("/data/" +:+ pretty id) "create" (if decide (i < 256)%nat then 1 else 2)))
    <$> seq 0 257).
Lemma big_tree_lookup (i : nat) : (i < 257)%nat →
  big_tree !! Z.of_nat i = Some (file_row (Z.of_nat i) ("/data/" +:+ pretty (Z.of_nat i)) "create"
    (if decide (i < 256)%nat then 1 else 2)).
Proof.
  intros Hi. unfold big_tree. apply elem_of_list_to_map.
  - rewrite <- list_fmap_compose. apply NoDup_fmap_2; [|apply NoDup_seq].
    intros a b Hab. cbn in Hab. lia.
  - apply list_elem_of_fmap. exists i. split; [done|]. apply elem_of_seq. lia.
Qed.
Lemma big_tree_keyed : keyed Monitored_ID big_tree.
Proof.
  intros id r Hr. unfold big_tree in Hr. apply elem_of_list_to_map_2, list_elem_of_fmap in Hr.
  by destruct Hr as (i & [= -> ->] & _).
Qed.
Lemma big_tree_crowded : crowded 256 2 big_tree.
Proof.
  split.
  - eexists. split; [apply (big_tree_lookup 256); lia|]. cbn [file_row Monitored_LastEventAt].
    by rewrite decide_False by lia.
  - exists (Z.of_nat <$> seq 0 256). split; [|split].
    + apply NoDup_fmap_2; [|apply NoDup_seq]. intros a b Hab. lia.
    + by rewrite length_fmap, length_seq.
    + intros j (i & -> & Hi%elem_of_seq)%list_elem_of_fmap.
      eexists. split; [apply big_tree_lookup; lia|]. split; [done|]. cbn [file_row Monitored_LastEventAt].
      rewrite decide_True by lia. lia.
Qed.

Lemma sync_starves_witness :
  big_tree !! 256 ≠ None ∧
  ∃ db', (sync_rounds [plain_sync 10; plain_sync 20] (Some big_tree, [])).1 = Some db' ∧
    ∀ x, x ∈ select_rows (plain_sync 30) db' → Monitored_ID x ≠ 256.
Proof.
  split.
  { assert (∃ r, big_tree !! 256 = Some r) as [r Hr]; [|congruence].
    eexists. exact (big_tree_lookup 256 ltac:(lia)). }
  destruct (sync_starves [plain_sync 10; plain_sync 20] 256 2 big_tree [])
    as (db' & Hdb & Hno).
  - apply big_tree_keyed.
  - apply big_tree_crowded.
  - exists db'. split; [exact Hdb|]. intros x. apply Hno. apply plain_env_valid.
Defined.

(** ** Agent and server agree on paths *)

Lemma splitSegments_server p : splitSegments p = path_segments p.
Proof. unfold splitSegments. case_decide; [by subst|done]. Qed.

Lemma Join_not_dot ds : ds ≠ [] → Forall wf_comp ds → Join ds ≠ ".".
Proof.
  intros Hn Hwf Hj. apply (f_equal Split) in Hj. rewrite Split_Join in Hj.
  - change (Split ".") with ["."] in Hj. subst ds. by apply Forall_singleton in Hwf as (_ & ? & _).
  - done.
  - eapply Forall_impl; [exact Hwf|]. by intros x (_ & _ & _ & ?).
Qed.

Lemma segments_below_root cs c ds :
  ds ≠ [] → Forall wf_comp (cs ++ [c] ++ ds) → Forall segment_ok ds →
  segments_below (abs_path (cs ++ [c])) (abs_path (cs ++ [c] ++ ds)) = c :: ds.
Proof.
  intros Hn Hwf Hok. rewrite app_assoc in *. pose proof Hwf as [Hc Hd]%Forall_app.
  unfold segments_below. cbv zeta. rewrite RelAbs_abs_path, Base_abs_path by done.
  rewrite (decide_True (P := Join ds ≠ ".")) by by apply Join_not_dot.
  change (filter (λ s, s ≠ "") (TrimSpace <$> Split (Join ds))) with (path_segments (Join ds)).
  rewrite path_segments_Join by done.
  rewrite decide_True; [done|]. apply Forall_app in Hc as [_ Hc].
  by apply Forall_singleton in Hc as (? & _).
Qed.


