(* ===== verification/Command.v ===== *)
(** * The agent's commands

    agent/internal/command: the dispatcher, the registry of handlers and the
    handlers themselves, and agent/internal/socket/handler.go, which feeds it.

    A panic is an outcome of its own: nothing recovers it and the agent dies.
    JSON is a parameter ([CommandJson]); the file system, the network and the
    local database engine are the environment of a call ([cmd_env]). *)

From S2P Require Import Hosts.
From S2P Require Export Service.

Local Open Scope Z_scope.

(** ** Envelopes and arguments *)

Record Envelope := {
  Env_DeviceID : string;
  Env_Name : string;
  Env_Kind : string;
  Env_Argument : list ascii }.

Definition KindOnce : string := "once".
Definition KindStream : string := "stream".

Record getLogsArg := { Lines : Z }.
Record backupAutoArg := { Auto_Enabled : option bool; IntervalSec : Z }.
Record restoreArg := {
  Restore_FileID : string; VersionID : Z; Restore_FileName : string; DestPath : string }.

(** [any]: [NoArg] is nil. *)
Inductive arg_value :=
  | NoArg
  | GetLogsArg (a : getLogsArg)
  | BackupAutoArg (a : backupAutoArg)
  | RestoreArg (a : restoreArg)
  | BlockWebsiteArg (a : Hosts.blockWebsiteArg).

(** [json.Unmarshal] into the types of this package. *)
Class CommandJson := {
  decode_envelope_cmd : list ascii → result Envelope;
  decode_get_logs : list ascii → result getLogsArg;
  decode_backup_auto : list ascii → result backupAutoArg;
  decode_restore : list ascii → result restoreArg;
  decode_block_website : list ascii → result Hosts.blockWebsiteArg }.

Inductive handler := getLogsHandler | backupAutoHandler | restoreHandler | blockWebsiteHandler.
#[export] Instance handler_eq_dec : EqDecision handler.
Proof. solve_decision. Defined.

(** [init]: what the registry holds. *)
Definition registry : list (string * handler) :=
  [("get_logs", getLogsHandler); ("backup_auto", backupAutoHandler); ("restore", restoreHandler);
   ("block_website", blockWebsiteHandler)].
Definition Get (name : string) : option handler :=
  snd <$> head (filter (λ p, p.1 = name) registry).

Definition handler_kind (h : handler) : string :=
  match h with backupAutoHandler => KindStream | _ => KindOnce end.

Section Decoding.
Context `{CommandJson}.

Definition getLogs_DecodeArg (raw : list ascii) : result arg_value :=
  if decide (raw = []) then Ok (GetLogsArg {| Lines := 100 |}) else
  a ← decode_get_logs raw;
  Ok (GetLogsArg (if decide (Lines a = 0) then {| Lines := 100 |} else a)).
Definition backupAuto_DecodeArg (raw : list ascii) : result arg_value :=
  if decide (raw = []) then Ok (BackupAutoArg {| Auto_Enabled := None; IntervalSec := 0 |}) else
  a ← decode_backup_auto raw; Ok (BackupAutoArg a).
Definition restore_DecodeArg (raw : list ascii) : result arg_value :=
  a ← (if decide (raw = [])
       then Ok {| Restore_FileID := ""; VersionID := 0; Restore_FileName := ""; DestPath := "" |}
       else decode_restore raw);
  if decide (Restore_FileName a = "")
  then Err "missing file_name (should be enriched by backend)" else
  if decide (DestPath a = "") then Err "missing dest_path (should be enriched by backend)" else
  Ok (RestoreArg a).
Definition blockWebsite_DecodeArg (raw : list ascii) : result arg_value :=
  a ← (if decide (raw = [])
       then Ok {| Hosts.Action := ""; Hosts.Rules := []; Hosts.Status := None |}
       else decode_block_website raw);
  Ok (BlockWebsiteArg a).
Definition DecodeArg (h : handler) : list ascii → result arg_value :=
  match h with
  | getLogsHandler => getLogs_DecodeArg
  | backupAutoHandler => backupAuto_DecodeArg
  | restoreHandler => restore_DecodeArg
  | blockWebsiteHandler => blockWebsite_DecodeArg
  end.
End Decoding.

(** ** The agent's state *)

(** The stop functions of running streams. *)
Inductive stop_fn := StopBackup | NilFunc.
#[export] Instance stop_fn_eq_dec : EqDecision stop_fn.
Proof. solve_decision. Defined.

Record AgentState := {
  Token_ : string;
  DeviceID_ : string;
  hosts_mgr : Hosts.HostsManager;
  backups : BackupFlags;
  agent_db : option LocalDB;
  active : gmap string stop_fn;
  net : Net;
  disk : gmap string (list ascii) }.

Definition with_hosts (h : Hosts.HostsManager) (s : AgentState) : AgentState := {|
  Token_ := Token_ s; DeviceID_ := DeviceID_ s; hosts_mgr := h; backups := backups s;
  agent_db := agent_db s; active := active s; net := net s; disk := disk s |}.
Definition with_backups (b : BackupFlags) (s : AgentState) : AgentState := {|
  Token_ := Token_ s; DeviceID_ := DeviceID_ s; hosts_mgr := hosts_mgr s; backups := b;
  agent_db := agent_db s; active := active s; net := net s; disk := disk s |}.
Definition with_db (d : option LocalDB) (s : AgentState) : AgentState := {|
  Token_ := Token_ s; DeviceID_ := DeviceID_ s; hosts_mgr := hosts_mgr s; backups := backups s;
  agent_db := d; active := active s; net := net s; disk := disk s |}.
Definition with_active (a : gmap string stop_fn) (s : AgentState) : AgentState := {|
  Token_ := Token_ s; DeviceID_ := DeviceID_ s; hosts_mgr := hosts_mgr s; backups := backups s;
  agent_db := agent_db s; active := a; net := net s; disk := disk s |}.
Definition with_net (n : Net) (s : AgentState) : AgentState := {|
  Token_ := Token_ s; DeviceID_ := DeviceID_ s; hosts_mgr := hosts_mgr s; backups := backups s;
  agent_db := agent_db s; active := active s; net := n; disk := disk s |}.
Definition with_disk (d : gmap string (list ascii)) (s : AgentState) : AgentState := {|
  Token_ := Token_ s; DeviceID_ := DeviceID_ s; hosts_mgr := hosts_mgr s; backups := backups s;
  agent_db := agent_db s; active := active s; net := net s; disk := d |}.

Record cmd_env := {
  hosts_env1 : Hosts.call_env;
  hosts_env2 : Hosts.call_env;
  log_file : result (list ascii);
  BackendHost : string;
  BackendPort : Z;
  cmd_net : net_env;
  cmd_reply : list ascii;               (* the answer to [SendAction] *)
  cmd_stream : list ascii;              (* what the transfer connection receives *)
  mkdir_dest_err : string → option string;
  open_dest_err : string → option string;
  dest_write_err : nat → option string;
  cmd_local : local_env;
  cmd_now : Z;
  temp_dir : string }.

(** How a handler ends. *)
Inductive outcome := Done | Failed (e : string) | Panic.
Definition of_result {A} (r : result A) : outcome :=
  match r with Ok _ => Done | Err e => Failed e end.

Section Commands.
Context `{CommandJson, AgentJson}.

(** ** Handlers *)

Definition no_log : string := "<no log available>".

(** An error of [SendAction] comes with a nil message, whose fields the log
    statement reads. *)
Definition getLogs_once (env : cmd_env) (s : AgentState) : AgentState * outcome :=
  let data := match log_file env with Ok b => of_bytes b | Err _ => no_log end in
  let token := TrimSpace (Token_ s) in
  if decide (token = "") then (s, Done) else
  let '(n, r) := SendAction (cmd_net env) (cmd_reply env) (BackendHost env) (BackendPort env)
    (DeviceID_ s) token "agent_log" (DLines data) (net s) in
  (with_net n s, match r with Ok _ => Done | Err _ => Panic end).

Definition backupAuto_once (a : backupAutoArg) (s : AgentState) : AgentState * outcome :=
  (match Auto_Enabled a with
   | Some b => with_backups (SetBackupEnabled b (backups s)) s
   | None => s
   end, Done).
Definition backupAuto_start (a : backupAutoArg) (s : AgentState) : AgentState * stop_fn :=
  (match Auto_Enabled a with
   | Some b => with_backups (SetBackupEnabled b (backups s)) s
   | None => s
   end, StopBackup).

(** The row of a restored file: found and updated, or created. *)
Definition restored_row (id : Z) (path fileID : string) (now stamp : Z) : MonitoredFile := {|
  Monitored_ID := id; Monitored_Path := path; ItemID := fileID; LastAction := "restore";
  Monitored_LastEventAt := now; LastBackupAt := None; Monitored_ChangePending := true;
  Monitored_CreatedAt := stamp; Monitored_UpdatedAt := stamp |}.
Definition update_restored (fileID : string) (now stamp : Z) (r : MonitoredFile) : MonitoredFile := {|
  Monitored_ID := Monitored_ID r; Monitored_Path := Monitored_Path r; ItemID := fileID;
  LastAction := "restore"; Monitored_LastEventAt := now; LastBackupAt := LastBackupAt r;
  Monitored_ChangePending := true; Monitored_CreatedAt := Monitored_CreatedAt r;
  Monitored_UpdatedAt := stamp |}.
Definition mark_restored (env : local_env) (path fileID : string) (now : Z) (db : LocalDB) :
    LocalDB :=
  match sql_err env path with
  | Some _ => db
  | None =>
      match find_path env path db with
      | Some r => <[Monitored_ID r := update_restored fileID now (clock (engine env)) r]> db
      | None =>
          let id := next_key (engine env) (map_to_list db).*1 in
          <[id := restored_row id path fileID now (clock (engine env))]> db
      end
  end.

Definition restore_path (env : cmd_env) (a : restoreArg) : string :=
  if decide (DestPath a = "")
  then PathJoin [temp_dir env; "sagiri-restore"; Base (Restore_FileName a)] else DestPath a.

(** [DownloadFile] to a path: the file exists from the moment it is opened. *)
Definition download_to (env : cmd_env) (session : Session) (path : string) (s : AgentState) :
    AgentState * result unit :=
  let existing := default [] (disk s !! path) in
  let mkdir := if decide (Dir path ≠ "" ∧ Dir path ≠ ".") then mkdir_dest_err env (Dir path) else None in
  let d0 := {| contents := existing; position := 0; received_name := ""; received_size := 0;
               received_bytes := 0 |} in
  let '((n, d), r) := DownloadFile (cmd_net env) (dest_write_err env) mkdir (open_dest_err env path)
    (cmd_stream env) session existing (net s, d0) in
  let opened := bool_decide (mkdir = None ∧ open_dest_err env path = None) in
  (with_disk (if opened then <[path := contents d]> (disk s) else disk s) (with_net n s), r).

Definition restore_once (env : cmd_env) (a : restoreArg) (s : AgentState) : AgentState * outcome :=
  let token := TrimSpace (Token_ s) in
  if decide (token = "") then (s, Failed "missing token") else
  let destPath := restore_path env a in
  match (if decide (Dir destPath ≠ "" ∧ Dir destPath ≠ ".") then mkdir_dest_err env (Dir destPath)
         else None) with
  | Some e => (s, Failed ("create dest directory: " +:+ e))
  | None =>
      match InitDownload (cmd_net env) (cmd_reply env) (BackendHost env) (BackendPort env)
              (DeviceID_ s) token (Restore_FileName a) (net s) with
      | (n, Err e) => (with_net n s, Failed ("init download: " +:+ e))
      | (n, Ok session) =>
          match download_to env session destPath (with_net n s) with
          | (s', Err e) => (s', Failed ("download file: " +:+ e))
          | (s', Ok _) =>
              (with_db (mark_restored (cmd_local env) destPath (Restore_FileID a) (cmd_now env)
                        <$> agent_db s') s', Done)
          end
      end
  end.

Definition blockWebsite_once (env : cmd_env) (a : Hosts.blockWebsiteArg) (s : AgentState) :
    AgentState * outcome :=
  let '(h, r) := Hosts.block_website (hosts_env1 env) (hosts_env2 env) a (hosts_mgr s) in
  (with_hosts h s, of_result r).

(** The type assertions of the handlers; get_logs has none. *)
Definition HandleOnce (env : cmd_env) (h : handler) (arg : arg_value) (s : AgentState) :
    AgentState * outcome :=
  match h, arg with
  | getLogsHandler, _ => getLogs_once env s
  | backupAutoHandler, BackupAutoArg a => backupAuto_once a s
  | restoreHandler, RestoreArg a => restore_once env a s
  | blockWebsiteHandler, BlockWebsiteArg a => blockWebsite_once env a s
  | _, _ => (s, Failed "invalid argument type")
  end.

(** Handlers of once commands return a nil stop function and no error. *)
Definition Start (h : handler) (arg : arg_value) (s : AgentState) :
    AgentState * result stop_fn :=
  match h, arg with
  | backupAutoHandler, BackupAutoArg a =>
      let '(s', f) := backupAuto_start a s in (s', Ok f)
  | backupAutoHandler, _ => (s, Err "invalid argument type")
  | _, _ => (s, Ok NilFunc)
  end.

(** ** The dispatcher *)

(** [stop()]; [None]: a nil function was called. *)
Definition call_stop (f : stop_fn) (s : AgentState) : option AgentState :=
  match f with
  | StopBackup => Some (with_backups (SetBackupEnabled false (backups s)) s)
  | NilFunc => None
  end.

Definition resolveKind (e : Envelope) : string :=
  if decide (Env_Kind e ≠ "") then Env_Kind e else
  match Get (Env_Name e) with Some h => handler_kind h | None => KindOnce end.

(** [Format] renders an envelope for the log. *)
Definition Format (e : Envelope) : string :=
  "command=" +:+ Env_Name e +:+ " kind=" +:+ resolveKind e +:+ " device=" +:+ Env_DeviceID e.

Definition dispatch_stream (h : handler) (name : string) (arg : arg_value) (s : AgentState) :
    AgentState * outcome :=
  match (match active s !! name with
         | Some f => (λ s', with_active (delete name (active s')) s') <$> call_stop f s
         | None => Some s
         end) with
  | None => (s, Panic)
  | Some s1 =>
      match Start h arg s1 with
      | (s2, Err e) => (s2, Failed e)
      | (s2, Ok f) => (with_active (<[name := f]> (active s2)) s2, Done)
      end
  end.

(** Errors are logged; a kind that is neither once nor stream does nothing. *)
Definition Dispatch (env : cmd_env) (e : Envelope) (s : AgentState) : AgentState * outcome :=
  match Get (Env_Name e) with
  | None => (s, Failed "unknown command")
  | Some h =>
      let k := resolveKind e in
      match (if decide (Env_Argument e = []) then Ok NoArg else DecodeArg h (Env_Argument e)) with
      | Err x => (s, Failed x)
      | Ok arg =>
          if decide (k = KindOnce) then HandleOnce env h arg s
          else if decide (k = KindStream) then dispatch_stream h (Env_Name e) arg s
          else (s, Done)
      end
  end.

(** [Stop]: the entry is gone before the function is called. *)
Definition Stop (name : string) (s : AgentState) : AgentState * outcome :=
  match active s !! name with
  | None => (s, Done)
  | Some f =>
      let s1 := with_active (delete name (active s)) s in
      match call_stop f s1 with Some s2 => (s2, Done) | None => (s1, Panic) end
  end.

(** [socket.HandleMessage]. *)
Definition HandleCommand (env : cmd_env) (data : list ascii) (s : AgentState) :
    AgentState * outcome :=
  let line := to_bytes (TrimSpace (of_bytes data)) in
  if decide (line = []) then (s, Done) else
  match decode_envelope_cmd line with
  | Err x => (s, Failed x)
  | Ok e => Dispatch env e s
  end.
End Commands.

(** *** Unused: logical to physical paths *)

(** [convertLogicalPathToPhysical]; "" when no monitored folder has the name. *)
Fixpoint root_named (cwd name : string) (roots : list string) : option string :=
  match roots with
  | [] => None
  | root :: roots =>
      if decide (TrimSpace root = "") then root_named cwd name roots else
      let absRoot := Abs cwd root in
      if decide (Base absRoot = name) then Some absRoot else root_named cwd name roots
  end.
Definition convertLogicalPathToPhysical (cfg : agent_cfg) (logicalPath : string) : string :=
  if decide (MonitorPaths cfg = [] ∨ TrimSpace logicalPath = "") then "" else
  match Split (TrimSlash logicalPath) with
  | [] => ""
  | rootName :: rest =>
      match root_named (cwd cfg) rootName (MonitorPaths cfg) with
      | None => ""
      | Some absRoot =>
          if decide (rest = []) then absRoot else PathJoin [absRoot; PathJoin rest]
      end
  end.

(** [findPathFromFileID]: not written yet. *)
Definition findPathFromFileID (fileID : string) : string := "".
