(* ===== verification/Connection.v ===== *)
(** * The agent's connection

    agent/internal/connection/manager.go: connecting with retries and a growing
    delay, sending an action, and the loop that receives commands.

    A connection is the bytes put on it ([Net]) and the stream received from it.
    The receiver keeps reading the same connection: nothing reconnects it. *)

From S2P Require Export Command.

Local Open Scope Z_scope.

Record Manager := {
  m_host : string;
  m_port : Z;
  m_deviceID : string;
  m_token : string;
  m_client : option TCPClient;   (* nil until connected *)
  m_stopped : bool;              (* stopCh is closed *)
  m_conn : Net }.

Definition New (host : string) (port : Z) (deviceID token : string) : Manager := {|
  m_host := host; m_port := port; m_deviceID := deviceID; m_token := token; m_client := None;
  m_stopped := false; m_conn := fresh |}.
Definition set_client (c : option TCPClient) (n : Net) (m : Manager) : Manager := {|
  m_host := m_host m; m_port := m_port m; m_deviceID := m_deviceID m; m_token := m_token m;
  m_client := c; m_stopped := m_stopped m; m_conn := n |}.

(** ** Connecting *)

(** The network at each attempt. *)
Record connect_env := { net_at : nat → net_env }.

Definition maxDelay : Z := 30 * 10 ^ 9.
(** [time.Duration(float64(delay) * 1.5)], capped.  The product is exact below
    2^53 nanoseconds, and above it is over the cap. *)
Definition next_delay (d : Z) : Z :=
  let d' := Z.quot (3 * d) 2 in if decide (maxDelay < d') then maxDelay else d'.

(** One attempt: dial, then the login frame. *)
Definition attempt_connect (env : net_env) (m : Manager) : result (TCPClient * Net) :=
  match dial env (m_host m) (m_port m) with
  | Err e => Err ("max retries reached: " +:+ e)
  | Ok c =>
      match net_send env (SendLogin c (m_deviceID m) (m_token m)) fresh with
      | (n, Ok _) => Ok (c, n)
      | (_, Err e) => Err ("max retries reached after login failure: " +:+ e)
      end
  end.

(** The delays slept and the outcome.  Each turn counts one retry, so
    [max 1 maxRetries] is fuel enough. *)
Fixpoint connect_loop (fuel : nat) (env : connect_env) (maxRetries : Z) (m : Manager) (i : nat)
    (retryCount delay : Z) : list Z * result (TCPClient * Net) :=
  match fuel with
  | O => ([], Err "out of fuel")
  | S fuel =>
      match attempt_connect (net_at env i) m with
      | Ok r => ([], Ok r)
      | Err e =>
          if decide (maxRetries ≤ retryCount + 1) then ([], Err e) else
          let '(ds, r) := connect_loop fuel env maxRetries m (S i) (retryCount + 1)
            (next_delay delay) in
          (delay :: ds, r)
      end
  end.
Definition connect_fuel (maxRetries : Z) : nat := Z.to_nat (Z.max 1 maxRetries).

Definition Connect (env : connect_env) (maxRetries baseDelay : Z) (m : Manager) :
    Manager * list Z * result unit :=
  match connect_loop (connect_fuel maxRetries) env maxRetries m 0 0 baseDelay with
  | (ds, Ok (c, n)) => (set_client (Some c) n m, ds, Ok tt)
  | (ds, Err e) => (m, ds, Err e)
  end.

(** ** Sending *)

Section Sending.
Context `{AgentJson}.

Definition Manager_Send (env : net_env) (action : string) (data : action_data) : StE Manager unit :=
  λ m,
  match m_client m with
  | None => (m, Err "not connected")
  | Some c =>
      match encode_action action data with
      | Err e => (m, Err ("marshal payload: " +:+ e))
      | Ok b =>
          let '(n, r) := net_send env (SendCommand c b) (m_conn m) in
          (set_client (Some c) n m, wrap "send command: " r)
      end
  end.

(** The connection the periodic report goes through. *)
Definition manager_sender (env : net_env) : ConnectionSender Manager :=
  λ changes, Manager_Send env "filetree_sync" (DChanges changes).
End Sending.

Definition IsConnected (m : Manager) : bool :=
  match m_client m with Some _ => true | None => false end.

(** [Close]; closing the stop channel twice panics. *)
Definition Close (m : Manager) : Manager * outcome :=
  if m_stopped m then (m, Panic) else
  ({| m_host := m_host m; m_port := m_port m; m_deviceID := m_deviceID m; m_token := m_token m;
      m_client := None; m_stopped := true; m_conn := m_conn m |}, Done).

(** ** Receiving *)

Inductive loop_status := Receiving | LoopStopped | LoopPanicked.
#[export] Instance loop_status_eq_dec : EqDecision loop_status.
Proof. solve_decision. Defined.

Record Receiver := {
  stream : list ascii;         (* what the connection still delivers *)
  agent : AgentState;
  status : loop_status }.

Section Receiving.
Context `{CommandJson, AgentJson}.

(** What a failed read leaves: what follows the header of a frame that is too
    long, and nothing when the stream has ended. *)
Definition after_failure (c : TCPClient) (input : list ascii) : list ascii :=
  if negb (client_open c) then input else
  match recv_all_bytes 5 input with
  | Some (hdr, rest) => if decide (rd32 hdr 1 > PROTOCOL_MAX_PAYLOAD) then rest else []
  | None => []
  end.

(** One turn of [receiveLoop]. *)
Definition receive_turn (env : cmd_env) (m : Manager) (r : Receiver) : Receiver :=
  if negb (bool_decide (status r = Receiving)) then r else
  if m_stopped m then {| stream := stream r; agent := agent r; status := LoopStopped |} else
  match m_client m with
  | None => r
  | Some c =>
      match RecvProtocolMessage c (stream r) with
      | Err _ => {| stream := after_failure c (stream r); agent := agent r; status := Receiving |}
      | Ok (msg, rest) =>
          if decide (Type_ msg = MSG_COMMAND ∧ CommandJSON msg ≠ []) then
            match HandleCommand env (CommandJSON msg) (agent r) with
            | (s, Panic) => {| stream := rest; agent := s; status := LoopPanicked |}
            | (s, _) => {| stream := rest; agent := s; status := Receiving |}
            end
          else {| stream := rest; agent := agent r; status := Receiving |}
      end
  end.

Fixpoint receiveLoop (turns : nat) (envs : nat → cmd_env) (i : nat) (m : Manager) (r : Receiver) :
    Receiver :=
  match turns with
  | O => r
  | S turns => receiveLoop turns envs (S i) m (receive_turn (envs i) m r)
  end.
End Receiving.

(** ** Properties *)

(** *** Connecting *)

Fixpoint delay_at (base : Z) (i : nat) : Z :=
  match i with O => base | S i => delay_at (next_delay base) i end.

Lemma next_delay_bounds d : 0 ≤ d → 0 ≤ next_delay d ≤ maxDelay ∧ (d ≤ maxDelay → d ≤ next_delay d).
Proof.
  intros Hd. unfold next_delay, maxDelay.
  pose proof (Z.quot_div_nonneg (3 * d) 2 ltac:(lia) ltac:(lia)) as Hq. rewrite Hq.
  pose proof (Z.div_mod (3 * d) 2 ltac:(lia)). pose proof (Z.mod_pos_bound (3 * d) 2 ltac:(lia)).
  case_decide; lia.
Qed.
Lemma delay_at_bounds i : ∀ base, 0 ≤ base → 0 ≤ delay_at base i ≤ Z.max base maxDelay.
Proof.
  induction i as [|i IH]; intros base Hb; cbn [delay_at]; [lia|].
  pose proof (next_delay_bounds base Hb) as [Hn _]. specialize (IH (next_delay base)). lia.
Qed.

Lemma connect_loop_spec env maxRetries m fuel : ∀ i count delay,
  (1 ≤ fuel)%nat → Z.max 1 (maxRetries - count) ≤ Z.of_nat fuel →
  ∃ k, Z.of_nat k + 1 ≤ Z.max 1 (maxRetries - count) ∧
    (∀ j, (j < k)%nat → is_ok (attempt_connect (net_at env (i + j)) m) = false) ∧
    (connect_loop fuel env maxRetries m i count delay).1 = delay_at delay <$> seq 0 k ∧
    (connect_loop fuel env maxRetries m i count delay).2 = attempt_connect (net_at env (i + k)) m ∧
    (is_ok (connect_loop fuel env maxRetries m i count delay).2 = false →
      Z.of_nat k + 1 = Z.max 1 (maxRetries - count)).
Proof.
  induction fuel as [|fuel IH]; intros i count delay Hf Hle; [lia|]. cbn [connect_loop].
  destruct (attempt_connect (net_at env i) m) as [r|e] eqn:Ea.
  { exists 0%nat. rewrite Nat.add_0_r. split_and!; [lia|lia|done|by rewrite Ea|done]. }
  case_decide as Hmax.
  { exists 0%nat. rewrite Nat.add_0_r. split_and!; [lia|lia|done|by rewrite Ea|lia]. }
  destruct (IH (S i) (count + 1) (next_delay delay)) as (k & Hk & Hbefore & Hds & Hr & Herr); [lia..|].
  destruct (connect_loop fuel env maxRetries m (S i) (count + 1) (next_delay delay)) as [ds r].
  cbn [fst snd] in *. exists (S k). split_and!.
  - lia.
  - intros [|j] Hj; [by rewrite Nat.add_0_r, Ea|]. rewrite Nat.add_succ_r. apply Hbefore. lia.
  - rewrite Hds. cbn [seq fmap list_fmap]. f_equal. rewrite <- fmap_S_seq, <- list_fmap_compose.
    by apply list_fmap_ext.
  - rewrite Hr. by rewrite Nat.add_succ_r.
  - intros Ho. specialize (Herr Ho). lia.
Qed.

(** Connecting ends after at most [max 1 maxRetries] attempts: it succeeds with
    the first attempt that succeeds, and fails only when all of them failed, with
    the error of the last.  Between attempts it sleeps the base delay and half as
    much again each time, never longer than thirty seconds or the base delay. *)
Theorem connect_bounded env maxRetries base m :
  0 ≤ base →
  let '(m', sleeps, r) := Connect env maxRetries base m in
  ∃ k, Z.of_nat k + 1 ≤ Z.max 1 maxRetries ∧
    (∀ j, (j < k)%nat → is_ok (attempt_connect (net_at env j) m) = false) ∧
    sleeps = delay_at base <$> seq 0 k ∧ Forall (λ d, 0 ≤ d ≤ Z.max base maxDelay) sleeps ∧
    match attempt_connect (net_at env k) m with
    | Ok (c, n) => r = Ok tt ∧ m' = set_client (Some c) n m
    | Err e => r = Err e ∧ m' = m ∧ Z.of_nat k + 1 = Z.max 1 maxRetries
    end.
Proof.
  intros Hb. unfold Connect.
  destruct (connect_loop_spec env maxRetries m (connect_fuel maxRetries) 0 0 base)
    as (k & Hk & Hbefore & Hds & Hr & Herr); [unfold connect_fuel; lia..|].
  destruct (connect_loop (connect_fuel maxRetries) env maxRetries m 0 0 base) as [ds r].
  cbn [fst snd] in *. rewrite Z.sub_0_r in *. cbn [Nat.add] in *. subst r ds.
  assert (Forall (λ d, 0 ≤ d ≤ Z.max base maxDelay) (delay_at base <$> seq 0 k)) as Hall.
  { apply Forall_fmap, Forall_true. intros i. by apply delay_at_bounds. }
  destruct (attempt_connect (net_at env k) m) as [[c n]|e] eqn:Ea; exists k; rewrite Ea; split_and!;
    try done. by apply Herr.
Qed.

(** Three refused dials, then a connection. *)
Definition late_server : connect_env := {| net_at := λ i,
  {| dial := λ _ _, if decide (i < 3)%nat then Err "refused" else Ok (Some 4);
     takes := λ _, true; partial := λ _, 0%nat |} |}.
Lemma connect_bounded_witness :
  let '(m', sleeps, r) := Connect late_server 10 (10 ^ 9) (New "h" 1 "laptop" "tok") in
  r = Ok tt ∧ sleeps = [10 ^ 9; 1500 * 10 ^ 6; 2250 * 10 ^ 6] ∧ IsConnected m' = true ∧
  Forall (λ d, 0 ≤ d ≤ Z.max (10 ^ 9) maxDelay) sleeps.
Proof.
  pose proof (connect_bounded late_server 10 (10 ^ 9) (New "h" 1 "laptop" "tok") ltac:(lia)) as Hc.
  destruct (Connect late_server 10 (10 ^ 9) (New "h" 1 "laptop" "tok")) as [[m' sleeps] r] eqn:E.
  vm_compute in E. injection E as <- <- <-. destruct Hc as (k & _ & _ & _ & Hall & _).
  split; [reflexivity|]. split; [reflexivity|]. split; [reflexivity|]. exact Hall.
Defined.
