(* ===== verification/CommandProofs.v ===== *)
(** * The agent's commands: properties *)

From S2P Require Export Connection TransferProofs.

Local Open Scope Z_scope.

Section Dispatching.
Context `{CommandJson, AgentJson}.

(** The argument a handler gets. *)
Definition argument (h : handler) (e : Envelope) : result arg_value :=
  if decide (Env_Argument e = []) then Ok NoArg else DecodeArg h (Env_Argument e).

(** The request of get_logs for a state. *)
Definition send_logs (env : cmd_env) (s : AgentState) : Net * result ProtocolMessage :=
  SendAction (cmd_net env) (cmd_reply env) (BackendHost env) (BackendPort env) (DeviceID_ s)
    (TrimSpace (Token_ s)) "agent_log"
    (DLines (match log_file env with Ok b => of_bytes b | Err _ => no_log end)) (net s).

Lemma Dispatch_known env e s h arg :
  Get (Env_Name e) = Some h → argument h e = Ok arg →
  Dispatch env e s =
    if decide (resolveKind e = KindOnce) then HandleOnce env h arg s
    else if decide (resolveKind e = KindStream) then dispatch_stream h (Env_Name e) arg s
    else (s, Done).
Proof. intros Hg Ha. unfold Dispatch. rewrite Hg. unfold argument in Ha. by rewrite Ha. Qed.

Lemma of_result_not_panic {A} (r : result A) : of_result r ≠ Panic.
Proof. by destruct r. Qed.

Lemma getLogs_once_panics env s :
  (getLogs_once env s).2 = Panic ↔
  TrimSpace (Token_ s) ≠ "" ∧ is_ok (send_logs env s).2 = false.
Proof.
  unfold getLogs_once, send_logs. cbv zeta. destruct (decide (TrimSpace (Token_ s) = "")) as [Ht|Ht].
  - split; [done|]. by intros [? _].
  - destruct (SendAction _ _ _ _ _ _ _ _ _) as [n [r|e]]; cbn; split; try done. by intros [_ ?].
Qed.

Lemma restore_once_not_panic env a s : (restore_once env a s).2 ≠ Panic.
Proof.
  unfold restore_once. cbv zeta. case_decide; [done|].
  destruct (if decide _ then _ else _); [done|].
  destruct (InitDownload _ _ _ _ _ _ _ _) as [n [session|e]]; [|done].
  by destruct (download_to _ _ _ _) as [s' [[]|e]].
Qed.

Lemma HandleOnce_panics env h arg s :
  (HandleOnce env h arg s).2 = Panic ↔
  h = getLogsHandler ∧ TrimSpace (Token_ s) ≠ "" ∧ is_ok (send_logs env s).2 = false.
Proof.
  destruct h; cbn [HandleOnce].
  - rewrite getLogs_once_panics. tauto.
  - split; [|by intros [? _]]. by destruct arg.
  - split; [|by intros [? _]]. destruct arg; try done. intros Hp. by destruct (restore_once_not_panic env a s).
  - split; [|by intros [? _]]. destruct arg; try done. unfold blockWebsite_once.
    destruct (Hosts.block_website _ _ _ _) as [hm r]. intros Hp. by destruct (of_result_not_panic r).
Qed.

Lemma dispatch_stream_panics h name arg s :
  (dispatch_stream h name arg s).2 = Panic ↔ active s !! name = Some NilFunc.
Proof.
  unfold dispatch_stream. destruct (active s !! name) as [[]|]; cbn [call_stop fmap option_fmap option_map].
  - split; [|done]. by destruct (Start _ _ _) as [s2 [f|e]].
  - done.
  - split; [|done]. by destruct (Start _ _ _) as [s2 [f|e]].
Qed.
End Dispatching.

(** When a command kills the agent: exactly when it is get_logs, run once with
    a token, and its request fails (the log statement reads the fields of the
    missing answer), or when it is run as a stream while the command before it,
    of the same name, left a nil stop function.  Every other command, whatever
    its argument, comes back with success or an error. *)
Theorem dispatch_panics `{CommandJson, AgentJson} env e s :
  (Dispatch env e s).2 = Panic ↔
  ∃ h arg, Get (Env_Name e) = Some h ∧ argument h e = Ok arg ∧
    ((resolveKind e = KindOnce ∧ h = getLogsHandler ∧ TrimSpace (Token_ s) ≠ "" ∧
      is_ok (send_logs env s).2 = false) ∨
     (resolveKind e = KindStream ∧ active s !! Env_Name e = Some NilFunc)).
Proof.
  destruct (Get (Env_Name e)) as [h|] eqn:Eg.
  2: { unfold Dispatch. rewrite Eg. split; [done|]. by intros (h & arg & ? & _). }
  destruct (argument h e) as [arg|x] eqn:Ea.
  2: { unfold Dispatch. rewrite Eg. unfold argument in Ea. rewrite Ea. split; [done|].
       intros (h' & arg & [= <-] & Ha & _). unfold argument in Ha. by rewrite Ea in Ha. }
  rewrite (Dispatch_known env e s h arg Eg Ea).
  assert (KindOnce ≠ KindStream) as Hks by done.
  split.
  - intros Hp. exists h, arg. split; [done|]. split; [done|].
    case_decide as Hk; [left; by apply HandleOnce_panics in Hp|].
    case_decide as Hk'; [right; by apply dispatch_stream_panics in Hp|done].
  - intros (h' & arg' & [= <-] & Ha & Hcase). rewrite Ea in Ha. injection Ha as <-.
    destruct Hcase as [(Hk & Hrest)|(Hk & Hrest)].
    + rewrite decide_True by done. by apply HandleOnce_panics.
    + rewrite Hk, decide_False, decide_True by done. by apply dispatch_stream_panics.
Qed.

(** A stand-in for encoding/json: the command, the kind, the device and the
    argument, separated by slashes. *)
#[export] Instance sample_command_json : CommandJson := {
  decode_envelope_cmd := λ b, Ok {| Env_DeviceID := field 2 b; Env_Name := field 0 b;
    Env_Kind := field 1 b; Env_Argument := to_bytes (Join (drop 3 (fields b))) |};
  decode_get_logs := λ b, Ok {| Lines := 5 |};
  decode_backup_auto := λ b, Ok {| Auto_Enabled := if decide (of_bytes b = "on") then Some true
    else if decide (of_bytes b = "off") then Some false else None; IntervalSec := 0 |};
  decode_restore := λ b, Err "json";
  decode_block_website := λ b, Err "json" }.

Definition sample_cmd_env : cmd_env := {|
  hosts_env1 := Hosts.ok_env; hosts_env2 := Hosts.ok_env; log_file := Err "no log";
  BackendHost := "h"; BackendPort := 1; cmd_net := sample_net; cmd_reply := []; cmd_stream := [];
  mkdir_dest_err := λ _, None; open_dest_err := λ _, None; dest_write_err := λ _, None;
  cmd_local := plain_local; cmd_now := 0; temp_dir := "/tmp" |}.
Definition sample_agent : AgentState := {|
  Token_ := "tok"; DeviceID_ := "laptop"; hosts_mgr := Hosts.GetHostsManager None None;
  backups := initial_flags; agent_db := None; active := ∅; net := fresh; disk := ∅ |}.

(** A server that does not answer kills an agent asked for its logs, and so does
    the second get_logs sent as a stream. *)
Lemma dispatch_panics_witness :
  (Dispatch sample_cmd_env {| Env_DeviceID := "laptop"; Env_Name := "get_logs"; Env_Kind := "";
     Env_Argument := [] |} sample_agent).2 = Panic ∧
  let e := {| Env_DeviceID := "laptop"; Env_Name := "get_logs"; Env_Kind := "stream";
              Env_Argument := [] |} in
  (Dispatch sample_cmd_env e (Dispatch sample_cmd_env e sample_agent).1).2 = Panic.
Proof.
  split.
  - apply (proj2 (dispatch_panics sample_cmd_env {| Env_DeviceID := "laptop";
      Env_Name := "get_logs"; Env_Kind := ""; Env_Argument := [] |} sample_agent)).
    exists getLogsHandler, NoArg. split; [reflexivity|]. split; [reflexivity|]. left.
    split; [reflexivity|]. split; [reflexivity|]. split; [discriminate|]. vm_compute. reflexivity.
  - cbv zeta. vm_compute. reflexivity.
Defined.

(** ** Switching backups *)

(** The argument of backup_auto, when it has one. *)
Definition auto_argument `{CommandJson} (e : Envelope) : result (option backupAutoArg) :=
  if decide (Env_Argument e = []) then Ok None else
  a ← decode_backup_auto (Env_Argument e); Ok (Some a).

(** What backup_auto does when it is run in its own way, as a stream: with
    "enabled" it switches automatic backups on or off accordingly and is then
    running; without "enabled" it leaves them as they were the first time, but
    switches them off when it is running already, although no change was asked
    for; and without any argument it fails, after switching them off when it was
    running. *)
Theorem backup_auto_effect `{CommandJson, AgentJson} env e s arg :
  Env_Name e = "backup_auto" → resolveKind e = KindStream → active s !! "backup_auto" ≠ Some NilFunc →
  auto_argument e = Ok arg →
  let '(s', r) := Dispatch env e s in
  let was_running := bool_decide (active s !! "backup_auto" = Some StopBackup) in
  r = (match arg with Some _ => Done | None => Failed "invalid argument type" end) ∧
  enabled (backups s') =
    (match arg with
     | Some {| Auto_Enabled := Some b |} => b
     | _ => if was_running : bool then false else enabled (backups s)
     end) ∧
  active s' !! "backup_auto" = (match arg with Some _ => Some StopBackup | None => None end) ∧
  disk s' = disk s ∧ agent_db s' = agent_db s ∧ hosts_mgr s' = hosts_mgr s.
Proof.
  intros Hname Hk Hnil Harg.
  assert (Get (Env_Name e) = Some backupAutoHandler) as Hg by by rewrite Hname.
  assert (argument backupAutoHandler e =
    Ok (match arg with Some a => BackupAutoArg a | None => NoArg end)) as Ha.
  { unfold argument, auto_argument in *. case_decide as He; [by injection Harg as <-|].
    cbn [DecodeArg]. unfold backupAuto_DecodeArg. rewrite decide_False by done.
    destruct (decode_backup_auto (Env_Argument e)) as [a|x]; [|done]. by injection Harg as <-. }
  rewrite (Dispatch_known env e s _ _ Hg Ha), Hk, Hname.
  rewrite decide_False, decide_True by done. unfold dispatch_stream.
  destruct (active s !! "backup_auto") as [[]|] eqn:Eact; [| by destruct Hnil |];
    cbn [call_stop fmap option_fmap option_map];
    [rewrite bool_decide_eq_true_2 by done|rewrite bool_decide_eq_false_2 by done];
    (destruct arg as [[[b|] iv]|]; cbn;
      split_and!; try done; by rewrite ?lookup_insert_eq, ?lookup_delete_eq).
Qed.

Lemma backup_auto_effect_witness :
  let e a := {| Env_DeviceID := "laptop"; Env_Name := "backup_auto"; Env_Kind := "";
                Env_Argument := to_bytes a |} in
  let s1 := (Dispatch sample_cmd_env (e "on") sample_agent).1 in
  enabled (backups s1) = true ∧
  enabled (backups (Dispatch sample_cmd_env (e "keep") s1).1) = false.
Proof.
  cbv zeta. split; [vm_compute; reflexivity|].
  set (s1 := (Dispatch sample_cmd_env _ sample_agent).1).
  assert (active s1 !! "backup_auto" = Some StopBackup) as Hact by (vm_compute; reflexivity).
  pose proof (backup_auto_effect sample_cmd_env {| Env_DeviceID := "laptop";
    Env_Name := "backup_auto"; Env_Kind := ""; Env_Argument := to_bytes "keep" |} s1
    (Some {| Auto_Enabled := None; IntervalSec := 0 |})) as He.
  destruct (Dispatch sample_cmd_env _ s1) as [s2 r]. rewrite Hact in He.
  rewrite bool_decide_eq_true_2 in He by reflexivity. cbn [fst].
  apply He; [reflexivity|reflexivity|discriminate|vm_compute; reflexivity].
Defined.
