(* ===== verification/ConnectionProofs.v ===== *)
(** * Commands and reports across the connection

    What the server writes for a device is what the agent's dispatcher gets, and
    what the agent reports is what the server's file tree applies. *)

From S2P Require Export CommandProofs ServiceProofs.

Local Open Scope Z_scope.

(** ** The receive loop *)

Section Loop.
Context `{CommandJson, AgentJson}.

(** The messages one after the other; anything but a command is skipped. *)
Fixpoint handle_all (envs : nat → cmd_env) (i : nat) (msgs : list ProtocolMessage) (s : AgentState) :
    AgentState * loop_status :=
  match msgs with
  | [] => (s, Receiving)
  | msg :: msgs =>
      if decide (Type_ msg = MSG_COMMAND ∧ CommandJSON msg ≠ []) then
        match HandleCommand (envs i) (CommandJSON msg) s with
        | (s', Panic) => (s', LoopPanicked)
        | (s', _) => handle_all envs (S i) msgs s'
        end
      else handle_all envs (S i) msgs s
  end.

Lemma receiveLoop_done turns envs m : ∀ i r, status r ≠ Receiving → receiveLoop turns envs i m r = r.
Proof.
  induction turns as [|turns IH]; intros i r Hr; [done|]. cbn [receiveLoop].
  assert (receive_turn (envs i) m r = r) as ->; [|by apply IH].
  unfold receive_turn. by rewrite bool_decide_eq_false_2.
Qed.

Lemma after_failure_nil c : after_failure c [] = [].
Proof. unfold after_failure. destruct (client_open c); reflexivity. Qed.

Lemma receiveLoop_idle turns envs m c : ∀ i s,
  m_client m = Some c → m_stopped m = false →
  receiveLoop turns envs i m {| stream := []; agent := s; status := Receiving |} =
    {| stream := []; agent := s; status := Receiving |}.
Proof.
  induction turns as [|turns IH]; intros i s Hm Hs; [done|]. cbn [receiveLoop].
  assert (receive_turn (envs i) m {| stream := []; agent := s; status := Receiving |} =
    {| stream := []; agent := s; status := Receiving |}) as ->; [|by apply IH].
  unfold receive_turn. cbn [status stream agent].
  rewrite bool_decide_eq_true_2 by done. cbn [negb]. rewrite Hs, Hm.
  pose proof (recv_empty c) as Hr. destruct (RecvProtocolMessage c []) as [[]|]; [done|].
  by rewrite after_failure_nil.
Qed.

Lemma receive_turn_message env m c frame rest msg s :
  m_client m = Some c → m_stopped m = false → client_open c = true → delivers frame msg →
  receive_turn env m {| stream := frame ++ rest; agent := s; status := Receiving |} =
    if decide (Type_ msg = MSG_COMMAND ∧ CommandJSON msg ≠ []) then
      match HandleCommand env (CommandJSON msg) s with
      | (s', Panic) => {| stream := rest; agent := s'; status := LoopPanicked |}
      | (s', _) => {| stream := rest; agent := s'; status := Receiving |}
      end
    else {| stream := rest; agent := s; status := Receiving |}.
Proof.
  intros Hm Hst Hc Hd. unfold receive_turn. cbn [status stream agent].
  rewrite bool_decide_eq_true_2 by done. cbn [negb]. by rewrite Hst, Hm, (Hd c rest Hc).
Qed.
End Loop.

Lemma loop_handles `{CommandJson, AgentJson} envs m c frames msgs extra s :
  m_client m = Some c → m_stopped m = false → client_open c = true →
  Forall2 delivers frames msgs →
  let r := receiveLoop (length frames + extra) envs 0 m
             {| stream := concat frames; agent := s; status := Receiving |} in
  (agent r, status r) = handle_all envs 0 msgs s.
Proof.
  intros Hm Hst Hc Hf. cbv zeta. generalize 0%nat as i. revert s.
  induction Hf as [|frame msg frames msgs Hd _ IH]; intros s i.
  { cbn [length Nat.add concat handle_all]. by rewrite (receiveLoop_idle _ _ m c). }
  cbn [length Nat.add concat receiveLoop handle_all].
  rewrite (receive_turn_message _ m c frame _ msg s Hm Hst Hc Hd). case_decide; [|apply IH].
  destruct (HandleCommand (envs i) (CommandJSON msg) s) as [s' []]; [apply IH..|].
  by rewrite receiveLoop_done.
Qed.

(** C28. Every command that arrives on the connection is dispatched, in order and
    exactly once: when the stream holds the frames of some messages, the loop,
    given at least one turn for each, has handled every command among them one
    after the other, unless one of them killed the agent; and once the stream
    has ended no further turn does anything, for nothing reconnects. *)
Theorem commands_run_in_order `{CommandJson, AgentJson} envs m c frames msgs extra s :
  m_client m = Some c → m_stopped m = false → client_open c = true →
  Forall2 delivers frames msgs →
  let r := receiveLoop (length frames + extra) envs 0 m
             {| stream := concat frames; agent := s; status := Receiving |} in
  (agent r, status r) = handle_all envs 0 msgs s.
Proof. apply loop_handles. Qed.

Definition connected : Manager :=
  set_client (Some (Some 4)) Transfer.fresh (New "h" 1 "laptop" "tok").
Lemma commands_run_in_order_witness :
  ∃ f1 f2, SendCommand (Some 3) (to_bytes "backup_auto///off") = Ok f1 ∧
    SendAck (Some 3) 200 "pong" = Ok f2 ∧
    enabled (backups (agent (receiveLoop 5 (λ _, sample_cmd_env) 0 connected
      {| stream := concat [f1; f2]; agent := sample_agent; status := Receiving |}))) = false.
Proof.
  destruct (SendCommand (Some 3) (to_bytes "backup_auto///off")) as [f1|e] eqn:E1;
    [|vm_compute in E1; discriminate].
  destruct (SendAck (Some 3) 200 "pong") as [f2|e] eqn:E2; [|vm_compute in E2; discriminate].
  exists f1, f2. split; [reflexivity|]. split; [reflexivity|].
  assert (Forall2 delivers [f1; f2]
    [received (OCommand (to_bytes "backup_auto///off")); received (OAck 200 "pong")]) as Hd.
  { repeat constructor.
    - apply (send_delivers (Some 3) (OCommand (to_bytes "backup_auto///off"))); [exact E1|done..].
    - apply (send_delivers (Some 3) (OAck 200 "pong")); [exact E2| |done].
      split; [unfold nul_free; by_decide|lia]. }
  pose proof (commands_run_in_order (λ _, sample_cmd_env) connected (Some 4) [f1; f2] _ 3
    sample_agent eq_refl eq_refl eq_refl Hd) as Hr.
  cbv zeta in Hr. apply (f_equal (λ r, enabled (backups r.1))) in Hr. cbn [fst] in Hr.
  change (length [f1; f2] + 3)%nat with 5%nat in Hr. rewrite Hr. vm_compute. reflexivity.
Defined.

(** ** From the administrator to the dispatcher *)

(** Both sides use encoding/json on the same field names: what the server encodes
    for valid texts is read back, the argument in its compact form; the text has
    no outer white space. *)
Class CommandWire `{Json, CommandJson} := {
  valid_text : string → Prop;
  compact : list ascii → list ascii;
  command_read_back req b : encode_command req = Ok b →
    valid_text (Wire_DeviceID req) → valid_text (Wire_Command req) → valid_text (Wire_Kind req) →
    b ≠ [] ∧ TrimSpace (of_bytes b) = of_bytes b ∧
    decode_envelope_cmd b = Ok {| Env_DeviceID := Wire_DeviceID req; Env_Name := Wire_Command req;
      Env_Kind := Wire_Kind req; Env_Argument := compact (Wire_Argument req) |} }.

Lemma HandleCommand_encoded `{CommandWire, !AgentJson} env req b s :
  encode_command req = Ok b →
  valid_text (Wire_DeviceID req) → valid_text (Wire_Command req) → valid_text (Wire_Kind req) →
  b ≠ [] ∧ HandleCommand env b s = Dispatch env {| Env_DeviceID := Wire_DeviceID req;
    Env_Name := Wire_Command req; Env_Kind := Wire_Kind req;
    Env_Argument := compact (Wire_Argument req) |} s.
Proof.
  intros Hb Hd Hc Hk. destruct (command_read_back req b Hb Hd Hc Hk) as (Hne & Htrim & Hdec).
  split; [done|]. unfold HandleCommand. rewrite Htrim, to_of_bytes, decide_False by done.
  by rewrite Hdec.
Qed.

(** What becomes of an admin command that the server reports as sent. *)
Lemma admin_send_turn `{EngineLaws DB, CommandWire, !AgentJson} ctl env payload
    (s s' : ServerState DB) resp :
  queue_ok s → handleAdminSendCommand ctl env payload s = (s', Ok (RSend resp)) →
  Sent resp = true →
  ∃ req fr, decode_send payload = Ok req ∧ wire s' = wire s ++ [fr] ∧
    (valid_text (Send_DeviceID req) → valid_text (Send_Command req) → valid_text (Send_Kind req) →
     ∀ agent_env m c rest a, m_client m = Some c → m_stopped m = false → client_open c = true →
       let d := Dispatch agent_env {| Env_DeviceID := Send_DeviceID req;
         Env_Name := Send_Command req; Env_Kind := Send_Kind req;
         Env_Argument := compact (Send_Payload req) |} a in
       receive_turn agent_env m {| stream := fr.2 ++ rest; agent := a; status := Receiving |} =
         {| stream := rest; agent := d.1;
            status := match d.2 with Panic => LoopPanicked | _ => Receiving end |}).
Proof.
  intros Hok Hh Hsent. unfold handleAdminSendCommand in Hh. destruct (negb _); [done|].
  apply StE_bind_ok in Hh as (s0 & req & Hl & Hh). cbv beta in Hh.
  unfold lift in Hl. injection Hl as <- Hreq. case_decide; [done|].
  apply StE_bind_ok in Hh as (s1 & cmd & Hc & Hh). cbv beta in Hh.
  apply wrap_st_ok in Hc. unfold on_db, on_backup in Hc.
  apply zoom_ok in Hc as (b & Hc & ->). apply zoom_ok in Hc as (d & Hc & ->).
  apply create_command_ok in Hc as (Hok1 & _); [|done].
  set (s1 := set_backup _ s) in *.
  destruct (send_now_spec env req (AgentCommand_ID cmd) s1) as (s2 & sent & Hs & _ & _ & Hcase);
    [done|].
  unfold mbind, StE_bind in Hh. rewrite Hs in Hh. injection Hh as <- <-. cbn [Sent] in Hsent.
  subst sent. destruct Hcase as (fr & p & Hw & Hp & Hdel). exists req, fr.
  split; [done|]. split; [exact Hw|]. intros Hv1 Hv2 Hv3 aenv m c rest a Hm Hst Hcl. cbv zeta.
  destruct (HandleCommand_encoded aenv (wire_request req) p a Hp Hv1 Hv2 Hv3) as [Hne Hdisp].
  rewrite (receive_turn_message aenv m c fr.2 rest _ a Hm Hst Hcl Hdel).
  cbn [received type_of Type_ CommandJSON]. rewrite decide_True by done. rewrite Hdisp.
  cbn [wire_request Wire_DeviceID Wire_Command Wire_Kind Wire_Argument].
  by destruct (Dispatch _ _ _) as [a' []].
Qed.

(** C6. An admin command reported as sent reaches the dispatcher of the agent: the
    one frame the server wrote, received by the agent's loop, makes it dispatch
    exactly the command, kind and argument of the request. *)
Theorem admin_command_dispatched `{EngineLaws DB, CommandWire, !AgentJson} ctl env payload
    (s s' : ServerState DB) resp :
  queue_ok s → handleAdminSendCommand ctl env payload s = (s', Ok (RSend resp)) →
  Sent resp = true →
  ∃ req fr, decode_send payload = Ok req ∧ wire s' = wire s ++ [fr] ∧
    (valid_text (Send_DeviceID req) → valid_text (Send_Command req) → valid_text (Send_Kind req) →
     ∀ agent_env m c rest a, m_client m = Some c → m_stopped m = false → client_open c = true →
       let d := Dispatch agent_env {| Env_DeviceID := Send_DeviceID req;
         Env_Name := Send_Command req; Env_Kind := Send_Kind req;
         Env_Argument := compact (Send_Payload req) |} a in
       receive_turn agent_env m {| stream := fr.2 ++ rest; agent := a; status := Receiving |} =
         {| stream := rest; agent := d.1;
            status := match d.2 with Panic => LoopPanicked | _ => Receiving end |}).
Proof. apply admin_send_turn. Qed.

(** *** A server and an agent to run it on *)

Lemma Split_free s : slash_free s → Split s = [s].
Proof. intros Hs. unfold Split. rewrite split_bytes_single by done. cbn. by rewrite of_to_bytes. Qed.

#[export] Instance sample_wire : CommandWire.
Proof.
  refine {| valid_text := slash_free; compact := λ b, b |}.
  intros req b Hb Hd Hc Hk. cbn [encode_command sample_json] in Hb. cbv zeta in Hb.
  set (text := Join _) in *. destruct (decide (TrimSpace text = text)) as [Ht|]; [|discriminate].
  injection Hb as <-.
  assert (Split text = [Wire_Command req; Wire_Kind req; Wire_DeviceID req] ++
    Split (of_bytes (Wire_Argument req))) as Hs.
  { subst text. rewrite !Join_cons_cons, Join_singleton, !Split_slash_app, !Split_free by done. done. }
  rewrite of_to_bytes. split; [|split; [exact Ht|]].
  - intros He. apply to_bytes_nil in He. rewrite He in Hs. discriminate Hs.
  - cbn [decode_envelope_cmd sample_command_json]. unfold field, fields. rewrite of_to_bytes, Hs.
    change (drop 3 _) with (Split (of_bytes (Wire_Argument req))).
    by rewrite Join_Split, to_of_bytes.
Defined.

Definition online_laptop : ServerState Tables :=
  set_hub (Register ∅ "laptop" (Some 5)) (initial_server empty_tables).
Lemma admin_command_dispatched_witness :
  ∃ fr, (handleAdminSendCommand sample_ctl sample_env (to_bytes "laptop/backup_auto/stream/off")
           online_laptop).1.(wire) = [fr] ∧
    enabled (backups (agent (receive_turn sample_cmd_env connected
      {| stream := fr.2; agent := sample_agent; status := Receiving |}))) = false.
Proof.
  destruct (handleAdminSendCommand sample_ctl sample_env
    (to_bytes "laptop/backup_auto/stream/off") online_laptop) as [s' [r|e]] eqn:E;
    [|apply (f_equal (λ r, is_ok r.2)) in E; vm_compute in E; discriminate].
  assert (∃ resp, r = RSend resp ∧ Sent resp = true) as (resp & -> & Hsent).
  { apply (f_equal (λ x, match x.2 with Ok (RSend resp) => Sent resp | _ => false end)) in E.
    vm_compute in E. destruct r; try discriminate. eexists. split; [reflexivity|]. exact (eq_sym E). }
  destruct (admin_command_dispatched sample_ctl sample_env
    (to_bytes "laptop/backup_auto/stream/off") online_laptop s' resp) as (req & fr & Hreq & Hw & Hrun).
  - intros k v Hk. simplify_map_eq.
  - exact E.
  - exact Hsent.
  - vm_compute in Hreq. injection Hreq as <-. exists fr. split; [exact Hw|].
    specialize (Hrun ltac:(unfold valid_text; cbn; unfold slash_free; by_decide)
      ltac:(unfold valid_text; cbn; unfold slash_free; by_decide)
      ltac:(unfold valid_text; cbn; unfold slash_free; by_decide)
      sample_cmd_env connected (Some 4) [] sample_agent eq_refl eq_refl eq_refl).
    cbv zeta in Hrun. rewrite app_nil_r in Hrun. rewrite Hrun. vm_compute. reflexivity.
Defined.

(** ** From the queue to the dispatcher *)

(** The command as the agent reads it, and the queued commands dispatched one
    after the other; a handler that panics ends the agent. *)
Definition envelope_of `{CommandWire} (dev : string) (c : AgentCommand) : Envelope := {|
  Env_DeviceID := dev; Env_Name := Command c; Env_Kind := Kind c;
  Env_Argument := compact (to_bytes (Payload c)) |}.

Fixpoint dispatch_all `{CommandWire, !AgentJson} (envs : nat → cmd_env) (i : nat) (dev : string)
    (cmds : list AgentCommand) (a : AgentState) : AgentState * loop_status :=
  match cmds with
  | [] => (a, Receiving)
  | c :: cmds =>
      match Dispatch (envs i) (envelope_of dev c) a with
      | (a', Panic) => (a', LoopPanicked)
      | (a', _) => dispatch_all envs (S i) dev cmds a'
      end
  end.

Definition valid_command `{CommandWire} (c : AgentCommand) : Prop :=
  valid_text (Command c) ∧ valid_text (Kind c).

Lemma carried_dispatched `{CommandWire, !AgentJson} envs dev cmds frames :
  valid_text dev → Forall valid_command cmds → Forall2 (carries dev) cmds frames →
  ∃ msgs, Forall2 delivers frames.*2 msgs ∧
    ∀ i a, handle_all envs i msgs a = dispatch_all envs i dev cmds a.
Proof.
  intros Hdev Hval Hc. induction Hc as [|c fr cmds frames (p & Hp & Hd) _ IH].
  { exists []. split; [constructor|done]. }
  apply Forall_cons in Hval as [[Hv Hk] Hval]. destruct (IH Hval) as (msgs & Hmsgs & Hrun).
  exists (received (OCommand p) :: msgs). split; [by constructor|]. intros i a.
  destruct (HandleCommand_encoded (envs i) (retry_request dev c) p a Hp Hdev Hv Hk) as [Hne Hdisp].
  cbn [handle_all dispatch_all]. cbn [received type_of Type_ CommandJSON].
  rewrite decide_True by done. rewrite Hdisp.
  change (Dispatch _ _ _) with (Dispatch (envs i) (envelope_of dev c) a).
  by destruct (Dispatch _ _ _) as [a' []].
Qed.


(** A command waiting for a device that has just logged in. *)
Definition waiting_laptop : ServerState Tables :=
  let req := {| Send_DeviceID := "laptop"; Send_Command := "backup_auto"; Send_Kind := "stream";
    Send_Payload := to_bytes "off" |} in
  set_hub (Register ∅ "laptop" (Some 5))
    (initial_server (Commands_Create (pending_command req) empty_tables).1).

Lemma waiting_laptop_ok : queue_ok waiting_laptop.
Proof. intros k v Hk. cbn in Hk. apply lookup_singleton_Some in Hk as [<- <-]. reflexivity. Qed.


(** ** From the monitored files to the tree *)

Section Reports.
Context `{Engine DB, Sha1, Bcrypt, JwtLib, Json} (ctl : ProtocolController).
Implicit Types s : ServerState DB.

Lemma ack_keeps_rest env client code text s :
  let s' := (ack env client code text s).1 in
  backup s' = backup s ∧ deviceTokens s' = deviceTokens s.
Proof.
  apply (stable_ack (λ s', backup s' = backup s ∧ deviceTokens s' = deviceTokens s)); [|done].
  intros fd f s' Hs. exact Hs.
Qed.

(** The server's side of a report: applied as a whole batch, one change after the
    other, or refused. *)
Lemma report_frame env client dev body payload changes s :
  Tree ctl = true → body ≠ [] → decode_envelope body = Ok ("filetree_sync", payload) →
  decode_changes payload = Ok changes →
  let s' := (HandleMessage ctl env client (from_device dev (OCommand body)) s).1 in
  deviceTokens s' = deviceTokens s ∧
  (if authorized s dev
   then db (backup s') = (ApplyChanges dev (nanos env) changes (db (backup s))).1
   else backup s' = backup s).
Proof.
  intros Htree Hb Hd Hc. cbv zeta. unfold HandleMessage.
  rewrite decide_False by done. rewrite decide_True by done. unfold handleSubCommand.
  cbn [from_device received CommandJSON DeviceID]. rewrite decide_False by done. rewrite Hd.
  unfold isAuthorized, gets, mbind, StE_bind. cbv beta iota.
  rewrite bool_decide_eq_true_2 by by_decide. cbn [andb].
  destruct (authorized s dev) eqn:Ha; cbn [negb].
  2: { destruct (ack_keeps_rest env client 401 "unauthorized" s) as [Hx Hy]. by split. }
  assert (dev ≠ "") as Hdev by (intros ->; discriminate Ha).
  unfold dispatch. rewrite !decide_False by done. rewrite decide_True by done.
  assert (handleFileTreeSync ctl env dev payload s =
    on_db (ApplyChanges dev (nanos env) changes) s) as Hf.
  { unfold handleFileTreeSync, require_authorized, isAuthorized, gets, lift, mbind, StE_bind.
    rewrite Ha, Htree. cbn [negb mret StE_ret]. rewrite decide_False by done. by rewrite Hc. }
  unfold answer, mbind, StE_bind, attempt. rewrite Hf. unfold on_db, on_backup, zoom.
  destruct (ApplyChanges dev (nanos env) changes (db (backup s))) as [d [[]|e]]; cbn [fst snd];
    match goal with |- context [ack env client ?code ?text ?s1] =>
      destruct (ack_keeps_rest env client code text s1) as [Hx Hy]; by rewrite Hx, Hy end.
Qed.
End Reports.

(** C7. A report sent on the connection: when a round of the agent succeeds with
    something to report, it has put exactly one frame on the wire.  The server
    that receives it applies exactly the reported changes, in order, to the tree
    of the device, when the device is authorized.  When it is not, or when a
    change fails, nothing tells the agent: in every case the rows it selected
    are no longer marked as pending. *)
Theorem report_reaches_tree `{Engine DB, Sha1, Bcrypt, JwtLib, AgentJsonLaws} ctl senv nenv local
    local' m m' c :
  m_client m = Some c →
  syncFileTreeOnce (H0 := manager_sender nenv) senv (Some local, m) = ((Some local', m'), Ok tt) →
  let rows := select_rows senv local in
  let changes := omap (change_of senv) rows in
  changes ≠ [] → representable (DChanges changes) →
  (flags_err senv = None → ∀ id row, local' !! id = Some row → Monitored_ID row ∈ collectIDs rows →
     Monitored_ChangePending row = false) ∧
  ∃ frame body, out (m_conn m') = out (m_conn m) ++ frame ∧
    ∀ env fd dev rest (s : ServerState DB),
      Tree ctl = true → fd ≠ INVALID_SOCKET → nul_free dev →
      protocol_recv_message fd (frame ++ rest) = Some (raw (OCommand body), rest) ∧
      let '(last, s') := on_frame ctl env fd (to_bytes dev) (raw (OCommand body)) s in
      last = to_bytes dev ∧ deviceTokens s' = deviceTokens s ∧
      (if authorized s dev
       then db (backup s') = (ApplyChanges dev (nanos env) changes (db (backup s))).1
       else backup s' = backup s).
Proof.
  intros Hm Hs rows changes Hne Hrep.
  pose proof (collect_changes_sent senv rows local) as Hsent.
  unfold syncFileTreeOnce in Hs. case_decide as Hdev; [done|].
  destruct (select_err senv); [done|]. cbv zeta in Hs. fold rows in Hs.
  destruct (collect_changes senv rows local) as [cs l1]. cbn [fst] in Hsent. subst cs.
  fold changes in Hs. rewrite decide_False in Hs by done.
  unfold Send_changes, manager_sender, Manager_Send in Hs. rewrite Hm in Hs.
  destruct (encode_action "filetree_sync" (DChanges changes)) as [b|e] eqn:Ee; [|done].
  destruct (net_send nenv (SendCommand c b) (m_conn m)) as [n r] eqn:En.
  destruct r as [[]|e]; cbn [wrap] in Hs; [|done]. injection Hs as <- <-.
  apply net_send_ok in En as (f & Hf & Hout). split.
  - intros Hfl id row Hrow Hin. unfold clear_pending in Hrow. rewrite Hfl, update_where_lookup in Hrow.
    destruct (l1 !! id) as [x|]; [|done]. cbn [fmap option_fmap option_map] in Hrow.
    injection Hrow as <-. case_bool_decide as Hx; [done|]. by destruct Hx.
  - destruct (encode_action_decodes _ _ _ Ee Hrep) as (payload & Hd & Hdec).
    exists f, b. split; [exact Hout|]. intros env fd dev rest s Htree Hfd Hnul.
    assert (b ≠ []) as Hb.
    { intros ->. unfold SendCommand, guard_open in Hf. by destruct (client_open c). }
    change (SendCommand c b) with (Wire.send c (OCommand b)) in Hf.
    split; [by apply (recv_raw c)|].
    rewrite (on_frame_deliver ctl) by (done || by apply (send_frame_of c (OCommand b) f)).
    cbn [deliver fst snd]. split; [done|].
    by apply (report_frame ctl env (Some fd) dev b payload changes s).
Qed.

(** A round of an agent with a changed and a deleted file, received by a server
    that knows the device, and by one that does not. *)
Definition sample_round : (option LocalDB * Manager) * result unit :=
  syncFileTreeOnce (H0 := manager_sender sample_net) (plain_sync 100) (Some two_files, connected).
Definition names_after (s : ServerState Tables) (frame : list ascii) : list string :=
  match protocol_recv_message 5 frame with
  | Some (m0, _) =>
      let s' := (on_frame sample_ctl sample_env 5 (to_bytes "laptop") m0 s).2 in
      (λ p, Item_Name p.2) <$> map_to_list (items (db (backup s')))
  | None => []
  end.
Lemma report_reaches_tree_witness :
  ∃ local' m' frame, sample_round = ((Some local', m'), Ok tt) ∧
    out (m_conn m') = out (m_conn connected) ++ frame ∧
    ("a.txt" ∈ names_after online_server frame) ∧ names_after (initial_server empty_tables) frame = [] ∧
    ∀ id row, local' !! id = Some row → Monitored_ID row ∈ [2; 1] → Monitored_ChangePending row = false.
Proof.
  destruct sample_round as [[[local'|] m'] [[]|e]] eqn:E;
    try (apply (f_equal (λ r, is_ok r.2 && bool_decide (is_Some r.1.1))) in E; vm_compute in E;
         discriminate E).
  destruct (report_reaches_tree sample_ctl (plain_sync 100) sample_net two_files local' connected m'
    (Some 4) eq_refl E) as (Hpend & frame & body & Hout & Hserve).
  - vm_compute. discriminate.
  - exact I.
  - exists local', m', frame. split; [reflexivity|]. split; [exact Hout|].
    assert (frame = out (m_conn sample_round.1.2)) as Hf.
    { rewrite E. cbn [fst snd]. rewrite Hout. reflexivity. }
    split; [|split].
    + rewrite Hf. by_decide.
    + rewrite Hf. vm_compute. reflexivity.
    + intros id row Hrow Hin. apply (Hpend eq_refl id row Hrow).
      assert (collectIDs (select_rows (plain_sync 100) two_files) = [2; 1]) as ->
        by (vm_compute; reflexivity). exact Hin.
Defined.
