(* ===== verification/Bootstrap.v ===== *)
(** * How the agent starts

    agent/main.go, agent/internal/auth, agent/internal/config (the values),
    agent/internal/osquery and [BootstrapDevice] of agent/internal/service: from
    the configuration to a registered device with a connection of its own.

    osquery, the console, the disk and the network are the environment of each
    attempt.  What the program reads from viper is the file over its defaults. *)

From S2P Require Export ConnectionProofs.

Local Open Scope Z_scope.

(** ** Configuration *)

Record AppConfig := {
  Cfg_Host : string;
  Cfg_Port : Z;
  TokenPath : string;
  LogPath : string;
  OsqueryPath : string;
  Cfg_Monitor : list string;
  DBPath : string }.

(** The values of config.yaml; [None]: the key is not set. *)
Record config_file := {
  file_string : string → option string;
  file_int : string → option Z;
  file_slice : string → option (list string) }.

Definition config_port (f : config_file) : Z :=
  let port := default 9200 (file_int f "agent.backend.port") in
  if decide (port = 0) then
    if decide (default 0 (file_int f "agent.backend.tcp") ≠ 0)
    then default 0 (file_int f "agent.backend.tcp")
    else if decide (default 0 (file_int f "agent.backend.http") ≠ 0)
    then default 0 (file_int f "agent.backend.http") else port
  else port.
Definition config_Init (temp : string) (f : config_file) : AppConfig := {|
  Cfg_Host := default "127.0.0.1" (file_string f "agent.backend.host");
  Cfg_Port := config_port f;
  TokenPath := default (PathJoin [PathJoin [temp; "sagiri-guard"]; "agent.token"])
                 (file_string f "agent.token_path");
  LogPath := default "" (file_string f "agent.log_path");
  OsqueryPath := default "" (file_string f "agent.osquery_path");
  Cfg_Monitor := default [] (file_slice f "agent.monitor_paths");
  DBPath := default (PathJoin [temp; "sagiri-guard"; "agent.db"]) (file_string f "agent.db_path") |}.
Definition TokenFilePath (temp : string) (cfg : AppConfig) : string :=
  if decide (TokenPath cfg = "") then PathJoin [temp; "sagiri-guard"; "agent.token"]
  else TokenPath cfg.

(** ** osquery *)

Record SystemInfo := {
  SI_UUID : string; SI_Hostname : string; CPUBrand : string; Hardware : string }.
Record OSVersion := { OSV_Name : string; OSV_Version : string }.

(** [encoding/json] on the output and on its first row. *)
Class OsqueryJson := {
  osq_row : Type;
  decode_rows : list ascii → result (list osq_row);
  row_system : osq_row → result SystemInfo;
  row_os : osq_row → result OSVersion }.
Record osq_env := { osq_timeout : bool; osq_output : result (list ascii) }.

Definition runJSON `{OsqueryJson} {A} (env : osq_env) (decode : osq_row → result A) : result A :=
  if osq_timeout env then Err "osquery timeout" else
  raw ← osq_output env;
  arr ← decode_rows raw;
  match arr with [] => Err "no rows" | row :: _ => decode row end.
Definition Collect `{OsqueryJson} (env1 env2 : osq_env) : result (SystemInfo * OSVersion) :=
  si ← runJSON env1 row_system;
  osv ← runJSON env2 row_os;
  Ok (si, osv).

(** ** State and environment *)

(** [rows] are the rows of the token table; they are never read back. *)
Record BootState := {
  core : AgentState;
  current_token : string;
  token_rows : list string;
  file_monitor : option FileMonitor }.
Definition set_core (a : AgentState) (s : BootState) : BootState := {|
  core := a; current_token := current_token s; token_rows := token_rows s;
  file_monitor := file_monitor s |}.
Definition set_token_rows (l : list string) (s : BootState) : BootState := {|
  core := core s; current_token := current_token s; token_rows := l;
  file_monitor := file_monitor s |}.
Definition SetCurrentToken (t : string) (s : BootState) : BootState := {|
  core := core s; current_token := t; token_rows := token_rows s;
  file_monitor := file_monitor s |}.
Definition set_monitor (m : FileMonitor) (s : BootState) : BootState := {|
  core := core s; current_token := current_token s; token_rows := token_rows s;
  file_monitor := Some m |}.
Definition SetToken (t : string) (s : BootState) : BootState :=
  let a := core s in set_core {|
    Token_ := t; DeviceID_ := DeviceID_ a; hosts_mgr := hosts_mgr a; backups := backups a;
    agent_db := agent_db a; active := active a; net := net a; disk := disk a |} s.
Definition SetDeviceID (d : string) (s : BootState) : BootState :=
  let a := core s in set_core {|
    Token_ := Token_ a; DeviceID_ := d; hosts_mgr := hosts_mgr a; backups := backups a;
    agent_db := agent_db a; active := active a; net := net a; disk := disk a |} s.

Record boot_env := {
  osq1 : osq_env;
  osq2 : osq_env;
  os_hostname : string;              (* "" when it cannot be told *)
  fresh_uuid : string;
  typed : string * string;           (* the two lines read from the console *)
  b_net : net_env;
  b_reply : list ascii;
  read_fail : string → option string;
  mkdir_fail : string → option string;
  (* the error of writing a file, and how much was written once it was opened *)
  write_fail : string → option (string * option nat);
  remove_fail : option string;
  token_row_fail : bool;
  monitor_env : linux_env }.

Section Boot.
Context `{OsqueryJson, AgentJson} (decode_token : string → result (string * string)).
Context (cfg : AppConfig) (temp : string).

(** ** Files *)

Definition deviceIDFilePath : string := PathJoin [Dir (TokenFilePath temp cfg); "device.id"].

Definition ReadFile (env : boot_env) (path : string) (s : BootState) : result (list ascii) :=
  match read_fail env path with
  | Some e => Err e
  | None => match disk (core s) !! path with
            | Some b => Ok b
            | None => Err "no such file or directory"
            end
  end.
Definition WriteFile (env : boot_env) (path : string) (data : list ascii) : StE BootState unit :=
  λ s,
  let put b := set_core (with_disk (<[path := b]> (disk (core s))) (core s)) s in
  match write_fail env path with
  | None => (put data, Ok tt)
  | Some (e, Some n) => (put (take n data), Err e)
  | Some (e, None) => (s, Err e)
  end.

Definition loadDeviceIDFromDisk (env : boot_env) (s : BootState) : string :=
  match ReadFile env deviceIDFilePath s with Ok b => of_bytes b | Err _ => "" end.
(** Errors are logged. *)
Definition saveDeviceID (env : boot_env) (id : string) : StE BootState unit :=
  if decide (id = "") then mret tt else
  match mkdir_fail env (Dir deviceIDFilePath) with
  | Some _ => mret tt
  | None => ignore (WriteFile env deviceIDFilePath (to_bytes id))
  end.
Definition saveToken (env : boot_env) (token : string) : StE BootState unit :=
  match mkdir_fail env (Dir (TokenFilePath temp cfg)) with
  | Some e => fail ("mkdir token dir: " +:+ e)
  | None => WriteFile env (TokenFilePath temp cfg) (to_bytes token)
  end.
Definition LoadToken (env : boot_env) (s : BootState) : result string :=
  of_bytes <$> ReadFile env (TokenFilePath temp cfg) s.
(** A file that does not exist is no error. *)
Definition ClearToken (env : boot_env) : StE BootState unit := λ s,
  match remove_fail env with
  | Some e => (s, Err e)
  | None => (set_core (with_disk (delete (TokenFilePath temp cfg) (disk (core s))) (core s)) s, Ok tt)
  end.

(** ** Login *)

(** The id a login names: the machine's, else the stored one, else the name of
    the host, else a new one. *)
Definition login_device_id (env : boot_env) (cachedID : string) : string :=
  let id := match Collect (osq1 env) (osq2 env) with
            | Ok (si, _) => SI_UUID si | Err _ => "" end in
  let id := if decide (id = "") then cachedID else id in
  if decide (id = "") then
    if decide (os_hostname env ≠ "") then os_hostname env else fresh_uuid env
  else id.
Definition credentials (env : boot_env) (cachedID username password : string) :
    ProtocolLoginRequest :=
  let id := login_device_id env cachedID in
  match Collect (osq1 env) (osq2 env) with
  | Ok (si, osv) => {|
      Login_Username := username; Login_Password := password; Login_DeviceID := id;
      Login_Name := Hardware si; Login_OSName := OSV_Name osv; Login_OSVersion := OSV_Version osv;
      Login_Hostname := SI_Hostname si; Login_Arch := CPUBrand si |}
  | Err _ => {|
      Login_Username := username; Login_Password := password; Login_DeviceID := id;
      Login_Name := ""; Login_OSName := ""; Login_OSVersion := ""; Login_Hostname := "";
      Login_Arch := "" |}
  end.

Definition on_net {A} (m : StE Net A) : StE BootState A := λ s,
  let '(n, r) := m (net (core s)) in (set_core (with_net n (core s)) s, r).

(** What the answer of a login gives: the token and the server's device id. *)
Definition token_response (msg : ProtocolMessage) : result (string * string) :=
  if decide (Type_ msg ≠ MSG_ACK ∨ StatusCode msg ≠ 200)
  then Err ("login failed: code=" +:+ pretty (StatusCode msg) +:+ " msg=" +:+ StatusMsg msg) else
  match decode_token (StatusMsg msg) with
  | Ok (token, device) =>
      if decide (token = "") then Err "invalid login response" else Ok (token, device)
  | Err _ => Err "invalid login response"
  end.

(** The row of the token table; its error is dropped. *)
Definition create_token_row (env : boot_env) (token : string) (s : BootState) : BootState :=
  match agent_db (core s) with
  | Some _ => if token_row_fail env then s else set_token_rows (token_rows s ++ [token]) s
  | None => s
  end.

Definition Login (env : boot_env) (username password : string) : StE BootState (string * string) :=
  cachedID ← gets (loadDeviceIDFromDisk env);
  let creds := credentials env cachedID username password in
  msg ← on_net (SendAction (b_net env) (b_reply env) (Cfg_Host cfg) (Cfg_Port cfg)
                  (Login_DeviceID creds) "" "login" (DLogin creds));
  '(token, device) ← lift (token_response msg);
  modify (create_token_row env token);;
  saveToken env token;;
  modify (SetCurrentToken token);;
  saveDeviceID env (Login_DeviceID creds);;
  (if decide (device ≠ "")
   then modify (SetDeviceID device);; saveDeviceID env device
   else modify (SetDeviceID (Login_DeviceID creds)));;
  mret (token, device).

Definition PromptCredentials (env : boot_env) : result (string * string) :=
  let u := TrimSpace (typed env).1 in
  let p := TrimSpace (typed env).2 in
  if decide (u = "" ∨ p = "") then Err "missing credentials" else Ok (u, p).
Definition promptLogin (env : boot_env) : StE BootState (string * string) :=
  '(u, p) ← lift (PromptCredentials env);
  Login env u p.
Definition loadOrPromptToken (env : boot_env) : StE BootState (string * string) := λ s,
  match LoadToken env s with
  | Ok existing =>
      if decide (TrimSpace existing ≠ "")
      then (s, Ok (TrimSpace existing, DeviceID_ (core s))) else promptLogin env s
  | Err _ => promptLogin env s
  end.

(** ** Registration *)

Definition ErrUnauthorized : string := "unauthorized".
(** An error of [BootstrapDevice]: [ErrUnauthorized] itself or another one. *)
Inductive boot_error := Unauthorized | BootError (e : string).

Definition device_info (deviceID : string) (si : SystemInfo) (osv : OSVersion) : DeviceRequest :=
  let uuid := if decide (deviceID = "")
              then if decide (SI_UUID si = "") then SI_Hostname si else SI_UUID si
              else deviceID in
  {| Req_UUID := uuid; Req_Name := Hardware si; Req_OSName := OSV_Name osv;
     Req_OSVersion := OSV_Version osv; Req_Hostname := SI_Hostname si; Req_Arch := CPUBrand si |}.

(** The monitor is started when a folder can be watched. *)
Definition start_monitor (env : boot_env) (s : BootState) : BootState :=
  if decide (Cfg_Monitor cfg = []) then s else
  match NewFileMonitor (monitor_env env) (agent_db (core s)) (Cfg_Monitor cfg) with
  | Ok m => set_monitor m s
  | Err _ => s
  end.

Definition BootstrapDevice (env : boot_env) (token deviceID : string) (s : BootState) :
    BootState * (string + boot_error) :=
  match Collect (osq1 env) (osq2 env) with
  | Err e => (s, inr (BootError e))
  | Ok (si, osv) =>
      let dev := device_info deviceID si osv in
      let '(n, code, r) := Register_device (b_net env) (b_reply env) (Cfg_Host cfg) (Cfg_Port cfg)
        token dev (net (core s)) in
      let s1 := set_core (with_net n (core s)) s in
      match r with
      | Err e => (s1, inr (if decide (code = 401) then Unauthorized else BootError e))
      | Ok _ => (start_monitor env s1, inl (Req_UUID dev))
      end
  end.

(** What main does with a token it got. *)
Definition use_token (token deviceID : string) (s : BootState) : BootState :=
  let s1 := SetToken token (SetCurrentToken token s) in
  if decide (deviceID ≠ "") then SetDeviceID deviceID s1 else s1.

(** The loop of main: register; a refused token is cleared and the user asked
    for another one.  The registered id with the token it was registered with. *)
Fixpoint register_loop (fuel : nat) (envs : nat → boot_env) (i : nat) (token deviceID : string)
    (s : BootState) : BootState * result (string * string) :=
  match fuel with
  | O => (s, Err "out of fuel")
  | S fuel =>
      match BootstrapDevice (envs i) token deviceID s with
      | (s1, inl uuid) => (s1, Ok (token, uuid))
      | (s1, inr (BootError e)) => (s1, Err e)
      | (s1, inr Unauthorized) =>
          match promptLogin (envs i) (ClearToken (envs i) s1).1 with
          | (s2, Err e) => (s2, Err e)
          | (s2, Ok (token', deviceID')) =>
              register_loop fuel envs (S i) token' deviceID' (use_token token' deviceID' s2)
          end
      end
  end.

(** [main] from the token to the connection manager. *)
Definition start_agent (fuel : nat) (first : boot_env) (envs : nat → boot_env) (s : BootState) :
    BootState * result Manager :=
  match loadOrPromptToken first s with
  | (s1, Err e) => (s1, Err e)
  | (s1, Ok (token, deviceID)) =>
      match register_loop fuel envs 0 token deviceID (use_token token deviceID s1) with
      | (s2, Err e) => (s2, Err e)
      | (s2, Ok (token', uuid)) =>
          (SetDeviceID uuid s2, Ok (New (Cfg_Host cfg) (Cfg_Port cfg) uuid token'))
      end
  end.
End Boot.
