(* ===== verification/BootstrapProofs.v ===== *)
(** * Starting the agent: properties *)

From S2P Require Export Bootstrap.

Local Open Scope Z_scope.

(** ** Logging in *)

Section Files.
Context `{OsqueryJson, AgentJson} (decode_token : string → result (string * string)).
Context (cfg : AppConfig) (temp : string).
Abbreviation token_path := (TokenFilePath temp cfg).
Hypothesis paths_differ : deviceIDFilePath cfg temp ≠ token_path.

Definition same_but_device (s s' : BootState) : Prop :=
  current_token s' = current_token s ∧ token_rows s' = token_rows s ∧
  Token_ (core s') = Token_ (core s) ∧ net (core s') = net (core s) ∧
  disk (core s') !! token_path = disk (core s) !! token_path.

Lemma WriteFile_ok env path data s s' :
  WriteFile env path data s = (s', Ok tt) →
  s' = set_core (with_disk (<[path := data]> (disk (core s))) (core s)) s.
Proof.
  unfold WriteFile. cbv zeta. destruct (write_fail env path) as [[e [n|]]|]; try done. by intros [= <-].
Qed.

Lemma saveDeviceID_spec env id s :
  ∃ s', saveDeviceID cfg temp env id s = (s', Ok tt) ∧ same_but_device s s' ∧
    DeviceID_ (core s') = DeviceID_ (core s).
Proof.
  unfold saveDeviceID. case_decide; [by exists s|]. destruct (mkdir_fail env _); [by exists s|].
  unfold ignore, WriteFile. cbv zeta.
  destruct (write_fail env _) as [[e [n|]]|]; eexists; (split; [reflexivity|]);
    (split; [|done]); split_and!; try done; cbn [fst set_core core with_disk disk]; by rewrite lookup_insert_ne.
Qed.

(** What a successful login leaves: the server's answer, kept in memory and on
    disk. *)
Lemma Login_ok env u p s s' tok dev :
  Login decode_token cfg temp env u p s = (s', Ok (tok, dev)) →
  let creds := credentials env (loadDeviceIDFromDisk cfg temp env s) u p in
  ∃ n msg, SendAction (b_net env) (b_reply env) (Cfg_Host cfg) (Cfg_Port cfg)
      (Login_DeviceID creds) "" "login" (DLogin creds) (net (core s)) = (n, Ok msg) ∧
    token_response decode_token msg = Ok (tok, dev) ∧ net (core s') = n ∧
    disk (core s') !! token_path = Some (to_bytes tok) ∧ current_token s' = tok ∧
    DeviceID_ (core s') = (if decide (dev = "") then Login_DeviceID creds else dev).
Proof.
  intros Hl creds. unfold Login in Hl.
  apply StE_bind_ok in Hl as (s0 & cached & Hg & Hl). injection Hg as <- <-. fold creds in Hl.
  apply StE_bind_ok in Hl as (s1 & msg & Hn & Hl). unfold on_net in Hn.
  destruct (SendAction _ _ _ _ _ _ _ _ _) as [n r] eqn:Es. injection Hn as <- ->.
  apply StE_bind_ok in Hl as (s2 & [tok' dev'] & Hr & Hl). unfold lift in Hr. injection Hr as <- Hr.
  apply StE_bind_ok in Hl as (s3 & [] & Hm & Hl). unfold modify in Hm. injection Hm as Hm.
  apply StE_bind_ok in Hl as (s4 & [] & Ht & Hl). unfold saveToken in Ht.
  destruct (mkdir_fail env _); [done|]. apply WriteFile_ok in Ht.
  apply StE_bind_ok in Hl as (s5 & [] & Hc & Hl). unfold modify in Hc. injection Hc as Hc.
  apply StE_bind_ok in Hl as (s6 & [] & Hd & Hl).
  destruct (saveDeviceID_spec env (Login_DeviceID creds) s5) as (s6' & Hd' & Hs & _).
  rewrite Hd' in Hd. injection Hd as ->.
  assert (net (core s3) = n) as Hnet.
  { rewrite <- Hm. unfold create_token_row.
    destruct (agent_db _); [destruct (token_row_fail env)|]; reflexivity. }
  assert (net (core s6) = n ∧ disk (core s6) !! token_path = Some (to_bytes tok') ∧
    current_token s6 = tok') as (Hn6 & Hd6 & Hc6).
  { destruct Hs as (-> & _ & _ & -> & ->). subst s5 s4.
    cbn [SetCurrentToken core set_core with_disk disk net current_token].
    by rewrite lookup_insert_eq. }
  exists n, msg. split; [done|].
  apply StE_bind_ok in Hl as (s7 & [] & Hi & Hl). injection Hl as <- <- <-. split; [done|].
  destruct (decide (dev' = "")) as [->|Hne].
  - rewrite decide_False in Hi by tauto. unfold modify in Hi. injection Hi as <-. done.
  - rewrite decide_True in Hi by done.
    apply StE_bind_ok in Hi as (s8 & [] & Hx & Hi). unfold modify in Hx. injection Hx as <-.
    destruct (saveDeviceID_spec env dev' (SetDeviceID dev' s6)) as (s9 & Hy & Hs9 & Hdev9).
    rewrite Hy in Hi. injection Hi as ->. destruct Hs9 as (-> & _ & _ & -> & ->). done.
Qed.
End Files.

(** A login survives a restart: after a successful login, whatever runs later,
    as long as the token file is left alone and can be read, the next start takes
    the token of the server from it, without asking the user. *)
Theorem stored_token_loads `{OsqueryJson, AgentJson} decode_token cfg temp env u p s s' tok dev
    env' later :
  deviceIDFilePath cfg temp ≠ TokenFilePath temp cfg →
  Login decode_token cfg temp env u p s = (s', Ok (tok, dev)) →
  disk (core later) !! TokenFilePath temp cfg = disk (core s') !! TokenFilePath temp cfg →
  read_fail env' (TokenFilePath temp cfg) = None → TrimSpace tok ≠ "" →
  loadOrPromptToken decode_token cfg temp env' later = (later, Ok (TrimSpace tok, DeviceID_ (core later))).
Proof.
  intros Hne Hl Hdisk Hread Htok.
  destruct (Login_ok decode_token cfg temp Hne env u p s s' tok dev Hl) as (_ & _ & _ & _ & _ & Hf & _).
  unfold loadOrPromptToken, LoadToken, ReadFile. rewrite Hread, Hdisk, Hf.
  cbn [fmap result_fmap]. rewrite of_to_bytes. by rewrite decide_True.
Qed.

(** ** The registration loop *)

Section Loop.
Context `{OsqueryJson, AgentJson} (decode_token : string → result (string * string)).
Context (cfg : AppConfig) (temp : string) (envs : nat → boot_env).

(** The attempt that cannot ask for another one. *)
Definition last_attempt (env : boot_env) : Prop :=
  (∀ token dev s, (BootstrapDevice cfg env token dev s).2 ≠ inr Unauthorized) ∨
  is_ok (PromptCredentials env) = false.

Lemma promptLogin_refused env s :
  is_ok (PromptCredentials env) = false →
  ∃ e, promptLogin decode_token cfg temp env s = (s, Err e).
Proof.
  intros Hp. unfold promptLogin, lift, mbind, StE_bind.
  destruct (PromptCredentials env) as [[]|e]; [done|]. by exists e.
Qed.

Lemma register_loop_stops k : ∀ i fuel token dev s,
  last_attempt (envs (i + k)%nat) → (k < fuel)%nat →
  register_loop decode_token cfg temp fuel envs i token dev s =
    register_loop decode_token cfg temp (S k) envs i token dev s.
Proof.
  induction k as [|k IH]; intros i fuel token dev s Hlast Hf; (destruct fuel as [|fuel]; [lia|]);
    cbn [register_loop]; [rewrite Nat.add_0_r in Hlast|rewrite Nat.add_succ_r in Hlast];
    destruct (BootstrapDevice cfg (envs i) token dev s) as [s1 [uuid|[|e]]] eqn:Eb; try done.
  - destruct Hlast as [Hb|Hp]; [by destruct (Hb token dev s); rewrite Eb|].
    by destruct (promptLogin_refused (envs i) (ClearToken cfg temp (envs i) s1).1 Hp) as [e ->].
  - destruct (promptLogin _ _ _ _ _) as [s2 [[token' dev']|e]]; [|done].
    apply IH; [done|lia].
Qed.

(** A registered device: the request the server answered with 200. *)
Definition registered (env : boot_env) (token uuid : string) : Prop :=
  ∃ d si osv n n' msg, Collect (osq1 env) (osq2 env) = Ok (si, osv) ∧
    uuid = Req_UUID (device_info d si osv) ∧
    SendAction (b_net env) (b_reply env) (Cfg_Host cfg) (Cfg_Port cfg) uuid token "device_register"
      (DDevice (device_info d si osv)) n = (n', Ok msg) ∧
    Type_ msg = MSG_ACK ∧ StatusCode msg = 200.

Lemma BootstrapDevice_ok env token dev s s' uuid :
  BootstrapDevice cfg env token dev s = (s', inl uuid) →
  registered env token uuid ∧ Token_ (core s') = Token_ (core s) ∧ current_token s' = current_token s.
Proof.
  unfold BootstrapDevice. destruct (Collect _ _) as [[si osv]|e] eqn:Ec; [|done]. cbv zeta.
  unfold Register_device.
  destruct (SendAction _ _ _ _ _ _ _ _ _) as [n [msg|e]] eqn:Es; cbn [fst snd]; [|done].
  destruct (decide (Type_ msg ≠ MSG_ACK ∨ StatusCode msg ≠ 200)) as [|Hok]; [done|].
  intros [= <- <-]. split.
  - exists dev, si, osv, (net (core s)), n, msg. split; [done|]. split; [done|]. split; [exact Es|].
    split; apply dec_stable; tauto.
  - unfold start_monitor. case_decide; [done|]. by destruct (NewFileMonitor _ _ _).
Qed.

Lemma register_loop_ok fuel : ∀ i token dev s s' token' uuid,
  register_loop decode_token cfg temp fuel envs i token dev s = (s', Ok (token', uuid)) →
  Token_ (core s) = token → current_token s = token →
  Token_ (core s') = token' ∧ current_token s' = token' ∧
  ∃ j, (i ≤ j < i + fuel)%nat ∧ registered (envs j) token' uuid.
Proof.
  induction fuel as [|fuel IH]; intros i token dev s s' token' uuid Hr Ht Hc; [done|].
  cbn [register_loop] in Hr.
  destruct (BootstrapDevice cfg (envs i) token dev s) as [s1 [uuid1|[|e]]] eqn:Eb; [| |done].
  - injection Hr as <- <- <-. apply BootstrapDevice_ok in Eb as (Hreg & -> & ->).
    split; [done|]. split; [done|]. exists i. split; [lia|done].
  - destruct (promptLogin _ _ _ _ _) as [s2 [[token2 dev2]|e]]; [|done].
    assert (∀ d, Token_ (core (use_token token2 d s2)) = token2 ∧
      current_token (use_token token2 d s2) = token2) as Hu.
    { intros d. unfold use_token. by case_decide. }
    destruct (Hu dev2) as [Hu1 Hu2].
    destruct (IH _ _ _ _ _ _ _ Hr Hu1 Hu2) as (? & ? & j & Hj & Hreg).
    split; [done|]. split; [done|]. exists j. split; [lia|done].
Qed.
End Loop.

(** C30. The agent starts registered or not at all: when some attempt is not
    refused with "unauthorized", or the user then enters nothing, the loop of
    main ends by that attempt; and the connection manager it ends with carries
    the token and the device id the agent holds, for which the server has
    answered a registration with 200. *)
Theorem agent_starts_registered `{OsqueryJson, AgentJson} decode_token cfg temp first envs k s :
  last_attempt cfg (envs k) →
  ∃ s' r, (∀ fuel, (k < fuel)%nat → start_agent decode_token cfg temp fuel first envs s = (s', r)) ∧
    match r with
    | Ok m => m_client m = None ∧ m_token m = Token_ (core s') ∧ m_token m = current_token s' ∧
        m_deviceID m = DeviceID_ (core s') ∧
        ∃ j, (j ≤ k)%nat ∧ registered cfg (envs j) (m_token m) (m_deviceID m)
    | Err _ => True
    end.
Proof.
  intros Hlast. unfold start_agent.
  destruct (loadOrPromptToken _ _ _ _ _) as [s1 [[token dev]|e]].
  2: { exists s1, (Err e). by split. }
  destruct (register_loop decode_token cfg temp (S k) envs 0 token dev (use_token token dev s1))
    as [s2 [[token' uuid]|e]] eqn:Er.
  - exists (SetDeviceID uuid s2), (Ok (New (Cfg_Host cfg) (Cfg_Port cfg) uuid token')). split.
    + intros fuel Hf. by rewrite (register_loop_stops decode_token cfg temp envs k 0 fuel), Er.
    + assert (Token_ (core (use_token token dev s1)) = token ∧
        current_token (use_token token dev s1) = token) as [Hu1 Hu2]
        by (unfold use_token; by case_decide).
      destruct (register_loop_ok _ _ _ _ _ _ _ _ _ _ _ _ Er Hu1 Hu2) as (<- & Hc & j & Hj & Hreg).
      split_and!; try done. exists j. split; [lia|exact Hreg].
  - exists s2, (Err e). split; [|done].
    intros fuel Hf. by rewrite (register_loop_stops decode_token cfg temp envs k 0 fuel), Er.
Qed.

(** ** A login at both ends *)

(** The agent's decoder of a login reply, and the alphabet of signed tokens. *)
Class TokenWire `{Json, JwtLib} (decode_token : string → result (string * string)) := {
  clean_text : string → Prop;
  signed_clean secret c t : SignedString secret c = Ok t → clean_text t;
  login_encodes tok dev : ∃ b, encode_reply (RLogin tok dev) = Ok b;
  token_read_back tok dev b : encode_reply (RLogin tok dev) = Ok b →
    clean_text tok → clean_text dev → decode_token (of_bytes b) = Ok (tok, dev) }.

Section LoginServer.
Context `{Engine DB, Sha1, Bcrypt, JwtLib, JsonLaws} (ctl : ProtocolController).
Implicit Types s : ServerState DB.

Lemma handleLogin_result env p s :
  let '(s', r) := handleLogin ctl env "" p s in
  wire s' = wire s ∧
  match r with
  | Err _ => True
  | Ok r => ∃ req signer d user tok c, decode_login p = Ok req ∧
      ValidateCredentials (Login_Username req) (Login_Password req) (db (backup s)) = (d, Ok user) ∧
      SignedString signer c = Ok tok ∧ r = RLogin tok (login_id env "" req) ∧
      deviceTokens s' = <[login_id env "" req := tok]> (deviceTokens s)
  end.
Proof.
  unfold handleLogin. destruct (Users ctl), (Signer_ ctl) as [signer|]; try done.
  unfold mbind, StE_bind, lift, on_db, on_backup, zoom. destruct (decode_login p) as [req|]; [|done].
  destruct (ValidateCredentials _ _ _) as [d [user|e]] eqn:Ev; [|done]. cbn [fst snd].
  destruct (Sign _ _ _ _ _ _) as [tok|] eqn:Es; [|done]. unfold modify. cbv beta iota zeta.
  set (s1 := set_tokens _ _).
  pose proof (stable_enrich ctl (λ s', wire s' = wire s ∧ deviceTokens s' = deviceTokens s1)
    ltac:(done) (login_device (login_id env "" req) req) s1 (conj eq_refl eq_refl)) as [Hw Ht].
  assert (∃ c, SignedString (Secret signer) c = Ok tok) as [c Hc]
    by (unfold Sign in Es; eexists; exact Es).
  destruct (enrich_device ctl _ s1) as [s2 [[]|]]; (split; [exact Hw|]); [|done].
  exists req, (Secret signer), d, user, tok, c. by split_and!.
Qed.

(** An acknowledgement, whatever its text: C cuts it at a NUL byte. *)
Lemma ack_any env client code text s :
  0 ≤ code < 2 ^ 16 →
  ack env client code text s = (s, Ok tt) ∨
  ∃ f, ack env client code text s = (written (client_fd client) f s, Ok tt) ∧
    delivers f (received (OAck code (GoString (to_bytes text)))).
Proof.
  intros Hc. assert (ack env client code text s =
    ack env client code (GoString (to_bytes text)) s) as ->.
  { unfold ack, SendAck, CString, GoString. by rewrite to_of_bytes, c_str_idem. }
  apply ack_spec; [|done]. unfold nul_free, GoString. rewrite to_of_bytes. apply NUL_c_str.
Qed.

(** The answer to a login command on a connection that has not logged in: only
    a successful login is answered with 200. *)
Lemma login_answer env fd body p s :
  (∀ tok dev, ∃ b, encode_reply (RLogin tok dev) = Ok b) → body ≠ [] →
  decode_envelope body = Ok ("login", p) →
  let '(sL, r) := handleLogin ctl env "" p s in
  let s' := (HandleMessage ctl env (Some fd) (from_device "" (OCommand body)) s).1 in
  deviceTokens s' = deviceTokens sL ∧
  (wire s' = wire s ∨ ∃ f code text, wire s' = wire s ++ [(fd, f)] ∧
     delivers f (received (OAck code text)) ∧
     (code = 200 → ∃ rep b, r = Ok rep ∧ encode_reply rep = Ok b ∧ text = of_bytes b)).
Proof.
  intros Henc Hb Hd. pose proof (handleLogin_result env p s) as Hl.
  assert ((HandleMessage ctl env (Some fd) (from_device "" (OCommand body)) s) =
    answer_json env (Some fd) 401 (handleLogin ctl env "" p) s) as ->.
  { unfold HandleMessage. rewrite decide_False by done. rewrite decide_True by done.
    unfold handleSubCommand. cbn [from_device received CommandJSON DeviceID].
    rewrite decide_False by done. rewrite Hd.
    unfold isAuthorized, gets, mbind, StE_bind. cbv beta iota.
    rewrite bool_decide_eq_false_2 by by_decide. cbn [andb].
    unfold dispatch. rewrite decide_False by done. by rewrite decide_True. }
  unfold answer_json, attempt, mbind, StE_bind.
  destruct (handleLogin ctl env "" p s) as [sL r]. destruct Hl as [Hw Hr]. cbn [fst snd].
  assert (∀ code text, 0 ≤ code < 2 ^ 16 → code ≠ 200 →
    deviceTokens (ack env (Some fd) code text sL).1 = deviceTokens sL ∧
    (wire (ack env (Some fd) code text sL).1 = wire s ∨ ∃ f code' text',
      wire (ack env (Some fd) code text sL).1 = wire s ++ [(fd, f)] ∧
      delivers f (received (OAck code' text')) ∧ code' ≠ 200)) as Hack.
  { intros code text Hc H200. rewrite <- Hw.
    destruct (ack_any env (Some fd) code text sL Hc) as [->|(f & -> & Hf)]; (split; [done|]);
      [by left|right]. by exists f, code, (GoString (to_bytes text)). }
  assert (∀ code text, 0 ≤ code < 2 ^ 16 → code ≠ 200 →
    deviceTokens (ack env (Some fd) code text sL).1 = deviceTokens sL ∧
    (wire (ack env (Some fd) code text sL).1 = wire s ∨ ∃ f code' text',
      wire (ack env (Some fd) code text sL).1 = wire s ++ [(fd, f)] ∧
      delivers f (received (OAck code' text')) ∧
      (code' = 200 → ∃ rep b, r = Ok rep ∧ encode_reply rep = Ok b ∧ text' = of_bytes b))) as Hack'.
  { intros code text Hc H200. destruct (Hack code text Hc H200) as (? & [?|(f & c' & t' & ? & ? & ?)]);
      (split; [done|]); [by left|right]. by exists f, c', t'. }
  destruct r as [rep|e]; [|apply Hack'; lia].
  destruct Hr as (req & signer & d & user & tok & c & _ & _ & _ & -> & _).
  destruct (Henc tok (login_id env "" req)) as [b Hb']. cbn [sendAckJSON]. rewrite Hb'.
  case_decide; [apply Hack'; lia|].
  destruct (ack_spec env (Some fd) 200 (of_bytes b) sL) as [->|(f & -> & Hf)];
    [by apply (encode_reply_clean (RLogin tok (login_id env "" req)))|lia| |]; (split; [done|]);
    [by left|right].
  exists f, 200, (of_bytes b). cbn [written wire client_fd]. rewrite Hw.
  split; [done|]. split; [done|]. intros _. by eexists _, b.
Qed.
End LoginServer.

(** A request without a login: one frame, then the wait for its acknowledgement. *)
Lemma SendAction_sent `{Json, AgentJson} env input host port dev action data n n' msg c body frame :
  action ≠ "" → dial env host port = Ok c → encode_action action data = Ok body →
  SendCommand c body = Ok frame →
  SendAction env input host port dev "" action data n = (n', Ok msg) →
  out n' = out n ++ frame ∧ await_ack (S (length input)) c input = Ok msg.
Proof.
  intros Hact Hdial Henc Hsend Ha. unfold SendAction in Ha. rewrite decide_False in Ha by done.
  apply StE_bind_ok in Ha as (n1 & c1 & Hx & Ha). unfold lift in Hx. rewrite Hdial in Hx.
  injection Hx as <- <-. rewrite decide_False in Ha by (intros [? _]; done).
  apply StE_bind_ok in Ha as (n2 & [] & Hx & Ha). injection Hx as <-.
  apply StE_bind_ok in Ha as (n3 & b & Hx & Ha). unfold lift in Hx. rewrite Henc in Hx.
  injection Hx as <- <-. rewrite Hsend in Ha.
  apply StE_bind_ok in Ha as (n4 & [] & Hx & Ha). apply net_send_ok in Hx as (f & [= <-] & Hout).
  unfold lift in Ha. by injection Ha as <- Hawait.
Qed.

(** One acknowledgement on a connection is the answer; no frame is none. *)
Lemma await_nothing c : is_ok (await_ack 1 c []) = false.
Proof. cbn [await_ack]. pose proof (recv_empty c). by destruct (RecvProtocolMessage c []). Qed.

Lemma await_one fuel c f code text :
  client_open c = true → delivers f (received (OAck code text)) →
  await_ack (S fuel) c f = Ok (received (OAck code text)).
Proof.
  intros Hc Hdel. specialize (Hdel c [] Hc). rewrite app_nil_r in Hdel.
  cbn [await_ack]. rewrite Hdel. cbn [mbind result_bind received type_of Type_]. by rewrite decide_True.
Qed.

(** C8. Logging in, end to end: when the agent's login succeeds on what the server
    sends back to its own request, the credentials it was given are those of an
    account, and both ends hold the same token for the same device: the agent in
    memory and on disk, the server as the token that authorizes the device.  The
    device is the one the agent named. *)
Theorem login_end_to_end `{Engine DB, Sha1, Bcrypt, JwtLib, AgentJsonLaws, !JsonLaws, OsqueryJson}
    `{!TokenWire decode_token} ctl envs fd cfg temp env c u p st st' tok dev body frame
    (s : ServerState DB) :
  deviceIDFilePath cfg temp ≠ TokenFilePath temp cfg →
  dial (b_net env) (Cfg_Host cfg) (Cfg_Port cfg) = Ok c → client_open c = true → fd ≠ INVALID_SOCKET →
  let creds := credentials env (loadDeviceIDFromDisk cfg temp env st) u p in
  encode_action "login" (DLogin creds) = Ok body → SendCommand c body = Ok frame →
  representable (DLogin creds) → clean_text (Login_DeviceID creds) → Login_DeviceID creds ≠ "" →
  let s' := serve_connection ctl envs fd frame s in
  b_reply env = replies fd s s' →
  Login decode_token cfg temp env u p st = (st', Ok (tok, dev)) →
  (∃ d user, ValidateCredentials u p (db (backup s)) = (d, Ok user)) ∧
  dev = Login_DeviceID creds ∧ deviceTokens s' = <[dev := tok]> (deviceTokens s) ∧
  authorized s' dev = true ∧
  out (net (core st')) = out (net (core st)) ++ frame ∧
  DeviceID_ (core st') = dev ∧ current_token st' = tok ∧
  disk (core st') !! TokenFilePath temp cfg = Some (to_bytes tok).
Proof.
  intros Hpaths Hdial Hc Hfd creds Henc Hsend Hrep Hclean Hdev s' Hreply Hl.
  destruct (Login_ok decode_token cfg temp Hpaths env u p st st' tok dev Hl)
    as (n & msg & Ha & Hr & Hn & Hdisk & Hcur & Hid). fold creds in Ha, Hid.
  destruct (SendAction_sent _ _ _ _ _ _ _ _ _ _ _ _ _ (ltac:(done) : "login" ≠ "") Hdial Henc Hsend Ha)
    as [Hout Hawait].
  (* what the server did *)
  destruct (encode_action_decodes _ _ _ Henc Hrep) as (payload & Hd & Hdec). cbn [decodes] in Hdec.
  assert (body ≠ []) as Hb.
  { intros ->. unfold SendCommand, guard_open in Hsend. rewrite Hc in Hsend. done. }
  assert (s' = on_close fd [] (HandleMessage ctl (envs 0%nat) (Some fd)
    (from_device "" (OCommand body)) s).1) as Hs'.
  { subst s'. rewrite (serve_sends ctl envs c fd [OCommand body] frame s);
      [done| |repeat constructor|done]. simpl. rewrite Hsend. simpl. by rewrite app_nil_r. }
  pose proof (login_answer ctl (envs 0%nat) fd body payload s login_encodes Hb Hd) as Hans.
  pose proof (handleLogin_result ctl (envs 0%nat) payload s) as Hres.
  destruct (handleLogin ctl (envs 0%nat) "" payload s) as [sL r]. destruct Hans as [Htok Hwire].
  assert (wire s' = wire (HandleMessage ctl (envs 0%nat) (Some fd) (from_device "" (OCommand body)) s).1
    ∧ deviceTokens s' = deviceTokens sL) as [Hw' Ht'].
  { rewrite Hs', <- Htok. unfold on_close. by rewrite decide_True. }
  rewrite <- Hw' in Hwire. destruct Hwire as [Hwire|(f & code & text & Hwire & Hdel & H200)].
  { rewrite Hreply, (replies_same fd s s' Hwire) in Hawait. pose proof (await_nothing c) as Hno.
    cbn [length] in Hawait. by rewrite Hawait in Hno. }
  rewrite Hreply, (replies_written fd f s s' Hwire), (await_one _ c f code text Hc Hdel) in Hawait.
  injection Hawait as <-. unfold token_response in Hr. cbn [received type_of Type_ StatusCode StatusMsg] in Hr.
  destruct (decide (MSG_ACK ≠ MSG_ACK ∨ code ≠ 200)) as [|Hcode]; [done|].
  assert (code = 200) as -> by (apply dec_stable; tauto).
  destruct (H200 eq_refl) as (rep & b & -> & Hb' & ->).
  destruct Hres as [_ (req & signer & d & user & t & cl & Hreq & Hval & Hsig & -> & Htoks)].
  rewrite Hdec in Hreq. injection Hreq as <-.
  assert (login_id (envs 0%nat) "" creds = Login_DeviceID creds) as Hlid.
  { unfold login_id. cbv zeta. by rewrite !(decide_False (P := Login_DeviceID creds = "")) by done. }
  rewrite Hlid in *. rewrite (token_read_back _ _ _ Hb' (signed_clean _ _ _ Hsig) Hclean) in Hr.
  destruct (decide (t = "")) as [|Ht]; [done|]. injection Hr as <- <-.
  rewrite decide_False in Hid by done.
  assert (Login_Username creds = u ∧ Login_Password creds = p) as [Hu Hp].
  { subst creds. unfold credentials. by destruct (Collect _ _) as [[]|]. }
  rewrite Hu, Hp in Hval.
  split; [eauto|]. split; [done|]. split; [by rewrite Ht', Htoks|]. split.
  { unfold authorized. rewrite Ht', Htoks, lookup_insert_eq. cbn [default].
    rewrite !bool_decide_eq_true_2 by done. done. }
  rewrite Hn. split_and!; done.
Qed.

(** *** A machine to run it on *)

(** Stand-ins: one row of fields separated by slashes, and the reply of the
    server's stand-in read back. *)
#[export] Instance sample_osquery : OsqueryJson := {
  osq_row := list ascii;
  decode_rows := λ b, Ok [b];
  row_system := λ b, Ok {| SI_UUID := field 0 b; SI_Hostname := field 1 b; CPUBrand := field 2 b;
                           Hardware := field 3 b |};
  row_os := λ b, Ok {| OSV_Name := field 0 b; OSV_Version := field 1 b |} }.
Definition sample_decode_token (text : string) : result (string * string) :=
  Ok (field 0 (to_bytes text), field 1 (to_bytes text)).

Lemma nul_free_filter (l : list ascii) : NUL ∉ l → filter (λ a, a ≠ NUL) l = l.
Proof.
  induction l as [|a l IH]; [done|]. intros [Ha Hl]%not_elem_of_cons.
  by rewrite filter_cons_True, IH.
Qed.
#[export] Instance sample_token_wire : TokenWire sample_decode_token.
Proof.
  refine {| clean_text := λ t, nul_free t ∧ slash_free t |}.
  - intros secret c t He. cbn [SignedString sample_jwt] in He.
    destruct (decide _) as [[Hn Hs]|]; [|discriminate]. injection He as <-.
    unfold nul_free, slash_free. rewrite !to_bytes_app. split.
    + rewrite !not_elem_of_app. split; [by_decide|]. split; [exact Hn|by_decide].
    + rewrite !not_elem_of_app. split; [by_decide|]. split; [exact Hs|by_decide].
  - intros tok dev. eexists. reflexivity.
  - intros tok dev b He [Hn1 Hs1] [Hn2 Hs2]. cbn [encode_reply sample_json] in He.
    injection He as <-. unfold sample_decode_token, field, fields.
    assert (NUL ∉ to_bytes (Join [tok; dev])) as Hn.
    { rewrite Join_cons_cons, Join_singleton, !to_bytes_app, !not_elem_of_app.
      split; [exact Hn1|]. split; [by_decide|exact Hn2]. }
    rewrite (nul_free_filter _ Hn), !of_to_bytes, Split_Join; [done|done|].
    by repeat constructor.
Defined.

Definition sample_config : AppConfig := {|
  Cfg_Host := "h"; Cfg_Port := 9200; TokenPath := "/etc/sagiri/agent.token"; LogPath := "";
  OsqueryPath := ""; Cfg_Monitor := []; DBPath := "/tmp/agent.db" |}.
Definition machine (typed reply : list ascii) : boot_env := {|
  osq1 := {| osq_timeout := false; osq_output := Ok (to_bytes "laptop") |};
  osq2 := {| osq_timeout := false; osq_output := Ok [] |};
  os_hostname := "box"; fresh_uuid := "u-1"; typed := (field 0 typed, field 1 typed);
  b_net := sample_net; b_reply := reply; read_fail := λ _, None; mkdir_fail := λ _, None;
  write_fail := λ _, None; remove_fail := None; token_row_fail := false;
  monitor_env := sample_fs 0 |}.
Definition new_agent : BootState := {|
  core := {| Token_ := ""; DeviceID_ := ""; hosts_mgr := Hosts.GetHostsManager None None;
             backups := initial_flags; agent_db := Some ∅; active := ∅; net := Transfer.fresh; disk := ∅ |};
  current_token := ""; token_rows := []; file_monitor := None |}.

(** The login request of the machine and what the server answers. *)
Definition login_body : list ascii := to_bytes "login/ann/secret/laptop".
Definition login_frame : list ascii :=
  match SendCommand (Some 3) login_body with Ok f => f | Err _ => [] end.
Definition login_server : ServerState Tables := initial_server with_admin.
Definition after_login : ServerState Tables :=
  serve_connection sample_ctl (λ _, sample_env) 7 login_frame login_server.
Definition login_machine : boot_env :=
  machine (to_bytes "ann/secret") (replies 7 login_server after_login).

Lemma login_end_to_end_witness :
  ∃ st' tok, Login sample_decode_token sample_config "/tmp" login_machine "ann" "secret" new_agent =
      (st', Ok (tok, "laptop")) ∧
    authorized login_server "laptop" = false ∧ authorized after_login "laptop" = true ∧
    disk (core st') !! "/etc/sagiri/agent.token" = Some (to_bytes tok).
Proof.
  destruct (Login sample_decode_token sample_config "/tmp" login_machine "ann" "secret" new_agent)
    as [st' [[tok dev]|e]] eqn:E;
    [|apply (f_equal (λ r, is_ok r.2)) in E; vm_compute in E; discriminate E].
  destruct (login_end_to_end sample_ctl (λ _, sample_env) 7 sample_config "/tmp" login_machine (Some 3)
    "ann" "secret" new_agent st' tok dev login_body login_frame login_server)
    as (_ & Hdev & _ & Hauth & _ & _ & _ & Hdisk); try exact E; try reflexivity.
  - vm_compute. discriminate.
  - discriminate.
  - split; by_decide.
  - discriminate.
  - assert (dev = "laptop") as -> by (rewrite Hdev; vm_compute; reflexivity).
    exists st', tok. split; [reflexivity|]. split; [vm_compute; reflexivity|].
    split; [exact Hauth|exact Hdisk].
Defined.

(** The agent is killed and started again: only the disk is left. *)
Definition restarted (s : BootState) : BootState :=
  set_core (with_disk (disk (core s)) (core new_agent)) new_agent.
Lemma stored_token_loads_witness :
  ∃ st' tok, Login sample_decode_token sample_config "/tmp" login_machine "ann" "secret" new_agent =
      (st', Ok (tok, "laptop")) ∧
    (loadOrPromptToken sample_decode_token sample_config "/tmp" (machine [] []) (restarted st')).2 =
      Ok (tok, "").
Proof.
  destruct (Login sample_decode_token sample_config "/tmp" login_machine "ann" "secret" new_agent)
    as [st' [[tok dev]|e]] eqn:E;
    [|apply (f_equal (λ r, is_ok r.2)) in E; vm_compute in E; discriminate E].
  assert (tok = "h.laptop.s" ∧ dev = "laptop") as [-> ->].
  { apply (f_equal (λ r, match r.2 with Ok x => x | Err _ => ("", "") end)) in E. vm_compute in E.
    injection E as <- <-. done. }
  exists st', "h.laptop.s". split; [reflexivity|].
  rewrite (stored_token_loads sample_decode_token sample_config "/tmp" login_machine "ann" "secret"
    new_agent st' "h.laptop.s" "laptop" (machine [] []) (restarted st')).
  - vm_compute. reflexivity.
  - vm_compute. discriminate.
  - exact E.
  - reflexivity.
  - reflexivity.
  - vm_compute. discriminate.
Defined.

(** A server that accepts the registration. *)
Definition registering : boot_env :=
  machine [] (match SendAck (Some 3) 200 "device registered" with Ok f => f | Err _ => [] end).
Lemma agent_starts_registered_witness :
  ∃ s' m, start_agent sample_decode_token sample_config "/tmp" 3 login_machine (λ _, registering)
      new_agent = (s', Ok m) ∧
    m_deviceID m = "laptop" ∧ m_token m = Token_ (core s') ∧ m_deviceID m = DeviceID_ (core s').
Proof.
  destruct (agent_starts_registered sample_decode_token sample_config "/tmp" login_machine
    (λ _, registering) 0 new_agent) as (s' & r & Hr & Hm).
  - right. vm_compute. reflexivity.
  - specialize (Hr 3%nat ltac:(lia)). destruct r as [m|e].
    + exists s', m. destruct Hm as (_ & Ht & _ & Hd & _). split; [exact Hr|].
      split; [|split; [exact Ht|exact Hd]].
      apply (f_equal (λ r, match r.2 with Ok m => m_deviceID m | Err _ => "" end)) in Hr.
      cbn [snd] in Hr. rewrite <- Hr. vm_compute. reflexivity.
    + apply (f_equal (λ r, is_ok r.2)) in Hr. vm_compute in Hr. discriminate.
Defined.

(** ** Configuration *)

(** The legacy keys of the port are read only when the new key is set to zero:
    the default of the new key hides them. *)
Lemma legacy_port_ignored f :
  file_int f "agent.backend.port" = None → config_port f = 9200.
Proof. intros Hp. unfold config_port. by rewrite Hp. Qed.

(** Without a machine id, an agent that finds a stored token registers under the
    name of the host, whatever device id is stored. *)
Lemma restart_takes_hostname si osv :
  SI_UUID si = "" → Req_UUID (device_info "" si osv) = SI_Hostname si.
Proof. intros Hu. unfold device_info. cbn [Req_UUID]. by rewrite Hu. Qed.
