(* ===== verification/AgentMain.v ===== *)
(** * The agent's process

    agent/main.go as a whole, with agent/internal/privilege, the opening of the local
    database (agent/internal/db/sqlite.go) and the end of the process: from the
    check of the user to the connection ([agent_main]), and then every interleaving of
    main, up to the cleanup that a signal starts and its return, with the goroutine
    that receives commands ([process_one]).  That goroutine still runs during the
    cleanup.

    The theorem follows the hosts file over such a life. *)

From S2P Require Export Sockets BootstrapProofs.

Local Open Scope Z_scope.

(** ** Privileges *)

(** The two functions of either platform. *)
Record Privilege := {
  IsElevated : bool;
  AttemptElevate : result bool   (* whether another process was started *) }.

Definition linux_privilege (euid : Z) : Privilege := {|
  IsElevated := bool_decide (euid = 0);
  AttemptElevate := if decide (euid = 0) then Ok false else
    Err "elevation not supported automatically; please rerun the agent with sudo" |}.
Definition CurrentUserHint (euid : Z) : string :=
  "current uid=" +:+ pretty euid +:+ " (need root to access privileged operations)".

(** Windows: the output of whoami, the path of the program, its arguments and what
    becomes of a PowerShell command. *)
Definition Windows_IsElevated (whoami : result string) : bool :=
  match whoami with
  | Err _ => false
  | Ok out => Contains (ToLower out) "builtin\administrators" || Contains (ToLower out) "administrators"
  end.
Definition Windows_AttemptElevate (exe : result string) (args : list string)
    (start : string → option string) : result bool :=
  exe ← exe;
  if HasSuffix (ToLower exe) "go.exe"
  then Err "cannot elevate in go run mode; build the agent first" else
  let ps := "Start-Process -FilePath '" +:+ exe +:+ "' -ArgumentList '" +:+ String.concat "," args +:+
            "' -Verb RunAs" in
  match start ps with Some e => Err e | None => Ok true end.

(** ** Values of the process *)

Definition GetToken (s : BootState) : string := Token_ (core s).
Definition GetDeviceID (s : BootState) : string := DeviceID_ (core s).
Definition GetCurrentToken (s : BootState) : string := current_token s.
Definition BackendHostPort (cfg : AppConfig) : string * Z := (Cfg_Host cfg, Cfg_Port cfg).
Definition BackendAddr (cfg : AppConfig) : string := Cfg_Host cfg +:+ ":" +:+ pretty (Cfg_Port cfg).

(** [logger.Init]: the file the log goes to besides the console. *)
Definition logger_Init (open : string → option string) (path : string) : option string * result unit :=
  if decide (path = "") then (None, Ok tt) else
  match open path with Some e => (None, Err e) | None => (Some path, Ok tt) end.
(** The file get_logs reads. *)
Definition log_path (cfg : AppConfig) (temp : string) : string :=
  if decide (LogPath cfg = "") then PathJoin [Dir (TokenFilePath temp cfg); "agent.log"] else LogPath cfg.

(** ** Starting *)

Record main_env := {
  euid : Z;                                (* [os.Geteuid()] *)
  flag_retries : Z;
  flag_delay : Z;
  flag_elevate : bool;
  config_yaml : config_file;
  mkdir_db : string → option string;
  open_sqlite : string → result (gmap Z MonitoredFile);
  migrate_sqlite : option string;
  privilege : Privilege;
  login_env : boot_env;
  register_envs : nat → boot_env;
  connecting : connect_env }.

(** [db.Init]: nothing is assigned unless the database opens. *)
Definition db_Init (env : main_env) (dbPath : string) : StE BootState unit := λ s,
  if decide (dbPath = "") then (s, Err "empty db path") else
  match mkdir_db env (Dir dbPath) with
  | Some e => (s, Err ("mkdir db dir: " +:+ e))
  | None =>
      match open_sqlite env dbPath with
      | Err e => (s, Err ("open sqlite: " +:+ e))
      | Ok d => (set_core (with_db (Some d) (core s)) s, Ok tt)
      end
  end.

(** The variables of a new process; the disk and the hosts file are what they are. *)
Definition new_process (d : gmap string (list ascii)) (h : Hosts.HostsManager) : BootState := {|
  core := {| Token_ := ""; DeviceID_ := "";
             hosts_mgr := Hosts.GetHostsManager (Hosts.hosts_file h) (Hosts.backup_file h);
             backups := initial_flags; agent_db := None; active := ∅; net := Transfer.fresh; disk := d |};
  current_token := ""; token_rows := []; file_monitor := None |}.

Section Main.
Context `{OsqueryJson, AgentJson, CommandJson} (decode_token : string → result (string * string))
  (temp : string).

(** [main] until it waits for a signal: what it logs before it returns, or the
    connection that is up.  [fuel] bounds the turns of the registration loop. *)
Definition agent_main (fuel : nat) (env : main_env) (s : BootState) : BootState * (string + Manager) :=
  if decide (euid env ≠ 0)
  then (s, inl "Agent requires root to collect stable machine UUID. Please run with sudo.") else
  match Init with
  | Err e => (s, inl ("Cannot initialize network library:" +:+ e))
  | Ok _ =>
  let cfg := config_Init temp (config_yaml env) in
  match db_Init env (DBPath cfg) s with
  | (s1, Err e) => (s1, inl ("Cannot open SQLite:" +:+ e))
  | (s1, Ok _) =>
  match migrate_sqlite env with
  | Some e => (s1, inl ("Cannot migrate SQLite:" +:+ e))
  | None =>
  if decide (flag_elevate env = true ∧ IsElevated (privilege env) = false ∧
             AttemptElevate (privilege env) = Ok true) then (s1, inl "") else
  match start_agent decode_token cfg temp fuel (login_env env) (register_envs env) s1 with
  | (s2, Err e) => (s2, inl e)
  | (s2, Ok m) =>
      match Connect (connecting env) (flag_retries env) (flag_delay env) m with
      | (_, _, Err e) => (s2, inl ("Failed to establish connection:" +:+ e))
      | (m', _, Ok _) => (s2, inr m')
      end
  end end end end.

End Main.

(** ** The life of the process

    Two goroutines share the hosts manager and the connection: main, from the start
    of the loops to its deferred calls, and the receive loop.  Each call of a manager
    holds its mutex, so a step is what a goroutine does up to its next such call; the
    steps of the two come in any order.  The process ends when main returns, whatever
    the receive loop is doing, or when a command panics. *)

Inductive main_pc :=
  | Starting | Waiting                (* before [signal.Notify], and in [<-sigChan] *)
  | Signalled | Disabling             (* before [IsEnabled], before [SetEnabled(false)] *)
  | Cleaned                           (* before [connMgr.Close] *)
  | Closed | Exited.
#[export] Instance main_pc_eq_dec : EqDecision main_pc.
Proof. solve_decision. Defined.
Definition cleaned (pc : main_pc) : Prop := pc = Cleaned ∨ pc = Closed ∨ pc = Exited.

(** At the [select], in the read of the client it took, or between the two manager
    calls of a block_website command. *)
Inductive receive_pc := AtTop | InRead (c : TCPClient) | BetweenCalls.

Record Process := {
  main_at : main_pc;
  recv_at : receive_pc;
  conn : Manager;
  receiver : Receiver }.

(** A call of the hosts manager, and where main was. *)
Record Call := { made_at : main_pc; call_in : Hosts.call_env; call_op : Hosts.op }.

Inductive process_step :=
  | PNotify | PSignal | PIsEnabled | PSetEnabled (ev : Hosts.call_env) | PClose | PReturn
  | PTop | PMessage (env : cmd_env) | PReadFails | PEnable (ev : Hosts.call_env).

Section Process.
Context `{AgentJson, CommandJson}.

(** The calls of the block_website handler: the first, and whether blocking is
    switched on afterwards. *)
Definition first_call (ev : Hosts.call_env) (a : Hosts.blockWebsiteArg) : option Hosts.op :=
  if decide (Hosts.Action a = "sync" ∨ Hosts.Action a = "apply") then
    Some (if decide (Hosts.Status a = Some false) then Hosts.OSetEnabled false
          else Hosts.OSetDomains (Hosts.range ev (Hosts.domainsToBlock (Hosts.Rules a))))
  else if decide (Hosts.Action a = "remove") then Some (Hosts.OSetEnabled false) else None.
Definition second_call (a : Hosts.blockWebsiteArg) : bool :=
  bool_decide ((Hosts.Action a = "sync" ∨ Hosts.Action a = "apply") ∧ Hosts.Status a ≠ Some false).

(** The argument of a command that reaches this handler. *)
Definition block_request (data : list ascii) : option Hosts.blockWebsiteArg :=
  let line := to_bytes (TrimSpace (of_bytes data)) in
  if decide (line = []) then None else
  match decode_envelope_cmd line with
  | Err _ => None
  | Ok e =>
      if decide (Get (Env_Name e) = Some blockWebsiteHandler ∧ Env_Argument e ≠ [] ∧
                 resolveKind e = KindOnce)
      then match decode_block_website (Env_Argument e) with Ok a => Some a | Err _ => None end
      else None
  end.

(** What a read gives: the command to handle, and the stream behind the message. *)
Definition read_command (c : TCPClient) (input : list ascii) : option (list ascii) * list ascii :=
  match RecvProtocolMessage c input with
  | Err _ => (None, after_failure c input)
  | Ok (msg, rest) =>
      (if decide (Type_ msg = MSG_COMMAND ∧ CommandJSON msg ≠ []) then Some (CommandJSON msg) else None,
       rest)
  end.

(** A command up to the first call of the manager, which it includes. *)
Definition begin_command (env : cmd_env) (data : list ascii) (s : AgentState) :
    AgentState * option Hosts.op * receive_pc * loop_status :=
  match block_request data with
  | Some a =>
      match first_call (hosts_env1 env) a with
      | None => (s, None, AtTop, Receiving)
      | Some o =>
          let '(h, r) := Hosts.run_op (hosts_env1 env) o (hosts_mgr s) in
          (with_hosts h s, Some o,
           match r with Ok _ => if second_call a then BetweenCalls else AtTop | Err _ => AtTop end,
           Receiving)
      end
  | None =>
      match HandleCommand env data s with
      | (s', Panic) => (s', None, AtTop, LoopPanicked)
      | (s', _) => (s', None, AtTop, Receiving)
      end
  end.

Definition set_main (pc : main_pc) (p : Process) : Process :=
  {| main_at := pc; recv_at := recv_at p; conn := conn p; receiver := receiver p |}.
Definition set_recv (pc : receive_pc) (r : Receiver) (p : Process) : Process :=
  {| main_at := main_at p; recv_at := pc; conn := conn p; receiver := r |}.
Definition hosts_of (p : Process) : Hosts.HostsManager := hosts_mgr (agent (receiver p)).
Definition put_hosts (h : Hosts.HostsManager) (p : Process) : Receiver :=
  {| stream := stream (receiver p); agent := with_hosts h (agent (receiver p));
     status := status (receiver p) |}.

(** The steps of main. *)
Definition main_step (p : Process) (a : process_step) : option (Process * list Call) :=
  match a, main_at p with
  | PNotify, Starting => Some (set_main Waiting p, [])
  | PSignal, Waiting => Some (set_main Signalled p, [])
  | PIsEnabled, Signalled =>
      Some (set_main (if Hosts.IsEnabled (hosts_of p) then Disabling else Cleaned) p, [])
  | PSetEnabled ev, Disabling =>
      let h := (Hosts.SetEnabled ev false (hosts_of p)).1 in
      Some (set_main Cleaned (set_recv (recv_at p) (put_hosts h p) p),
            [{| made_at := Disabling; call_in := ev; call_op := Hosts.OSetEnabled false |}])
  | PClose, Cleaned =>
      Some ({| main_at := Closed; recv_at := recv_at p; conn := (Close (conn p)).1;
               receiver := receiver p |}, [])
  | PReturn, Closed => Some (set_main Exited p, [])
  | _, _ => None
  end.

(** The steps of the receive loop.  A client that was taken before the connection is
    closed may still deliver what it has read. *)
Definition receive_step (p : Process) (a : process_step) : option (Process * list Call) :=
  let r := receiver p in
  match a, recv_at p with
  | PTop, AtTop =>
      if m_stopped (conn p)
      then Some (set_recv AtTop {| stream := stream r; agent := agent r; status := LoopStopped |} p, [])
      else match m_client (conn p) with
           | None => Some (p, [])
           | Some c => Some (set_recv (InRead c) r p, [])
           end
  | PMessage env, InRead c =>
      match read_command c (stream r) with
      | (None, rest) =>
          Some (set_recv AtTop {| stream := rest; agent := agent r; status := Receiving |} p, [])
      | (Some data, rest) =>
          let '(s, o, pc, st) := begin_command env data (agent r) in
          Some (set_recv pc {| stream := rest; agent := s; status := st |} p,
                match o with
                | Some o => [{| made_at := main_at p; call_in := hosts_env1 env; call_op := o |}]
                | None => []
                end)
      end
  | PReadFails, InRead c => if m_stopped (conn p) then Some (set_recv AtTop r p, []) else None
  | PEnable ev, BetweenCalls =>
      let h := (Hosts.SetEnabled ev true (hosts_of p)).1 in
      Some (set_recv AtTop (put_hosts h p) p,
            [{| made_at := main_at p; call_in := ev; call_op := Hosts.OSetEnabled true |}])
  | _, _ => None
  end.

(** [None]: the step cannot happen now. *)
Definition process_one (p : Process) (a : process_step) : option (Process * list Call) :=
  if decide (main_at p = Exited ∨ status (receiver p) = LoopPanicked) then None else
  match a with
  | PNotify | PSignal | PIsEnabled | PSetEnabled _ | PClose | PReturn => main_step p a
  | _ => if decide (status (receiver p) = Receiving) then receive_step p a else None
  end.

(** A run and the calls of the manager in it. *)
Fixpoint run_process (p : Process) (l : list process_step) : option (Process * list Call) :=
  match l with
  | [] => Some (p, [])
  | a :: l =>
      '(p1, c1) ← process_one p a;
      '(p2, c2) ← run_process p1 l;
      Some (p2, c1 ++ c2)
  end.

(** [StartReceiveLoop] on the bytes the connection will deliver. *)
Definition started_process (m : Manager) (input : list ascii) (s : AgentState) : Process := {|
  main_at := Starting; recv_at := AtTop; conn := m;
  receiver := {| stream := input; agent := s; status := Receiving |} |}.
End Process.

(** ** The hosts file over a life *)

(** The file can be read and written, whatever becomes of the copy. *)
Definition hosts_works (ev : Hosts.call_env) : Prop :=
  Hosts.reading ev = Hosts.ReadOk ∧ Hosts.writing ev = Hosts.WriteOk ∧ Hosts.valid_env ev.

Section HostsWork.
Context (user : list string).

Lemma applyBlocks_works ev D h :
  hosts_works ev → Hosts.represents (Hosts.hosts_file h) user D →
  (Hosts.applyBlocks ev h).2 = Ok tt ∧ (Hosts.removeBlocks ev h).2 = Ok tt.
Proof.
  intros (Hr & Hw & _) (order & before & after & _ & _ & Hf).
  unfold Hosts.applyBlocks, Hosts.removeBlocks, Hosts.writeHostsFile, Hosts.readHostsFile,
    Hosts.truncate_and_write, wrap_st, wrap, gets, ignore, mbind, StE_bind.
  rewrite Hr, Hw. cbn [fst snd]. by rewrite Hf.
Qed.

Lemma SetEnabled_works ev stale b h :
  hosts_works ev → Hosts.hosts_inv user stale h →
  ∃ h', Hosts.SetEnabled ev b h = (h', Ok tt) ∧ Hosts.hosts_inv user ∅ h' ∧ Hosts.enabled h' = b.
Proof.
  intros Hw HI. pose proof HI as (_ & _ & _ & Hr).
  destruct (applyBlocks_works ev _ (Hosts.set_enabled b h) Hw Hr) as [Ha Hrm].
  destruct (Hosts.SetEnabled ev b h) as [h' r] eqn:E. assert (r = Ok tt) as ->.
  { apply (f_equal snd) in E. unfold Hosts.SetEnabled, modify, mbind, StE_bind in E.
    destruct b; simpl in E; congruence. }
  exists h'. split; [done|].
  destruct (Hosts.SetEnabled_ok ev user stale b h h') as (? & ? & _); [by destruct Hw as (_ & _ & ?)|done..].
Qed.

Lemma SetDomains_works ev stale ds h :
  hosts_works ev → Hosts.hosts_inv user stale h →
  Forall (λ d, Hosts.safe_domain (Hosts.canonical d)) ds →
  ∃ h', Hosts.SetDomains ev ds h = (h', Ok tt) ∧ Hosts.hosts_inv user stale h'.
Proof.
  intros Hw HI Hds. pose proof HI as (_ & _ & _ & Hr).
  destruct (applyBlocks_works ev _ (Hosts.set_domains (Hosts.domain_set ds) h) Hw Hr) as [Ha _].
  destruct (Hosts.SetDomains ev ds h) as [h' r] eqn:E. assert (r = Ok tt) as ->.
  { apply (f_equal snd) in E.
    unfold Hosts.SetDomains, Hosts.apply_if_enabled, modify, gets, mbind, StE_bind in E.
    cbn [Hosts.set_domains Hosts.enabled] in E. destruct (Hosts.enabled h); simpl in E; congruence. }
  exists h'. split; [done|]. unfold Hosts.SetDomains in E. inv_bind. injection E0 as <- _.
  eapply (Hosts.set_domains_ok ev user) in E as [? _]; [done| |done|by apply Hosts.domain_set_safe].
  by destruct Hw as (_ & _ & ?).
Qed.

(** The manager of an agent that found the file [f0], [sw]: blocking was switched. *)
Definition managed (f0 : option (list ascii)) (sw : bool) (h : Hosts.HostsManager) : Prop :=
  (∃ stale, Hosts.hosts_inv user stale h) ∧ Hosts.as_managed f0 user sw h ∧
  (Hosts.enabled h = true → sw = true).

(** The calls a process makes. *)
Definition process_op (o : Hosts.op) : Prop :=
  match o with Hosts.OSetEnabled _ | Hosts.OSetDomains _ => True | _ => False end.

Lemma run_op_managed ev o f0 sw h :
  hosts_works ev → Hosts.op_safe o → process_op o → managed f0 sw h →
  ∃ h', Hosts.run_op ev o h = (h', Ok tt) ∧ managed f0 (sw || Hosts.sets_enabled o) h' ∧
    Hosts.enabled h' = (match o with Hosts.OSetEnabled b => b | _ => Hosts.enabled h end).
Proof.
  intros Hw Ho Hp ((stale & HI) & Hm & Hsw).
  assert (∃ h', Hosts.run_op ev o h = (h', Ok tt)) as [h' E].
  { destruct o as [b|d|d|ds]; try done; simpl.
    - destruct (SetEnabled_works ev stale b h Hw HI) as (h' & E & _). eauto.
    - destruct (SetDomains_works ev stale ds h Hw HI Ho) as (h' & E & _). eauto. }
  exists h'. split; [done|]. pose proof Hw as (_ & _ & Hv).
  destruct (Hosts.run_op_inv ev o user stale h h' Hv Ho HI E) as [HI' Hf].
  destruct (Hosts.op_effect_managed _ _ f0 sw h h' Hf Hm Hsw) as [Hm' Hsw'].
  split; [by split; [eexists|]|]. apply Hf.
Qed.
End HostsWork.

Section Life.
Context `{OsqueryJson, AgentJson, CommandJson}.

(** A command that reaches the block_website handler, and the others. *)
Lemma HandleCommand_block env data s a :
  block_request data = Some a → HandleCommand env data s = blockWebsite_once env a s.
Proof.
  unfold block_request, HandleCommand. destruct (decide _); [done|].
  destruct (decode_envelope_cmd _) as [e|x]; [|done]. case_decide as Hc; [|done].
  destruct Hc as (Hg & Ha & Hk).
  destruct (decode_block_website (Env_Argument e)) as [a'|x] eqn:E; [|done]. intros Hq.
  assert (a' = a) as -> by congruence.
  unfold Dispatch. rewrite Hg, (decide_False _ _ Ha). cbn [DecodeArg]. unfold blockWebsite_DecodeArg.
  rewrite (decide_False _ _ Ha), E. cbn [mbind result_bind]. by rewrite decide_True.
Qed.

Lemma Dispatch_hosts env e s :
  (Get (Env_Name e) = Some blockWebsiteHandler ∧ Env_Argument e ≠ [] ∧ resolveKind e = KindOnce →
   ∃ x, decode_block_website (Env_Argument e) = Err x) →
  hosts_mgr (Dispatch env e s).1 = hosts_mgr s.
Proof.
  intros Hno. unfold Dispatch. destruct (Get (Env_Name e)) as [h|] eqn:Eg; [|done].
  destruct (if decide (Env_Argument e = []) then Ok NoArg else DecodeArg h (Env_Argument e))
    as [arg|x] eqn:Ea; [|done].
  destruct (decide (resolveKind e = KindOnce)) as [Hk|];
    [|destruct (decide (resolveKind e = KindStream)); [|done]].
  - destruct h, arg; try done; cbn [HandleOnce].
    all: try (unfold getLogs_once; destruct (decide (TrimSpace (Token_ s) = "")); [done|];
              by destruct (SendAction _ _ _ _ _ _ _ _ _)).
    + unfold backupAuto_once. by destruct (Auto_Enabled a).
    + unfold restore_once, download_to.
      destruct (decide (TrimSpace (Token_ s) = "")); [done|].
      destruct (if decide _ then mkdir_dest_err env _ else None); [done|].
      destruct (InitDownload _ _ _ _ _ _ _ _) as [n1 [session|x]]; [|done].
      destruct (DownloadFile _ _ _ _ _ _ _ _) as [[n2 d2] [r|x]]; simpl; [|by case_decide].
      done.
    + destruct (decide (Env_Argument e = [])) as [|Hne]; [done|].
      destruct Hno as [x Hx]; [done|]. cbn [DecodeArg] in Ea. unfold blockWebsite_DecodeArg in Ea.
      by rewrite decide_False, Hx in Ea.
  - unfold dispatch_stream.
    destruct (active s !! Env_Name e) as [f|]; [|]; cbn [call_stop].
    + destruct f; cbn [call_stop fmap option_fmap option_map]; [|done].
      destruct h, arg; cbn [Start backupAuto_start]; try done; by destruct (Auto_Enabled a).
    + destruct h, arg; cbn [Start backupAuto_start]; try done; by destruct (Auto_Enabled a).
Qed.

Lemma HandleCommand_other env data s :
  block_request data = None → hosts_mgr (HandleCommand env data s).1 = hosts_mgr s.
Proof.
  unfold block_request, HandleCommand. destruct (decide _); [done|].
  destruct (decode_envelope_cmd _) as [e|x]; [|done]. intros Hb. apply Dispatch_hosts. intros Hc.
  rewrite decide_True in Hb by done. destruct (decode_block_website _) as [a|x]; [done|]. by exists x.
Qed.

Lemma block_website_calls ev1 ev2 a h :
  (Hosts.block_website ev1 ev2 a h).1 =
  match first_call ev1 a with
  | None => h
  | Some o =>
      match Hosts.run_op ev1 o h with
      | (h1, Ok _) => if second_call a then (Hosts.SetEnabled ev2 true h1).1 else h1
      | (h1, Err _) => h1
      end
  end.
Proof.
  unfold Hosts.block_website, first_call, second_call, wrap_st, mbind, StE_bind.
  destruct (decide (Hosts.Action a = "sync" ∨ Hosts.Action a = "apply")) as [Ha|Ha].
  - destruct (decide (Hosts.Status a = Some false)) as [Hs|Hs]; cbn [Hosts.run_op].
    + rewrite bool_decide_eq_false_2 by naive_solver.
      destruct (Hosts.SetEnabled ev1 false h) as [h1 [|]]; done.
    + rewrite bool_decide_eq_true_2 by done.
      destruct (Hosts.SetDomains _ _ h) as [h1 [[]|]]; cbn [wrap fst snd]; [|done].
      by destruct (Hosts.SetEnabled ev2 true h1) as [h2 [|]].
  - rewrite bool_decide_eq_false_2 by naive_solver.
    destruct (decide (Hosts.Action a = "remove")); [|done].
    cbn [Hosts.run_op]. by destruct (Hosts.SetEnabled ev1 false h) as [h1 [|]].
Qed.

(** Undisturbed, the steps of a turn are [receive_turn]. *)
Definition finish_turn (ev : Hosts.call_env) (p : Process) : Process :=
  match receive_step p (PEnable ev) with Some (p', _) => p' | None => p end.
Lemma turn_is_receive_turn env p c :
  status (receiver p) = Receiving → m_stopped (conn p) = false → m_client (conn p) = Some c →
  recv_at p = AtTop →
  ∃ p1, receive_step p PTop = Some (p1, []) ∧
    match receive_step p1 (PMessage env) with
    | Some (p2, _) =>
        receiver (finish_turn (hosts_env2 env) p2) = receive_turn env (conn p) (receiver p)
    | None => False
    end.
Proof.
  intros Hst Hs Hc Hat.
  eexists. split; [unfold receive_step; by rewrite Hat, Hs, Hc|].
  unfold receive_turn. rewrite bool_decide_eq_true_2, Hs, Hc by done. cbn [negb].
  unfold receive_step. cbn [set_recv recv_at receiver conn main_at]. unfold read_command.
  destruct (RecvProtocolMessage c (stream (receiver p))) as [[msg rest]|x]; [|reflexivity].
  destruct (decide (Type_ msg = MSG_COMMAND ∧ CommandJSON msg ≠ [])); [|reflexivity].
  unfold begin_command.
  destruct (block_request (CommandJSON msg)) as [arg|] eqn:Eb.
  - rewrite (HandleCommand_block env _ _ arg Eb). unfold blockWebsite_once.
    pose proof (block_website_calls (hosts_env1 env) (hosts_env2 env) arg
      (hosts_mgr (agent (receiver p)))) as Hb.
    destruct (Hosts.block_website _ _ arg _) as [h r]. cbn [fst] in Hb.
    destruct (first_call (hosts_env1 env) arg) as [o|].
    + destruct (Hosts.run_op _ o _) as [h1 [u|x]]; [destruct (second_call arg)|]; subst h;
        unfold finish_turn, receive_step, put_hosts, hosts_of;
        cbn [set_recv recv_at receiver agent stream status with_hosts hosts_mgr]; by destruct r.
    + subst h. unfold finish_turn, receive_step. cbn [set_recv recv_at receiver].
      destruct r; cbn [of_result]; by destruct (agent (receiver p)).
  - destruct (HandleCommand env (CommandJSON msg) _) as [s' []]; reflexivity.
Qed.
End Life.

(** *** Starting leaves the hosts file alone *)

Section Start.
Context `{OsqueryJson, AgentJson} (decode_token : string → result (string * string)).
Context (cfg : AppConfig) (temp : string) (h0 : Hosts.HostsManager).

Definition same_hosts (s : BootState) : Prop := hosts_mgr (core s) = h0.

#[local] Hint Resolve keeps_ret keeps_fail keeps_lift keeps_gets keeps_attempt keeps_ignore : core.

Ltac keep :=
  repeat first
    [ match goal with |- ∀ _, _ => intro end
    | solve [auto]
    | apply keeps_bind
    | apply keeps_modify; solve [auto]
    | match goal with
      | |- keeps same_hosts (match ?x with _ => _ end) => destruct x
      | |- keeps same_hosts (if ?x then _ else _) => destruct x
      end ].

Lemma keeps_on_net {A} (m : StE Net A) : keeps same_hosts (on_net m).
Proof. intros s Hs. unfold on_net. by destruct (m (net (core s))). Qed.
Lemma keeps_WriteFile env path data : keeps same_hosts (WriteFile env path data).
Proof. intros s Hs. unfold WriteFile. by destruct (write_fail env path) as [[e [n|]]|]. Qed.
#[local] Hint Resolve keeps_on_net keeps_WriteFile : core.

Lemma keeps_saveToken env t : keeps same_hosts (saveToken cfg temp env t).
Proof. unfold saveToken. keep. Qed.
Lemma keeps_saveDeviceID env t : keeps same_hosts (saveDeviceID cfg temp env t).
Proof. unfold saveDeviceID. keep. Qed.
#[local] Hint Resolve keeps_saveToken keeps_saveDeviceID : core.

Lemma keeps_Login env u p : keeps same_hosts (Login decode_token cfg temp env u p).
Proof.
  unfold Login. keep. intros x Hx. unfold modify, create_token_row. simpl.
  destruct (agent_db (core x)); [|done]. by destruct (token_row_fail env).
Qed.
#[local] Hint Resolve keeps_Login : core.
Lemma keeps_promptLogin env : keeps same_hosts (promptLogin decode_token cfg temp env).
Proof. unfold promptLogin. keep. Qed.

Lemma same_hosts_use_token t d s : same_hosts s → same_hosts (use_token t d s).
Proof. intros Hs. unfold use_token. by case_decide. Qed.

Lemma same_hosts_register fuel envs : ∀ i t d s,
  same_hosts s → same_hosts (register_loop decode_token cfg temp fuel envs i t d s).1.
Proof.
  induction fuel as [|fuel IH]; intros i t d s Hs; [done|]. cbn [register_loop].
  unfold BootstrapDevice. destruct (Collect _ _) as [[si osv]|e]; [|done].
  destruct (Register_device _ _ _ _ _ _ _) as [[n1 code] [r|e]]; cbv zeta.
  - unfold start_monitor. case_decide; [done|]. by destruct (NewFileMonitor _ _ _).
  - case_decide; [|done].
    assert (same_hosts (ClearToken cfg temp (envs i) (set_core (with_net n1 (core s)) s)).1) as Hc.
    { unfold ClearToken. by destruct (remove_fail (envs i)). }
    apply (keeps_promptLogin (envs i)) in Hc.
    destruct (promptLogin _ _ _ _ _) as [s2 [[t' d']|e']]; [|done]. by apply IH, same_hosts_use_token.
Qed.

Lemma same_hosts_start fuel first envs s :
  same_hosts s → same_hosts (start_agent decode_token cfg temp fuel first envs s).1.
Proof.
  intros Hs. unfold start_agent, loadOrPromptToken.
  assert (∀ s1 r, same_hosts s1 →
    same_hosts (match r with
     | Err e => (s1, Err e)
     | Ok (token, deviceID) =>
         match register_loop decode_token cfg temp fuel envs 0 token deviceID (use_token token deviceID s1) with
         | (s2, Err e) => (s2, Err e)
         | (s2, Ok (token', uuid)) =>
             (SetDeviceID uuid s2, Ok (New (Cfg_Host cfg) (Cfg_Port cfg) uuid token'))
         end
     end).1) as Hgo.
  { intros s1 [[t d]|e] H1; [|done].
    pose proof (same_hosts_register fuel envs 0 t d _ (same_hosts_use_token t d s1 H1)) as H2.
    by destruct (register_loop _ _ _ _ _ _ _ _ _) as [s2 [[t' u]|e]]. }
  pose proof (keeps_promptLogin first s Hs) as Hp.
  destruct (LoadToken cfg temp first s) as [t|e]; [case_decide; [exact (Hgo s (Ok (TrimSpace t, DeviceID_ (core s))) Hs)|]|].
  - destruct (promptLogin _ _ _ first s) as [s1 r]. by apply (Hgo s1 r).
  - destruct (promptLogin _ _ _ first s) as [s1 r]. by apply (Hgo s1 r).
Qed.
End Start.

Lemma agent_main_hosts `{OsqueryJson, AgentJson} decode_token temp fuel env s :
  hosts_mgr (core (agent_main decode_token temp fuel env s).1) = hosts_mgr (core s).
Proof.
  unfold agent_main. case_decide; [done|]. change Init with (Ok tt). cbv iota zeta.
  unfold db_Init. destruct (decide _); [done|]. destruct (mkdir_db env _); [done|].
  destruct (open_sqlite env _) as [d|e]; [|done]. cbv iota.
  destruct (migrate_sqlite env); [done|]. destruct (decide _); [done|].
  pose proof (same_hosts_start decode_token (config_Init temp (config_yaml env)) temp (hosts_mgr (core s))
    fuel (login_env env) (register_envs env) (set_core (with_db (Some d) (core s)) s) eq_refl) as Hs.
  destruct (start_agent _ _ _ _ _ _ _) as [s2 [m|e]]; [|exact Hs].
  by destruct (Connect _ _ _ m) as [[m' ds] [[]|e]].
Qed.

Section Runs.
Context `{AgentJson, CommandJson} (user : list string) (f0 : option (list ascii)).

(** A call of a process on a file that can be read and written. *)
Definition harmless (c : Call) : Prop := hosts_works (call_in c) ∧ Hosts.op_safe (call_op c).
(** A call that switches blocking on after main has cleaned up. *)
Definition late (c : Call) : Prop := cleaned (made_at c) ∧ call_op c = Hosts.OSetEnabled true.
Definition switched (cs : list Call) : bool := existsb Hosts.sets_enabled (call_op <$> cs).

(** The manager of a process; once cleaned up it is off, if [Q]. *)
Definition process_ok (sw : bool) (Q : Prop) (p : Process) : Prop :=
  managed user f0 sw (hosts_of p) ∧ (cleaned (main_at p) → Q → Hosts.enabled (hosts_of p) = false).

Lemma begin_command_ok env data s s' o pc st :
  begin_command env data s = (s', o, pc, st) →
  match o with
  | None => hosts_mgr s' = hosts_mgr s
  | Some o => process_op o ∧ (∀ b, o = Hosts.OSetEnabled b → b = false) ∧
      hosts_mgr s' = (Hosts.run_op (hosts_env1 env) o (hosts_mgr s)).1
  end.
Proof.
  unfold begin_command. destruct (block_request data) as [a|] eqn:Eb.
  - destruct (first_call (hosts_env1 env) a) as [o'|] eqn:Ef; [|by intros [= <- <- _ _]].
    destruct (Hosts.run_op (hosts_env1 env) o' (hosts_mgr s)) as [h r] eqn:Er.
    intros [= <- <- _ _]. rewrite Er. revert Ef. unfold first_call.
    repeat case_decide; intros [= <-]; (split; [done|]); (split; [by intros b [= <-]|done]).
  - pose proof (HandleCommand_other env data s Eb) as Hh.
    destruct (HandleCommand env data s) as [s1 []]; intros [= <- <- _ _]; exact Hh.
Qed.

Lemma process_ok_call sw Q p p' ev o :
  process_ok sw Q p → process_op o → harmless {| made_at := main_at p; call_in := ev; call_op := o |} →
  hosts_of p' = (Hosts.run_op ev o (hosts_of p)).1 →
  (cleaned (main_at p') → o = Hosts.OSetEnabled false ∨ cleaned (main_at p) ∧
     (o = Hosts.OSetEnabled true → ¬ Q)) →
  process_ok (sw || Hosts.sets_enabled o) Q p'.
Proof.
  intros [Hm Hoff] Ho [Hw Hs] Hh Hc. cbn [call_in call_op] in *.
  destruct (run_op_managed user ev o f0 sw _ Hw Hs Ho Hm) as (h' & E & Hm' & He).
  rewrite E in Hh. cbn [fst] in Hh. unfold process_ok. rewrite Hh. split; [done|].
  intros Hcl HQ. rewrite He. destruct (Hc Hcl) as [->|[Hcp Ht]]; [done|].
  destruct o as [[]|d|d|ds]; try done; [by destruct Ht|by apply Hoff].
Qed.

Lemma process_ok_same sw Q p p' :
  process_ok sw Q p → hosts_of p' = hosts_of p → (cleaned (main_at p') → cleaned (main_at p)) →
  process_ok sw Q p'.
Proof. intros [Hm Hoff] Hh Hc. unfold process_ok. rewrite Hh. auto. Qed.

Lemma process_one_ok sw Q p a p' cs :
  process_ok sw Q p → process_one p a = Some (p', cs) → Forall harmless cs →
  process_ok (sw || switched cs) (Q ∧ Forall (λ c, ¬ late c) cs) p'.
Proof.
  intros Hp H1 Hh.
  assert (∀ p2, hosts_of p2 = hosts_of p → (cleaned (main_at p2) → cleaned (main_at p)) → p' = p2 →
    cs = [] → process_ok (sw || switched cs) (Q ∧ Forall (λ c, ¬ late c) cs) p') as Hsame.
  { intros p2 Hh2 Hc -> ->. rewrite orb_false_r. apply (process_ok_same _ _ p); [|done|done].
    destruct Hp as [? Hoff]. split; [done|]. intros ? [??]. by apply Hoff. }
  assert (∀ ev o, cs = [{| made_at := main_at p; call_in := ev; call_op := o |}] → process_op o →
    hosts_of p' = (Hosts.run_op ev o (hosts_of p)).1 →
    (cleaned (main_at p') → o = Hosts.OSetEnabled false ∨ cleaned (main_at p)) →
    process_ok (sw || switched cs) (Q ∧ Forall (λ c, ¬ late c) cs) p') as Hcall.
  { intros ev o -> Ho Hh2 Hc. unfold switched. cbn [fmap list_fmap existsb]. rewrite orb_false_r.
    apply (process_ok_call _ _ p _ ev); [| |by apply Forall_inv in Hh|done|].
    - destruct Hp as [? Hoff]. split; [done|]. intros ? [??]. by apply Hoff.
    - done.
    - intros Hc2. destruct (Hc Hc2) as [|Hcp]; [by left|]. right. split; [done|].
      cbn [call_op]. intros -> [_ Hl]. apply Forall_inv in Hl. by apply Hl. }
  unfold process_one in H1. case_decide; [done|].
  destruct a; try (case_decide; [|done]); cbn [main_step receive_step] in H1.
  1-6: destruct (main_at p) eqn:Em; try done.
  7-10: destruct (recv_at p) as [|c|] eqn:Er; try done.
  - injection H1 as <- <-. apply (Hsame (set_main Waiting p)); [done|by intros [|[|]]|done..].
  - injection H1 as <- <-. apply (Hsame (set_main Signalled p)); [done|by intros [|[|]]|done..].
  - injection H1 as <- <-. rewrite orb_false_r. destruct Hp as [Hm _]. split; [exact Hm|].
    intros Hc _. change (Hosts.IsEnabled (hosts_of p) = false).
    destruct (Hosts.IsEnabled (hosts_of p)); [by destruct Hc as [|[|]]|done].
  - injection H1 as <- <-. eapply Hcall; [done|done|done|]. by left.
  - injection H1 as <- <-. eapply Hsame; [| |reflexivity|reflexivity]; [reflexivity|intros _; by left].
  - injection H1 as <- <-. eapply Hsame; [| |reflexivity|reflexivity]; [reflexivity|intros _; by right; left].
  - destruct (m_stopped (conn p)); [|destruct (m_client (conn p))]; injection H1 as <- <-.
    all: (eapply Hsame; [| |reflexivity|reflexivity]); [reflexivity|intros Hc; exact Hc].
  - destruct (read_command c (stream (receiver p))) as [[data|] rest];
      [|injection H1 as <- <-; (eapply Hsame; [| |reflexivity|reflexivity]); [reflexivity|intros Hc; exact Hc]].
    destruct (begin_command env data (agent (receiver p))) as [[[s' o] pc] st] eqn:Eb.
    apply begin_command_ok in Eb. injection H1 as <- <-. destruct o as [o|].
    + destruct Eb as (Ho & _ & Hb). eapply Hcall; [done|done|exact Hb|]. by right.
    + eapply Hsame; [| |reflexivity|reflexivity]; [exact Eb|intros Hc; exact Hc].
  - destruct (m_stopped (conn p)); [|done]. injection H1 as <- <-.
    eapply Hsame; [| |reflexivity|reflexivity]; [reflexivity|intros Hc; exact Hc].
  - injection H1 as <- <-. eapply Hcall; [done|done|done|]. by right.
Qed.

Lemma run_process_ok l : ∀ sw Q p p' cs,
  process_ok sw Q p → run_process p l = Some (p', cs) → Forall harmless cs →
  process_ok (sw || switched cs) (Q ∧ Forall (λ c, ¬ late c) cs) p'.
Proof.
  induction l as [|a l IH]; intros sw Q p p' cs Hp Hr Hh; cbn [run_process] in Hr.
  { injection Hr as <- <-. rewrite orb_false_r. destruct Hp as [? Hoff]. split; [done|].
    intros ? [??]. by apply Hoff. }
  destruct (process_one p a) as [[p1 c1]|] eqn:E1; [|done]. cbn [mbind option_bind] in Hr.
  destruct (run_process p1 l) as [[p2 c2]|] eqn:E2; [|done]. injection Hr as <- <-.
  apply Forall_app in Hh as [Hh1 Hh2].
  pose proof (IH _ _ _ _ _ (process_one_ok _ _ _ _ _ _ Hp E1 Hh1) E2 Hh2) as [Hm Hoff].
  unfold switched in *. rewrite fmap_app, existsb_app, orb_assoc. split; [done|].
  intros Hc [HQ Hl]. apply Forall_app in Hl as [??]. by apply Hoff.
Qed.
End Runs.

Lemma started_process_ok `{OsqueryJson, AgentJson} decode_token temp fuel env d h user stale s m input :
  Hosts.hosts_inv user stale (hosts_mgr (core (new_process d h))) →
  agent_main decode_token temp fuel env (new_process d h) = (s, inr m) →
  process_ok user (Hosts.hosts_file h) false True (started_process m input (core s)).
Proof.
  intros HI0 Hm.
  pose proof (agent_main_hosts decode_token temp fuel env (new_process d h)) as Hs. rewrite Hm in Hs.
  cbn [fst] in Hs. split; [|by intros [|[|]]]. unfold hosts_of. cbn [started_process receiver agent].
  rewrite Hs. split; [by exists stale|]. done.
Qed.

(** C11. Over the life of an agent process, in every interleaving of main with the
    goroutine that receives commands: at every moment the hosts file is the lines of
    the user followed by one section with the blocked domains, while blocking is
    enabled; exactly the lines of the user once blocking was switched; and as the
    process found it before.  And once main has cleaned up, thus also when it has
    returned, blocking is off, unless a command that was still being handled has
    switched it on after the cleanup.  The file can be read and written, and the
    domains the server asks to block are printable and short. *)
Theorem exit_restores_hosts `{OsqueryJson, AgentJson, CommandJson} decode_token temp fuel env d h
    user stale s m input l p calls :
  Hosts.hosts_inv user stale (hosts_mgr (core (new_process d h))) →
  agent_main decode_token temp fuel env (new_process d h) = (s, inr m) →
  run_process (started_process m input (core s)) l = Some (p, calls) →
  Forall harmless calls →
  let h' := hosts_mgr (agent (receiver p)) in
  (if Hosts.enabled h' then
     ∃ order, order ≡ₚ elements (Hosts.domains h') ∧
       Hosts.file_lines (Hosts.hosts_file h') = Ok (user ++ Hosts.block_lines order)
   else if switched calls then Hosts.file_lines (Hosts.hosts_file h') = Ok user
   else Hosts.hosts_file h' = Hosts.hosts_file h) ∧
  (cleaned (main_at p) → Forall (λ c, ¬ late c) calls → Hosts.enabled h' = false).
Proof.
  intros HI0 Hm Hr Hh h'.
  pose proof (started_process_ok decode_token temp fuel env d h user stale s m input HI0 Hm) as H0'.
  destruct (run_process_ok user (Hosts.hosts_file h) l _ _ _ _ _ H0' Hr Hh) as [(_ & Hf & _) Hoff].
  split; [exact Hf|]. intros Hc Hl. by apply Hoff.
Qed.

(** A started agent with a stored token, that is told to block the news. *)
Definition blocking_json : CommandJson := {|
  decode_envelope_cmd := decode_envelope_cmd (CommandJson := sample_command_json);
  decode_get_logs := λ _, Err "json"; decode_backup_auto := λ _, Err "json";
  decode_restore := λ _, Err "json"; decode_block_website := λ _, Ok Hosts.sample_arg |}.
Definition main_sample : main_env := {|
  euid := 0; flag_retries := 10; flag_delay := 10 ^ 9; flag_elevate := false;
  config_yaml := {| file_string := λ _, None; file_int := λ _, None; file_slice := λ _, None |};
  mkdir_db := λ _, None; open_sqlite := λ _, Ok ∅; migrate_sqlite := None;
  privilege := linux_privilege 0; login_env := machine [] []; register_envs := λ _, registering;
  connecting := {| net_at := λ _, sample_net |} |}.
Definition stored_token : gmap string (list ascii) :=
  {[ "/tmp/sagiri-guard/agent.token" := to_bytes "tok" ]}.
Definition block_frame : list ascii :=
  match SendCommand (Some 3) (to_bytes "block_website/once/laptop/x") with Ok f => f | Err _ => [] end.
Definition started : BootState * (string + Manager) :=
  agent_main sample_decode_token "/tmp" 3 main_sample (new_process stored_token Hosts.sample_hosts).
(** The command is handled, then a signal arrives and the process ends. *)
Definition sample_run : list process_step :=
  [PNotify; PTop; PMessage sample_cmd_env; PEnable Hosts.ok_env; PTop; PSignal; PIsEnabled;
   PSetEnabled Hosts.ok_env; PClose; PReadFails; PTop; PReturn].
(** The signal arrives between the two calls of the command. *)
Definition racing_run : list process_step :=
  [PNotify; PTop; PMessage sample_cmd_env; PSignal; PIsEnabled; PEnable Hosts.ok_env; PClose; PReturn].
Definition sample_process (l : list process_step) : option (Process * list Call) :=
  match started with
  | (s, inr m) => run_process (H0 := blocking_json) (started_process m block_frame (core s)) l
  | _ => None
  end.

Lemma hosts_works_ok : hosts_works Hosts.ok_env.
Proof. repeat split. intros D. reflexivity. Qed.
Definition sample_calls : list Call :=
  (λ '(pc, o), {| made_at := pc; call_in := Hosts.ok_env; call_op := o |}) <$>
  [(Waiting, Hosts.OSetDomains (Hosts.range Hosts.ok_env (Hosts.domainsToBlock Hosts.sample_rules)));
   (Waiting, Hosts.OSetEnabled true); (Disabling, Hosts.OSetEnabled false)].

Lemma exit_restores_hosts_witness :
  ∃ p calls, sample_process sample_run = Some (p, calls) ∧ main_at p = Exited ∧
    Hosts.enabled (hosts_of p) = false ∧
    Hosts.file_lines (Hosts.hosts_file (hosts_of p)) = Ok ["127.0.0.1 localhost"; "# mine"].
Proof.
  destruct (sample_process sample_run) as [[p calls]|] eqn:E; [|vm_compute in E; discriminate].
  assert (main_at p = Exited ∧ calls = sample_calls) as [Hpc Hc].
  { change (match Some (p, calls) with Some (p, calls) => main_at p = Exited ∧ calls = sample_calls
            | None => False end). rewrite <- E. vm_compute. split; reflexivity. }
  clear -E Hpc Hc. destruct started as [s r] eqn:Es. unfold sample_process in E. rewrite Es in E.
  destruct r as [x|m]; [change (None = Some (p, calls)) in E; discriminate E|].
  change (run_process (H0 := blocking_json) (started_process m block_frame (core s)) sample_run =
    Some (p, calls)) in E. rewrite Hc in E |- *. clear Hc calls.
  exists p, sample_calls. split; [reflexivity|]. split; [exact Hpc|].
  pose proof (exit_restores_hosts (H1 := blocking_json) sample_decode_token "/tmp" 3 main_sample stored_token
    Hosts.sample_hosts ["127.0.0.1 localhost"; "# mine"] {["old.example"]} s m block_frame sample_run p sample_calls
    Hosts.sample_hosts_inv Es) as Hx.
  specialize (Hx E).
  destruct Hx as [Hf Hoff].
  { repeat (constructor; [split; [apply hosts_works_ok|by_decide]|]). constructor. }
  assert (Hosts.enabled (hosts_mgr (agent (receiver p))) = false) as He.
  { apply Hoff; [by right; right|]. repeat constructor; intros [[Hx|[Hx|Hx]] Ho]; cbn in Hx, Ho; discriminate. }
  rewrite He in Hf. split; [exact He|exact Hf].
Defined.

(** A command whose handling main interrupts switches blocking on after the cleanup
    found it off: the process ends with the section in the file. *)
Lemma blocks_outlive_cleanup :
  match sample_process racing_run with
  | Some (p, calls) => main_at p = Exited ∧ Hosts.enabled (hosts_of p) = true ∧
      match Hosts.file_lines (Hosts.hosts_file (hosts_of p)) with
      | Ok lines => "127.0.0.1 bbc.com" ∈ lines
      | Err _ => False
      end
  | None => False
  end.
Proof.
  assert (match sample_process racing_run with
    | Some (p, _) => bool_decide (main_at p = Exited) && Hosts.enabled (hosts_of p) &&
        match Hosts.file_lines (Hosts.hosts_file (hosts_of p)) with
        | Ok lines => bool_decide ("127.0.0.1 bbc.com" ∈ lines)
        | Err _ => false
        end
    | None => false
    end = true) as H by (vm_compute; reflexivity).
  destruct (sample_process racing_run) as [[p calls]|]; [|discriminate H].
  apply andb_true_iff in H as [[Hp He]%andb_true_iff Hl]. split; [by apply bool_decide_eq_true in Hp|].
  split; [exact He|]. destruct (Hosts.file_lines _); [|discriminate Hl]. by apply bool_decide_eq_true in Hl.
Qed.

(** [os.Geteuid] answers -1 on Windows: the agent never starts there, whatever its
    privileges. *)
Lemma windows_never_starts `{OsqueryJson, AgentJson} decode_token temp fuel env s :
  euid env = -1 → ∃ why, agent_main decode_token temp fuel env s = (s, inl why).
Proof. intros He. unfold agent_main. rewrite decide_True by lia. eauto. Qed.

(** On Linux the flag -elevate does nothing: past the first check the process is
    elevated. *)
Definition set_elevate (b : bool) (env : main_env) : main_env := {|
  euid := euid env; flag_retries := flag_retries env; flag_delay := flag_delay env; flag_elevate := b;
  config_yaml := config_yaml env; mkdir_db := mkdir_db env; open_sqlite := open_sqlite env;
  migrate_sqlite := migrate_sqlite env; privilege := privilege env; login_env := login_env env;
  register_envs := register_envs env; connecting := connecting env |}.
Lemma elevate_is_dead `{OsqueryJson, AgentJson} decode_token temp fuel env s b :
  privilege env = linux_privilege (euid env) →
  agent_main decode_token temp fuel (set_elevate b env) s = agent_main decode_token temp fuel env s.
Proof.
  intros Hp. unfold agent_main. cbn [set_elevate euid config_yaml flag_elevate privilege migrate_sqlite
    login_env register_envs connecting flag_retries flag_delay].
  case_decide as He; [done|]. assert (euid env = 0) as He0 by lia.
  assert (IsElevated (privilege env) = true) as ->.
  { rewrite Hp, He0. done. }
  assert (∀ d, db_Init (set_elevate b env) d s = db_Init env d s) as -> by done.
  destruct Init; [|done]. cbv zeta. destruct (db_Init env _ s) as [s1 [[]|e]]; [|done].
  destruct (migrate_sqlite env); [done|].
  rewrite !decide_False; [done|by intros (_ & ? & _)..].
Qed.

(** A section that an agent which was killed left in the file is not removed by an
    agent that is told nothing. *)
Lemma stale_section_stays `{OsqueryJson, AgentJson, CommandJson} decode_token temp fuel env d h user
    stale s m input l p :
  Hosts.hosts_inv user stale (hosts_mgr (core (new_process d h))) →
  agent_main decode_token temp fuel env (new_process d h) = (s, inr m) →
  run_process (started_process m input (core s)) l = Some (p, []) →
  Hosts.hosts_file (hosts_of p) = Hosts.hosts_file h.
Proof.
  intros HI0 Hm Hr. pose proof (started_process_ok decode_token temp fuel env d h user stale s m input HI0 Hm) as H0'.
  destruct (run_process_ok _ _ _ _ _ _ _ _ H0' Hr (List.Forall_nil _)) as [(_ & Hf & Hsw) _].
  unfold Hosts.as_managed in Hf. destruct (Hosts.enabled (hosts_of p)); [by specialize (Hsw eq_refl)|exact Hf].
Qed.

(** With the default configuration the agent logs to no file, and get_logs reads one
    all the same. *)
Lemma default_log_unwritten open temp cfg :
  LogPath cfg = "" →
  (logger_Init open (LogPath cfg)).1 = None ∧
  log_path cfg temp = PathJoin [Dir (TokenFilePath temp cfg); "agent.log"].
Proof. intros Hp. unfold logger_Init, log_path. by rewrite !decide_True. Qed.
