(* ===== verification/Console.v ===== *)
(** * The admin console: session, login and dashboard

    cmd/webui/ui/client.go, login.go and dashboard.go.

    The widgets (package bubbles) are a parameter ([Widgets]), JSON another
    ([ConsoleJson]).  The session is one object all models point to, so it is
    passed beside them.  A [tea.Cmd] is a value that [ConsoleDetail.exec] runs;
    the commands of widgets (blinking cursors) have no effect here and are left
    out.  [None] is a panic: an index out of range. *)

From S2P Require Export BootstrapProofs.

Local Open Scope Z_scope.

(** ** Keys and messages *)

Inductive KeyType :=
  | KeyCtrlC | KeyEnter | KeyTab | KeyShiftTab | KeyUp | KeyDown
  | KeyRunes (text : string)      (* typed characters *)
  | KeyNamed (name : string).     (* any other key: "esc", "backspace", "f1", ... *)
Record Key := { key_type : KeyType; key_alt : bool }.
Definition key_name (t : KeyType) : string :=
  match t with
  | KeyCtrlC => "ctrl+c" | KeyEnter => "enter" | KeyTab => "tab" | KeyShiftTab => "shift+tab"
  | KeyUp => "up" | KeyDown => "down" | KeyRunes text => text | KeyNamed name => name
  end.
(** [KeyMsg.String]. *)
Definition key_string (k : Key) : string :=
  (if key_alt k then "alt+" else "") +:+ key_name (key_type k).

(** [ui.FileNode]. *)
Record TreeNode := {
  Node_ID : string;
  Node_Name : string;
  Node_Type : string;
  Node_ParentID : option string;
  Node_Size : Z;
  Node_Extension : string;
  Node_ContentTypeIDs : list Z }.
#[export] Instance TreeNode_eq_dec : EqDecision TreeNode.
Proof. solve_decision. Defined.

Inductive Msg :=
  | KeyMsg (k : Key)
  | WindowSizeMsg (width height : Z)
  | MsgFromServer (m : result ProtocolMessage)
  | LoginSubmittedMsg
  | ErrMsg (e : string)
  | DeviceSelectedMsg (deviceID : string)
  | BackToDashboardMsg
  | FileLoadedMsg (nodes : list TreeNode) (dir : option string)
  | CommandSentMsg (log : string)
  | OtherMsg (tag : nat).         (* messages only widgets understand *)

(** ** Widgets *)

Record input_opts := { Placeholder : string; Prompt : string; CharLimit : Z; Secret_ : bool }.

Class Widgets := {
  Input : Type;
  input_new : input_opts → Input;
  Focus_input : Input → Input;
  Blur_input : Input → Input;
  SetValue : string → Input → Input;
  Value : Input → string;
  Update_input : Msg → Input → Input;
  Table : Type;
  table_zero : Table;
  table_new : Z → Table;                     (* its height; it has the focus *)
  SetHeight : Z → Table → Table;
  SetRows : list (list string) → Table → Table;
  SelectedRow : Table → option (list string);
  Cursor : Table → Z;
  SetCursor : Z → Table → Table;
  Focused : Table → bool;
  Focus_table : Table → Table;
  Blur_table : Table → Table;
  Update_table : Msg → Table → Table;
  ListM : Type;
  list_new : list string → Z → Z → ListM;    (* the titles, width and height *)
  SelectedItem : ListM → option Z;
  CursorUp : ListM → ListM;
  CursorDown : ListM → ListM;
  SetListSize : Z → Z → ListM → ListM;
  Update_list : Msg → ListM → ListM;
  Viewport : Type;
  viewport_zero : Viewport;
  viewport_new : Z → Z → Viewport;
  SetViewHeight : Z → Viewport → Viewport;
  SetViewWidth : Z → Viewport → Viewport;
  SetContent : string → Viewport → Viewport;
  GotoBottom : Viewport → Viewport;
  Update_viewport : Msg → Viewport → Viewport }.

(** ** JSON *)

(** What the form sends as the payload of a command. *)
Inductive command_payload :=
  | PEmpty
  | PNil
  | PLines (lines : Z)
  | PEnabled (enabled : bool)
  | PRestore (file_id : string) (version_id : Z) (file_name dest_path : string)
  | PBlock (action : string) (enabled : bool) (domains : option (list string)).

(** The data of an action of the console. *)
Inductive console_data :=
  | CNil
  | CCredentials (username password : string)
  | CTree (deviceID : string) (parent : option string) (page page_size : Z)
  | CSend (deviceID command kind : string) (payload : command_payload).

Record DeviceEntry := { Entry_ID : string; Entry_Status : string }.

Class ConsoleJson := {
  encode_console : string → console_data → result (list ascii);
  decode_auth : string → result string;
  decode_names : string → result (list string);
  decode_entries : string → result (list DeviceEntry);
  decode_nodes : string → result (list TreeNode) }.

(** ** The session *)

(** The goroutine of [receiveLoop]: blocked reading a client, or offering what
    it got, and whether that is its last message. *)
Inductive recv_loop :=
  | LoopIdle
  | LoopReading (c : TCPClient)
  | LoopOffering (m : result ProtocolMessage) (last : bool)
  | LoopEnded.

Record UISession := {
  ui_client : option TCPClient;
  ui_device : string;
  ui_token : string;
  ui_host : string;
  ui_port : Z;
  ui_loop : recv_loop;
  loopRunning : bool;
  stop_closed : bool;
  ui_conn : Net }.
Definition NewSession : UISession := {|
  ui_client := None; ui_device := ""; ui_token := ""; ui_host := ""; ui_port := 0;
  ui_loop := LoopIdle; loopRunning := false; stop_closed := false; ui_conn := Transfer.fresh |}.
Definition set_loop (l : recv_loop) (s : UISession) : UISession := {|
  ui_client := ui_client s; ui_device := ui_device s; ui_token := ui_token s; ui_host := ui_host s;
  ui_port := ui_port s; ui_loop := l; loopRunning := loopRunning s; stop_closed := stop_closed s;
  ui_conn := ui_conn s |}.
Definition set_ui_conn (n : Net) (s : UISession) : UISession := {|
  ui_client := ui_client s; ui_device := ui_device s; ui_token := ui_token s; ui_host := ui_host s;
  ui_port := ui_port s; ui_loop := ui_loop s; loopRunning := loopRunning s;
  stop_closed := stop_closed s; ui_conn := n |}.

(** A new connection replaces the client; the old one is not closed. *)
Definition Session_Connect (env : net_env) (host : string) (port : Z) : StE UISession unit := λ s,
  let dialed c n := {|
    ui_client := c; ui_device := ui_device s; ui_token := ui_token s; ui_host := host;
    ui_port := port; ui_loop := ui_loop s; loopRunning := loopRunning s;
    stop_closed := stop_closed s; ui_conn := n |} in
  match dial env host port with
  | Err e => (dialed (ui_client s) (ui_conn s), Err e)
  | Ok c => (dialed (Some c) Transfer.fresh, Ok tt)
  end.

Definition Session_Login (env : net_env) (deviceID token : string) : StE UISession unit := λ s,
  match ui_client s with
  | None => (s, Err "not connected")
  | Some c =>
      match net_send env (SendLogin c deviceID token) (ui_conn s) with
      | (n, Err e) => (set_ui_conn n s, Err e)
      | (n, Ok _) =>
          ({| ui_client := Some c; ui_device := deviceID; ui_token := token; ui_host := ui_host s;
              ui_port := ui_port s;
              ui_loop := if loopRunning s then ui_loop s else LoopReading c;
              loopRunning := true; stop_closed := stop_closed s; ui_conn := n |}, Ok tt)
      end
  end.

Definition Session_Close (s : UISession) : UISession := {|
  ui_client := (λ _, None : TCPClient) <$> ui_client s; ui_device := ui_device s;
  ui_token := ui_token s; ui_host := ui_host s; ui_port := ui_port s; ui_loop := ui_loop s;
  loopRunning := false; stop_closed := loopRunning s || stop_closed s; ui_conn := ui_conn s |}.

Definition Session_SendCommand `{ConsoleJson} (env : net_env) (action : string)
    (data : console_data) : StE UISession unit := λ s,
  match ui_client s with
  | None => (s, Err "not connected")
  | Some c =>
      match encode_console action data with
      | Err e => (s, Err e)
      | Ok b => let '(n, r) := net_send env (SendCommand c b) (ui_conn s) in (set_ui_conn n s, r)
      end
  end.

(** The blocked read returns: [input] is what the peer has sent to the client it
    reads. *)
Definition loop_reads (input : list ascii) (s : UISession) : UISession * list ascii :=
  match ui_loop s with
  | LoopReading c =>
      match RecvProtocolMessage c input with
      | Err e => (set_loop (LoopOffering (Err ("connection lost: " +:+ e)) true) s, input)
      | Ok (m, rest) => (set_loop (LoopOffering (Ok m) false) s, rest)
      end
  | _ => (s, input)
  end.

(** [WaitForMsg] takes what is offered; the loop then goes on with the client of
    that moment.  [None]: it blocks. *)
Definition WaitForMsg (s : UISession) : option (Msg * UISession) :=
  match ui_loop s with
  | LoopOffering m last =>
      Some (MsgFromServer m,
        set_loop (if last || stop_closed s then LoopEnded else
                  match ui_client s with Some c => LoopReading c | None => LoopEnded end) s)
  | _ => None
  end.

(** ** Commands *)

Inductive Cmd :=
  | CmdQuit
  | CmdWait                                            (* WaitForMsg *)
  | CmdMsg (m : Msg)
  | CmdSend (action : string) (data : console_data)    (* sent; the error is dropped *)
  | CmdLogin (host port username password : string).

(** ** Slices *)

Section Slices.
Context {A : Type}.
Definition at_index (i : Z) (l : list A) : option A := if decide (0 ≤ i) then l !! Z.to_nat i else None.
Definition update_index (i : Z) (f : A → A) (l : list A) : option (list A) :=
  x ← at_index i l; Some (<[Z.to_nat i := f x]> l).
End Slices.

Section Models.
Context `{Widgets, ConsoleJson}.

(** ** The login screen *)

Definition inputHost : Z := 0.
Definition inputPort : Z := 1.
Definition inputUsername : Z := 2.
Definition inputPassword : Z := 3.

Record LoginModel := { Inputs : list Input; FocusIdx : Z; Login_Err : option string }.

Definition NewLoginModel : LoginModel := {|
  Inputs := [
    SetValue "127.0.0.1" (Focus_input (input_new {| Placeholder := "127.0.0.1"; Prompt := "Host: ";
      CharLimit := 0; Secret_ := false |}));
    SetValue "9200" (input_new {| Placeholder := "9200"; Prompt := "Port: "; CharLimit := 0;
      Secret_ := false |});
    input_new {| Placeholder := "admin"; Prompt := "Username: "; CharLimit := 0; Secret_ := false |};
    input_new {| Placeholder := "password"; Prompt := "Password: "; CharLimit := 0;
      Secret_ := true |}];
  FocusIdx := 0; Login_Err := None |}.
Definition set_login_err (e : string) (m : LoginModel) : LoginModel :=
  {| Inputs := Inputs m; FocusIdx := FocusIdx m; Login_Err := Some e |}.

Definition move_focus (to : Z) (m : LoginModel) : option LoginModel :=
  l1 ← update_index (FocusIdx m) Blur_input (Inputs m);
  l2 ← update_index to Focus_input l1;
  Some {| Inputs := l2; FocusIdx := to; Login_Err := Login_Err m |}.
Definition nextInput (m : LoginModel) : option LoginModel :=
  let i := FocusIdx m + 1 in
  move_focus (if decide (Z.of_nat (length (Inputs m)) ≤ i) then 0 else i) m.
Definition prevInput (m : LoginModel) : option LoginModel :=
  let i := FocusIdx m - 1 in
  move_focus (if decide (i < 0) then Z.of_nat (length (Inputs m)) - 1 else i) m.

(** The values [LoginCmd] reads. *)
Definition login_command (m : LoginModel) : option Cmd :=
  host ← at_index inputHost (Inputs m);
  port ← at_index inputPort (Inputs m);
  username ← at_index inputUsername (Inputs m);
  password ← at_index inputPassword (Inputs m);
  Some (CmdLogin (Value host) (Value port) (Value username) (Value password)).

Definition update_inputs (msg : Msg) (m : LoginModel) : LoginModel :=
  {| Inputs := Update_input msg <$> Inputs m; FocusIdx := FocusIdx m; Login_Err := Login_Err m |}.

Definition Login_Update (msg : Msg) (m : LoginModel) : option (LoginModel * list Cmd) :=
  match msg with
  | KeyMsg k =>
      match key_type k with
      | KeyEnter =>
          if decide (FocusIdx m = Z.of_nat (length (Inputs m)) - 1)
          then cmd ← login_command m; Some (m, [cmd])
          else m' ← nextInput m; Some (update_inputs msg m', [])
      | KeyTab | KeyDown => m' ← nextInput m; Some (update_inputs msg m', [])
      | KeyShiftTab | KeyUp => m' ← prevInput m; Some (update_inputs msg m', [])
      | _ => Some (update_inputs msg m, [])
      end
  | _ => Some (update_inputs msg m, [])
  end.

(** [LoginCmd] when it runs. *)
Definition LoginCmd (env : net_env) (host portStr username password : string) (s : UISession) :
    UISession * Msg :=
  match Atoi portStr with
  | None => (s, ErrMsg "invalid port")
  | Some port =>
      match Session_Connect env host port s with
      | (s1, Err e) => (s1, ErrMsg ("connect failed: " +:+ e))
      | (s1, Ok _) =>
          match Session_Login env "admin-console" "initial-handshake" s1 with
          | (s2, Err e) => (s2, ErrMsg ("initial handshake failed: " +:+ e))
          | (s2, Ok _) =>
              match Session_SendCommand env "login" (CCredentials username password) s2 with
              | (s3, Err e) => (s3, ErrMsg ("send auth command failed: " +:+ e))
              | (s3, Ok _) => (s3, LoginSubmittedMsg)
              end
          end
      end
  end.

(** ** The dashboard *)

Record DashboardModel := {
  Dash_Table : Table;
  Dash_Devices : list DeviceEntry;
  Dash_Err : option string }.
Definition NewDashboardModel (height : Z) : DashboardModel :=
  {| Dash_Table := table_new (height - 10); Dash_Devices := []; Dash_Err := None |}.
Definition set_dash_table (t : Table) (m : DashboardModel) : DashboardModel :=
  {| Dash_Table := t; Dash_Devices := Dash_Devices m; Dash_Err := Dash_Err m |}.
Definition set_dash_err (e : string) (m : DashboardModel) : DashboardModel :=
  {| Dash_Table := Dash_Table m; Dash_Devices := Dash_Devices m; Dash_Err := Some e |}.

Definition Dashboard_Init : Cmd := CmdSend "admin_list_online" CNil.

(** The list of devices of an answer: names, or entries. *)
Definition show_devices (text : string) (m : DashboardModel) : DashboardModel :=
  let show (l : list DeviceEntry) := {|
    Dash_Table := SetRows ((λ d, [Entry_ID d; Entry_Status d]) <$> l) (Dash_Table m);
    Dash_Devices := l; Dash_Err := Dash_Err m |} in
  match decode_names text with
  | Ok names => show ((λ d, {| Entry_ID := d; Entry_Status := "Online" |}) <$> names)
  | Err _ => match decode_entries text with Ok l => show l | Err _ => m end
  end.

Definition Dashboard_Update (msg : Msg) (m : DashboardModel) : DashboardModel * list Cmd :=
  let rest m := (set_dash_table (Update_table msg (Dash_Table m)) m, []) in
  match msg with
  | KeyMsg k =>
      if decide (key_string k = "r") then (m, [Dashboard_Init]) else
      if decide (key_string k = "enter") then
        match SelectedRow (Dash_Table m) with
        | Some (dev :: _) => (m, [CmdMsg (DeviceSelectedMsg dev)])
        | _ => rest m
        end
      else if decide (key_string k = "q") then (m, [CmdQuit]) else rest m
  | MsgFromServer (Err e) => (set_dash_err e m, [])
  | MsgFromServer (Ok msg) =>
      if decide (Type_ msg = MSG_ACK) then rest (show_devices (StatusMsg msg) m) else rest m
  | _ => rest m
  end.
End Models.
