(* ===== verification/ConsoleDetail.v ===== *)
(** * The admin console: commands, the device page and the root

    cmd/webui/ui/command_form.go, detail.go and root.go.

    Sizes computed with floats ([int(float64(h) * 0.75)]) are integer quotients;
    the two agree for every height of a terminal.  What is drawn is in
    [ConsoleView]. *)

From S2P Require Export Console.

Local Open Scope Z_scope.

(** ** Available commands *)

Record FieldDef := { Field_Name : string; Field_Hint : string; Required : bool; Default : string }.
Record CommandDef := {
  Def_Name : string; Description : string; Def_Kind : string; Fields : list FieldDef }.

Definition availableCommands : list CommandDef := [
  {| Def_Name := "get_logs"; Description := "Fetch logs from the agent"; Def_Kind := "agent";
     Fields := [{| Field_Name := "lines"; Field_Hint := "Number of lines (default: 100)";
                   Required := false; Default := "100" |}] |};
  {| Def_Name := "backup_auto"; Description := "Enable/Disable automatic backup"; Def_Kind := "agent";
     Fields := [{| Field_Name := "enabled"; Field_Hint := "true or false"; Required := true;
                   Default := "true" |}] |};
  {| Def_Name := "restore"; Description := "Restore a file from backup"; Def_Kind := "agent";
     Fields := [
       {| Field_Name := "file_id"; Field_Hint := "File ID"; Required := true; Default := "" |};
       {| Field_Name := "version_id"; Field_Hint := "Version ID"; Required := true; Default := "" |};
       {| Field_Name := "file_name"; Field_Hint := "File name"; Required := true; Default := "" |};
       {| Field_Name := "dest_path"; Field_Hint := "Destination path"; Required := true;
          Default := "" |}] |};
  {| Def_Name := "block_website"; Description := "Block/Unblock websites"; Def_Kind := "agent";
     Fields := [
       {| Field_Name := "action"; Field_Hint := "apply, remove, or sync"; Required := true;
          Default := "apply" |};
       {| Field_Name := "enabled"; Field_Hint := "true or false"; Required := false;
          Default := "true" |};
       {| Field_Name := "domains"; Field_Hint := "Comma-separated domains for action";
          Required := false; Default := "" |}] |};
  {| Def_Name := "Custom Shell"; Description := "Execute a raw shell command"; Def_Kind := "shell";
     Fields := [{| Field_Name := "command"; Field_Hint := "e.g. ls -la"; Required := true;
                   Default := "" |}] |}].

(** [splitComma]: the loop, with the parts so far and the current one. *)
Fixpoint split_comma_loop (l : list ascii) (parts : list string) (current : list ascii) :
    list string :=
  match l with
  | [] => if decide (current = []) then parts else parts ++ [of_bytes current]
  | ch :: l =>
      if decide (ch = ","%char) then
        if decide (current = []) then split_comma_loop l parts []
        else split_comma_loop l (parts ++ [of_bytes current]) []
      else split_comma_loop l parts (current ++ [ch])
  end.
Definition splitComma (s : string) : list string := split_comma_loop (to_bytes s) [] [].

Section Console.
Context `{Widgets, ConsoleJson}.

(** ** The command form *)

Inductive FormState := StateSelecting | StateFilling.
#[export] Instance FormState_eq_dec : EqDecision FormState.
Proof. solve_decision. Defined.

Record CommandFormModel := {
  Form_DeviceID : string;
  Form_State : FormState;
  Form_List : ListM;
  Form_Inputs : list Input;
  Form_Focused : Z;
  SelectedCmd : Z }.

Definition NewCommandFormModel (deviceID : string) (width height : Z) : CommandFormModel := {|
  Form_DeviceID := deviceID; Form_State := StateSelecting;
  Form_List := list_new (Def_Name <$> availableCommands) width height;
  Form_Inputs := []; Form_Focused := 0; SelectedCmd := 0 |}.
Definition set_form_state (st : FormState) (m : CommandFormModel) : CommandFormModel := {|
  Form_DeviceID := Form_DeviceID m; Form_State := st; Form_List := Form_List m;
  Form_Inputs := Form_Inputs m; Form_Focused := Form_Focused m; SelectedCmd := SelectedCmd m |}.
Definition set_form_list (l : ListM) (m : CommandFormModel) : CommandFormModel := {|
  Form_DeviceID := Form_DeviceID m; Form_State := Form_State m; Form_List := l;
  Form_Inputs := Form_Inputs m; Form_Focused := Form_Focused m; SelectedCmd := SelectedCmd m |}.
Definition set_form_inputs (l : list Input) (focused : Z) (m : CommandFormModel) :
    CommandFormModel := {|
  Form_DeviceID := Form_DeviceID m; Form_State := Form_State m; Form_List := Form_List m;
  Form_Inputs := l; Form_Focused := focused; SelectedCmd := SelectedCmd m |}.
Definition set_selected (i : Z) (m : CommandFormModel) : CommandFormModel := {|
  Form_DeviceID := Form_DeviceID m; Form_State := Form_State m; Form_List := Form_List m;
  Form_Inputs := Form_Inputs m; Form_Focused := Form_Focused m; SelectedCmd := i |}.

Definition field_input (i : nat) (f : FieldDef) : Input :=
  let ti := input_new {| Placeholder := Field_Hint f; Prompt := ""; CharLimit := 256;
                         Secret_ := false |} in
  let ti := if decide (Default f ≠ "") then SetValue (Default f) ti else ti in
  if decide (i = 0%nat) then Focus_input ti else ti.
Definition initInputs (m : CommandFormModel) : option CommandFormModel :=
  let i := if decide (SelectedCmd m < 0 ∨ Z.of_nat (length availableCommands) ≤ SelectedCmd m)
           then 0 else SelectedCmd m in
  cmd ← at_index i availableCommands;
  Some (set_form_inputs (imap field_input (Fields cmd)) 0 (set_selected i m)).

Definition updateFocus (m : CommandFormModel) : CommandFormModel :=
  set_form_inputs (imap (λ i ti, if decide (Z.of_nat i = Form_Focused m) then Focus_input ti
                                 else Blur_input ti) (Form_Inputs m)) (Form_Focused m) m.
Definition focus_next (m : CommandFormModel) : CommandFormModel :=
  let i := Form_Focused m + 1 in
  updateFocus (set_form_inputs (Form_Inputs m)
    (if decide (Z.of_nat (length (Form_Inputs m)) + 1 < i) then 0 else i) m).
Definition focus_prev (m : CommandFormModel) : CommandFormModel :=
  let i := Form_Focused m - 1 in
  updateFocus (set_form_inputs (Form_Inputs m)
    (if decide (i < 0) then Z.of_nat (length (Form_Inputs m)) + 1 else i) m).

Definition buildPayload (name : string) (inputs : list Input) : option command_payload :=
  let value i := Value <$> at_index i inputs in
  if decide (name = "get_logs") then
    v ← value 0; Some (PLines (if decide (v = "") then 100 else Sscanf_d v 100))
  else if decide (name = "backup_auto") then
    v ← value 0; Some (PEnabled (bool_decide (v = "true")))
  else if decide (name = "restore") then
    version ← value 1; id ← value 0; file ← value 2; dest ← value 3;
    Some (PRestore id (Sscanf_d version 0) file dest)
  else if decide (name = "block_website") then
    enabled ← value 1; action ← value 0; domains ← value 2;
    Some (PBlock action (bool_decide (enabled = "true"))
      (if decide (domains = "") then None else Some (splitComma domains)))
  else Some PNil.

(** The request of [submitCommand]. *)
Definition submitCommand (m : CommandFormModel) : option Cmd :=
  cmd ← at_index (SelectedCmd m) availableCommands;
  if decide (Def_Kind cmd = "shell") then
    v ← Value <$> at_index 0 (Form_Inputs m);
    Some (CmdSend "admin_send_command" (CSend (Form_DeviceID m) v "shell" PEmpty))
  else
    payload ← buildPayload (Def_Name cmd) (Form_Inputs m);
    Some (CmdSend "admin_send_command" (CSend (Form_DeviceID m) (Def_Name cmd) "agent" payload)).

(** The list of commands takes what the form does not. *)
Definition select_update (msg : Msg) (m : CommandFormModel) : CommandFormModel :=
  set_form_list (Update_list msg (Form_List m)) m.
Definition select_key (key : string) (msg : Msg) (m : CommandFormModel) :
    option (CommandFormModel * list Cmd) :=
  if decide (key = "enter") then
    match SelectedItem (Form_List m) with
    | Some i => m' ← initInputs (set_form_state StateFilling (set_selected i m)); Some (m', [])
    | None => Some (select_update msg m, [])
    end
  else if decide (key = "up" ∨ key = "k") then Some (set_form_list (CursorUp (Form_List m)) m, [])
  else if decide (key = "down" ∨ key = "j") then Some (set_form_list (CursorDown (Form_List m)) m, [])
  else Some (select_update msg m, []).

(** The focused input takes what the form does not. *)
Definition fill_update (msg : Msg) (m : CommandFormModel) : option CommandFormModel :=
  if decide (0 ≤ Form_Focused m < Z.of_nat (length (Form_Inputs m)))
  then l ← update_index (Form_Focused m) (Update_input msg) (Form_Inputs m);
       Some (set_form_inputs l (Form_Focused m) m)
  else Some m.
Definition fill_key (key : string) (msg : Msg) (m : CommandFormModel) :
    option (CommandFormModel * list Cmd) :=
  let n := Z.of_nat (length (Form_Inputs m)) in
  if decide (key = "esc") then Some (set_form_state StateSelecting m, []) else
  if decide (key = "enter") then
    if decide (Form_Focused m = n) then cmd ← submitCommand m; Some (m, [cmd]) else
    if decide (Form_Focused m = n + 1) then Some (set_form_state StateSelecting m, []) else
    Some (focus_next m, [])
  else if decide (key = "tab" ∨ key = "down" ∨ key = "j") then Some (focus_next m, [])
  else if decide (key = "shift+tab" ∨ key = "up" ∨ key = "k") then Some (focus_prev m, [])
  else m' ← fill_update msg m; Some (m', []).

Definition Form_Update (msg : Msg) (m : CommandFormModel) : option (CommandFormModel * list Cmd) :=
  match Form_State m, msg with
  | StateSelecting, KeyMsg k => select_key (key_string k) msg m
  | StateSelecting, WindowSizeMsg w h =>
      Some (select_update msg (set_form_list (SetListSize w h (Form_List m)) m), [])
  | StateSelecting, _ => Some (select_update msg m, [])
  | StateFilling, KeyMsg k => fill_key (key_string k) msg m
  | StateFilling, _ => m' ← fill_update msg m; Some (m', [])
  end.

(** ** The device page *)

Inductive Focus := FocusTree | FocusCommand.
#[export] Instance Focus_eq_dec : EqDecision Focus.
Proof. solve_decision. Defined.

Record DeviceDetailModel := {
  Detail_DeviceID : string;
  Width : Z;
  Height : Z;
  Files : Table;
  CurrentNodes : list TreeNode;
  CurrentPath : list string;
  CurrentDirID : option string;
  ParentMap : gmap string (option string);
  CommandInput : Input;
  CommandLog : Viewport;
  LogContent : string;
  CommandForm : option CommandFormModel;
  ShowForm : bool;
  Focus_ : Focus }.

Definition set_files (t : Table) (m : DeviceDetailModel) : DeviceDetailModel := {|
  Detail_DeviceID := Detail_DeviceID m; Width := Width m; Height := Height m; Files := t;
  CurrentNodes := CurrentNodes m; CurrentPath := CurrentPath m; CurrentDirID := CurrentDirID m;
  ParentMap := ParentMap m; CommandInput := CommandInput m; CommandLog := CommandLog m;
  LogContent := LogContent m; CommandForm := CommandForm m; ShowForm := ShowForm m;
  Focus_ := Focus_ m |}.
Definition set_focus (f : Focus) (t : Table) (m : DeviceDetailModel) : DeviceDetailModel := {|
  Detail_DeviceID := Detail_DeviceID m; Width := Width m; Height := Height m; Files := t;
  CurrentNodes := CurrentNodes m; CurrentPath := CurrentPath m; CurrentDirID := CurrentDirID m;
  ParentMap := ParentMap m; CommandInput := CommandInput m; CommandLog := CommandLog m;
  LogContent := LogContent m; CommandForm := CommandForm m; ShowForm := ShowForm m; Focus_ := f |}.
Definition set_size (w h : Z) (m : DeviceDetailModel) : DeviceDetailModel := {|
  Detail_DeviceID := Detail_DeviceID m; Width := w; Height := h; Files := Files m;
  CurrentNodes := CurrentNodes m; CurrentPath := CurrentPath m; CurrentDirID := CurrentDirID m;
  ParentMap := ParentMap m; CommandInput := CommandInput m; CommandLog := CommandLog m;
  LogContent := LogContent m; CommandForm := CommandForm m; ShowForm := ShowForm m;
  Focus_ := Focus_ m |}.
Definition set_nodes (l : list TreeNode) (t : Table) (m : DeviceDetailModel) :
    DeviceDetailModel := {|
  Detail_DeviceID := Detail_DeviceID m; Width := Width m; Height := Height m; Files := t;
  CurrentNodes := l; CurrentPath := CurrentPath m; CurrentDirID := CurrentDirID m;
  ParentMap := ParentMap m; CommandInput := CommandInput m; CommandLog := CommandLog m;
  LogContent := LogContent m; CommandForm := CommandForm m; ShowForm := ShowForm m;
  Focus_ := Focus_ m |}.
Definition set_dir (dir : option string) (path : list string) (parents : gmap string (option string))
    (m : DeviceDetailModel) : DeviceDetailModel := {|
  Detail_DeviceID := Detail_DeviceID m; Width := Width m; Height := Height m; Files := Files m;
  CurrentNodes := CurrentNodes m; CurrentPath := path; CurrentDirID := dir; ParentMap := parents;
  CommandInput := CommandInput m; CommandLog := CommandLog m; LogContent := LogContent m;
  CommandForm := CommandForm m; ShowForm := ShowForm m; Focus_ := Focus_ m |}.
Definition set_input (i : Input) (m : DeviceDetailModel) : DeviceDetailModel := {|
  Detail_DeviceID := Detail_DeviceID m; Width := Width m; Height := Height m; Files := Files m;
  CurrentNodes := CurrentNodes m; CurrentPath := CurrentPath m; CurrentDirID := CurrentDirID m;
  ParentMap := ParentMap m; CommandInput := i; CommandLog := CommandLog m;
  LogContent := LogContent m; CommandForm := CommandForm m; ShowForm := ShowForm m;
  Focus_ := Focus_ m |}.
Definition set_log (v : Viewport) (text : string) (m : DeviceDetailModel) : DeviceDetailModel := {|
  Detail_DeviceID := Detail_DeviceID m; Width := Width m; Height := Height m; Files := Files m;
  CurrentNodes := CurrentNodes m; CurrentPath := CurrentPath m; CurrentDirID := CurrentDirID m;
  ParentMap := ParentMap m; CommandInput := CommandInput m; CommandLog := v; LogContent := text;
  CommandForm := CommandForm m; ShowForm := ShowForm m; Focus_ := Focus_ m |}.
Definition set_form (f : option CommandFormModel) (m : DeviceDetailModel) : DeviceDetailModel := {|
  Detail_DeviceID := Detail_DeviceID m; Width := Width m; Height := Height m; Files := Files m;
  CurrentNodes := CurrentNodes m; CurrentPath := CurrentPath m; CurrentDirID := CurrentDirID m;
  ParentMap := ParentMap m; CommandInput := CommandInput m; CommandLog := CommandLog m;
  LogContent := LogContent m; CommandForm := f; ShowForm := ShowForm m; Focus_ := Focus_ m |}.

Definition no_input : Input :=
  input_new {| Placeholder := "Enter command..."; Prompt := ""; CharLimit := 156;
               Secret_ := false |}.
Definition NewDeviceDetailModel (deviceID : string) (width height : Z) : DeviceDetailModel := {|
  Detail_DeviceID := deviceID; Width := width; Height := height; Files := table_new (height - 10);
  CurrentNodes := []; CurrentPath := []; CurrentDirID := None; ParentMap := ∅;
  CommandInput := Focus_input no_input; CommandLog := viewport_new 50 10; LogContent := "";
  CommandForm := Some (NewCommandFormModel deviceID 50 (Z.quot (3 * (height - 5)) 5));
  ShowForm := true; Focus_ := FocusTree |}.

Definition fetchDir (m : DeviceDetailModel) (parent : option string) : Cmd :=
  CmdSend "admin_list_tree" (CTree (Detail_DeviceID m) parent 1 100).
Definition sendCommand (m : DeviceDetailModel) (cmd : string) : Cmd :=
  CmdSend "admin_send_command" (CSend (Detail_DeviceID m) cmd "shell" PEmpty).

Definition newline : string := String (ascii_of_N 10) "".
Definition add_log (line : string) (bottom : bool) (m : DeviceDetailModel) : DeviceDetailModel :=
  let text := LogContent m +:+ newline +:+ line in
  let v := SetContent text (CommandLog m) in
  set_log (if bottom then GotoBottom v else v) text m.

(** [WindowSizeMsg]; the form's own commands are dropped. *)
Definition resize (w h : Z) (m : DeviceDetailModel) : option DeviceDetailModel :=
  let m1 := set_files (SetHeight (h - 12) (Files m)) (set_size w h m) in
  let right := h - 5 in
  let formHeight := if decide (LogContent m ≠ "") then Z.quot (3 * right) 4 else right in
  let logHeight := if decide (LogContent m ≠ "") then right - formHeight else 0 in
  let v := SetViewWidth (Z.quot w 2 - 8) (SetViewHeight logHeight (CommandLog m1)) in
  let m2 := set_log v (LogContent m1) m1 in
  match CommandForm m2 with
  | None => Some m2
  | Some f =>
      '(f', _) ← Form_Update (WindowSizeMsg (Z.quot w 2 - 8) formHeight) f;
      Some (set_form (Some f') m2)
  end.

(** The text ["nodes":] that marks a listing. *)
Definition nodes_mark : string :=
  String (ascii_of_N 34) ("nodes" +:+ String (ascii_of_N 34) ":").
Definition server_answer (msg : ProtocolMessage) (m : DeviceDetailModel) :
    DeviceDetailModel * list Cmd :=
  if negb (bool_decide (Type_ msg = MSG_ACK)) then (m, []) else
  if decide (StatusCode msg ≠ 200)
  then (add_log ("Error (Server): " +:+ StatusMsg msg) true m, []) else
  let marked := Contains (StatusMsg msg) nodes_mark in
  let response := (add_log ("Response: " +:+ StatusMsg msg) true m,
                   [CmdMsg (WindowSizeMsg (Width m) (Height m))]) in
  match decode_nodes (StatusMsg msg) with
  | Ok nodes =>
      if bool_decide (nodes ≠ []) || marked
      then (m, [CmdMsg (FileLoadedMsg nodes (CurrentDirID m))]) else response
  | Err e => if marked then (add_log ("Error parsing tree: " +:+ e) true m, []) else response
  end.

(** Directories first, then by name. *)
Definition node_before (a b : TreeNode) : bool :=
  if bool_decide (Node_Type a = "dir") && negb (bool_decide (Node_Type b = "dir")) then true else
  if negb (bool_decide (Node_Type a = "dir")) && bool_decide (Node_Type b = "dir") then false else
  String.ltb (Node_Name a) (Node_Name b).
Definition up_node : TreeNode := {|
  Node_ID := "UP"; Node_Name := ".."; Node_Type := "dir"; Node_ParentID := None; Node_Size := 0;
  Node_Extension := ""; Node_ContentTypeIDs := [] |}.
Definition icon (n : TreeNode) : string :=
  if decide (Node_Type n = "dir") then "📁" else "📄".
(** [sort.Slice] keeps no order among equal nodes: [arrange] is any permutation. *)
Definition show_nodes (arrange : list TreeNode → list TreeNode) (nodes : list TreeNode)
    (m : DeviceDetailModel) : DeviceDetailModel :=
  let sorted := order_by (λ a b, negb (node_before b a)) (arrange nodes) in
  let l := match CurrentDirID m with Some _ => up_node :: sorted | None => sorted end in
  set_nodes l (SetCursor 0 (SetRows ((λ n, [icon n; Node_Name n; pretty (Node_Size n)]) <$> l)
    (Files m))) m.

(** Entering the node under the cursor, and going back. *)
Definition parent_of (m : DeviceDetailModel) (dir : string) : option string :=
  default None (ParentMap m !! dir).
Definition go_up (m : DeviceDetailModel) : DeviceDetailModel * list Cmd :=
  match CurrentDirID m with
  | None => (m, [])
  | Some dir =>
      let parent := parent_of m dir in
      (set_dir parent (removelast (CurrentPath m)) (ParentMap m) m, [fetchDir m parent])
  end.
Definition enter_node (node : TreeNode) (m : DeviceDetailModel) : DeviceDetailModel * list Cmd :=
  if negb (bool_decide (Node_Type node = "dir")) then (m, []) else
  let m1 := set_dir (CurrentDirID m) (CurrentPath m)
    (<[Node_ID node := CurrentDirID m]> (ParentMap m)) m in
  if decide (Node_ID node = "UP") then go_up m1
  else (set_dir (Some (Node_ID node)) (CurrentPath m1 ++ [Node_Name node]) (ParentMap m1) m1,
        [fetchDir m (Some (Node_ID node))]).
Definition tree_key (key : string) (m : DeviceDetailModel) : DeviceDetailModel * list Cmd :=
  if decide (key = "enter") then
    match at_index (Cursor (Files m)) (CurrentNodes m) with
    | Some node => enter_node node m
    | None => (m, [])
    end
  else if decide (key = "backspace") then go_up m else (m, []).

(** The component that has the focus. *)
Definition focused_update (msg : Msg) (m : DeviceDetailModel) :
    option (DeviceDetailModel * list Cmd) :=
  if decide (Focus_ m = FocusTree) then
    let m1 := set_files (Update_table msg (Files m)) m in
    Some (match msg with KeyMsg k => tree_key (key_string k) m1 | _ => (m1, []) end)
  else
    match (if ShowForm m then CommandForm m else None) with
    | Some f => '(f', cmds) ← Form_Update msg f; Some (set_form (Some f') m, cmds)
    | None =>
        let m1 := set_input (Update_input msg (CommandInput m)) m in
        match msg with
        | KeyMsg k =>
            let text := Value (CommandInput m1) in
            if decide (key_string k = "enter" ∧ text ≠ "")
            then Some (add_log ("> " +:+ text) true (set_input (SetValue "" (CommandInput m1)) m1),
                       [sendCommand m text])
            else Some (m1, [])
        | _ => Some (m1, [])
        end
    end.

(** What the page does itself, before its components. *)
Definition page_update (arrange : list TreeNode → list TreeNode) (msg : Msg)
    (m : DeviceDetailModel) : option (DeviceDetailModel * list Cmd) :=
  match msg with
  | WindowSizeMsg w h => m' ← resize w h m; Some (m', [])
  | MsgFromServer (Err e) => Some (add_log ("Error: " +:+ e) false m, [])
  | MsgFromServer (Ok msg) => Some (server_answer msg m)
  | FileLoadedMsg nodes _ => Some (show_nodes arrange nodes m, [])
  | CommandSentMsg log =>
      Some (add_log log true m, [CmdMsg (WindowSizeMsg (Width m) (Height m))])
  | _ => Some (m, [])
  end.
(** The keys of the page itself; [None]: not one of them. *)
Definition page_key (key : string) (m : DeviceDetailModel) :
    option (DeviceDetailModel * list Cmd) :=
  if decide (key = "esc") then Some (m, [CmdMsg BackToDashboardMsg]) else
  if decide (key = "tab") then
    Some (if Focused (Files m) then set_focus FocusCommand (Blur_table (Files m)) m
          else set_focus FocusTree (Focus_table (Files m)) m, [])
  else if decide (key = "f1") then Some (set_focus FocusTree (Focus_table (Files m)) m, [])
  else if decide (key = "f2") then Some (set_focus FocusCommand (Blur_table (Files m)) m, [])
  else None.

Definition Detail_Update (arrange : list TreeNode → list TreeNode) (msg : Msg)
    (m : DeviceDetailModel) : option (DeviceDetailModel * list Cmd) :=
  match (match msg with KeyMsg k => page_key (key_string k) m | _ => None end) with
  | Some r => Some r
  | None =>
      '(m1, cmds1) ← page_update arrange msg m;
      '(m2, cmds2) ← focused_update msg m1;
      Some (set_log (Update_viewport msg (CommandLog m2)) (LogContent m2) m2, cmds1 ++ cmds2)
  end.

(** ** The root *)

Inductive screen := stateLogin | stateDashboard | stateDeviceDetail.
#[export] Instance screen_eq_dec : EqDecision screen.
Proof. solve_decision. Defined.

Record RootModel := {
  State : screen;
  Session_ : UISession;
  Login_ : LoginModel;
  Dashboard : DashboardModel;
  Detail : DeviceDetailModel;
  Quitting : bool;
  root_width : Z;
  root_height : Z }.
Definition set_session (s : UISession) (m : RootModel) : RootModel := {|
  State := State m; Session_ := s; Login_ := Login_ m; Dashboard := Dashboard m; Detail := Detail m;
  Quitting := Quitting m; root_width := root_width m; root_height := root_height m |}.
Definition set_login (l : LoginModel) (m : RootModel) : RootModel := {|
  State := State m; Session_ := Session_ m; Login_ := l; Dashboard := Dashboard m;
  Detail := Detail m; Quitting := Quitting m; root_width := root_width m;
  root_height := root_height m |}.
Definition set_dashboard (st : screen) (d : DashboardModel) (m : RootModel) : RootModel := {|
  State := st; Session_ := Session_ m; Login_ := Login_ m; Dashboard := d; Detail := Detail m;
  Quitting := Quitting m; root_width := root_width m; root_height := root_height m |}.
Definition set_detail (st : screen) (d : DeviceDetailModel) (m : RootModel) : RootModel := {|
  State := st; Session_ := Session_ m; Login_ := Login_ m; Dashboard := Dashboard m; Detail := d;
  Quitting := Quitting m; root_width := root_width m; root_height := root_height m |}.
Definition set_quitting (m : RootModel) : RootModel := {|
  State := State m; Session_ := Session_ m; Login_ := Login_ m; Dashboard := Dashboard m;
  Detail := Detail m; Quitting := true; root_width := root_width m; root_height := root_height m |}.
Definition set_window (w h : Z) (m : RootModel) : RootModel := {|
  State := State m; Session_ := Session_ m; Login_ := Login_ m; Dashboard := Dashboard m;
  Detail := Detail m; Quitting := Quitting m; root_width := w; root_height := h |}.

(** The zero values of the models that do not exist yet. *)
Definition no_dashboard : DashboardModel :=
  {| Dash_Table := table_zero; Dash_Devices := []; Dash_Err := None |}.
Definition no_detail : DeviceDetailModel := {|
  Detail_DeviceID := ""; Width := 0; Height := 0; Files := table_zero; CurrentNodes := [];
  CurrentPath := []; CurrentDirID := None; ParentMap := ∅; CommandInput := no_input;
  CommandLog := viewport_zero; LogContent := ""; CommandForm := None; ShowForm := false;
  Focus_ := FocusTree |}.
Definition NewRootModel : RootModel := {|
  State := stateLogin; Session_ := NewSession; Login_ := NewLoginModel; Dashboard := no_dashboard;
  Detail := no_detail; Quitting := false; root_width := 0; root_height := 0 |}.

(** The answer of the server while the login screen is shown: [inr] enters the
    dashboard. *)
Definition login_answer_root (env : net_env) (msg : ProtocolMessage) (m : RootModel) :
    RootModel + RootModel :=
  let failed e m := inl (set_login (set_login_err e (Login_ m)) m) in
  if decide (StatusCode msg ≠ 200) then failed ("login error: " +:+ StatusMsg msg) m else
  match decode_auth (StatusMsg msg) with
  | Err _ => failed "invalid auth response" m
  | Ok token =>
      match Session_Login env "admin-console" token (Session_ m) with
      | (s, Err e) => failed ("protocol login failed: " +:+ e) (set_session s m)
      | (s, Ok _) =>
          inr (set_dashboard stateDashboard (NewDashboardModel (root_height m)) (set_session s m))
      end
  end.

Definition is_server_msg (msg : Msg) : bool := match msg with MsgFromServer _ => true | _ => false end.
Definition is_submitted (msg : Msg) : bool := match msg with LoginSubmittedMsg => true | _ => false end.

(** The first switch of [Update], except for Ctrl+C. *)
Definition root_first (msg : Msg) (m : RootModel) : RootModel :=
  match msg with
  | WindowSizeMsg w h =>
      let m := set_window w h m in
      let m := set_dashboard (State m)
        (set_dash_table (SetHeight (h - 10) (Dash_Table (Dashboard m))) (Dashboard m)) m in
      let d := set_files (SetHeight (h - 10) (Files (Detail m))) (Detail m) in
      set_detail (State m) (set_log (SetViewHeight (h - 15) (CommandLog d)) (LogContent d) d) m
  | MsgFromServer (Err e) =>
      match State m with
      | stateLogin => set_login (set_login_err e (Login_ m)) m
      | stateDashboard => set_dashboard (State m) (set_dash_err e (Dashboard m)) m
      | stateDeviceDetail => m
      end
  | _ => m
  end.

Definition login_screen (env : net_env) (msg : Msg) (m : RootModel) :
    option (RootModel * list Cmd) :=
  match (match msg with
         | MsgFromServer (Ok a) =>
             if decide (Type_ a = MSG_ACK) then login_answer_root env a m else inl m
         | _ => inl m
         end) with
  | inr m' => Some (m', [Dashboard_Init; CmdWait])
  | inl m' =>
      '(l, cmds) ← Login_Update msg (Login_ m');
      Some (set_login l m', cmds ++ (if is_submitted msg then [CmdWait] else []))
  end.
Definition dashboard_screen (msg : Msg) (m : RootModel) : option (RootModel * list Cmd) :=
  match msg with
  | DeviceSelectedMsg dev =>
      let d := NewDeviceDetailModel dev (root_width m) (root_height m) in
      Some (set_detail stateDeviceDetail d m, [fetchDir d None])
  | _ =>
      let '(d, cmds) := Dashboard_Update msg (Dashboard m) in
      Some (set_dashboard (State m) d m, cmds ++ (if is_server_msg msg then [CmdWait] else []))
  end.
Definition detail_screen (arrange : list TreeNode → list TreeNode) (msg : Msg) (m : RootModel) :
    option (RootModel * list Cmd) :=
  match msg with
  | BackToDashboardMsg => Some (set_dashboard stateDashboard (Dashboard m) m, [Dashboard_Init])
  | _ =>
      '(d, cmds) ← Detail_Update arrange msg (Detail m);
      Some (set_detail (State m) d m, cmds ++ (if is_server_msg msg then [CmdWait] else []))
  end.

Definition is_ctrl_c (msg : Msg) : bool :=
  match msg with KeyMsg {| key_type := KeyCtrlC |} => true | _ => false end.

(** [RootModel.Update]. *)
Definition Root_Update (env : net_env) (arrange : list TreeNode → list TreeNode) (msg : Msg)
    (m : RootModel) : option (RootModel * list Cmd) :=
  if is_ctrl_c msg
  then Some (set_session (Session_Close (Session_ m)) (set_quitting m), [CmdQuit]) else
  let m := root_first msg m in
  match State m with
  | stateLogin => login_screen env msg m
  | stateDashboard => dashboard_screen msg m
  | stateDeviceDetail => detail_screen arrange msg m
  end.

(** Running a command: the session it leaves and its message, if it has one;
    [CmdWait] blocks while nothing is offered. *)
Definition exec (env : net_env) (c : Cmd) (s : UISession) : option (UISession * option Msg) :=
  match c with
  | CmdQuit => Some (s, None)
  | CmdWait => '(msg, s') ← WaitForMsg s; Some (s', Some msg)
  | CmdMsg msg => Some (s, Some msg)
  | CmdSend action data => Some ((Session_SendCommand env action data s).1, None)
  | CmdLogin host port user pass =>
      let '(s', msg) := LoginCmd env host port user pass s in Some (s', Some msg)
  end.
End Console.
