(* ===== verification/ConsoleProofs.v ===== *)
(** * The admin console: properties *)

From S2P Require Export ConsoleDetail.

Local Open Scope Z_scope.

(** ** Indices *)

Lemma at_index_is_Some {A} i (l : list A) : 0 ≤ i < Z.of_nat (length l) → is_Some (at_index i l).
Proof.
  intros Hi. unfold at_index. rewrite decide_True by lia. apply lookup_lt_is_Some. lia.
Qed.
Lemma at_index_lt {A} i (l : list A) x : at_index i l = Some x → 0 ≤ i < Z.of_nat (length l).
Proof. unfold at_index. case_decide; [|done]. intros Hl%lookup_lt_Some. lia. Qed.
Lemma update_index_length {A} i f (l : list A) : 0 ≤ i < Z.of_nat (length l) →
  ∃ l', update_index i f l = Some l' ∧ length l' = length l.
Proof.
  intros Hi. unfold update_index. destruct (at_index_is_Some i l Hi) as [x ->].
  eexists. split; [reflexivity|]. apply length_insert.
Qed.

(** ** No message makes the console fail *)

Section Safe.
Context `{Widgets, ConsoleJson}.

Definition login_ok (m : LoginModel) : Prop :=
  length (Inputs m) = 4%nat ∧ 0 ≤ FocusIdx m < 4.
(** While a form is filled in, it has the fields of its command, and the focus is
    on one of them or on one of the two buttons. *)
Definition form_ok (m : CommandFormModel) : Prop :=
  Form_State m = StateFilling → ∃ cmd, at_index (SelectedCmd m) availableCommands = Some cmd ∧
    length (Form_Inputs m) = length (Fields cmd) ∧
    0 ≤ Form_Focused m ≤ Z.of_nat (length (Form_Inputs m)) + 1.
Definition detail_ok (m : DeviceDetailModel) : Prop := ∀ f, CommandForm m = Some f → form_ok f.
Definition root_ok (m : RootModel) : Prop := login_ok (Login_ m) ∧ detail_ok (Detail m).

Lemma move_focus_ok i m : login_ok m → 0 ≤ i < 4 → ∃ m', move_focus i m = Some m' ∧ login_ok m'.
Proof.
  intros [Hl Hi] Hto. unfold move_focus.
  destruct (update_index_length (FocusIdx m) Blur_input (Inputs m)) as (l1 & -> & Hl1); [lia|].
  cbn [mbind option_bind].
  destruct (update_index_length i Focus_input l1) as (l2 & -> & Hl2); [lia|].
  eexists. split; [reflexivity|]. split; [|exact Hto]. cbn [Inputs]. lia.
Qed.
Lemma Login_Update_ok msg m : login_ok m →
  ∃ m' cmds, Login_Update msg m = Some (m', cmds) ∧ login_ok m'.
Proof.
  intros Hok. assert (∀ m', login_ok m' → login_ok (update_inputs msg m')) as Hu.
  { intros m' [Hl Hi]. split; [|done]. cbn [update_inputs Inputs]. by rewrite length_fmap. }
  pose proof Hok as [Hl Hi].
  assert (∃ m', nextInput m = Some m' ∧ login_ok m') as (mn & Hn & Hnok).
  { unfold nextInput. apply move_focus_ok; [done|]. rewrite Hl. case_decide; lia. }
  assert (∃ m', prevInput m = Some m' ∧ login_ok m') as (mp & Hp & Hpok).
  { unfold prevInput. apply move_focus_ok; [done|]. rewrite Hl. case_decide; lia. }
  unfold Login_Update. destruct msg as [[kt alt]| | | | | | | | |]; try (eexists _, _; by split; [reflexivity|apply Hu]).
  cbn [key_type]. rewrite Hn, Hp. cbn [mbind option_bind].
  destruct kt; try (eexists _, _; by split; [reflexivity|apply Hu]).
  case_decide; [|eexists _, _; by split; [reflexivity|apply Hu]].
  unfold login_command. assert (∀ i, 0 ≤ i < 4 → is_Some (at_index i (Inputs m))) as Hat
    by (intros i Hr; apply at_index_is_Some; lia).
  unfold inputHost, inputPort, inputUsername, inputPassword.
  destruct (Hat 0 ltac:(lia)) as [? ->], (Hat 1 ltac:(lia)) as [? ->], (Hat 2 ltac:(lia)) as [? ->],
    (Hat 3 ltac:(lia)) as [? ->]. cbn [mbind option_bind]. by eexists _, _.
Qed.

(** *** The form *)

Lemma initInputs_ok m : Form_State m = StateFilling → ∃ m', initInputs m = Some m' ∧ form_ok m'.
Proof.
  intros Hst. unfold initInputs. cbv zeta.
  set (i := if decide _ then 0 else _).
  assert (0 ≤ i < Z.of_nat (length availableCommands)) as Hi.
  { subst i. case_decide; [cbn [length availableCommands]; lia|lia]. }
  destruct (at_index_is_Some i availableCommands Hi) as [cmd Hc]. rewrite Hc. cbn [mbind option_bind].
  eexists. split; [reflexivity|]. intros _. exists cmd.
  cbn [set_form_inputs set_selected SelectedCmd Form_Inputs Form_Focused]. rewrite length_imap.
  split; [done|]. split; [done|]. lia.
Qed.

Lemma buildPayload_ok cmd inputs :
  cmd ∈ availableCommands → length inputs = length (Fields cmd) →
  is_Some (buildPayload (Def_Name cmd) inputs).
Proof.
  intros Hc Hl. unfold availableCommands in Hc.
  assert (∀ i, 0 ≤ i < Z.of_nat (length inputs) → ∃ v, Value <$> at_index i inputs = Some v) as Hat.
  { intros i Hi. destruct (at_index_is_Some i inputs Hi) as [x ->]. by eexists. }
  rewrite Hl in Hat. clear Hl.
  repeat (apply elem_of_cons in Hc as [->|Hc]); [..|by apply not_elem_of_nil in Hc];
    cbn [Def_Name Fields length] in *; unfold buildPayload; cbv zeta;
    rewrite ?decide_True, ?decide_False by done.
  - destruct (Hat 0 ltac:(lia)) as [v ->]. by eexists.
  - destruct (Hat 0 ltac:(lia)) as [v ->]. by eexists.
  - destruct (Hat 0 ltac:(lia)) as [v0 ->], (Hat 1 ltac:(lia)) as [v1 ->], (Hat 2 ltac:(lia)) as [v2 ->],
      (Hat 3 ltac:(lia)) as [v3 ->]. by eexists.
  - destruct (Hat 0 ltac:(lia)) as [v0 ->], (Hat 1 ltac:(lia)) as [v1 ->],
      (Hat 2 ltac:(lia)) as [v2 ->]. by eexists.
  - by eexists.
Qed.
Lemma submitCommand_ok m : form_ok m → Form_State m = StateFilling → is_Some (submitCommand m).
Proof.
  intros Hok Hst. destruct (Hok Hst) as (cmd & Hc & Hl & _). unfold submitCommand.
  rewrite Hc. cbn [mbind option_bind].
  assert (cmd ∈ availableCommands) as Hin.
  { unfold at_index in Hc. case_decide; [|done]. by eapply list_elem_of_lookup_2. }
  case_decide as Hk.
  - destruct (at_index_is_Some 0 (Form_Inputs m)) as [x ->]; [|by eexists].
    rewrite Hl. unfold availableCommands in Hin.
    repeat (apply elem_of_cons in Hin as [->|Hin]); [..|by apply not_elem_of_nil in Hin];
      cbn [Fields length]; lia.
  - destruct (buildPayload_ok cmd (Form_Inputs m) Hin Hl) as [p ->]. by eexists.
Qed.

Lemma selecting_ok m : Form_State m = StateSelecting → form_ok m.
Proof. intros Hs Hf. by rewrite Hs in Hf. Qed.
Lemma refocus_ok i m : form_ok m → 0 ≤ i ≤ Z.of_nat (length (Form_Inputs m)) + 1 →
  form_ok (updateFocus (set_form_inputs (Form_Inputs m) i m)).
Proof.
  intros Hok Hi Hst. destruct (Hok Hst) as (cmd & Hc & Hl & _). exists cmd.
  unfold updateFocus. cbn [set_form_inputs SelectedCmd Form_Inputs Form_Focused].
  by rewrite length_imap.
Qed.
Lemma focus_next_ok m : form_ok m → Form_State m = StateFilling → form_ok (focus_next m).
Proof.
  intros Hok Hst. destruct (Hok Hst) as (_ & _ & _ & Hi). apply refocus_ok; [done|]. case_decide; lia.
Qed.
Lemma focus_prev_ok m : form_ok m → Form_State m = StateFilling → form_ok (focus_prev m).
Proof.
  intros Hok Hst. destruct (Hok Hst) as (_ & _ & _ & Hi). apply refocus_ok; [done|]. case_decide; lia.
Qed.
Lemma fill_update_ok msg m : form_ok m → ∃ m', fill_update msg m = Some m' ∧ form_ok m'.
Proof.
  intros Hok. unfold fill_update. case_decide as Hi; [|by exists m].
  destruct (update_index_length (Form_Focused m) (Update_input msg) (Form_Inputs m)) as (l & -> & Hl);
    [lia|]. cbn [mbind option_bind]. eexists. split; [reflexivity|]. intros Hst.
  destruct (Hok Hst) as (cmd & Hc & Hlen & Hf). exists cmd.
  cbn [set_form_inputs SelectedCmd Form_Inputs Form_Focused]. by rewrite Hl.
Qed.

Lemma Form_Update_ok msg m : form_ok m →
  ∃ m' cmds, Form_Update msg m = Some (m', cmds) ∧ form_ok m'.
Proof.
  intros Hok. unfold Form_Update. destruct (Form_State m) eqn:Est.
  - assert (∀ l, form_ok (set_form_list l m)) as Hsel by (intros l; by apply selecting_ok).
    destruct msg as [k|w h| | | | | | | |];
      try (eexists _, _; split; [reflexivity|first [apply Hsel|by apply selecting_ok]]).
    unfold select_key. case_decide.
    { destruct (SelectedItem (Form_List m)) as [i|]; [|eexists _, _; split; [reflexivity|apply Hsel]].
      destruct (initInputs_ok (set_form_state StateFilling (set_selected i m))) as (m' & -> & Hm);
        [done|]. by eexists _, _. }
    repeat case_decide; (eexists _, _; split; [reflexivity|apply Hsel]).
  - destruct (fill_update_ok msg m Hok) as (mf & Hf & Hfok).
    destruct msg as [k|w h| | | | | | | |];
      try (rewrite Hf; cbn [mbind option_bind]; by eexists _, _).
    unfold fill_key. cbv zeta. case_decide; [eexists _, _; split; [reflexivity|by apply selecting_ok]|].
    case_decide.
    { case_decide; [destruct (submitCommand_ok m Hok Est) as [c ->]; by eexists _, _|].
      case_decide; [eexists _, _; split; [reflexivity|by apply selecting_ok]|].
      eexists _, _. split; [reflexivity|by apply focus_next_ok]. }
    case_decide; [eexists _, _; split; [reflexivity|by apply focus_next_ok]|].
    case_decide; [eexists _, _; split; [reflexivity|by apply focus_prev_ok]|].
    rewrite Hf. cbn [mbind option_bind]. by eexists _, _.
Qed.

(** *** The device page and the root *)

Lemma same_form m m' : CommandForm m' = CommandForm m → detail_ok m → detail_ok m'.
Proof. intros He Hok f Hf. apply Hok. by rewrite <- He. Qed.

Lemma go_up_form m : CommandForm (go_up m).1 = CommandForm m.
Proof. unfold go_up. by destruct (CurrentDirID m). Qed.
Lemma enter_node_form node m : CommandForm (enter_node node m).1 = CommandForm m.
Proof.
  unfold enter_node. destruct (negb _); [done|]. cbv zeta. case_decide; [by rewrite go_up_form|done].
Qed.
Lemma tree_key_form key m : CommandForm (tree_key key m).1 = CommandForm m.
Proof.
  unfold tree_key. case_decide.
  - destruct (at_index _ _); [apply enter_node_form|done].
  - case_decide; [apply go_up_form|done].
Qed.
Lemma server_answer_form a m : CommandForm (server_answer a m).1 = CommandForm m.
Proof.
  unfold server_answer. destruct (negb _); [done|]. case_decide; [done|]. cbv zeta.
  destruct (decode_nodes _); [by destruct (_ || _)|by destruct (Contains _ _)].
Qed.

Lemma resize_ok w h m : detail_ok m → ∃ m', resize w h m = Some m' ∧ detail_ok m'.
Proof.
  intros Hok. unfold resize. cbv zeta. cbn [set_log set_files set_size CommandForm].
  destruct (CommandForm m) as [f|] eqn:Ef.
  - destruct (Form_Update_ok (WindowSizeMsg (Z.quot w 2 - 8)
      (if decide (LogContent m ≠ "") then Z.quot (3 * (h - 5)) 4 else h - 5)) f (Hok f Ef))
      as (f' & cmds & -> & Hf). cbn [mbind option_bind].
    eexists. split; [reflexivity|]. by intros f'' [= <-].
  - eexists. split; [reflexivity|]. intros f Hf. cbn [set_log CommandForm set_files set_size] in Hf.
    by rewrite Ef in Hf.
Qed.
Lemma page_update_ok arrange msg m : detail_ok m →
  ∃ m' cmds, page_update arrange msg m = Some (m', cmds) ∧ detail_ok m'.
Proof.
  intros Hok. destruct msg as [k|w h|[a|e]| | | | | | |]; cbn [page_update];
    try (eexists _, _; split; [reflexivity|by apply (same_form m)]).
  - destruct (resize_ok w h m Hok) as (m' & -> & Hm). by eexists _, _.
  - destruct (server_answer a m) as [m' cmds] eqn:Ea. eexists _, _. split; [reflexivity|].
    apply (same_form m); [|done]. pose proof (server_answer_form a m) as Hf. by rewrite Ea in Hf.
Qed.
Lemma focused_update_ok msg m : detail_ok m →
  ∃ m' cmds, focused_update msg m = Some (m', cmds) ∧ detail_ok m'.
Proof.
  intros Hok. unfold focused_update. case_decide.
  - destruct msg as [k| | | | | | | | |];
      try (eexists _, _; split; [reflexivity|by apply (same_form m)]).
    destruct (tree_key (key_string k) (set_files (Update_table (KeyMsg k) (Files m)) m)) as [m' cmds] eqn:Et.
    eexists _, _. split; [reflexivity|]. apply (same_form m); [|done].
    pose proof (tree_key_form (key_string k) (set_files (Update_table (KeyMsg k) (Files m)) m)) as Hf.
    by rewrite Et in Hf.
  - destruct (if ShowForm m then CommandForm m else None) as [f|] eqn:Ef.
    + assert (CommandForm m = Some f) as Hf by by destruct (ShowForm m).
      destruct (Form_Update_ok msg f (Hok f Hf)) as (f' & cmds & -> & Hf'). cbn [mbind option_bind].
      eexists _, _. split; [reflexivity|]. by intros f'' [= <-].
    + cbv zeta. destruct msg as [k| | | | | | | | |];
        try (eexists _, _; split; [reflexivity|by apply (same_form m)]).
      case_decide; (eexists _, _; split; [reflexivity|by apply (same_form m)]).
Qed.
Lemma Detail_Update_ok arrange msg m : detail_ok m →
  ∃ m' cmds, Detail_Update arrange msg m = Some (m', cmds) ∧ detail_ok m'.
Proof.
  intros Hok. unfold Detail_Update.
  destruct (match msg with KeyMsg k => page_key (key_string k) m | _ => None end) as [[m' cmds]|] eqn:Ek.
  { eexists _, _. split; [reflexivity|]. destruct msg as [k| | | | | | | | |]; try done.
    unfold page_key in Ek. apply (same_form m); [|done].
    repeat case_decide; try done; injection Ek as <- _; try done. by destruct (Focused _). }
  destruct (page_update_ok arrange msg m Hok) as (m1 & c1 & -> & H1). cbn [mbind option_bind].
  destruct (focused_update_ok msg m1 H1) as (m2 & c2 & -> & H2). cbn [mbind option_bind].
  eexists _, _. split; [reflexivity|]. by apply (same_form m2).
Qed.

Lemma root_first_ok msg m : root_ok m → root_ok (root_first msg m).
Proof.
  intros [Hl Hd]. destruct msg as [k|w h|[a|e]| | | | | | |]; try done. cbn [root_first].
  by destruct (State m).
Qed.
Lemma Root_Update_ok env arrange msg m : root_ok m →
  ∃ m' cmds, Root_Update env arrange msg m = Some (m', cmds) ∧ root_ok m'.
Proof.
  intros Hok. unfold Root_Update. destruct (is_ctrl_c msg); [by eexists _, _|]. cbv zeta.
  pose proof (root_first_ok msg m Hok) as [Hl Hd]. destruct (State (root_first msg m)).
  - unfold login_screen.
    set (r := match msg with MsgFromServer (Ok a) => _ | _ => _ end).
    assert (match r with inl m' => root_ok m' | inr m' => root_ok m' end) as Hr.
    { subst r. destruct msg as [k|w h|[a|e]| | | | | | |]; try done. case_decide; [|done].
      unfold login_answer_root. case_decide; [done|]. destruct (decode_auth _) as [tok|]; [|done].
      by destruct (Session_Login env _ tok _) as [s [[]|]]. }
    destruct r as [m'|m']; [|by eexists _, _]. destruct Hr as [Hl' Hd'].
    destruct (Login_Update_ok msg (Login_ m') Hl') as (l & cmds & -> & Hlok). cbn [mbind option_bind].
    eexists _, _. by split; [reflexivity|].
  - unfold dashboard_screen.
    assert (∀ d, root_ok (set_dashboard (State (root_first msg m)) d (root_first msg m))) as Hset by done.
    destruct msg as [k|w h|a| | |dev| | | |];
      try (destruct (Dashboard_Update _ _) as [d cmds]; by eexists _, _).
    eexists _, _. split; [reflexivity|]. split; [done|]. intros f [= <-]. by apply selecting_ok.
  - unfold detail_screen. destruct msg as [k|w h|a| | |dev| | | |]; try by eexists _, _.
    all: match goal with |- context [Detail_Update ?a ?msg ?d] =>
      destruct (Detail_Update_ok a msg d Hd) as (d' & cmds & -> & Hd') end; cbn [mbind option_bind];
      eexists _, _; by split; [reflexivity|].
Qed.

Lemma new_root_ok : root_ok NewRootModel.
Proof. split; [split; [done|cbn; lia]|done]. Qed.

(** The program's loop: one update per message; [meanwhile i] is what the commands
    that run beside it have done to the session before the [i]th message. *)
Fixpoint ui_run (envs : nat → net_env) (meanwhile : nat → UISession → UISession)
    (arrange : list TreeNode → list TreeNode) (i : nat) (msgs : list Msg) (m : RootModel) :
    option RootModel :=
  match msgs with
  | [] => Some m
  | msg :: msgs =>
      '(m', _) ← Root_Update (envs i) arrange msg (set_session (meanwhile i (Session_ m)) m);
      ui_run envs meanwhile arrange (S i) msgs m'
  end.

Lemma ui_run_ok envs meanwhile arrange msgs : ∀ i m, root_ok m →
  ∃ m', ui_run envs meanwhile arrange i msgs m = Some m' ∧ root_ok m'.
Proof.
  induction msgs as [|msg msgs IH]; intros i m Hok; [by exists m|]. cbn [ui_run].
  destruct (Root_Update_ok (envs i) arrange msg (set_session (meanwhile i (Session_ m)) m))
    as (m' & cmds & -> & Hok'); [exact Hok|].
  cbn [mbind option_bind]. by apply IH.
Qed.
End Safe.

(** C31. The console never indexes out of range: whatever keys are pressed and
    whatever messages arrive, in any order, every update succeeds and keeps the
    models well formed: the login screen has its four fields with the focus on
    one of them, and a form being filled in has exactly the fields of its
    command. *)
Theorem console_never_panics `{Widgets, ConsoleJson} envs meanwhile arrange msgs :
  ∃ m, ui_run envs meanwhile arrange 0 msgs NewRootModel = Some m ∧ root_ok m.
Proof.
  apply ui_run_ok, new_root_ok.
Qed.

(** ** Walking the tree *)

Section Walk.
Context `{Widgets, ConsoleJson}.

(** Entering the nodes one after the other, and going up so many times, with the
    requests sent. *)
Fixpoint walk_down (nodes : list TreeNode) (m : DeviceDetailModel) : DeviceDetailModel * list Cmd :=
  match nodes with
  | [] => (m, [])
  | node :: nodes =>
      let '(m1, c1) := enter_node node m in
      let '(m2, c2) := walk_down nodes m1 in (m2, c1 ++ c2)
  end.
Fixpoint walk_up (n : nat) (m : DeviceDetailModel) : DeviceDetailModel * list Cmd :=
  match n with
  | O => (m, [])
  | S n => let '(m1, c1) := go_up m in let '(m2, c2) := walk_up n m1 in (m2, c1 ++ c2)
  end.

Definition folder (node : TreeNode) : Prop := Node_Type node = "dir" ∧ Node_ID node ≠ "UP".

Lemma enter_folder node m : folder node →
  enter_node node m = (set_dir (Some (Node_ID node)) (CurrentPath m ++ [Node_Name node])
      (<[Node_ID node := CurrentDirID m]> (ParentMap m)) m,
    [fetchDir m (Some (Node_ID node))]).
Proof.
  intros [Ht Hu]. unfold enter_node. rewrite bool_decide_eq_true_2 by done. cbn [negb]. cbv zeta.
  by rewrite decide_False.
Qed.

Lemma walk_up_snoc n : ∀ m, walk_up (S n) m =
  let '(m1, c1) := walk_up n m in let '(m2, c2) := go_up m1 in (m2, c1 ++ c2).
Proof.
  induction n as [|n IH]; intros m.
  - cbn [walk_up]. destruct (go_up m) as [m1 c1]. by rewrite app_nil_r.
  - change (walk_up (S (S n)) m) with
      (let '(m1, c1) := go_up m in let '(m2, c2) := walk_up (S n) m1 in (m2, c1 ++ c2)).
    change (walk_up (S n) m) with
      (let '(m1, c1) := go_up m in let '(m2, c2) := walk_up n m1 in (m2, c1 ++ c2)).
    destruct (go_up m) as [m1 c1]. rewrite IH.
    destruct (walk_up n m1) as [m2 c2]. destruct (go_up m2) as [m3 c3]. by rewrite app_assoc.
Qed.

(** The parents recorded on the way down stay until the way back. *)
Lemma walk_there_and_back nodes : ∀ m m1 c1 m2 c2,
  Forall folder nodes → NoDup (Node_ID <$> nodes) →
  (∀ dir, CurrentDirID m = Some dir → dir ∉ Node_ID <$> nodes) →
  walk_down nodes m = (m1, c1) → walk_up (length nodes) m1 = (m2, c2) →
  CurrentDirID m2 = CurrentDirID m ∧ CurrentPath m2 = CurrentPath m ∧
  CurrentPath m1 = CurrentPath m ++ (Node_Name <$> nodes) ∧
  Detail_DeviceID m2 = Detail_DeviceID m ∧
  c1 = (fetchDir m ∘ Some ∘ Node_ID) <$> nodes ∧
  c2 = fetchDir m <$> reverse (take (length nodes) (CurrentDirID m :: (Some ∘ Node_ID <$> nodes))) ∧
  ParentMap m2 = ParentMap m1 ∧
  ∀ id, id ∉ Node_ID <$> nodes → ParentMap m1 !! id = ParentMap m !! id.
Proof.
  induction nodes as [|node nodes IH]; intros m m1 c1 m2 c2 Hf Hnd Hcur Hdown Hup.
  { cbn in Hdown, Hup. injection Hdown as <- <-. injection Hup as <- <-. rewrite app_nil_r.
    by split_and!. }
  apply Forall_cons in Hf as [Hn Hf]. cbn [fmap list_fmap] in Hnd. apply NoDup_cons in Hnd as [Hnot Hnd].
  cbn [walk_down] in Hdown. rewrite (enter_folder node m Hn) in Hdown.
  set (m0 := set_dir _ _ _ m) in Hdown.
  destruct (walk_down nodes m0) as [m1' c1'] eqn:Ed. injection Hdown as -> <-.
  cbn [length] in Hup. rewrite walk_up_snoc in Hup.
  destruct (walk_up (length nodes) m1) as [m2' c2'] eqn:Eu.
  destruct (IH m0 m1 c1' m2' c2' Hf Hnd) as (Hdir & Hpath & Hpath1 & Hdev & Hc1 & Hc2 & Hpm & Hkeep);
    [|done|done|].
  { intros dir [= <-]. exact Hnot. }
  assert (CurrentDirID m0 = Some (Node_ID node)) as Hm0 by done.
  unfold go_up in Hup. rewrite Hdir, Hm0 in Hup. cbv zeta in Hup. injection Hup as <- <-.
  assert (parent_of m2' (Node_ID node) = CurrentDirID m) as Hpar.
  { unfold parent_of. rewrite Hpm, Hkeep by done. subst m0. cbn [set_dir ParentMap].
    by rewrite lookup_insert_eq. }
  assert (∀ p, fetchDir m2' p = fetchDir m p) as Hfm2 by (intros p; unfold fetchDir; by rewrite Hdev).
  cbn [set_dir CurrentDirID CurrentPath Detail_DeviceID ParentMap]. rewrite Hpar. split_and!.
  - done.
  - rewrite Hpath. subst m0. cbn [set_dir CurrentPath]. apply removelast_last.
  - rewrite Hpath1. subst m0. cbn [set_dir CurrentPath fmap list_fmap]. by rewrite <- app_assoc.
  - exact Hdev.
  - cbn [app fmap list_fmap]. f_equal. exact Hc1.
  - rewrite Hc2, Hfm2, Hm0. cbn [length take fmap list_fmap]. rewrite reverse_cons, fmap_app. done.
  - exact Hpm.
  - intros id Hid. apply not_elem_of_cons in Hid as [Hne Hid]. rewrite Hkeep by done. subst m0.
    cbn [set_dir ParentMap]. by rewrite lookup_insert_ne.
Qed.
End Walk.

(** Browsing the tree: entering folders that are all different and not the
    current one, and going up as often, comes back to the folder and the
    breadcrumbs of the start.  On the way down each folder is requested in
    order, on the way back the same ones in reverse, and then the start. *)
Theorem walk_returns `{Widgets, ConsoleJson} nodes m m1 c1 m2 c2 :
  Forall folder nodes → NoDup (Node_ID <$> nodes) →
  (∀ dir, CurrentDirID m = Some dir → dir ∉ Node_ID <$> nodes) →
  walk_down nodes m = (m1, c1) → walk_up (length nodes) m1 = (m2, c2) →
  CurrentDirID m2 = CurrentDirID m ∧ CurrentPath m2 = CurrentPath m ∧
  CurrentPath m1 = CurrentPath m ++ (Node_Name <$> nodes) ∧
  c1 = (fetchDir m ∘ Some ∘ Node_ID) <$> nodes ∧
  c2 = fetchDir m <$> reverse (take (length nodes) (CurrentDirID m :: (Some ∘ Node_ID <$> nodes))).
Proof.
  intros Hf Hnd Hcur Hd Hu.
  by destruct (walk_there_and_back nodes m m1 c1 m2 c2 Hf Hnd Hcur Hd Hu)
    as (? & ? & ? & _ & ? & ? & _).
Qed.

(** Entering the same folder twice, as a second Enter before the listing arrives
    does, makes it its own parent: going up never leaves it. *)
Lemma double_enter_traps `{Widgets, ConsoleJson} node m n :
  folder node →
  let m1 := (enter_node node (enter_node node m).1).1 in
  CurrentDirID (walk_up n m1).1 = Some (Node_ID node).
Proof.
  intros Hn. rewrite (enter_folder node m Hn). cbn [fst]. rewrite (enter_folder node _ Hn). cbn [fst].
  set (m1 := set_dir _ _ _ (set_dir _ _ _ m)).
  assert (CurrentDirID m1 = Some (Node_ID node) ∧
    ParentMap m1 !! Node_ID node = Some (Some (Node_ID node))) as [Hd Hp].
  { split; [done|]. subst m1. cbn [set_dir ParentMap CurrentDirID]. by rewrite lookup_insert_eq. }
  cbv zeta. clearbody m1. revert m1 Hd Hp. induction n as [|n IH]; intros m1 Hd Hp; [done|].
  cbn [walk_up]. unfold go_up at 1. rewrite Hd. cbv zeta.
  assert (parent_of m1 (Node_ID node) = Some (Node_ID node)) as -> by (unfold parent_of; by rewrite Hp).
  set (m2 := set_dir _ _ _ m1). specialize (IH m2 eq_refl Hp).
  by destruct (walk_up n m2) as [m3 c3].
Qed.

(** ** What the console's commands do *)

(** A kind the dispatcher does not know: nothing happens. *)
Lemma Dispatch_other_kind `{CommandJson, AgentJson} env e s :
  Env_Kind e ∉ [""; KindOnce; KindStream] →
  (Dispatch env e s).1 = s ∧ (Dispatch env e s).2 ≠ Panic.
Proof.
  intros Hk. apply not_elem_of_cons in Hk as [Hempty Hk].
  apply not_elem_of_cons in Hk as [Honce Hk]. apply not_elem_of_cons in Hk as [Hstream _].
  assert (resolveKind e = Env_Kind e) as Hr by (unfold resolveKind; by rewrite decide_True).
  unfold Dispatch. destruct (Get (Env_Name e)) as [h|]; [|done]. rewrite Hr.
  destruct (if decide _ then _ else _) as [arg|x]; [|done].
  by rewrite !decide_False by done.
Qed.

Lemma submitted_kind `{Widgets, ConsoleJson} form cmd :
  submitCommand form = Some cmd →
  ∃ name kind p, cmd = CmdSend "admin_send_command" (CSend (Form_DeviceID form) name kind p) ∧
    kind ∈ ["agent"; "shell"].
Proof.
  unfold submitCommand. destruct (at_index _ availableCommands) as [d|]; [|done].
  cbn [mbind option_bind]. case_decide.
  - destruct (Value <$> _) as [v|]; [|done]. intros [= <-]. eexists _, _, _. split; [reflexivity|].
    set_solver.
  - destruct (buildPayload _ _) as [p|]; [|done]. intros [= <-]. eexists _, _, _.
    split; [reflexivity|]. set_solver.
Qed.

(** Both sides of admin_send_command use encoding/json on the same names. *)
Class ConsoleWire `{Json, ConsoleJson} := {
  send_read_back dev name kind p b :
    encode_console "admin_send_command" (CSend dev name kind p) = Ok b →
    ∃ payload raw, decode_envelope b = Ok ("admin_send_command", payload) ∧
      decode_send payload = Ok {| Send_DeviceID := dev; Send_Command := name; Send_Kind := kind;
                                  Send_Payload := raw |} }.

(** C9. The commands of the console never do anything: whatever the form submits,
    its kind is "agent" or "shell", and when the server reports the command as
    sent, the agent that receives the frame drops it: its state is what it was
    and it goes on receiving. *)
Theorem console_commands_do_nothing `{EngineLaws DB, CommandWire, !AgentJson, Widgets, ConsoleJson,
    !ConsoleWire} form dev name kind p b :
  submitCommand form = Some (CmdSend "admin_send_command" (CSend dev name kind p)) →
  encode_console "admin_send_command" (CSend dev name kind p) = Ok b →
  valid_text dev → valid_text name → valid_text kind →
  kind ∈ ["agent"; "shell"] ∧
  ∃ payload, decode_envelope b = Ok ("admin_send_command", payload) ∧
    ∀ ctl env (s s' : ServerState DB) resp, queue_ok s →
      handleAdminSendCommand ctl env payload s = (s', Ok (RSend resp)) → Sent resp = true →
      ∃ fr, wire s' = wire s ++ [fr] ∧ ∀ agent_env m c rest a,
        m_client m = Some c → m_stopped m = false → client_open c = true →
        receive_turn agent_env m {| stream := fr.2 ++ rest; agent := a; status := Receiving |} =
          {| stream := rest; agent := a; status := Receiving |}.
Proof.
  intros Hsub Henc Hdev Hname Hkind.
  destruct (submitted_kind form _ Hsub) as (n & k & q & [= -> -> -> ->] & Hk).
  split; [exact Hk|].
  destruct (send_read_back _ _ _ _ _ Henc) as (payload & raw & Hd & Hdec). exists payload.
  split; [exact Hd|]. intros ctl env s s' resp Hq Hh Hsent.
  destruct (admin_send_turn ctl env payload s s' resp Hq Hh Hsent) as (req & fr & Hreq & Hw & Hturn).
  rewrite Hdec in Hreq. injection Hreq as <-. exists fr. split; [exact Hw|].
  intros agent_env m c rest a Hm Hst Hc.
  specialize (Hturn Hdev Hname Hkind agent_env m c rest a Hm Hst Hc). cbv zeta in Hturn.
  rewrite Hturn. cbn [Send_DeviceID Send_Command Send_Kind Send_Payload].
  match goal with |- context [Dispatch agent_env ?e a] =>
    destruct (Dispatch_other_kind agent_env e a) as [Ha Hp]; [|destruct (Dispatch agent_env e a) as [a' o]] end.
  - cbn [Env_Kind]. apply elem_of_cons in Hk as [->|Hk]; [by_decide|].
    apply list_elem_of_singleton in Hk as ->. by_decide.
  - cbn [fst snd] in *. subst a'. by destruct o.
Qed.

(** ** A second login *)

(** A login request that went out: the new connection carries the handshake and
    the credentials; the reader starts only if there is none. *)
Lemma LoginCmd_submitted `{Widgets, ConsoleJson} env h p u w s s' :
  LoginCmd env h p u w s = (s', LoginSubmittedMsg) →
  ∃ port c b f1 f2, Atoi p = Some port ∧ dial env h port = Ok c ∧ ui_client s' = Some c ∧
    SendLogin c "admin-console" "initial-handshake" = Ok f1 ∧
    encode_console "login" (CCredentials u w) = Ok b ∧ SendCommand c b = Ok f2 ∧
    out (ui_conn s') = f1 ++ f2 ∧ loopRunning s' = true ∧ stop_closed s' = stop_closed s ∧
    ui_loop s' = if loopRunning s then ui_loop s else LoopReading c.
Proof.
  unfold LoginCmd. destruct (Atoi p) as [port|]; [|done]. unfold Session_Connect. cbv zeta.
  destruct (dial env h port) as [c|e] eqn:Ed; [|done]. unfold Session_Login. cbn [ui_client ui_conn].
  destruct (net_send env (SendLogin c _ _) Transfer.fresh) as [n1 [[]|e]] eqn:E1; [|done].
  apply net_send_ok in E1 as (f1 & Hf1 & Ho1). unfold Session_SendCommand. cbn [ui_client ui_conn].
  destruct (encode_console _ _) as [b|e] eqn:Eb; [|done].
  destruct (net_send env (SendCommand c b) n1) as [n2 [[]|e]] eqn:E2; [|done].
  apply net_send_ok in E2 as (f2 & Hf2 & Ho2). intros [= <-].
  exists port, c, b, f1, f2. cbn [set_ui_conn ui_client ui_conn loopRunning stop_closed ui_loop].
  split_and!; try done. by rewrite Ho2, Ho1.
Qed.

(** Only the first connection is ever read: when a login was answered (say, with
    a wrong password) and the user logs in again, the program dials a new
    connection and sends the request on it, but its reader is blocked on the old
    one: waiting for the answer blocks whatever arrives on the new connection,
    until the old one delivers something or breaks. *)
Theorem second_login_unanswered `{Widgets, ConsoleJson} env1 env2 h1 p1 u1 w1 h2 p2 u2 w2 c1 input m
    rest s1 s3 s4 :
  LoginCmd env1 h1 p1 u1 w1 NewSession = (s1, LoginSubmittedMsg) →
  ui_client s1 = Some c1 → RecvProtocolMessage c1 input = Ok (m, rest) →
  WaitForMsg (loop_reads input s1).1 = Some (MsgFromServer (Ok m), s3) →
  LoginCmd env2 h2 p2 u2 w2 s3 = (s4, LoginSubmittedMsg) →
  ∃ c2 b f1 f2, ui_client s4 = Some c2 ∧
    SendLogin c2 "admin-console" "initial-handshake" = Ok f1 ∧
    encode_console "login" (CCredentials u2 w2) = Ok b ∧ SendCommand c2 b = Ok f2 ∧
    out (ui_conn s4) = f1 ++ f2 ∧ ui_loop s4 = LoopReading c1 ∧ exec env2 CmdWait s4 = None ∧
    ∀ input', is_ok (RecvProtocolMessage c1 input') = true →
      ∃ m' rest', RecvProtocolMessage c1 input' = Ok (m', rest') ∧
        loop_reads input' s4 = (set_loop (LoopOffering (Ok m') false) s4, rest').
Proof.
  intros H1 Hc1 Hrecv Hwait H2.
  apply LoginCmd_submitted in H1 as (port & c & b1 & f & g & _ & _ & Hc & _ & _ & _ & _ & Hrun & Hstop & Hloop).
  rewrite Hc1 in Hc. injection Hc as <-. cbn [NewSession loopRunning stop_closed] in Hloop, Hstop.
  unfold loop_reads in Hwait. rewrite Hloop, Hrecv in Hwait. unfold WaitForMsg in Hwait.
  cbn [fst set_loop ui_loop stop_closed ui_client] in Hwait. rewrite Hstop, Hc1 in Hwait.
  cbn [orb] in Hwait. injection Hwait as <-.
  apply LoginCmd_submitted in H2 as (port2 & c2 & b & f1 & f2 & _ & _ & Hc2 & Hf1 & Hb & Hf2 & Hout & _ & _ & Hl2).
  cbn [set_loop loopRunning ui_loop] in Hl2. rewrite Hrun in Hl2.
  exists c2, b, f1, f2. split_and!; try done.
  - unfold exec, WaitForMsg. by rewrite Hl2.
  - intros input' Hok. destruct (RecvProtocolMessage c1 input') as [[m' rest']|] eqn:Er; [|done].
    exists m', rest'. split; [done|]. unfold loop_reads. by rewrite Hl2, Er.
Qed.

(** ** A console to run it on *)

(** Stand-ins for the widgets: an input is its text, a table its rows, cursor and
    focus, a list its cursor. *)
#[export] Instance sample_widgets : Widgets := {
  Input := string;
  input_new := λ _, "";
  Focus_input := λ i, i;
  Blur_input := λ i, i;
  SetValue := λ v _, v;
  Value := λ i, i;
  Update_input := λ msg i,
    match msg with KeyMsg {| key_type := KeyRunes text |} => i +:+ text | _ => i end;
  Table := list (list string) * Z * bool;
  table_zero := ([], 0, false);
  table_new := λ _, ([], 0, true);
  SetHeight := λ _ t, t;
  SetRows := λ rows t, (rows, t.1.2, t.2);
  SelectedRow := λ t, at_index t.1.2 t.1.1;
  Cursor := λ t, t.1.2;
  SetCursor := λ i t, (t.1.1, i, t.2);
  Focused := λ t, t.2;
  Focus_table := λ t, (t.1, true);
  Blur_table := λ t, (t.1, false);
  Update_table := λ _ t, t;
  ListM := Z;
  list_new := λ _ _ _, 0;
  SelectedItem := λ i, Some i;
  CursorUp := λ i, i - 1;
  CursorDown := λ i, i + 1;
  SetListSize := λ _ _ i, i;
  Update_list := λ _ i, i;
  Viewport := string;
  viewport_zero := "";
  viewport_new := λ _ _, "";
  SetViewHeight := λ _ v, v;
  SetViewWidth := λ _ v, v;
  SetContent := λ text _, text;
  GotoBottom := λ v, v;
  Update_viewport := λ _ v, v }.

(** A request is encoded when the server's stand-in can read it back. *)
#[export] Instance sample_console_json : ConsoleJson := {
  encode_console := λ action d,
    match d with
    | CCredentials u p => Ok (to_bytes (Join [action; u; p]))
    | CSend dev name kind _ =>
        let text := Join [dev; name; kind; "x"] in
        let b := to_bytes (action +:+ "/" +:+ text) in
        if decide (decode_envelope b = Ok (action, to_bytes text) ∧
                   slash_free dev ∧ slash_free name ∧ slash_free kind) then Ok b else Err "json"
    | _ => Err "json"
    end;
  decode_auth := λ text, Ok text;
  decode_names := λ text, Ok (Split text);
  decode_entries := λ _, Err "json";
  decode_nodes := λ _, Err "json" }.
#[export] Instance sample_console_wire : ConsoleWire.
Proof.
  split. intros dev name kind p b He. cbn [encode_console sample_console_json] in He. cbv zeta in He.
  destruct (decide _) as [(Hd & H1 & H2 & H3)|]; [|discriminate]. injection He as <-.
  exists (to_bytes (Join [dev; name; kind; "x"])), (to_bytes "x"). split; [exact Hd|].
  cbn [decode_send sample_json]. unfold field, fields. rewrite of_to_bytes, Split_Join; [done|done|].
  repeat constructor; try done. by_decide.
Defined.

Definition key (t : KeyType) : Msg := KeyMsg {| key_type := t; key_alt := false |}.

(** The form, opened on backup_auto and moved to its submit button. *)
Definition filled_form : CommandFormModel :=
  match Form_Update (key KeyDown) (NewCommandFormModel "laptop" 50 20) with
  | Some (f, _) =>
      match Form_Update (key KeyEnter) f with
      | Some (f, _) => match Form_Update (key KeyDown) f with Some (f, _) => f | None => f end
      | None => f
      end
  | None => NewCommandFormModel "laptop" 50 20
  end.
Lemma console_commands_do_nothing_witness :
  ∃ b payload fr, Form_Update (key KeyEnter) filled_form =
      Some (filled_form, [CmdSend "admin_send_command"
        (CSend "laptop" "backup_auto" "agent" (PEnabled true))]) ∧
    encode_console "admin_send_command" (CSend "laptop" "backup_auto" "agent" (PEnabled true)) = Ok b ∧
    decode_envelope b = Ok ("admin_send_command", payload) ∧
    (handleAdminSendCommand sample_ctl sample_env payload online_laptop).1.(wire) = [fr] ∧
    agent (receive_turn sample_cmd_env connected
      {| stream := fr.2; agent := sample_agent; status := Receiving |}) = sample_agent.
Proof.
  destruct (encode_console "admin_send_command" (CSend "laptop" "backup_auto" "agent" (PEnabled true)))
    as [b|e] eqn:Eb; [|vm_compute in Eb; discriminate Eb].
  destruct (console_commands_do_nothing filled_form "laptop" "backup_auto" "agent" (PEnabled true) b)
    as (_ & payload & Hd & Hserve).
  - vm_compute. reflexivity.
  - exact Eb.
  - unfold valid_text. cbn. unfold slash_free. by_decide.
  - unfold valid_text. cbn. unfold slash_free. by_decide.
  - unfold valid_text. cbn. unfold slash_free. by_decide.
  - vm_compute in Eb. injection Eb as <-.
    destruct (handleAdminSendCommand sample_ctl sample_env payload online_laptop) as [s' r] eqn:Es.
    assert (∃ resp, r = Ok (RSend resp) ∧ Sent resp = true) as (resp & -> & Hsent).
    { apply (f_equal snd) in Es. cbn [snd] in Es. vm_compute in Hd. injection Hd as <-.
      vm_compute in Es. rewrite <- Es. eexists. split; reflexivity. }
    destruct (Hserve sample_ctl sample_env online_laptop s' resp) as (fr & Hw & Hturn).
    + intros k v Hk. simplify_map_eq.
    + exact Es.
    + exact Hsent.
    + eexists _, payload, fr. split; [vm_compute; reflexivity|]. split; [reflexivity|].
      split; [exact Hd|]. split; [rewrite Es; exact Hw|].
      specialize (Hturn sample_cmd_env connected (Some 4) [] sample_agent eq_refl eq_refl eq_refl).
      rewrite app_nil_r in Hturn. by rewrite Hturn.
Defined.

Definition dir_node (id name : string) : TreeNode := {|
  Node_ID := id; Node_Name := name; Node_Type := "dir"; Node_ParentID := None; Node_Size := 0;
  Node_Extension := ""; Node_ContentTypeIDs := [] |}.
Definition fresh_page : DeviceDetailModel := NewDeviceDetailModel "laptop" 80 24.
Lemma walk_returns_witness :
  let '(m1, _) := walk_down [dir_node "1" "home"; dir_node "2" "ann"] fresh_page in
  CurrentPath m1 = ["home"; "ann"] ∧
  let '(m2, c2) := walk_up 2 m1 in
  CurrentDirID m2 = None ∧ CurrentPath m2 = [] ∧
  c2 = [fetchDir fresh_page (Some "1"); fetchDir fresh_page None].
Proof.
  destruct (walk_down [dir_node "1" "home"; dir_node "2" "ann"] fresh_page) as [m1 c1] eqn:Ed.
  destruct (walk_up 2 m1) as [m2 c2] eqn:Eu.
  destruct (walk_returns [dir_node "1" "home"; dir_node "2" "ann"] fresh_page m1 c1 m2 c2)
    as (Hd & Hp & Hp1 & _ & Hc2).
  - by_decide.
  - by_decide.
  - intros dir Hdir. discriminate Hdir.
  - exact Ed.
  - exact Eu.
  - split; [exact Hp1|]. split; [exact Hd|]. split; [exact Hp|exact Hc2].
Defined.

(** A wrong password, then another try. *)
Definition dials (fd : Z) : net_env :=
  {| dial := λ _ _, Ok (Some fd); takes := λ _, true; partial := λ _, 0%nat |}.
Definition refusal : list ascii :=
  match SendAck (Some 3) 401 "invalid credentials" with Ok f => f | Err _ => [] end.
Lemma second_login_unanswered_witness :
  let s1 := (LoginCmd (dials 3) "h" "9200" "ann" "wrong" NewSession).1 in
  ∃ m s3, WaitForMsg (loop_reads refusal s1).1 = Some (MsgFromServer (Ok m), s3) ∧
    StatusCode m = 401 ∧
    exec (dials 4) CmdWait (LoginCmd (dials 4) "h" "9200" "ann" "secret" s3).1 = None.
Proof.
  cbv zeta.
  destruct (LoginCmd (dials 3) "h" "9200" "ann" "wrong" NewSession) as [s1 r1] eqn:E1.
  assert (r1 = LoginSubmittedMsg ∧ ui_client s1 = Some (Some 3) ∧
    WaitForMsg (loop_reads refusal s1).1 ≠ None) as (-> & Hc1 & Hw).
  { vm_compute in E1. injection E1 as <- <-. split; [reflexivity|]. split; [reflexivity|].
    vm_compute. discriminate. }
  destruct (RecvProtocolMessage (Some 3) refusal) as [[m rest]|e] eqn:Er;
    [|vm_compute in Er; discriminate Er].
  destruct (WaitForMsg (loop_reads refusal s1).1) as [[msg s3]|] eqn:Ew; [|by destruct Hw].
  assert (msg = MsgFromServer (Ok m) ∧ StatusCode m = 401 ∧
    (LoginCmd (dials 4) "h" "9200" "ann" "secret" s3).2 = LoginSubmittedMsg) as (-> & Hcode & Hsub).
  { vm_compute in E1. injection E1 as <-. vm_compute in Er. injection Er as <- <-. vm_compute in Ew.
    injection Ew as <- <-. split; [reflexivity|]. split; [reflexivity|]. vm_compute. reflexivity. }
  destruct (LoginCmd (dials 4) "h" "9200" "ann" "secret" s3) as [s4 r4] eqn:E2. cbn [snd] in Hsub.
  subst r4. exists m, s3. split; [exact Ew|]. split; [exact Hcode|].
  destruct (second_login_unanswered (dials 3) (dials 4) "h" "9200" "ann" "wrong" "h" "9200" "ann"
    "secret" (Some 3) refusal m rest s1 s3 s4 E1 Hc1 Er Ew E2)
    as (c2 & b & f1 & f2 & _ & _ & _ & _ & _ & _ & Hwait & _).
  rewrite E2. exact Hwait.
Defined.
