(* ===== verification/ConsoleView.v ===== *)
(** * What the console draws

    The [View] methods of cmd/webui/ui (login.go, dashboard.go, command_form.go,
    detail.go, root.go), over the looks of the widgets and of package lipgloss.

    A view is [None] when drawing it panics; bubbletea draws after every update, so
    the program ends there. *)

From S2P Require Export Sockets ConsoleProofs.

Local Open Scope Z_scope.

(** ** Styles *)

Inductive border := NormalBorder | ThickBorder.
Record style := {
  bold : bool;
  foreground : string;
  background : string;
  border_style : option (border * string);   (* with its colour *)
  padding : Z * Z;
  margin_top : Z;
  margin_left : Z;
  style_width : option Z }.
Definition NewStyle : style := {|
  bold := false; foreground := ""; background := ""; border_style := None; padding := (0, 0);
  margin_top := 0; margin_left := 0; style_width := None |}.
Definition coloured (b : bool) (fg bg : string) (pad : Z * Z) : style := {|
  bold := b; foreground := fg; background := bg; border_style := None; padding := pad;
  margin_top := 0; margin_left := 0; style_width := None |}.

(** lipgloss and the widgets. *)
Class Drawing `{Widgets} := {
  Render : style → string → string;
  JoinVertical : list string → string;
  JoinHorizontal : list string → string;
  View_input : Input → string;
  View_table : Table → string;
  View_list : ListM → string;
  View_viewport : Viewport → string }.

(** [strings.Repeat] panics on a negative count. *)
Definition Repeat (s : string) (count : Z) : option string :=
  if decide (count < 0) then None else Some (String.concat "" (replicate (Z.to_nat count) s)).

(** styles.go. *)
Definition blurredStyle : style := coloured false "240" "" (0, 0).
Definition titleStyle : style := coloured false "#FFFDF5" "#25A065" (0, 1).
Definition errorStyle : style := coloured false "#FF0000" "" (0, 0).

Section Views.
Context `{Drawing, ConsoleJson}.

Definition errorMessageStyle (e : string) : string := Render errorStyle e.

(** ** Screens *)

Definition Login_View (m : LoginModel) : string :=
  Render titleStyle "Sagiri Guard - Admin Login" +:+ newline +:+ newline +:+
  String.concat newline (View_input <$> Inputs m) +:+ newline +:+ newline +:+
  Render blurredStyle "Press Tab to changes fields, Enter to submit" +:+
  match Login_Err m with
  | Some e => newline +:+ newline +:+ errorMessageStyle e
  | None => ""
  end.

Definition Dashboard_View (m : DashboardModel) : string :=
  Render titleStyle "Dashboard - Online Devices" +:+ newline +:+ newline +:+
  View_table (Dash_Table m) +:+ newline +:+ newline +:+
  Render blurredStyle "Press 'r' to refresh, 'q' to quit, up/down to navigate" +:+
  match Dash_Err m with Some e => newline +:+ errorMessageStyle e | None => "" end.

Definition renderButton (text : string) (focused : bool) : string :=
  if focused then Render (coloured true "0" "205" (0, 3)) text
  else Render (coloured false "254" "240" (0, 3)) text.

(** The fields of the form with their inputs; an input that is missing panics. *)
Fixpoint form_fields (focused : Z) (inputs : list Input) (i : nat) (fields : list FieldDef) :
    option string :=
  match fields with
  | [] => Some ""
  | field :: fields =>
      let label := Field_Name field +:+ (if Required field then " *" else "") in
      let labelStyle := if decide (Z.of_nat i = focused) then coloured true "205" "" (0, 0)
                        else coloured false "86" "" (0, 0) in
      ti ← inputs !! i;
      rest ← form_fields focused inputs (S i) fields;
      Some (Render labelStyle label +:+ newline +:+ View_input ti +:+ newline +:+ newline +:+ rest)
  end.
Definition Form_View (m : CommandFormModel) : option string :=
  if decide (Form_State m = StateSelecting) then Some (View_list (Form_List m)) else
  cmd ← at_index (SelectedCmd m) availableCommands;
  let title := Render (coloured true "99" "" (0, 0)) ("Parameters: " +:+ Def_Name cmd) in
  fields ← form_fields (Form_Focused m) (Form_Inputs m) 0 (Fields cmd);
  let n := Z.of_nat (length (Form_Inputs m)) in
  let submitBtn := renderButton "Submit" (bool_decide (Form_Focused m = n)) in
  let backBtn := renderButton "Back" (bool_decide (Form_Focused m = n + 1)) in
  let buttons := JoinHorizontal [submitBtn; Render {|
    bold := false; foreground := ""; background := ""; border_style := None; padding := (0, 0);
    margin_top := 0; margin_left := 2; style_width := None |} backBtn] in
  Some (Render (coloured false "" "" (1, 2)) (title +:+ newline +:+ newline +:+ fields +:+ newline +:+ buttons)).

Definition page_border (b : border) (colour : string) (width : Z) : style := {|
  bold := false; foreground := ""; background := ""; border_style := Some (b, colour);
  padding := (1, 2); margin_top := 0; margin_left := 0; style_width := Some width |}.

Definition Detail_View (m : DeviceDetailModel) : option string :=
  let header := Render (coloured true "205" "" (0, 0)) ("/" +:+ Join (CurrentPath m)) in
  let filesView := JoinVertical [header; View_table (Files m)] in
  let half := Z.quot (Width m) 2 - 6 in
  let activeBorder := page_border ThickBorder "205" half in
  let inactiveBorder := page_border NormalBorder "240" half in
  let '(leftStyle, rightStyle) := if decide (Focus_ m = FocusTree) then (activeBorder, inactiveBorder)
                                  else (inactiveBorder, activeBorder) in
  let left := Render leftStyle filesView in
  topContent ← match (if ShowForm m then CommandForm m else None) with
               | Some f => Form_View f
               | None => Some (View_input (CommandInput m))
               end;
  rightContent ←
    if decide (LogContent m ≠ "") then
      dashes ← Repeat "─" half;
      Some (JoinVertical [topContent; Render (coloured false "240" "" (0, 0)) dashes;
        Render (coloured true "205" "" (0, 0)) "Output Log:"; View_viewport (CommandLog m)])
    else Some topContent;
  let right := Render rightStyle rightContent in
  let content := JoinHorizontal [left; right] in
  let help := Render {|
    bold := false; foreground := "241"; background := ""; border_style := None; padding := (0, 0);
    margin_top := 1; margin_left := 0; style_width := None |}
    "F1: Files • F2: Commands • Tab: Switch • Enter: Select/Submit • Esc: Dashboard" in
  Some (JoinVertical [content; help]).

Definition Root_View (m : RootModel) : option string :=
  if Quitting m then Some ("Bye!" +:+ newline) else
  match State m with
  | stateLogin => Some (Login_View (Login_ m))
  | stateDashboard => Some (Dashboard_View (Dashboard m))
  | stateDeviceDetail => Detail_View (Detail m)
  end.

(** ** When drawing panics *)

Lemma form_fields_some focused inputs fields : ∀ i,
  (i + length fields ≤ length inputs)%nat → is_Some (form_fields focused inputs i fields).
Proof.
  induction fields as [|f fields IH]; intros i Hl; cbn [form_fields]; [eauto|]. simpl in Hl.
  destruct (lookup_lt_is_Some_2 inputs i) as [ti ->]; [lia|]. cbn [mbind option_bind].
  destruct (IH (S i)) as [rest ->]; [lia|]. eauto.
Qed.

Lemma Form_View_some m : form_ok m → is_Some (Form_View m).
Proof.
  intros Hok. unfold Form_View. case_decide as Hs; [eauto|].
  destruct Hok as (cmd & -> & Hl & _); [by destruct (Form_State m)|]. cbn [mbind option_bind].
  destruct (form_fields_some (Form_Focused m) (Form_Inputs m) (Fields cmd) 0) as [s ->]; [lia|]. eauto.
Qed.

Definition too_narrow (m : DeviceDetailModel) : Prop := LogContent m ≠ "" ∧ Width m < 12.

Lemma half_negative w : Z.quot w 2 - 6 < 0 ↔ w < 12.
Proof. Z.to_euclidean_division_equations; lia. Qed.

Lemma Detail_View_none m : detail_ok m → Detail_View m = None ↔ too_narrow m.
Proof.
  intros Hok. unfold Detail_View, too_narrow. cbv zeta.
  assert (is_Some (match (if ShowForm m then CommandForm m else None) with
    | Some f => Form_View f | None => Some (View_input (CommandInput m)) end)) as [top ->].
  { destruct (ShowForm m); [|eauto]. destruct (CommandForm m) as [f|] eqn:Ef; [|eauto].
    apply Form_View_some, (Hok f Ef). }
  rewrite <- half_negative. unfold Repeat.
  destruct (decide (Focus_ m = FocusTree)), (decide (LogContent m ≠ "")) as [Hl|Hl]; cbn [mbind option_bind];
    try (split; [done|]; by intros [? _]);
    (destruct (decide (Z.quot (Width m) 2 - 6 < 0)) as [Hw|Hw]; cbn [mbind option_bind];
     [by split|by split; [|intros [_ ?]]]).
Qed.

Lemma Root_View_none m :
  root_ok m → Root_View m = None ↔
    Quitting m = false ∧ State m = stateDeviceDetail ∧ too_narrow (Detail m).
Proof.
  intros [_ Hd]. unfold Root_View. destruct (Quitting m); [by split; [|intros [? _]]|].
  destruct (State m); [by split; [|intros (_ & ? & _)]..|]. rewrite Detail_View_none by done. tauto.
Qed.
End Views.

(** C32. The console can always be drawn but for one page: after any keys and messages,
    drawing panics exactly when the page of a device is shown with a log on a terminal
    under twelve columns, where the line above the log has a negative length. *)
Theorem console_draws `{Drawing, ConsoleJson} envs meanwhile arrange msgs :
  ∃ m, ui_run envs meanwhile arrange 0 msgs NewRootModel = Some m ∧
    (Root_View m = None ↔
     Quitting m = false ∧ State m = stateDeviceDetail ∧ LogContent (Detail m) ≠ "" ∧ Width (Detail m) < 12).
Proof.
  destruct (ui_run_ok envs meanwhile arrange msgs 0 NewRootModel new_root_ok) as (m & Hm & Hok).
  exists m. split; [exact Hm|by apply Root_View_none].
Qed.

(** There the first line that is logged, an answer or an error, ends the program. *)
Lemma narrow_page_dies `{Drawing, ConsoleJson} line bottom m :
  detail_ok m → Width m < 12 → Detail_View (add_log line bottom m) = None.
Proof.
  intros Hok Hw. apply Detail_View_none; [exact Hok|]. split; [|exact Hw].
  cbn [add_log set_log LogContent]. destruct (LogContent m); discriminate.
Qed.

(** ** The program *)

(** main.go: what it prints before it exits with status 1, or the model it runs with.
    The callback of [NewRootModelWithCallback] is never called. *)
Definition NewRootModelWithCallback `{Widgets, ConsoleJson} : RootModel := NewRootModel.
Definition webui_main `{Widgets, ConsoleJson} : string + RootModel :=
  match Init with
  | Err e => inl ("failed to init network: " +:+ e +:+ newline)
  | Ok _ => inr NewRootModelWithCallback
  end.
