(* ===== verification/ConsoleTree.v ===== *)
(** * Browsing a device

    The folder the console asks for (detail.go) against the server's file tree: the
    request of [fetchDir], its answer by [handleAdminListTree] and what the page
    shows of it. *)

From S2P Require Export FileTreeProofs ConsoleProofs.

Local Open Scope Z_scope.

(** What the console's struct keeps of a node of the server. *)
Definition console_node (n : TreeNodeResponse) : TreeNode := {|
  Node_ID := Controller.Node_ID n; Node_Name := Controller.Node_Name n;
  Node_Type := Controller.Node_Type n; Node_ParentID := Controller.Node_ParentID n;
  Node_Size := Controller.Node_Size n; Node_Extension := Controller.Node_Extension n;
  Node_ContentTypeIDs := Controller.Node_ContentTypeIDs n |}.

(** Both sides use encoding/json on the same names. *)
Class ConsoleTree `{Json, ConsoleJson} : Prop := {
  tree_read_back dev parent page size b :
    encode_console "admin_list_tree" (CTree dev parent page size) = Ok b →
    ∃ payload, decode_envelope b = Ok ("admin_list_tree", payload) ∧
      decode_tree payload = Ok {| Tree_DeviceID := dev; Tree_ParentID := parent;
                                  Tree_Page := page; Tree_PageSize := size |};
  nodes_read_back r b :
    encode_reply (RTree r) = Ok b →
    decode_nodes (of_bytes b) = Ok (console_node <$> Nodes r) ∧
    Contains (of_bytes b) nodes_mark = true }.

(** The live items of a folder; [None] is the top of the tree. *)
Definition child_of (dev : string) (parent : option string) (it : Item) : Prop :=
  Item_DeviceUUID it = dev ∧ Item_DeletedAt it = None ∧ ParentID it = parent.
#[export] Instance child_of_dec dev parent it : Decision (child_of dev parent it).
Proof. unfold child_of. apply _. Defined.
Definition children (dev : string) (parent : option string) (t : Tables) : list Item :=
  filter (child_of dev parent) (map_to_list (items t)).*2.

(** A line of the table: id, name, and whether it is a folder. *)
Definition line_of_item (it : Item) : string * string * bool :=
  (Item_ID it, Item_Name it, bool_decide (is_Some (FolderID it))).
Definition line_of_node (n : TreeNode) : string * string * bool :=
  (Node_ID n, Node_Name n, bool_decide (Node_Type n = "dir")).

Lemma line_of_response n : line_of_node (console_node (node_response n)) = line_of_item (item n).
Proof.
  unfold line_of_node, line_of_item, console_node, node_response, nodeType. simpl. f_equal.
  by destruct (FolderID (item n)).
Qed.

(** The handler reads the tree and touches nothing else. *)
Lemma handleAdminListTree_inv `{Engine DB, Sha1, Bcrypt, JwtLib, Json} ctl env payload req
    (s s1 : ServerState DB) resp :
  decode_tree payload = Ok req → handleAdminListTree ctl env payload s = (s1, Ok (RTree resp)) →
  ∃ d rows total, GetNodes (nano env) (tree_query req) (db (backup s)) = (d, Ok (rows, total)) ∧
    s1 = set_backup (set_db d (backup s)) s ∧ Tree_DeviceID req ≠ "" ∧
    Nodes resp = node_response <$>
      (if bool_decide (tree_page_size req < Z.of_nat (length rows)) : bool
       then take (Z.to_nat (tree_page_size req)) rows else rows).
Proof.
  intros Hreq Hh. unfold handleAdminListTree in Hh. destruct (Tree ctl); [|done].
  change (negb true) with false in Hh. cbv iota in Hh. rewrite Hreq in Hh.
  apply StE_bind_ok in Hh as (s2 & a & E & Hh). apply (f_equal fst) in E as Hs2.
  apply (f_equal snd) in E. cbn [lift fst snd] in Hs2, E. subst s2. injection E as <-.
  case_decide as Hd; [done|].
  apply StE_bind_ok in Hh as (s2 & [rows total] & E & Hh).
  apply zoom_ok in E as (bk & (d & E & ->)%zoom_ok & ->).
  exists d, rows, total. split; [done|]. apply (f_equal fst) in Hh as Hs. apply (f_equal snd) in Hh.
  cbn [fst snd mret StE_ret] in Hs, Hh. injection Hh as <-. split; [by rewrite <- Hs|]. by split.
Qed.

(** The request of [fetchDir]. *)
Definition folder_request (dev : string) (parent : option string) : AdminListTreeRequest := {|
  Tree_DeviceID := dev; Tree_ParentID := parent; Tree_Page := 1; Tree_PageSize := 100 |}.

Lemma folder_listing `{EngineLaws DB} now dev parent db d rows total :
  parent ≠ Some "" → (length (children dev parent (view db)) ≤ 30)%nat →
  GetNodes now (tree_query (folder_request dev parent)) db = (d, Ok (rows, total)) →
  item <$> rows ≡ₚ children dev parent (view db).
Proof.
  intros Hp Hl Hg.
  destruct (first_page_all now (tree_query (folder_request dev parent)) 0 db d rows total
    eq_refl eq_refl eq_refl ltac:(by vm_compute) eq_refl Hg) as [Ht Hall].
  assert (∀ it, item_matches (tree_query (folder_request dev parent)) 0 plain_env it = true ↔
    child_of dev parent it) as Hiff.
  { intros it. unfold item_matches, child_of, of_device, live_item. simpl.
    rewrite andb_true_r, !andb_true_iff, !bool_decide_eq_true.
    destruct parent as [p|]; [rewrite decide_False by congruence|]; rewrite bool_decide_eq_true; tauto. }
  unfold children in *. rewrite <- (list_filter_iff _ _ _ Hiff) in *.
  apply Hall. rewrite Ht.
  assert (page_size_of (tree_query (folder_request dev parent)) = 30) as -> by reflexivity. lia.
Qed.

(** What the page shows of a listing: the row up in a folder, then the nodes. *)
Lemma show_nodes_perm `{Widgets, ConsoleJson} arrange nodes m :
  (∀ l, arrange l ≡ₚ l) →
  CurrentNodes (show_nodes arrange nodes m) ≡ₚ
    (match CurrentDirID m with Some _ => [up_node] | None => [] end) ++ nodes.
Proof.
  intros Ha. unfold show_nodes. cbn [CurrentNodes set_nodes].
  destruct (CurrentDirID m); simpl; by rewrite order_by_perm, Ha.
Qed.

Section Browse.
Context `{EngineLaws DB, Sha1, Bcrypt, JwtLib, JsonLaws, Widgets, ConsoleJson, !ConsoleTree}.
Implicit Types s : ServerState DB.

(** An admin listing goes past the authorization to its handler. *)
Lemma tree_frame ctl env client msg payload s s1 r :
  Type_ msg = MSG_COMMAND → CommandJSON msg ≠ [] →
  decode_envelope (CommandJSON msg) = Ok ("admin_list_tree", payload) →
  handleAdminListTree ctl env payload s = (s1, Ok r) →
  HandleMessage ctl env client msg s = sendAckJSON env client 200 r s1.
Proof.
  intros Ht Hb Hd Hh. unfold HandleMessage. rewrite Ht.
  rewrite decide_False by done. rewrite decide_True by done.
  unfold handleSubCommand. rewrite decide_False by done. rewrite Hd.
  unfold isAuthorized, gets, mbind, StE_bind. cbv beta iota.
  rewrite bool_decide_eq_false_2 by by_decide. cbn [andb].
  unfold dispatch. rewrite !decide_False by done. rewrite decide_True by done.
  unfold answer_json, attempt, mbind, StE_bind. by rewrite Hh.
Qed.

(** How the page takes the answer. *)
Lemma answer_listing resp text page :
  encode_reply (RTree resp) = Ok text →
  server_answer (received (OAck 200 (of_bytes text))) page =
    (page, [CmdMsg (FileLoadedMsg (console_node <$> Nodes resp) (CurrentDirID page))]).
Proof.
  intros Ht. destruct (nodes_read_back _ _ Ht) as [Hd Hm].
  unfold server_answer. cbn [received Type_ StatusCode StatusMsg type_of].
  rewrite bool_decide_eq_true_2 by done. cbn [negb]. cbv iota. rewrite decide_False by lia.
  cbv zeta. by rewrite Hd, Hm, orb_true_r.
Qed.

(** C40. Browsing a device is right as far as it goes: the request the page makes for
    its folder, handled by the server, is answered by one frame.  When the folder has
    at most thirty live items and their listing takes at most 3800 bytes, the page
    shows exactly those items, under their names and kinds; a longer listing is
    refused, and all the page does is log that the response was too large. *)
Theorem console_shows_folder ctl env client msg s s1 resp text page data action payload b :
  fetchDir page (CurrentDirID page) = CmdSend "admin_list_tree" data →
  encode_console "admin_list_tree" data = Ok b → decode_envelope b = Ok (action, payload) →
  Type_ msg = MSG_COMMAND → CommandJSON msg = b → b ≠ [] →
  client_open client = true → up env (length (wire s)) (client_fd client) = true →
  CurrentDirID page ≠ Some "" →
  let here := children (Detail_DeviceID page) (CurrentDirID page) (view (db (backup s))) in
  (length here ≤ 30)%nat →
  handleAdminListTree ctl env payload s = (s1, Ok (RTree resp)) →
  encode_reply (RTree resp) = Ok text →
  ∃ frame answer, HandleMessage ctl env client msg s = (written (client_fd client) frame s1, Ok tt) ∧
    delivers frame answer ∧
    if decide (3800 < length text)%nat
    then server_answer answer page = (add_log "Error (Server): response too large" true page, [])
    else ∃ nodes,
      server_answer answer page = (page, [CmdMsg (FileLoadedMsg nodes (CurrentDirID page))]) ∧
      ∀ arrange, (∀ l, arrange l ≡ₚ l) →
        line_of_node <$> CurrentNodes (show_nodes arrange nodes page) ≡ₚ
          (match CurrentDirID page with Some _ => [line_of_node up_node] | None => [] end) ++
          (line_of_item <$> here).
Proof.
  intros Hfetch Henc Henv Htype Hjson Hb Hopen Hup Hdir here Hsmall Hh Htext.
  injection Hfetch as <-. destruct (tree_read_back _ _ _ _ _ Henc) as (payload' & Henv' & Hreq).
  rewrite Henv in Henv'. injection Henv' as -> ->.
  destruct (handleAdminListTree_inv ctl env payload' _ s s1 resp Hreq Hh)
    as (d & rows & total & Hg & Hs1 & _ & Hnodes).
  pose proof (folder_listing _ _ _ _ _ _ _ Hdir Hsmall Hg) as Hperm.
  assert (length rows ≤ 30)%nat as Hrows by (by rewrite <- (length_fmap item), (Permutation_length Hperm)).
  rewrite bool_decide_eq_false_2 in Hnodes by (change (tree_page_size _) with 30; lia).
  destruct (reply_always_sent env client 200 (RTree resp) s1 Hopen ltac:(by rewrite Hs1) ltac:(lia))
    as (frame & code & reply_text & Hsend & Hdel & Hcase).
  exists frame, (received (OAck code reply_text)).
  rewrite (tree_frame ctl env client msg payload' s s1 (RTree resp)) by (by rewrite ?Hjson).
  split; [done|]. split; [done|].
  destruct Hcase as [[? _]|[(b' & _ & Hb' & Hc)|(_ & Hb' & _)]]; [done| |by rewrite Htext in Hb'].
  rewrite Htext in Hb'. injection Hb' as <-.
  destruct (decide (3800 < length text)%nat); destruct Hc as [-> ->]; [done|].
  exists (console_node <$> Nodes resp). split; [by apply answer_listing|].
  intros arrange Ha. rewrite (show_nodes_perm arrange _ page Ha), fmap_app. f_equiv.
  - by destruct (CurrentDirID page).
  - rewrite Hnodes, <- !list_fmap_compose. unfold here. rewrite <- Hperm, <- list_fmap_compose.
    erewrite list_fmap_ext; [reflexivity|]. intros i x _. apply line_of_response.
Qed.
End Browse.

(** ** A listing to run it on *)

#[export] Instance AdminListTreeRequest_eq_dec : EqDecision AdminListTreeRequest.
Proof. solve_decision. Defined.

(** Stand-ins for encoding/json: a listing of one node is the mark and its four
    texts; what the other side could not read back is not encoded. *)
Definition read_nodes (text : string) : result (list TreeNode) :=
  match Split (TrimPrefix text nodes_mark) with
  | [id; name; kind; ext] => Ok [{|
      Node_ID := id; Node_Name := name; Node_Type := kind; Node_ParentID := None; Node_Size := 0;
      Node_Extension := ext; Node_ContentTypeIDs := [] |}]
  | _ => Err "json"
  end.
Definition write_nodes (l : list TreeNode) : string :=
  nodes_mark +:+ Join (concat ((λ n, [Node_ID n; Node_Name n; Node_Type n; Node_Extension n]) <$> l)).
Definition read_tree (b : list ascii) : AdminListTreeRequest := {|
  Tree_DeviceID := field 0 b;
  Tree_ParentID := if decide (field 1 b = "") then None else Some (field 1 b);
  Tree_Page := 1; Tree_PageSize := 100 |}.

Definition tree_json : Json := {|
  decode_envelope := @decode_envelope sample_json; decode_login := @decode_login sample_json;
  decode_device := @decode_device sample_json; decode_changes := @decode_changes sample_json;
  decode_lines := @decode_lines sample_json; decode_upload := @decode_upload sample_json;
  decode_download := @decode_download sample_json; decode_start := @decode_start sample_json;
  decode_send := @decode_send sample_json; decode_tree := λ b, Ok (read_tree b);
  encode_command := @encode_command sample_json;
  encode_reply := λ r,
    match r with
    | RTree l =>
        let text := write_nodes (console_node <$> Nodes l) in
        if decide (read_nodes text = Ok (console_node <$> Nodes l) ∧
                   Contains text nodes_mark = true ∧ nul_free text) then Ok (to_bytes text) else Err "json"
    | _ => Err "json"
    end |}.
Definition tree_console : ConsoleJson := {|
  encode_console := λ action d,
    match d with
    | CTree dev parent page size =>
        let payload := to_bytes (Join [dev; default "" parent]) in
        let b := to_bytes (Join [action; dev; default "" parent]) in
        if decide (@decode_envelope sample_json b = Ok (action, payload) ∧
                   read_tree payload = {| Tree_DeviceID := dev; Tree_ParentID := parent;
                                          Tree_Page := page; Tree_PageSize := size |})
        then Ok b else Err "json"
    | _ => Err "json"
    end;
  decode_auth := λ _, Err "json"; decode_names := λ _, Err "json"; decode_entries := λ _, Err "json";
  decode_nodes := read_nodes |}.

Lemma tree_json_laws : @JsonLaws tree_json.
Proof.
  split.
  - intros r b. destruct r; try done. cbn [encode_reply tree_json]. cbv zeta.
    case_decide as Hd; [|done]. intros H%(f_equal (λ r, match r with Ok b => of_bytes b | Err _ => "" end)).
    rewrite of_to_bytes in H. rewrite <- H. tauto.
  - intros r e. destruct r; cbn [encode_reply tree_json]; cbv zeta; try case_decide; try done;
      intros [= <-]; (split; [by_decide|simpl; lia]).
Qed.
Lemma tree_console_laws : @ConsoleTree tree_json tree_console.
Proof.
  split.
  - intros dev parent page size b. cbn [encode_console tree_console decode_envelope decode_tree tree_json]. cbv zeta. case_decide as Hd; [|done]. intros [= <-].
    destruct Hd as [He Hr]. eexists. split; [exact He|]. by rewrite Hr.
  - intros r b. cbn [encode_reply tree_json decode_nodes tree_console]. cbv zeta.
    case_decide as Hd; [|done]. intros H%(f_equal (λ r, match r with Ok b => of_bytes b | Err _ => "" end)).
    rewrite of_to_bytes in H. rewrite <- H. tauto.
Qed.

#[local] Existing Instance tree_json.
#[local] Existing Instance tree_console.
#[local] Existing Instance tree_json_laws.
#[local] Existing Instance tree_console_laws.

Definition one_file_server : ServerState Tables :=
  initial_server (with_items {[ "a" := listed_item "a" 1 ]} empty_tables).
Definition dev_page : DeviceDetailModel := NewDeviceDetailModel "dev" 80 24.
Definition list_request : ProtocolMessage := command_from "console" "admin_list_tree/dev/".

Lemma console_shows_folder_witness :
  ∃ frame answer nodes, delivers frame answer ∧
    wire (HandleMessage sample_ctl sample_env (Some 5) list_request one_file_server).1 = [(5, frame)] ∧
    server_answer answer dev_page = (dev_page, [CmdMsg (FileLoadedMsg nodes None)]) ∧
    line_of_node <$> CurrentNodes (show_nodes (λ l, l) nodes dev_page) ≡ₚ [("a", "a", false)].
Proof.
  destruct (handleAdminListTree sample_ctl sample_env (to_bytes "dev/") one_file_server) as [s1 r] eqn:Eh.
  assert (∃ resp text, r = Ok (RTree resp) ∧ wire s1 = [] ∧
    encode_reply (RTree resp) = Ok text ∧ (length text ≤ 3800)%nat) as (resp & text & -> & Hw & Ht & Hl).
  { vm_compute in Eh. injection Eh as <- <-. eexists _, _. split; [reflexivity|].
    split; [reflexivity|]. split; [vm_compute; reflexivity|]. simpl. lia. }
  destruct (console_shows_folder sample_ctl sample_env (Some 5) list_request one_file_server s1 resp
    text dev_page (CTree "dev" None 1 100) "admin_list_tree" (to_bytes "dev/")
    (to_bytes "admin_list_tree/dev/")) as (frame & answer & Hs & Hd & Hcase); try done.
  - vm_compute. lia.
  - rewrite decide_False in Hcase by lia. destruct Hcase as (nodes & Ha & Hshow).
    exists frame, answer, nodes. split; [done|]. split; [by rewrite Hs; simpl; rewrite Hw|].
    split; [done|]. rewrite (Hshow (λ l, l) ltac:(done)). by vm_compute.
Defined.
