(* ===== verification/BackendStart.v ===== *)
(** * How the server starts

    backend/config/config.go, backend/app/db/db.go (the data source name),
    backend/initialize/init.go and backend/main.go: from the configuration file
    to the controller and the state it starts with.

    viper gives the file over its defaults.  Opening and migrating MySQL and making
    the backup directory are the environment of the start, like what the kernel
    answers to the calls of the listening socket.

    The theorem ties the parts together: what the threads of [Listener] call through
    the bridges is what [Server] does with a frame, with the controller and the
    state built here. *)

From S2P Require Export Listener Bootstrap.

Local Open Scope Z_scope.

(** ** Configuration *)

Record DBConfig := {
  DB_Host : string; DB_Port : Z; DB_User : string; DB_Pass : string; DB_Name : string }.
Record BackendConfig := {
  Backend_Host : string;
  Backend_Port : Z;
  Backend_DB : DBConfig;
  JWT_Secret : string;
  JWT_Issuer : string;
  JWT_ExpMin : Z;
  Backend_Backup : BackupConfig }.

(** [Load]; [read] is the outcome of reading the file.  The defaults of the legacy
    and backup keys are taken before the file is read. *)
Definition Load (read : result config_file) : result BackendConfig :=
  f ← wrap "read config: " read;
  let str key def := default def (file_string f key) in
  let int key def := default def (file_int f key) in
  let host := if decide (str "backend.host" "127.0.0.1" = "")
              then str "backend.tcp.host" "127.0.0.1" else str "backend.host" "127.0.0.1" in
  let port := if decide (int "backend.port" 9200 = 0)
              then int "backend.tcp.port" 9200 else int "backend.port" 9200 in
  let backupHost := if decide (str "backend.backup.tcp.host" "127.0.0.1" = "") then host
                    else str "backend.backup.tcp.host" "127.0.0.1" in
  let backupPort := if decide (int "backend.backup.tcp.port" 9200 = 0) then port
                    else int "backend.backup.tcp.port" 9200 in
  let or_else s d := if decide (s = "") then d else s in
  Ok {| Backend_Host := host; Backend_Port := port;
        Backend_DB := {| DB_Host := str "backend.db.host" "127.0.0.1";
                         DB_Port := int "backend.db.port" 3306;
                         DB_User := str "backend.db.user" "root";
                         DB_Pass := str "backend.db.pass" "";
                         DB_Name := str "backend.db.name" "sagiri_guard" |};
        JWT_Secret := or_else (str "backend.jwt.secret" "") "dev-secret";
        JWT_Issuer := or_else (str "backend.jwt.issuer" "") "sagiri-guard";
        JWT_ExpMin := let m := int "backend.jwt.exp_min" 0 in if decide (m ≤ 0) then 60 else m;
        Backend_Backup := {|
          StoragePath := str "backend.backup.storage_path" "backups";
          Config_ChunkSize := int "backend.backup.chunk_size" 524288;
          Backup_Host := backupHost; Backup_Port := backupPort;
          TCP_Host := host; TCP_Port := port |} |}.

(** The data source name of [db.Connect]. *)
Definition dsn (c : DBConfig) : string :=
  DB_User c +:+ ":" +:+ DB_Pass c +:+ "@tcp(" +:+ DB_Host c +:+ ":" +:+ pretty (DB_Port c) +:+ ")/" +:+
  DB_Name c +:+ "?charset=utf8mb4&parseTime=True&loc=Local".

(** ** Building the server *)

Record App (DB : Type) := {
  App_Config : BackendConfig;
  App_Controller : ProtocolController;
  App_State : ServerState DB }.
Arguments App_Config {DB} _.
Arguments App_Controller {DB} _.
Arguments App_State {DB} _.

Record start_env (DB : Type) := {
  connect : string → result DB;             (* opening the database *)
  migrate : DB → DB * result unit;
  backup_files : gmap string (list ascii);  (* what the disk holds *)
  mkdir_backup : string → option string;
  count_first : bool;                       (* when [CountByUsername] reads the count *)
  salts : list ascii * list ascii }.
Arguments connect {DB} _.
Arguments migrate {DB} _.
Arguments backup_files {DB} _.
Arguments mkdir_backup {DB} _.
Arguments count_first {DB} _.
Arguments salts {DB} _.

Section Start.
Context `{Engine DB, Bcrypt}.

(** The two accounts; their errors are dropped. *)
Definition default_users (env : start_env DB) : StE DB unit :=
  ignore (EnsureAdmin (count_first env) (salts env).1 "admin" "admin123");;
  ignore (EnsureUser (count_first env) (salts env).2 "user" "user123" "user").

Definition controller_of (cfg : BackendConfig) : ProtocolController := {|
  CmdRepo := true; Devices := true; Tree := true; Logs := true;
  Backup_ := Some (Backend_Backup cfg); Users := true;
  Signer_ := Some {| Secret := JWT_Secret cfg; Signer_Issuer := JWT_Issuer cfg;
                     ExpMin := JWT_ExpMin cfg |} |}.

Definition Build (env : start_env DB) (read : result config_file) : result (App DB) :=
  cfg ← Load read;
  db0 ← wrap "connect db: " (connect env (dsn (Backend_DB cfg)));
  let '(db1, migrated) := migrate env db0 in
  _ ← wrap "migrate: " migrated;
  match mkdir_backup env (storageDir (Backend_Backup cfg)) with
  | Some e => Err ("init backup service: create backup dir: " +:+ e)
  | None =>
      let db2 := (default_users env db1).1 in
      Ok {| App_Config := cfg; App_Controller := controller_of cfg;
            App_State := {| backup := {| files := backup_files env; sessions := ∅; db := db2 |};
                            hub := NewHub; reg := []; deviceTokens := ∅; activeUpload := ∅;
                            wire := []; spawned := [] |} |}
  end.
End Start.

(** ** Serving *)

Section Serving.
Context `{Engine DB, Sha1, Bcrypt, JwtLib, Json}.

(** The two callbacks: what they do to the server's state. *)
Definition message_handler : Type :=
  call_env → TCPClient → ProtocolMessage → StE (ServerState DB) unit.
Definition disconnect_handler : Type := TCPClient → string → StE (ServerState DB) unit.

(** The Go server is dropped; the C one goes on. *)
Definition StartProtocolServer (net : listen_env) (host : string) (port : Z)
    (ctrl : ProtocolController) (g : bridges message_handler disconnect_handler) :
    bridges message_handler disconnect_handler * result ProtocolServer :=
  ListenProtocolWithDisconnect net host port (Some (HandleMessage ctrl)) (Some HandleDisconnect) g.

(** What [main] comes to: it logs and returns, or waits for ever. *)
Inductive main_outcome :=
  | Returned (logged : string)
  | Serving (app : App DB) (g : bridges message_handler disconnect_handler) (srv : ProtocolServer).

Definition backend_main (env : start_env DB) (net : listen_env) (read : result config_file) :
    main_outcome :=
  match Init with
  | Err e => Returned ("Cannot initialize network library: " +:+ e)
  | Ok _ =>
      match Build env read with
      | Err e => Returned ("Application initialization failed: " +:+ e)
      | Ok app =>
          let cfg := App_Config app in
          let g := {| protocolHandler := None; protocolDisconnectHandler := None |} in
          match StartProtocolServer net (Backend_Host cfg) (Backend_Port cfg) (App_Controller app) g with
          | (_, Err e) => Returned ("Cannot start protocol server: " +:+ e)
          | (g', Ok srv) => Serving app g' srv
          end
      end
  end.

(** The C thread of a connection, calling through the bridges. *)
Definition thread_frame (g : bridges message_handler disconnect_handler) (env : call_env) (fd : Z)
    (last_device : list ascii) (m : protocol_message) (s : ServerState DB) :
    list ascii * ServerState DB :=
  let '(last', l, m') := connection_frame fd m last_device (reg s) in
  (last', match goProtocolMessageBridge g fd m' with
          | Some (h, client, msg) => (h env client msg (set_reg l s)).1
          | None => set_reg l s
          end).
Definition thread_end (g : bridges message_handler disconnect_handler) (srv : ProtocolServer)
    (fd : Z) (last_device : list ascii) (s : ServerState DB) : ServerState DB :=
  let s1 := set_reg (registry_remove_fd fd (reg s)) s in
  match on_disconnect srv g fd last_device with
  | Some (h, client, dev) => (h client dev s1).1
  | None => s1
  end.
End Serving.

(** ** Properties *)

(** The endpoint agents are told for their transfers does not follow the port or
    the host the server listens on, only the backup keys. *)
Lemma transfer_endpoint_fixed f cfg :
  Load (Ok f) = Ok cfg → file_string f "backend.backup.tcp.host" = None →
  file_int f "backend.backup.tcp.port" = None →
  TCPHost (Backend_Backup cfg) = "127.0.0.1" ∧ TCPPort (Backend_Backup cfg) = 9200.
Proof.
  intros [= <-] Hh Hp. unfold TCPHost, TCPPort. cbn [Backend_Backup Backup_Host Backup_Port].
  rewrite Hh, Hp. cbn [default]. done.
Qed.

(** *** Accounts *)

(** Every account of [t] is in [t'] too; a new one is among [new]. *)
Definition accounts_extend (new : User → Prop) (t t' : Tables) : Prop :=
  users t ⊆ users t' ∧
  ∀ k u, users t' !! k = Some u → users t !! k = Some u ∨ new u.

(** An account as the start makes it. *)
Definition made_at_start `{Bcrypt} (salt : list ascii) (username password role : string) (u : User) :
    Prop :=
  Username u = username ∧ PasswordHash u = hash_of salt password ∧ Role u = role.

Lemma accounts_extend_refl new t t' : users t' = users t → accounts_extend new t t'.
Proof. intros Hu. unfold accounts_extend. rewrite Hu. auto. Qed.

Lemma accounts_extend_trans n1 n2 t1 t2 t3 :
  accounts_extend n1 t1 t2 → accounts_extend n2 t2 t3 →
  accounts_extend (λ u, n1 u ∨ n2 u) t1 t3.
Proof.
  intros [H1 H1'] [H2 H2']. split; [by etrans|]. intros k u Hk.
  apply H2' in Hk as [Hk|?]; [|tauto]. apply H1' in Hk. tauto.
Qed.

Section Accounts.
Context `{EngineLaws DB, Bcrypt}.

Lemma Users_Create_extends u (db : DB) :
  accounts_extend (λ v, ∃ k now, v = new_user k now u) (view db) (view (Users_Create u db).1).
Proof.
  destruct (Users_Create u db) as [db' [[]|e]] eqn:E; simpl.
  - apply run_ok in E as (ev & Hev & E). unfold sql_create_user in E.
    destruct (select _ _ _); [|done]. injection E as Ht. rewrite <- Ht. split; simpl.
    + by apply insert_subseteq, next_key_free.
    + intros k v. rewrite lookup_insert_Some. naive_solver.
  - apply run_err in E. apply accounts_extend_refl. by rewrite E.
Qed.

(** Creating an account when the count is zero, as both functions do. *)
Lemma create_counted_extends crf u (db : DB) :
  accounts_extend (λ v, ∃ k now, v = new_user k now u) (view db)
    (view ((count ← CountByUsername crf (Username u);
            if decide (0 < count) then mret tt else Users_Create u) db).1).
Proof.
  unfold mbind, StE_bind. pose proof (CountByUsername_view crf (Username u) db) as Hv.
  destruct (CountByUsername crf _ db) as [db1 [n|e]]; simpl in Hv;
    [|apply accounts_extend_refl; simpl; by rewrite Hv].
  rewrite <- Hv. case_decide; [by apply accounts_extend_refl|apply Users_Create_extends].
Qed.

Lemma accounts_extend_weaken (n1 n2 : User → Prop) t t' :
  (∀ u, n1 u → n2 u) → accounts_extend n1 t t' → accounts_extend n2 t t'.
Proof. intros Hn [? Ht]. split; [done|]. intros k u Hk. apply Ht in Hk. naive_solver. Qed.

Lemma default_users_extend env (db : DB) :
  accounts_extend (λ u, made_at_start (salts env).1 "admin" "admin123" "admin" u ∨
                        made_at_start (salts env).2 "user" "user123" "user" u)
    (view db) (view (default_users env db).1).
Proof.
  unfold default_users, ignore. cbn [mbind StE_bind fst snd].
  eapply accounts_extend_trans; eapply accounts_extend_weaken.
  2: apply (create_counted_extends (count_first env) (user_row "admin" (hash_of (salts env).1 "admin123") "admin")).
  3: apply (create_counted_extends (count_first env) (user_row "user" (hash_of (salts env).2 "user123") "user")).
  all: by intros u (k & now & ->).
Qed.
End Accounts.

(** *** The callbacks *)

Section Callbacks.
Context `{Engine DB, Sha1, Bcrypt, JwtLib, Json}.

Lemma started_callbacks net host port ctrl g g' srv :
  StartProtocolServer (DB := DB) net host port ctrl g = (g', Ok srv) →
  g' = {| protocolHandler := Some (HandleMessage ctrl);
          protocolDisconnectHandler := Some HandleDisconnect |} ∧ c_server srv = Some true.
Proof.
  unfold StartProtocolServer, ListenProtocolWithDisconnect, protocol_server_create.
  case_decide; [done|]. cbv zeta. case_decide; [done|]. destruct (allocates net); [|done].
  destruct (tcp_server_create net _ _).1; [|done]. by intros [= <- <-].
Qed.

(** Through those callbacks a thread does what [Server] says. *)
Lemma thread_as_served net host port ctrl g g' srv :
  StartProtocolServer (DB := DB) net host port ctrl g = (g', Ok srv) →
  (∀ env fd lst m s, thread_frame g' env fd lst m s = on_frame ctrl env fd lst m s) ∧
  ∀ fd lst s, thread_end g' srv fd lst s = on_close fd lst s.
Proof.
  intros [-> Hs]%started_callbacks. split.
  - intros env fd lst m s. unfold thread_frame, on_frame.
    by destruct (connection_frame fd m lst (reg s)) as [[l r] m'].
  - intros fd lst s. unfold thread_end, on_close, on_disconnect. rewrite Hs.
    destruct (decide (lst = [])); [by rewrite decide_False by tauto|]. by rewrite decide_True.
Qed.
End Callbacks.

(** C18. A server that reaches its wait serves with what the configuration says and
    starts from nothing: its threads handle every frame and every end of a connection
    as [Server] does with the configured controller; no device is authorized, online
    or uploading; and every account the database had is as it was, any other one
    being the two of [Build] with their passwords. *)
Theorem backend_serves_configured `{EngineLaws DB, Sha1, Bcrypt, JwtLib, Json} env net read app g srv :
  backend_main (DB := DB) env net read = Serving app g srv →
  let cfg := App_Config app in let s0 := App_State app in
  Load read = Ok cfg ∧ App_Controller app = controller_of cfg ∧
  (∀ cenv fd lst m s, thread_frame g cenv fd lst m s = on_frame (controller_of cfg) cenv fd lst m s) ∧
  (∀ fd lst s, thread_end g srv fd lst s = on_close fd lst s) ∧
  (∀ dev, authorized s0 dev = false ∧ hub s0 !! dev = None ∧ registry_get (to_bytes dev) (reg s0) = INVALID_SOCKET) ∧
  ∃ db0, connect env (dsn (Backend_DB cfg)) = Ok db0 ∧
    accounts_extend (λ u, made_at_start (salts env).1 "admin" "admin123" "admin" u ∨
                          made_at_start (salts env).2 "user" "user123" "user" u)
      (view (migrate env db0).1) (view (db (backup s0))).
Proof.
  unfold backend_main. change Init with (Ok tt). cbv iota.
  destruct (Build env read) as [app'|e] eqn:Eb; [|done]. cbv zeta.
  destruct (StartProtocolServer _ _ _ _ _) as [g' [srv'|e]] eqn:Es; [|done].
  intros [= -> -> ->]. unfold Build in Eb.
  destruct (Load read) as [cfg|e]; [|done]. cbn [mbind result_bind] in Eb.
  destruct (connect env (dsn (Backend_DB cfg))) as [db0|e] eqn:Ec; [|done]. cbn [wrap mbind result_bind] in Eb.
  destruct (migrate env db0) as [db1 [[]|e]] eqn:Em; [|done]. cbn [wrap mbind result_bind] in Eb.
  destruct (mkdir_backup env _); [done|]. injection Eb as <-.
  cbn [App_Config App_Controller App_State] in *. apply thread_as_served in Es as [Hf Hd].
  split_and!; [done|done|done|done| |].
  - intros dev. unfold authorized. cbn [deviceTokens hub reg]. rewrite lookup_empty.
    split; [apply andb_false_r|]. split; [apply lookup_empty|unfold registry_get; by case_decide].
  - exists db0. split; [done|]. rewrite Em. apply default_users_extend.
Qed.

(** A server with one account, an empty file and a socket that binds. *)
Definition start_sample : start_env Tables := {|
  connect := λ _, Ok with_admin; migrate := λ t, (t, Ok tt); backup_files := ∅;
  mkdir_backup := λ _, None; count_first := false; salts := ([], []) |}.
Definition net_sample : listen_env := {|
  getaddrinfo := λ _ _, Some [{| cand_fd := 3; cand_ok := true |}]; listens := λ _, true;
  allocates := true; thread_starts := true |}.
Definition empty_file : config_file := {| file_string := λ _, None; file_int := λ _, None;
  file_slice := λ _, None |}.

(** It runs, keeps ann's password, and lets the made administrator in. *)
Lemma backend_serves_configured_witness :
  ∃ app g srv, backend_main start_sample net_sample (Ok empty_file) = Serving app g srv ∧
    users (view (db (backup (App_State app)))) !! 1 = users with_admin !! 1 ∧
    authorized (App_State app) "laptop" = false ∧
    authorized (thread_frame g sample_env 5 [] (raw (OCommand (to_bytes "login/admin/admin123/laptop")))
      (App_State app)).2 "laptop" = true.
Proof.
  assert (match backend_main start_sample net_sample (Ok empty_file) with
          Serving _ _ _ => true | Returned _ => false end = true) as Hrun by (vm_compute; reflexivity).
  destruct (backend_main start_sample net_sample (Ok empty_file)) as [e|app g srv] eqn:E;
    [discriminate Hrun|].
  destruct (backend_serves_configured start_sample net_sample (Ok empty_file) app g srv E)
    as (Hl & Hc & Hf & _ & Hs & db0 & Hdb & Hsub & _).
  exists app, g, srv. split; [reflexivity|]. split; [|split; [apply Hs|]].
  - cbn in Hdb. injection Hdb as <-. cbn in Hsub. eapply lookup_weaken in Hsub; [exact Hsub|].
    vm_compute. reflexivity.
  - rewrite Hf. assert (app = match backend_main start_sample net_sample (Ok empty_file) with
      Serving a _ _ => a | Returned _ => app end) as -> by (by rewrite E).
    vm_compute. reflexivity.
Defined.
